(* ===== verification/_CoqProject ===== *)
-Q . S2P
Prelude.v
Exec.v
Mem.v
Utils.v
Proto.v
CStr.v
RemoteId.v
Plist.v
World.v
Socket.v
Client.v
Remote.v
Teardown.v
Command.v
RemoteProcess.v
Discovery.v
WorldFacts.v
Invariant.v
ClientFacts.v
TeardownFacts.v
RemoteFacts.v
CommandFacts.v
RemoteProcessFacts.v
Daemon.v
DaemonFacts.v
Log.v
Files.v
Startup.v
Ctl.v
DataTheorems.v
Demo.v
Framing.v
ClientTheorems.v
RequestTheorems.v
RemoteTheorems.v
DaemonTheorems.v
DiscoveryTheorems.v
Proxy.v
Handshake.v
Wlp.v
Protocol.v
ProtocolFacts.v
ProtocolTheorems.v
Descriptors.v
Closing.v
Connections.v
Threads.v
Isolation.v
