(* ===== verification/Prelude.v ===== *)
(** * usbfluxd

    usbfluxd takes the place of usbmuxd: programs that talk to iOS devices connect
    to its socket, and it forwards their requests to the local usbmuxd and to those
    of other machines, so that all devices appear as one list. This library models
    the daemon (src/usbfluxd) and its control tool (src/tools/usbfluxctl.c) and
    proves what they do.

    ** The program

    A client connects to the socket and sends messages: a header of 16 bytes and a
    payload, binary or a property list. It lists devices, listens for changes, asks
    for pair records, adds and removes instances, or connects to a port of a device.
    A remote is a connection to a usbmuxd. Each instance has one that listens for
    its devices; every other is linked to the one client whose request it serves.
    Once a connect request is answered the two only copy bytes. The upper byte of a
    device id names the instance, the lower three are the id the instance uses.
    One thread polls all descriptors and calls [client_accept], [client_process] or
    [usbmux_remote_process]; another one reports what mDNS finds.

    ** Files, and what they model

    Groundwork: Prelude.v (integers at their width, tactics), Exec.v (computations
    that end in a value or a fault; [wp], their total correctness; the FOREACH
    loops), Wlp.v ([wlp], their partial correctness), Mem.v (heap blocks, the input and output buffers), Plist.v (what the
    program relies on of libplist, and an implementation of it for the examples).

    - Utils.v: utils.c, collections, poll lists, string_concat, the clock.
    - Files.v: utils.c, whole files and property lists in them.
    - Proto.v: usbmuxd-proto.h. CStr.v: strtol, strtoul and "0x%08x" of the keys.
    - RemoteId.v: usbmux_remote.c, the bit map of identifiers.
    - World.v: the state. Clients and remotes live in two heaps; the lists, the
      device list, the identifiers and the mutexes are the static variables of
      client.c, usbmux_remote.c and socket.c. [Env] is what the system calls give.
    - Socket.v: socket.c, outgoing connections.
    - Client.v and Command.v: client.c, packets and notifications, and commands and
      poll events. Remote.v and RemoteProcess.v: usbmux_remote.c, the same.
      Teardown.v: the functions of both that close and free, which call each other.
    - Discovery.v: usbmux_remote.c, the mDNS callbacks and their thread.
    - Daemon.v: main.c, the main loop, signals, initialisation and shutdown.
    - Startup.v: main.c, options, the renaming of the socket files, daemonize, the
      exit status. Log.v: log.c. Ctl.v: usbfluxctl.c.

    Definitions keep the names of the functions. A handler of the C code is a
    computation over [world]; early returns, error paths and the order of the
    effects are those of the source.

    ** What is proved

    - Invariant.v, [wf]: the lists hold exactly the live objects, clients and
      remotes are linked one to one, buffers are within their blocks, instances have
      identifiers of their own, no mutex is held between handlers. WorldFacts.v,
      ClientFacts.v, TeardownFacts.v, RemoteFacts.v, CommandFacts.v,
      RemoteProcessFacts.v and DaemonFacts.v show for each function that it keeps
      the invariant, commits no fault, and what it does.
    - DaemonTheorems.v: no admissible input of a reachable state leads to a fault;
      consistency of reachable states; whole runs end and leave nothing behind; and
      four inputs outside of that at which the program does go wrong.
    - Proxy.v: a connected pair refines a duplex byte channel, passes on all bytes
      in order, and drains. Handshake.v: how a client comes to be connected, from
      its request to the first forwarded byte. Framing.v: messages are cut out of
      the streams rightly, against a specification on byte lists.
    - Protocol.v: the protocol of the connections as an abstract machine: the phases
      of clients and remotes, how they move between them, when one may be forgotten.
      ProtocolFacts.v: every operation, run from any state at all, makes only steps
      of that machine ([evolves]). ProtocolTheorems.v: so does a whole run, and what
      follows for each connection.
    - Descriptors.v: two live connections never have the same descriptor, if the
      kernel does not give one twice. Closing.v: a connection is forgotten exactly
      when its descriptor is closed. Connections.v puts distinct descriptors, the
      invariant and the channels together: what a connected client can count on in
      every state the daemon reaches.
    - Isolation.v: what one client does leaves all others, and their connections, as
      they are.
    - Threads.v: the main thread and the others. A handler is two steps, the lookup
      of the descriptor and the work on what was found; callbacks of mDNS run
      between them, and the probing thread closes a descriptor.
    - ClientTheorems.v, RequestTheorems.v, RemoteTheorems.v, DiscoveryTheorems.v:
      requests and announcements, who is told what, which instance is asked, how
      instances come, are condemned and vanish.
    - DataTheorems.v and Files.v: identifiers, buffers, records, log lines, socket
      files, the exit status of the command, the control tool.
    Demo.v holds the concrete state at which the theorems are applied.

    An input is admissible ([admissible], DaemonFacts.v) when its events were asked
    for, lookups of host names work, and the message is one the daemon is prepared
    for; the theorems named after errors show what happens without that.

    ** Bounds

    A FOREACH loop runs over the capacity the list has when it starts, as in C.
    [find_id] has 255 values to try. The main loop runs over the list of what
    [ppoll] gives, [receive] of the control tool over the results of [recv], the
    mDNS thread over the callbacks; the theorems hold for lists of any length.
    Parsers have the length of their input as fuel. Lists are taken to have fewer
    than 2^28 slots where the poll list is built from them. [FD_SET] takes
    descriptors below [FD_SETSIZE], and [EnvLaws] says that [socket] gives such.

    ** Not modelled

    - Finer interleavings than those of Threads.v: a callback of the mDNS thread
      runs before, between or after the two steps of a handler, not within one. In
      the program only the mutex of the remote list separates the threads.
    - Text for the reader: log messages and what the tool writes to standard error.
      Resource limits. The replacement of ppoll where it is missing.
    - Property lists are values; memory of libplist that is never freed is not seen.
    - Avahi and CFNetwork, which are not in the repository: which callbacks they make
      is an argument.
    - The macOS application (Objective-C) and the build files. *)

From stdpp Require Export prelude gmap strings list fin_maps.
From coqutil Require Export Byte Word.LittleEndianList.
From Stdlib Require Export ZArith Lia.

#[global] Open Scope Z_scope.

#[global] Arguments Z.shiftr : simpl never.
#[global] Arguments Z.shiftl : simpl never.
#[global] Arguments Z.land : simpl never.
#[global] Arguments Z.lor : simpl never.

(** ** C integers at their width

    A [uintN_t] is a [Z]; every conversion the C code makes to a narrower
    type is written out with one of these. *)
Definition u8 (z : Z) : Z := z `mod` 2 ^ 8.
Definition u16 (z : Z) : Z := z `mod` 2 ^ 16.
Definition u32 (z : Z) : Z := z `mod` 2 ^ 32.
Definition u64 (z : Z) : Z := z `mod` 2 ^ 64.
(** [int]: conversion of a value to a 32 bit two's complement integer. *)
Definition i32 (z : Z) : Z := (z + 2 ^ 31) `mod` 2 ^ 32 - 2 ^ 31.

(** Pointers to heap objects. [NULL] is [None : option ptr]. *)
Abbreviation ptr := positive (only parsing).

(** Length as an integer. *)
Abbreviation zlen l := (Z.of_nat (length l)).

(** Constants of [poll(2)] the program tests and sets. *)
Definition POLLIN : Z := 1.
Definition POLLOUT : Z := 4.
Definition POLLNVAL : Z := 32.

(** [if (a & b)]. *)
Definition has (a b : Z) : bool := negb (Z.land a b =? 0).

(** ** Automation *)

Create HintDb cint.
Create HintDb usbflux.

Ltac case_bool :=
  match goal with
  | |- context [if ?b then _ else _] =>
      match type of b with bool => destruct b eqn:? end
  end.
Ltac zbool :=
  repeat match goal with
  | H : (_ <? _) = true |- _ => apply Z.ltb_lt in H
  | H : (_ <? _) = false |- _ => apply Z.ltb_ge in H
  | H : (_ <=? _) = true |- _ => apply Z.leb_le in H
  | H : (_ <=? _) = false |- _ => apply Z.leb_gt in H
  | H : (_ =? _) = true |- _ => apply Z.eqb_eq in H
  | H : (_ =? _) = false |- _ => apply Z.eqb_neq in H
  | H : (_ || _) = true |- _ => apply orb_true_iff in H
  | H : (_ || _) = false |- _ => apply orb_false_iff in H as [? ?]
  | H : (_ && _) = true |- _ => apply andb_true_iff in H as [? ?]
  | H : negb _ = true |- _ => apply negb_true_iff in H
  | H : negb _ = false |- _ => apply negb_false_iff in H
  end.

(** ** Integer lemmas *)

Lemma u8_small z : 0 <= z < 256 -> u8 z = z.
Proof. intros. apply Z.mod_small. lia. Qed.
Lemma u16_small z : 0 <= z < 65536 -> u16 z = z.
Proof. intros. apply Z.mod_small. lia. Qed.
Lemma u32_small z : 0 <= z < 2 ^ 32 -> u32 z = z.
Proof. intros. by apply Z.mod_small. Qed.
Lemma u8_range z : 0 <= u8 z < 256.
Proof. apply Z.mod_pos_bound. lia. Qed.
Lemma u16_range z : 0 <= u16 z < 65536.
Proof. apply Z.mod_pos_bound. lia. Qed.
Lemma u32_range z : 0 <= u32 z < 2 ^ 32.
Proof. apply Z.mod_pos_bound. lia. Qed.
#[export] Hint Resolve u8_range u16_range u32_range : cint.

(** Rounding up to a multiple of [k]: what the buffer growth code computes. *)
Lemma round_up_bounds a k :
  0 < k -> a < ((a + k) `div` k) * k <= a + k.
Proof.
  intros Hk. pose proof (Z.div_mod (a + k) k). pose proof (Z.mod_pos_bound (a + k) k).
  lia.
Qed.

(** [x & 0xFFFFFF] and [x >> 24] as arithmetic. *)
Lemma land_low24 z : Z.land z 0xFFFFFF = z `mod` 2 ^ 24.
Proof. change 0xFFFFFF with (Z.ones 24). by rewrite Z.land_ones. Qed.
Lemma shiftr_top8 z : Z.shiftr z 24 = z `div` 2 ^ 24.
Proof. by rewrite Z.shiftr_div_pow2. Qed.

(** [a << n | b] with [b] below bit [n] is a sum. *)
Lemma lor_shiftl_add a b n :
  0 <= n -> 0 <= b < 2 ^ n -> Z.lor (Z.shiftl a n) b = a * 2 ^ n + b.
Proof.
  intros Hn Hb. rewrite <- Z.shiftl_mul_pow2 by done.
  rewrite <- Z.add_lor_land.
  enough (Z.land (Z.shiftl a n) b = 0) by lia.
  apply Z.bits_inj'. intros i Hi. rewrite Z.land_spec, Z.bits_0.
  destruct (decide (i < n)).
  - by rewrite Z.shiftl_spec_low.
  - apply andb_false_iff. right. destruct (decide (b = 0)) as [->|].
    { apply Z.bits_0. }
    apply Z.bits_above_log2; [lia|].
    apply Z.lt_le_trans with n; [|lia]. apply Z.log2_lt_pow2; lia.
Qed.

(** A property of the integers below a bound, by evaluation. *)
Lemma check_below (P : Z -> bool) (n k : Z) :
  forallb P (seqZ 0 n) = true -> 0 <= k < n -> P k = true.
Proof.
  rewrite forallb_forall. intros H Hk. apply H, list_elem_of_In, elem_of_seqZ. lia.
Qed.

(** ** Bits of event masks *)

Lemma has_lor_l a b c : has a c = true -> has (Z.lor a b) c = true.
Proof.
  unfold has. rewrite !negb_true_iff, !Z.eqb_neq. intros H Hc. apply H.
  rewrite Z.land_lor_distr_l in Hc. by apply Z.lor_eq_0_iff in Hc as [? _].
Qed.
Lemma has_lor_r a b c : has b c = true -> has (Z.lor a b) c = true.
Proof. rewrite Z.lor_comm. apply has_lor_l. Qed.
Lemma has_clear a b c :
  Z.land c b = 0 -> has (Z.land a (Z.lnot b)) c = has a c.
Proof.
  intros H. unfold has. f_equal. f_equal.
  apply Z.bits_inj'. intros i Hi.
  assert (Z.testbit (Z.land c b) i = false) as Hb by by rewrite H, Z.bits_0.
  rewrite Z.land_spec in Hb.
  rewrite !Z.land_spec, Z.lnot_spec by done.
  destruct (Z.testbit c i), (Z.testbit b i), (Z.testbit a i); simpl in *; congruence.
Qed.
Lemma has_cleared a b : has (Z.land a (Z.lnot b)) b = false.
Proof.
  unfold has. rewrite negb_false_iff, Z.eqb_eq.
  apply Z.bits_inj'. intros i Hi. rewrite !Z.land_spec, Z.lnot_spec, Z.bits_0 by done.
  by destruct (Z.testbit a i), (Z.testbit b i).
Qed.

(** ** Lists *)

Lemma zlen_app {A} (l k : list A) : zlen (l ++ k) = zlen l + zlen k.
Proof. rewrite length_app. lia. Qed.
Lemma zlen_nonneg {A} (l : list A) : 0 <= zlen l.
Proof. lia. Qed.


Lemma list_insert_spec {A} (l : list A) i x :
  (i < length l)%nat -> <[i:=x]> l = take i l ++ x :: drop (S i) l.
Proof. apply insert_take_drop. Qed.

(** [omap id]: the elements held by the non-[NULL] slots of an array. *)
Lemma omap_id_app {A} (l k : list (option A)) : omap id (l ++ k) = omap id l ++ omap id k.
Proof. induction l as [|[] l IH]; csimpl; by rewrite ?IH. Qed.
Lemma omap_id_replicate_None {A} n : omap id (replicate n (None (A:=A))) = [].
Proof. by induction n. Qed.
Lemma elem_of_omap_id {A} (l : list (option A)) x : x ∈ omap id l <-> Some x ∈ l.
Proof.
  rewrite list_elem_of_omap. split.
  - intros (y & ? & Hy). unfold id in Hy. by subst.
  - intros. by exists (Some x).
Qed.

(** Without duplicates, an element sits in one slot only. *)
Lemma NoDup_omap_id_lookup {A} (l : list (option A)) x i k :
  NoDup (omap id l) -> l !! i = Some (Some x) -> l !! k = Some (Some x) -> i = k.
Proof.
  revert i k. induction l as [|[y|] l IH]; intros i k Hnd Hi Hk; csimpl in *; [done| |].
  - apply NoDup_cons in Hnd as [Hy Hnd].
    destruct i as [|i], k as [|k]; simplify_eq/=; [done| | |].
    + destruct Hy. apply elem_of_omap_id. by eapply list_elem_of_lookup_2.
    + destruct Hy. apply elem_of_omap_id. by eapply list_elem_of_lookup_2.
    + f_equal. by eapply IH.
  - destruct i as [|i], k as [|k]; simplify_eq/=. f_equal. by eapply IH.
Qed.
