(* ===== verification/Exec.v ===== *)
(** Execution of C code over an explicit state.

    A computation takes the state and either finishes with a value and a new
    state, or stops at the first operation whose behaviour C leaves undefined
    (or that blocks for ever). [wp] is the corresponding total-correctness
    predicate: a proof of [wp m Q s] shows that [m] run from [s] commits no
    memory fault, does not block, and ends in a state satisfying [Q]. *)

From S2P Require Import Prelude.

(** Why an execution cannot continue. *)
Inductive fault :=
| NullDeref          (* dereference of a NULL pointer *)
| WildPointer        (* dereference of a pointer read from the network *)
| UseAfterFree       (* access to an object that was freed *)
| OutOfBounds        (* access past the end of a heap block *)
| Uninitialised      (* bytes read from a block that were never written *)
| BadFree            (* free of an address malloc did not return *)
| SelfDeadlock       (* pthread_mutex_lock on a mutex already held *)
| Diverges.          (* a loop that makes no progress *)

#[export] Instance fault_eq_dec : EqDecision fault.
Proof. solve_decision. Defined.

Inductive outcome (S A : Type) :=
| Done (a : A) (s : S)
| Crash (f : fault).
Arguments Done {S A}.
Arguments Crash {S A}.

(** How an execution ended, without the state. *)
Definition fault_of {S A} (o : outcome S A) : option fault :=
  match o with Done _ _ => None | Crash f => Some f end.

Definition prog (S A : Type) : Type := S -> outcome S A.

#[export] Instance prog_ret {S} : MRet (prog S) := fun A a s => Done a s.
#[export] Instance prog_bind {S} : MBind (prog S) := fun A B k m s =>
  match m s with
  | Done a s' => k a s'
  | Crash f => Crash f
  end.

Definition get {S} : prog S S := fun s => Done s s.
Definition put {S} (s : S) : prog S unit := fun _ => Done tt s.
Definition modify {S} (f : S -> S) : prog S unit := fun s => Done tt (f s).
Definition gets {S A} (f : S -> A) : prog S A := fun s => Done (f s) s.
Definition crash {S A} (f : fault) : prog S A := fun _ => Crash f.

(** A partial operation whose failure is the fault [f]. *)
Definition demand {S A} (f : fault) (o : option A) : prog S A :=
  match o with Some a => mret a | None => crash f end.

Definition when {S} (b : bool) (m : prog S unit) : prog S unit :=
  if b then m else mret tt.

(** [FOREACH(var, col) ... ENDFOREACH] of utils.h: the index runs from 0 to the
    capacity, empty slots are skipped, and both the capacity and the slot are
    read again at every iteration. [body] returns [Some r] where the C body
    leaves the loop with [break] or [return]. The fuel is the capacity at the
    start: no loop body of the program grows the collection it runs over. *)
Fixpoint foreach_from {S R} (col : S -> list (option ptr))
    (body : ptr -> prog S (option R)) (fuel i : nat) : prog S (option R) :=
  match fuel with
  | O => mret None
  | S fuel' =>
      s ← get;
      match col s !! i with
      | None => mret None
      | Some None => foreach_from col body fuel' (i + 1)
      | Some (Some p) =>
          r ← body p;
          match r with
          | Some v => mret (Some v)
          | None => foreach_from col body fuel' (i + 1)
          end
      end
  end.

Definition foreach_break {S R} (col : S -> list (option ptr))
    (body : ptr -> prog S (option R)) : prog S (option R) :=
  s ← get; foreach_from col body (length (col s)) 0.

(** The same loop without [break], threading a local variable. *)
Fixpoint foreach_acc_from {S A} (col : S -> list (option ptr)) (body : A -> ptr -> prog S A)
    (fuel i : nat) (a : A) : prog S A :=
  match fuel with
  | O => mret a
  | S fuel' =>
      s ← get;
      match col s !! i with
      | None => mret a
      | Some None => foreach_acc_from col body fuel' (i + 1) a
      | Some (Some p) => a' ← body a p; foreach_acc_from col body fuel' (i + 1) a'
      end
  end.

Definition foreach_acc {S A} (col : S -> list (option ptr)) (body : A -> ptr -> prog S A)
    (a : A) : prog S A :=
  s ← get; foreach_acc_from col body (length (col s)) 0 a.

Definition foreach {S} (col : S -> list (option ptr)) (body : ptr -> prog S unit)
    : prog S unit := foreach_acc col (fun _ p => body p) tt.

(** ** Total correctness *)

Definition wp {S A} (m : prog S A) (Q : A -> S -> Prop) (s : S) : Prop :=
  match m s with
  | Done a s' => Q a s'
  | Crash _ => False
  end.

Section wp_rules.
Context {S : Type}.

Lemma wp_ret {A} (a : A) Q (s : S) : Q a s -> wp (mret a) Q s.
Proof. done. Qed.

Lemma wp_bind {A B} (m : prog S A) (k : A -> prog S B) Q s :
  wp m (fun a => wp (k a) Q) s -> wp (m ≫= k) Q s.
Proof. unfold wp, mbind, prog_bind. by destruct (m s). Qed.

Lemma wp_get Q (s : S) : Q s s -> wp get Q s.
Proof. done. Qed.
Lemma wp_gets {A} (f : S -> A) Q (s : S) : Q (f s) s -> wp (gets f) Q s.
Proof. done. Qed.
Lemma wp_modify f Q (s : S) : Q tt (f s) -> wp (modify f) Q s.
Proof. done. Qed.
Lemma wp_demand {A} f (o : option A) a Q (s : S) :
  o = Some a -> Q a s -> wp (demand f o) Q s.
Proof. by intros ->. Qed.
Lemma wp_when (b : bool) m Q (s : S) :
  (b = true -> wp m Q s) -> (b = false -> Q tt s) -> wp (when b m) Q s.
Proof. destruct b; simpl; [auto|]. intros _ H. by apply H. Qed.

Lemma wp_mono {A} (m : prog S A) (P Q : A -> S -> Prop) s :
  wp m P s -> (forall a s', P a s' -> Q a s') -> wp m Q s.
Proof. unfold wp. destruct (m s); auto. Qed.

Lemma wp_run {A} (m : prog S A) Q s :
  wp m Q s <-> exists a s', m s = Done a s' /\ Q a s'.
Proof.
  unfold wp. destruct (m s).
  - split; [eauto|]. intros (? & ? & ? & ?). by simplify_eq.
  - split; [done|]. by intros (? & ? & ? & ?).
Qed.

Lemma wp_run_val {A} (m : prog S A) (Q : A -> S -> Prop) s :
  wp m Q s -> exists a s', m s = Done a s' /\ Q a s'.
Proof. apply wp_run. Qed.
Lemma wp_run_tt (m : prog S unit) (Q : S -> Prop) s :
  wp m (fun _ s' => Q s') s -> exists s', m s = Done tt s' /\ Q s'.
Proof. intros ([] & s' & ? & ?)%wp_run. eauto. Qed.

(** Loop rule: [I i s] before the iteration at index [i]; slots are examined
    in order and the collection keeps its capacity. *)
Lemma wp_foreach_break {R} (col : S -> list (option ptr)) body
    (I : nat -> S -> Prop) (Q : option R -> S -> Prop) n s :
  length (col s) = n -> I 0%nat s ->
  (forall i s', I i s' -> length (col s') = n -> (i < n)%nat ->
     match col s' !! i with
     | Some (Some p) =>
         wp (body p) (fun r s'' => match r with
                                   | Some v => Q (Some v) s''
                                   | None => I (i + 1)%nat s'' /\ length (col s'') = n
                                   end) s'
     | _ => I (i + 1)%nat s'
     end) ->
  (forall s', I n s' -> Q None s') ->
  wp (foreach_break col body) Q s.
Proof.
  intros Hlen HI Hstep Hend. unfold foreach_break. apply wp_bind, wp_get.
  rewrite Hlen.
  assert (forall fuel i s', (i + fuel)%nat = n -> length (col s') = n -> I i s' ->
            wp (foreach_from col body fuel i) Q s') as H; [|by apply H].
  clear s Hlen HI. induction fuel as [|fuel IH]; intros i s Hi Hlen HI.
  { apply wp_ret, Hend. by replace n with i by lia. }
  cbn [foreach_from]. apply wp_bind, wp_get.
  assert (i < n)%nat as Hlt by lia.
  specialize (Hstep i s HI Hlen Hlt).
  destruct (col s !! i) as [[p|]|] eqn:E.
  - apply wp_bind. eapply wp_mono; [exact Hstep|].
    intros [v|] s'; simpl; [by apply wp_ret|].
    intros [HI' Hlen']. apply IH; [lia|done|done].
  - apply IH; [lia|done|done].
  - apply lookup_ge_None in E. lia.
Qed.

Lemma wp_foreach_acc {A} (col : S -> list (option ptr)) body
    (I : nat -> A -> S -> Prop) (Q : A -> S -> Prop) n a s :
  length (col s) = n -> I 0%nat a s ->
  (forall i a s', I i a s' -> length (col s') = n -> (i < n)%nat ->
     match col s' !! i with
     | Some (Some p) =>
         wp (body a p) (fun a' s'' => I (i + 1)%nat a' s'' /\ length (col s'') = n) s'
     | _ => I (i + 1)%nat a s'
     end) ->
  (forall a s', I n a s' -> Q a s') ->
  wp (foreach_acc col body a) Q s.
Proof.
  intros Hlen HI Hstep Hend. unfold foreach_acc. apply wp_bind, wp_get.
  rewrite Hlen.
  assert (forall fuel i a s', (i + fuel)%nat = n -> length (col s') = n -> I i a s' ->
            wp (foreach_acc_from col body fuel i a) Q s') as H; [|by apply H].
  clear a s Hlen HI. induction fuel as [|fuel IH]; intros i a s Hi Hlen HI.
  { apply wp_ret, Hend. by replace n with i by lia. }
  cbn [foreach_acc_from]. apply wp_bind, wp_get.
  assert (i < n)%nat as Hlt by lia.
  specialize (Hstep i a s HI Hlen Hlt).
  destruct (col s !! i) as [[p|]|] eqn:E.
  - apply wp_bind. eapply wp_mono; [exact Hstep|].
    intros a' s' [HI' Hlen']. apply IH; [lia|done|done].
  - apply IH; [lia|done|done].
  - apply lookup_ge_None in E. lia.
Qed.

Lemma wp_foreach (col : S -> list (option ptr)) body (I : nat -> S -> Prop) Q n s :
  length (col s) = n -> I 0%nat s ->
  (forall i s', I i s' -> length (col s') = n -> (i < n)%nat ->
     match col s' !! i with
     | Some (Some p) =>
         wp (body p) (fun _ s'' => I (i + 1)%nat s'' /\ length (col s'') = n) s'
     | _ => I (i + 1)%nat s'
     end) ->
  (forall s', I n s' -> Q tt s') ->
  wp (foreach col body) Q s.
Proof.
  intros Hlen HI Hstep Hend.
  apply (wp_foreach_acc _ _ (fun i _ => I i) _ n); [done|done| |].
  - intros i [] s' ???. by apply Hstep.
  - intros [] s'. apply Hend.
Qed.

(** Loops whose body leaves the collection alone: every pointer in it is
    visited under the invariant. *)
Lemma wp_foreach_acc_stable {A} (col : S -> list (option ptr)) body
    (I : A -> S -> Prop) (Q : A -> S -> Prop) l a s :
  col s = l -> I a s ->
  (forall a s' p, I a s' -> col s' = l -> Some p ∈ l ->
     wp (body a p) (fun a' s'' => I a' s'' /\ col s'' = l) s') ->
  (forall a s', I a s' -> col s' = l -> Q a s') ->
  wp (foreach_acc col body a) Q s.
Proof.
  intros Hl HI Hstep Hend.
  apply (wp_foreach_acc _ _ (fun _ a s => I a s /\ col s = l) _ (length l)).
  - by rewrite Hl.
  - done.
  - intros i a' s' [HI' Hl'] _ Hi. rewrite Hl'.
    destruct (l !! i) as [[p|]|] eqn:E; [|done..].
    eapply wp_mono; [apply Hstep; [done|done|by eapply list_elem_of_lookup_2]|].
    intros a'' s'' [? Hl'']. by rewrite Hl''.
  - intros a' s' [??]. by apply Hend.
Qed.

Lemma wp_foreach_break_stable {R} (col : S -> list (option ptr)) body
    (I : S -> Prop) (Q : option R -> S -> Prop) l s :
  col s = l -> I s ->
  (forall s' p, I s' -> col s' = l -> Some p ∈ l ->
     wp (body p) (fun r s'' => match r with
                               | Some v => Q (Some v) s''
                               | None => I s'' /\ col s'' = l
                               end) s') ->
  (forall s', I s' -> col s' = l -> Q None s') ->
  wp (foreach_break col body) Q s.
Proof.
  intros Hl HI Hstep Hend.
  apply (wp_foreach_break _ _ (fun _ s => I s /\ col s = l) _ (length l)).
  - by rewrite Hl.
  - done.
  - intros i s' [HI' Hl'] _ Hi. rewrite Hl'.
    destruct (l !! i) as [[p|]|] eqn:E; [|done..].
    eapply wp_mono; [apply Hstep; [done|done|by eapply list_elem_of_lookup_2]|].
    intros [v|] s''; [done|]. intros [? Hl'']. by rewrite Hl''.
  - intros s' [??]. by apply Hend.
Qed.
End wp_rules.

(** Composition proofs read [m ≫= k] from left to right. *)
Ltac wp_step :=
  match goal with
  | |- wp (_ ≫= _) _ _ => apply wp_bind
  | |- wp (mret _) _ _ => apply wp_ret
  | |- wp get _ _ => apply wp_get
  | |- wp (gets _) _ _ => apply wp_gets
  | |- wp (modify _) _ _ => apply wp_modify
  | |- wp (demand _ (Some _)) _ _ => eapply wp_demand; [reflexivity|]
  | H : ?o = Some _ |- wp (demand _ ?o) _ _ => eapply wp_demand; [exact H|]
  end; cbv beta.
Ltac wp_steps := repeat wp_step.

(** Use a specification of the first computation, established by [t]. *)
Tactic Notation "wp_use" tactic3(t) := eapply wp_mono; [t|cbv beta].
