(* ===== verification/Mem.v ===== *)
(** Heap blocks and the growable input/output buffers of clients and remotes.

    [block] is one [malloc]ed object: its allocated size and the bytes written
    to it so far. [iobuf] is the triple [x_buf], [x_size], [x_capacity] that
    [struct mux_client] and [struct remote_mux] both keep for each direction.
    Operations that would leave the block are [inr OutOfBounds], accesses
    through a NULL buffer [inr NullDeref], reads of bytes never written
    [inr Uninitialised]; the theorems show when none of these happens. *)

From S2P Require Import Prelude Exec.

(** ** Blocks *)

Record block := Block { bytes : list byte; alloc : Z }.

Definition malloc (n : Z) : block := Block [] n.

(** [realloc]: the contents up to the smaller of both sizes are kept. *)
Definition realloc (b : option block) (n : Z) : block :=
  match b with
  | None => malloc n
  | Some b => Block (take (Z.to_nat n) (bytes b)) n
  end.

(** [memcpy(b + off, src, |src|)]. A gap between what was written before and
    [off] holds indeterminate bytes, written as zeros here; no write of the
    program leaves one. *)
Definition block_write (off : Z) (src : list byte) (b : block) : block + fault :=
  if (off <? 0) || (alloc b <? off + zlen src) then inr OutOfBounds
  else
    let o := Z.to_nat off in
    inl (Block (take o (bytes b) ++ replicate (o - length (bytes b)) Byte.x00
                ++ src ++ drop (o + length src) (bytes b)) (alloc b)).

(** Reading [n] bytes from [b + off]. *)
Definition block_read (off n : Z) (b : block) : list byte + fault :=
  if (off <? 0) || (n <? 0) || (alloc b <? off + n) then inr OutOfBounds
  else if zlen (bytes b) <? off + n then inr Uninitialised
  else inl (take (Z.to_nat n) (drop (Z.to_nat off) (bytes b))).

(** ** Growable buffers *)

Record iobuf := IOBuf { buf : option block; size : Z; capacity : Z }.

Definition set_size (n : Z) (b : iobuf) : iobuf := IOBuf (buf b) n (capacity b).

Definition iobuf_new (n : Z) : iobuf := IOBuf (Some (malloc n)) 0 n.

(** [free(x_buf); x_buf = NULL;] leaves the two size fields as they are. *)
Definition iobuf_drop (b : iobuf) : iobuf := IOBuf None (size b) (capacity b).

Definition iobuf_write (off : Z) (src : list byte) (b : iobuf) : iobuf + fault :=
  match buf b with
  | None => if bool_decide (src = []) then inl b else inr NullDeref
  | Some blk =>
      match block_write off src blk with
      | inl blk' => inl (IOBuf (Some blk') (size b) (capacity b))
      | inr f => inr f
      end
  end.

Definition iobuf_read (off n : Z) (b : iobuf) : list byte + fault :=
  match buf b with
  | None => inr NullDeref
  | Some blk => block_read off n blk
  end.

(** "the output buffer _should_ be large enough, but just in case": the growth
    step that [send_pkt_raw], [send_pkt] and [remote_send_pkt] share. The
    arithmetic is that of [uint32_t]. [None] is a failed [realloc]. *)
Definition iobuf_reserve (realloc_ok : Z -> bool) (length : Z) (b : iobuf) : option iobuf :=
  let available := u32 (capacity b - size b) in
  if available <? length then
    let new_size := u32 (u32 (capacity b + length + 4096) `div` 4096 * 4096) in
    if realloc_ok new_size
    then Some (IOBuf (Some (realloc (buf b) new_size)) (size b) new_size)
    else None
  else Some b.

(** What is left after [res] bytes were sent: the size is reset, or the rest
    moves to the front of the block ([memmove(buf, buf + res, size - res)]). *)
Definition iobuf_consume (res : Z) (b : iobuf) : iobuf + fault :=
  if u32 res =? size b then inl (set_size 0 b)
  else
    let n := u32 (size b - res) in
    match iobuf_read res n b with
    | inl rest => iobuf_write 0 rest (set_size n b)
    | inr f => inr f
    end.

(** ** Invariant and contents *)

(** The bytes the buffer holds for its reader. *)
Definition data (b : iobuf) : list byte :=
  match buf b with
  | Some blk => take (Z.to_nat (size b)) (bytes blk)
  | None => []
  end.

(** No buffer reaches 2 GiB: [realloc] is assumed to fail from there on, which
    keeps the 32 bit size computations of the program from wrapping. *)
Definition BUF_MAX : Z := 2 ^ 31.

(** A buffer that has a block: the recorded size is covered by bytes that were
    written, and the recorded capacity by the allocation. *)
Record buf_ok (b : iobuf) : Prop := {
  ok_block : exists blk, buf b = Some blk
               /\ size b <= zlen (bytes blk) <= alloc blk /\ capacity b <= alloc blk;
  ok_size : 0 <= size b <= capacity b;
  ok_cap : capacity b < BUF_MAX }.

Lemma buf_ok_new n : 0 <= n < BUF_MAX -> buf_ok (iobuf_new n).
Proof. intros. split; simpl; [|lia|lia]. exists (malloc n). simpl. split; [done|lia]. Qed.

Lemma buf_ok_reset b : buf_ok b -> buf_ok (set_size 0 b).
Proof.
  intros [(blk & Hb & ? & ?) ? ?]. split; simpl; [|lia|done].
  exists blk. repeat split; [done|lia..].
Qed.

Lemma data_length b : buf_ok b -> zlen (data b) = size b.
Proof.
  intros [(blk & Hb & ? & ?) ? ?]. unfold data. rewrite Hb, length_take. lia.
Qed.

Lemma data_reset b : data (set_size 0 b) = [].
Proof. unfold data. simpl. by destruct (buf b). Qed.

Lemma block_write_ok off src b :
  0 <= off <= zlen (bytes b) -> off + zlen src <= alloc b ->
  exists b', block_write off src b = inl b' /\ alloc b' = alloc b /\
    bytes b' = take (Z.to_nat off) (bytes b) ++ src
               ++ drop (Z.to_nat off + length src) (bytes b).
Proof.
  intros Ho Hfit. unfold block_write.
  rewrite (proj2 (Z.ltb_ge _ _)), (proj2 (Z.ltb_ge _ _)) by lia. simpl.
  eexists. split; [done|]. split; [done|]. simpl.
  by replace (Z.to_nat off - length (bytes b))%nat with 0%nat by lia.
Qed.

(** A write at the end of the data, then the size advanced over it. *)
Lemma iobuf_append_ok b src :
  buf_ok b -> size b + zlen src <= capacity b ->
  exists b', iobuf_write (size b) src b = inl b' /\
    size b' = size b /\ capacity b' = capacity b /\
    buf_ok (set_size (size b + zlen src) b') /\
    data (set_size (size b + zlen src) b') = data b ++ src.
Proof.
  intros [(blk & Hb & ? & ?) ? ?] Hfit. unfold iobuf_write. rewrite Hb.
  destruct (block_write_ok (size b) src blk) as (blk' & -> & Ha & Hbytes); [lia..|].
  eexists. split; [done|]. split; [done|]. split; [done|]. simpl.
  assert (length (take (Z.to_nat (size b)) (bytes blk)) = Z.to_nat (size b)) as Hl.
  { rewrite length_take. lia. }
  split.
  - split; simpl; [|lia|done]. exists blk'. split; [done|].
    rewrite Ha, Hbytes, !length_app, length_drop, Hl. lia.
  - unfold data. simpl. rewrite Hb, Hbytes.
    replace (Z.to_nat (size b + zlen src))
      with (length (take (Z.to_nat (size b)) (bytes blk)) + length src)%nat by lia.
    rewrite take_app_add. f_equal. by rewrite take_app_length.
Qed.

(** The growth step makes room for [len] more bytes and changes no data; it
    fails only when [realloc] does. *)
Lemma iobuf_reserve_ok ok b len :
  buf_ok b -> 0 <= len < 2 ^ 30 + 2 ^ 20 -> (forall n, ok n = true -> n < BUF_MAX) ->
  match iobuf_reserve ok len b with
  | Some b' => buf_ok b' /\ size b' = size b /\ data b' = data b /\
               size b + len <= capacity b' /\
               capacity b <= capacity b' <= capacity b + len + 4096
  | None => exists n, ok n = false /\ n <= capacity b + len + 4096
  end.
Proof.
  intros [(blk & Hb & ? & ?) ? Hcap] Hlen Hok. unfold iobuf_reserve.
  unfold BUF_MAX in *.
  rewrite (u32_small (capacity b - size b)) by lia.
  destruct (Z.ltb_spec (capacity b - size b) len).
  2: { repeat split; try lia; [by exists blk|done]. }
  pose proof (round_up_bounds (capacity b + len) 4096 ltac:(lia)) as Hr.
  rewrite (u32_small (capacity b + len + 4096)) by lia.
  set (n := (capacity b + len + 4096) `div` 4096 * 4096) in *.
  rewrite (u32_small n) by lia.
  destruct (ok n) eqn:En; [|exists n; by split; [|lia]].
  specialize (Hok n En). rewrite Hb. simpl.
  set (blk' := Block _ _).
  assert (Z.to_nat (size b) <= length (take (Z.to_nat n) (bytes blk)))%nat as Hl.
  { rewrite length_take. lia. }
  split; [|split; [done|]; split; [|lia]].
  - split; simpl; [|lia|done]. exists blk'. split; [done|]. simpl.
    rewrite length_take. rewrite length_take in Hl. lia.
  - unfold data. simpl. rewrite Hb. rewrite take_take. f_equal. lia.
Qed.

(** Consuming a prefix of what is buffered leaves exactly the rest. *)
Lemma iobuf_consume_ok b res :
  buf_ok b -> 0 <= res <= size b ->
  exists b', iobuf_consume res b = inl b' /\ buf_ok b' /\
    capacity b' = capacity b /\ size b' = size b - res /\
    data b' = drop (Z.to_nat res) (data b).
Proof.
  intros Hok Hres. pose proof (data_length b Hok) as Hdl.
  destruct Hok as [(blk & Hb & ? & ?) ? Hcap]. pose proof Hcap as Hcap'.
  unfold BUF_MAX in Hcap'. unfold iobuf_consume.
  rewrite (u32_small res) by lia.
  destruct (Z.eqb_spec res (size b)) as [->|Hne].
  { exists (set_size 0 b). split; [done|].
    split; [by apply buf_ok_reset; split; [exists blk| |]|].
    split; [done|]. split; [simpl; lia|].
    rewrite data_reset, drop_ge by lia. done. }
  rewrite (u32_small (size b - res)) by lia.
  unfold iobuf_read, block_read. rewrite Hb.
  rewrite !(proj2 (Z.ltb_ge _ _)) by lia. simpl.
  unfold iobuf_write. simpl. rewrite Hb.
  set (rest := take _ _).
  assert (zlen rest = size b - res) as Hrest.
  { unfold rest. rewrite length_take, length_drop. lia. }
  destruct (block_write_ok 0 rest blk) as (blk' & -> & Ha & Hbytes); [lia..|].
  simpl in Hbytes.
  eexists. split; [done|]. split; [|split; [done|split; [done|]]].
  - split; simpl; [|lia|done]. exists blk'. split; [done|].
    rewrite Ha, Hbytes, length_app, length_drop. lia.
  - unfold data. simpl. rewrite Hb, Hbytes.
    replace (Z.to_nat (size b - res)) with (length rest) by lia.
    rewrite take_app_length. unfold rest.
    rewrite take_drop_commute. f_equal. f_equal. lia.
Qed.

Lemma iobuf_write_set_size off src b n :
  iobuf_write off src (set_size n b) =
  match iobuf_write off src b with inl b' => inl (set_size n b') | inr f => inr f end.
Proof.
  unfold iobuf_write. simpl. destruct (buf b) as [blk|].
  - by destruct (block_write off src blk).
  - by case_bool_decide.
Qed.

Lemma set_size_twice n m b : set_size n (set_size m b) = set_size n b.
Proof. done. Qed.
Lemma set_size_same b : set_size (size b) b = b.
Proof. by destruct b. Qed.

(** A header and then a payload (skipped when empty) behind the buffered data. *)
Lemma iobuf_packet_ok b hdr payload :
  buf_ok b -> size b + zlen hdr + zlen payload <= capacity b ->
  exists b1 b2, iobuf_write (size b) hdr b = inl b1 /\ size b1 = size b /\
    (if zlen payload =? 0 then inl b1 else iobuf_write (size b1 + zlen hdr) payload b1) = inl b2 /\
    size b2 = size b /\ capacity b2 = capacity b /\
    buf_ok (set_size (size b + zlen hdr + zlen payload) b2) /\
    data (set_size (size b + zlen hdr + zlen payload) b2) = data b ++ hdr ++ payload.
Proof.
  intros Hok Hfit.
  destruct (iobuf_append_ok b hdr Hok) as (b1 & -> & Hs1 & Hc1 & Hok1 & Hd1); [lia|].
  exists b1. destruct (Z.eqb_spec (zlen payload) 0) as [H0|H0].
  - exists b1. assert (payload = []) as -> by (by apply nil_length_inv; lia).
    split_and!; try done.
    + by rewrite Z.add_0_r.
    + by rewrite Z.add_0_r, Hd1, app_nil_r.
  - destruct (iobuf_append_ok _ payload Hok1) as (b2 & Hw & Hs2 & Hc2 & Hok2 & Hd2);
      [simpl; lia|].
    cbn [size set_size] in *. rewrite iobuf_write_set_size in Hw.
    rewrite Hs1. destruct (iobuf_write _ payload b1) as [b2'|] eqn:E; [|done].
    simplify_eq. exists b2'. rewrite set_size_twice in Hok2, Hd2. split_and!; try done.
    + clear -E Hs1. unfold iobuf_write in E. repeat case_match; simplify_eq; done.
    + simpl in Hc2. congruence.
    + by rewrite Hd2, Hd1, app_assoc.
Qed.
