(* ===== verification/Utils.v ===== *)
(** usbfluxd/utils.c: pointer collections, the poll descriptor list, string
    concatenation and the millisecond clock. *)

From S2P Require Import Prelude Exec Mem.

Module Collection.

(** [struct collection]: an array of [capacity] pointers, NULL where free. *)
Record collection := MkCollection { col_list : list (option ptr); col_capacity : Z }.

Definition CAPACITY_STEP : Z := 8.

Definition collection_init : collection :=
  MkCollection (replicate (Z.to_nat CAPACITY_STEP) None) CAPACITY_STEP.

Definition collection_free (col : collection) : collection := MkCollection [] 0.

(** The slots a loop [for (i = 0; i < col->capacity; i++)] visits. *)
Definition slots (col : collection) : list (option ptr) :=
  take (Z.to_nat (col_capacity col)) (col_list col).

(** Index of the first slot equal to [v], the search both loops perform. *)
Fixpoint find_slot (v : option ptr) (l : list (option ptr)) : option nat :=
  match l with
  | [] => None
  | x :: l' => if decide (x = v) then Some 0%nat else S <$> find_slot v l'
  end.

Definition collection_add (col : collection) (element : ptr) : collection :=
  match find_slot None (slots col) with
  | Some i => MkCollection (<[i := Some element]> (col_list col)) (col_capacity col)
  | None =>
      let cap := Z.to_nat (col_capacity col) in
      let grown := take cap (col_list col) ++ replicate (Z.to_nat CAPACITY_STEP) None in
      MkCollection (<[cap := Some element]> grown) (col_capacity col + CAPACITY_STEP)
  end.

(** An element that is not present is only reported. *)
Definition collection_remove (col : collection) (element : ptr) : collection :=
  match find_slot (Some element) (slots col) with
  | Some i => MkCollection (<[i := None]> (col_list col)) (col_capacity col)
  | None => col
  end.

Fixpoint count_used (l : list (option ptr)) (cnt : Z) : Z :=
  match l with
  | [] => cnt
  | None :: l' => count_used l' cnt
  | Some _ :: l' => count_used l' (cnt + 1)
  end.
Definition collection_count (col : collection) : Z := count_used (slots col) 0.

(** [dest] gets a fresh block with the same contents. *)
Definition collection_copy (src : collection) : collection :=
  MkCollection (slots src) (col_capacity src).

(** *** Specification: a collection is a bag of pointers *)

Definition elems (col : collection) : list ptr := omap id (slots col).

Record col_ok (col : collection) : Prop := {
  ok_length : zlen (col_list col) = col_capacity col;
  ok_step : (CAPACITY_STEP | col_capacity col) }.

Lemma slots_ok col : col_ok col -> slots col = col_list col.
Proof. intros [H _]. unfold slots. rewrite take_ge; [done|lia]. Qed.

Lemma find_slot_Some v l i :
  find_slot v l = Some i ->
  l !! i = Some v /\ forall j, (j < i)%nat -> l !! j <> Some v.
Proof.
  revert i. induction l as [|x l IH]; intros i H; simpl in H; [done|].
  case_decide as Hx.
  - simplify_eq. split; [done|lia].
  - apply fmap_Some in H as (k & Hk & ->). destruct (IH _ Hk) as [? Hlt].
    split; [done|]. intros [|j] Hj; simpl; [congruence|]. apply Hlt. lia.
Qed.

Lemma find_slot_None v l : find_slot v l = None <-> v ∉ l.
Proof.
  induction l as [|x l IH]; simpl.
  { split; [intros _; apply not_elem_of_nil|done]. }
  rewrite not_elem_of_cons. case_decide as Hx.
  - subst. split; [done|]. by intros [? _].
  - rewrite fmap_None, IH. split; [by split|by intros [_ ?]].
Qed.

Lemma omap_insert_None l i (x : ptr) :
  l !! i = Some None -> omap id (<[i := Some x]> l) ≡ₚ x :: omap id l.
Proof.
  intros H. pose proof (lookup_lt_Some _ _ _ H).
  rewrite <- (take_drop_middle l i None H) at 2.
  rewrite list_insert_spec, !omap_id_app by done. csimpl.
  by rewrite Permutation_middle.
Qed.

Lemma omap_insert_Some l i (x : ptr) :
  l !! i = Some (Some x) -> x :: omap id (<[i := None]> l) ≡ₚ omap id l.
Proof.
  intros H. pose proof (lookup_lt_Some _ _ _ H).
  rewrite <- (take_drop_middle l i (Some x) H) at 2.
  rewrite list_insert_spec, !omap_id_app by done. csimpl.
  by rewrite Permutation_middle.
Qed.

Lemma full_length (l : list (option ptr)) : None ∉ l -> length (omap id l) = length l.
Proof.
  induction l as [|[x|] l IH]; intros H; csimpl; [done| |set_solver].
  rewrite IH; set_solver.
Qed.

Lemma col_ok_init : col_ok collection_init.
Proof. split; [done|]. by exists 1. Qed.

(** A freed collection is empty, and can be added to again. *)
Lemma col_ok_free col : col_ok (collection_free col) /\ elems (collection_free col) = [].
Proof. split; [split; [done|]; by exists 0|done]. Qed.

Lemma elems_init : elems collection_init = [].
Proof. done. Qed.

Lemma add_ok col p : col_ok col -> col_ok (collection_add col p).
Proof.
  intros Hok. pose proof Hok as [Hl Hs]. unfold collection_add.
  destruct (find_slot None (slots col)); split; simpl; try done.
  - by rewrite length_insert.
  - rewrite length_insert, length_app, length_take. simpl.
    unfold CAPACITY_STEP. lia.
  - apply Z.divide_add_r; [done|apply Z.divide_refl].
Qed.

Lemma remove_ok col p : col_ok col -> col_ok (collection_remove col p).
Proof.
  intros [Hl Hs]. unfold collection_remove.
  destruct (find_slot _ _); split; simpl; try done. by rewrite length_insert.
Qed.

Lemma elems_add col p : col_ok col -> elems (collection_add col p) ≡ₚ p :: elems col.
Proof.
  intros Hok. pose proof (add_ok _ p Hok) as Hok'. unfold elems.
  rewrite (slots_ok _ Hok'). rewrite (slots_ok _ Hok). unfold collection_add.
  rewrite (slots_ok _ Hok). destruct (find_slot None (col_list col)) as [i|] eqn:E; simpl.
  - apply find_slot_Some in E as [E _]. by apply omap_insert_None.
  - destruct Hok as [Hl _]. rewrite take_ge by lia.
    rewrite insert_app_r_alt by lia.
    replace (Z.to_nat (col_capacity col) - length (col_list col))%nat with 0%nat by lia.
    rewrite omap_id_app. simpl. by rewrite Permutation_app_comm.
Qed.

Lemma elems_remove col p :
  col_ok col -> p ∈ elems col -> p :: elems (collection_remove col p) ≡ₚ elems col.
Proof.
  intros Hok Hin. pose proof (remove_ok _ p Hok) as Hok'. unfold elems in *.
  rewrite (slots_ok _ Hok'), (slots_ok _ Hok) in *. unfold collection_remove.
  rewrite (slots_ok _ Hok). destruct (find_slot _ (col_list col)) as [i|] eqn:E; simpl.
  - apply find_slot_Some in E as [E _]. by apply omap_insert_Some.
  - apply find_slot_None in E. by apply elem_of_omap_id in Hin.
Qed.

Lemma remove_absent col p : p ∉ elems col -> collection_remove col p = col.
Proof.
  intros Hin. unfold collection_remove.
  rewrite (proj2 (find_slot_None _ _)); [done|]. by rewrite <- elem_of_omap_id.
Qed.

Lemma count_used_spec l n : count_used l n = n + zlen (omap id l).
Proof.
  revert n. induction l as [|[x|] l IH]; intros n; csimpl; [lia| |]; rewrite IH; lia.
Qed.

Lemma count_spec col : collection_count col = zlen (elems col).
Proof. unfold collection_count. by rewrite count_used_spec. Qed.

(** Slots are stable: adding moves nothing, removing empties one slot only.
    Loops over the collection rely on it. *)
Lemma slots_add_stable col p i q :
  col_ok col -> slots col !! i = Some (Some q) ->
  slots (collection_add col p) !! i = Some (Some q).
Proof.
  intros Hok Hi. rewrite (slots_ok _ (add_ok _ p Hok)).
  rewrite (slots_ok _ Hok) in Hi. unfold collection_add.
  rewrite (slots_ok _ Hok). destruct (find_slot None (col_list col)) as [k|] eqn:E; simpl.
  - apply find_slot_Some in E as [E _]. rewrite list_lookup_insert_ne; [done|]. congruence.
  - destruct Hok as [Hl _]. apply lookup_lt_Some in Hi as Hlt.
    rewrite list_lookup_insert_ne by lia. rewrite lookup_app_l; rewrite take_ge; [done|lia..].
Qed.

Lemma length_slots_remove col p :
  length (slots (collection_remove col p)) = length (slots col).
Proof.
  unfold collection_remove. destruct (find_slot _ _); [|done].
  unfold slots. simpl. by rewrite !length_take, length_insert.
Qed.

Lemma slots_remove_lookup col p i :
  NoDup (elems col) -> (i < length (slots col))%nat ->
  slots (collection_remove col p) !! i =
    if decide (slots col !! i = Some (Some p)) then Some None else slots col !! i.
Proof.
  intros Hnd Hi. unfold collection_remove.
  destruct (find_slot (Some p) (slots col)) as [k|] eqn:E.
  - apply find_slot_Some in E as [E _]. unfold slots at 1. simpl.
    pose proof (lookup_lt_Some _ _ _ E) as Hk.
    assert (take (Z.to_nat (col_capacity col)) (<[k := None]> (col_list col))
            = <[k := None]> (slots col)) as ->.
    { unfold slots in *. rewrite length_take in Hk.

      apply list_eq. intros j. destruct (decide (j = k)) as [->|].
      - rewrite lookup_take_lt by lia.
        rewrite !list_lookup_insert_eq; [done|rewrite length_take; lia|lia].
      - rewrite list_lookup_insert_ne by done.
        destruct (decide (j < Z.to_nat (col_capacity col))%nat).
        + rewrite !lookup_take_lt by lia. by rewrite list_lookup_insert_ne.
        + rewrite !lookup_take_ge by lia. done. }
    destruct (decide (i = k)) as [->|].
    + rewrite list_lookup_insert_eq by done. by rewrite decide_True.
    + rewrite list_lookup_insert_ne by done. case_decide as Hp; [|done].
      exfalso. by eapply n, NoDup_omap_id_lookup.
  - rewrite decide_False; [done|]. intros Hp.
    apply find_slot_None in E. apply E. by eapply list_elem_of_lookup_2.
Qed.

End Collection.

Module Fdlist.

Inductive fdowner := FD_LISTEN | FD_CLIENT | FD_USB | FD_USBMUX | FD_REMOTE.

#[export] Instance fdowner_eq_dec : EqDecision fdowner.
Proof. solve_decision. Defined.

(** [struct pollfd]. *)
Record pollfd := MkPollfd { pfd : Z; pevents : Z; revents : Z }.

(** The two arrays are blocks of [capacity] cells; a cell never written is
    [None]. *)
Record fdlist := MkFdlist {
  count : Z;
  fl_capacity : Z;
  owners : list (option fdowner);
  fds : list (option pollfd) }.

Definition fdlist_create : fdlist :=
  MkFdlist 0 4 (replicate 4 None) (replicate 4 None).

Definition grow_cells {A} (l : list (option A)) (n : Z) : list (option A) :=
  take (Z.to_nat n) l ++ replicate (Z.to_nat n - length l) None.

(** [None] is a write outside one of the arrays. *)
Definition fdlist_add (l : fdlist) (owner : fdowner) (fd events : Z) : option fdlist :=
  let l :=
    if count l =? fl_capacity l then
      let cap := i32 (fl_capacity l * 2) in
      MkFdlist (count l) cap (grow_cells (owners l) cap) (grow_cells (fds l) cap)
    else l in
  let i := Z.to_nat (count l) in
  if (zlen (owners l) <=? count l) || (zlen (fds l) <=? count l) then None
  else Some (MkFdlist (count l + 1) (fl_capacity l)
              (<[i := Some owner]> (owners l))
              (<[i := Some (MkPollfd fd events 0)]> (fds l))).

Definition fdlist_free (l : fdlist) : fdlist := MkFdlist 0 0 [] [].

Definition fdlist_reset (l : fdlist) : fdlist :=
  MkFdlist 0 (fl_capacity l) (owners l) (fds l).

(** *** Specification: a list of (owner, descriptor) pairs *)

Definition contents (l : fdlist) : list (option fdowner * option pollfd) :=
  let n := Z.to_nat (count l) in zip (take n (owners l)) (take n (fds l)).

Record fdlist_ok (l : fdlist) : Prop := {
  fok_owners : zlen (owners l) = fl_capacity l;
  fok_fds : zlen (fds l) = fl_capacity l;
  fok_count : 0 <= count l <= fl_capacity l;
  fok_cap : 0 < fl_capacity l }.

Lemma fdlist_create_ok : fdlist_ok fdlist_create /\ contents fdlist_create = [].
Proof. done. Qed.

Lemma fdlist_reset_ok l : fdlist_ok l -> fdlist_ok (fdlist_reset l).
Proof. intros []. split; simpl; [done|done|lia|lia]. Qed.

Lemma grow_cells_length {A} (l : list (option A)) n :
  zlen l <= n -> zlen (grow_cells l n) = n.
Proof.
  intros. unfold grow_cells. rewrite length_app, length_take, length_replicate. lia.
Qed.
Lemma grow_cells_take {A} (l : list (option A)) n k :
  zlen l <= n -> (k <= length l)%nat -> take k (grow_cells l n) = take k l.
Proof.
  intros. unfold grow_cells. rewrite take_app_le by (rewrite length_take; lia).
  rewrite take_take. f_equal. lia.
Qed.

Lemma take_insert_last {A} (l : list A) n x :
  (n < length l)%nat -> take (S n) (<[n := x]> l) = take n l ++ [x].
Proof.
  intros. rewrite list_insert_spec by done.
  replace (S n) with (length (take n l) + 1)%nat by (rewrite length_take; lia).
  by rewrite take_app_add.
Qed.

Lemma fdlist_add_ok l o fd ev :
  fdlist_ok l -> fl_capacity l < 2 ^ 30 ->
  exists l', fdlist_add l o fd ev = Some l' /\ fdlist_ok l' /\ count l' = count l + 1 /\
    contents l' = contents l ++ [(Some o, Some (MkPollfd fd ev 0))].
Proof.
  intros [Ho Hf Hc Hcap] Hb.
  set (g := if count l =? fl_capacity l then
      MkFdlist (count l) (i32 (fl_capacity l * 2))
        (grow_cells (owners l) (i32 (fl_capacity l * 2)))
        (grow_cells (fds l) (i32 (fl_capacity l * 2))) else l).
  assert (fdlist_ok g /\ count g = count l /\ count g < fl_capacity g /\
          contents g = contents l) as ([Ho' Hf' Hc' Hcap'] & Hcg & Hlt & Hcont).
  { unfold g. destruct (Z.eqb_spec (count l) (fl_capacity l)).
    - assert (i32 (fl_capacity l * 2) = fl_capacity l * 2) as ->.
      { unfold i32. rewrite Z.mod_small; lia. }
      split; [split; simpl; rewrite ?grow_cells_length; lia|].
      split; [done|]. split; [simpl; lia|]. unfold contents; simpl.
      by rewrite !grow_cells_take by lia.
    - split; [done|]. split; [done|]. split; [lia|done]. }
  unfold fdlist_add. fold g. cbv zeta.
  rewrite !(proj2 (Z.leb_gt _ _)) by lia. simpl.
  eexists. split; [done|]. split; [split; simpl; rewrite ?length_insert; lia|].
  split; [simpl; lia|]. rewrite <- Hcont. unfold contents. simpl.
  replace (Z.to_nat (count g + 1)) with (S (Z.to_nat (count g))) by lia.
  rewrite !take_insert_last by lia.
  rewrite zip_with_app; [done|]. rewrite !length_take. lia.
Qed.

End Fdlist.

Module Strings.

(** A C string is the bytes before its terminating NUL. *)
Definition NUL : byte := Byte.x00.

(** [stpcpy(s1 + off, s2)]: the bytes of [s2] and a NUL; the result is the
    position of that NUL. *)
Definition stpcpy (b : block) (off : Z) (s2 : list byte) : (block * Z) + fault :=
  match block_write off (s2 ++ [NUL]) b with
  | inl b' => inl (b', off + zlen s2)
  | inr f => inr f
  end.

(** The two passes of [string_concat] over its variable arguments. *)
Fixpoint concat_length (len : Z) (args : list (list byte)) : Z :=
  match args with
  | [] => len
  | s :: args' => concat_length (u64 (len + zlen s)) args'
  end.
Fixpoint concat_copy (b : block) (dest : Z) (args : list (list byte)) : block + fault :=
  match args with
  | [] => inl b
  | s :: args' =>
      match stpcpy b dest s with
      | inl (b', dest') => concat_copy b' dest' args'
      | inr f => inr f
      end
  end.

(** [None] is a NULL result: [str] is NULL or memory is exhausted. *)
Definition string_concat (malloc_ok : Z -> bool) (str : option (list byte))
    (args : list (list byte)) : option block + fault :=
  match str with
  | None => inl None
  | Some str =>
      let len := concat_length (u64 (zlen str + 1)) args in
      if malloc_ok len then
        match concat_copy (malloc len) 0 (str :: args) with
        | inl b => inl (Some b)
        | inr f => inr f
        end
      else inl None
  end.

Definition total (args : list (list byte)) : Z := zlen (concat args).

Lemma concat_length_spec len args :
  0 <= len -> len + total args < 2 ^ 64 -> concat_length len args = len + total args.
Proof.
  revert len. induction args as [|s args IH]; intros len H0 Hb; unfold total in *; simpl in *.
  { lia. }
  rewrite length_app in *. unfold u64. rewrite Z.mod_small by lia. rewrite IH by lia. lia.
Qed.

(** Every copy overwrites the previous terminator. *)
Lemma concat_copy_spec args b pre dest :
  bytes b = pre \/ bytes b = pre ++ [NUL] -> dest = zlen pre ->
  dest + total args + 1 <= alloc b -> args <> [] ->
  exists b', concat_copy b dest args = inl b' /\ alloc b' = alloc b /\
    bytes b' = pre ++ concat args ++ [NUL].
Proof.
  revert b pre dest. induction args as [|s args IH]; intros b pre dest Hb -> Hfit Hne; [done|].
  unfold total in Hfit. cbn [concat] in Hfit. rewrite length_app in Hfit.
  cbn [concat_copy]. unfold stpcpy.
  destruct (block_write_ok (zlen pre) (s ++ [NUL]) b) as (b' & -> & Ha & Hbytes).
  { destruct Hb as [-> | ->]; rewrite ?length_app; lia. }
  { rewrite length_app. simpl. lia. }
  assert (bytes b' = pre ++ s ++ [NUL]) as Hbytes'.
  { rewrite Hbytes, Nat2Z.id.
    rewrite drop_ge by (destruct Hb as [-> | ->]; rewrite ?length_app; simpl; lia).
    rewrite app_nil_r. destruct Hb as [-> | ->]; [by rewrite take_ge|by rewrite take_app_length]. }
  destruct (decide (args = [])) as [->|Hargs].
  { exists b'. simpl. rewrite app_nil_r. done. }
  destruct (IH b' (pre ++ s) (zlen pre + zlen s)) as (b'' & -> & Ha' & Hb'').
  - right. by rewrite Hbytes', app_assoc.
  - rewrite length_app. lia.
  - unfold total. rewrite Ha. lia.
  - done.
  - exists b''. split; [done|]. split; [by rewrite Ha'|].
    rewrite Hb''. simpl. by rewrite <- !app_assoc.
Qed.

End Strings.

Module Clock.

(** [struct timeval] and [struct timespec]. *)
Record timeval := MkTimeval { tv_sec : Z; tv_usec : Z }.
Record timespec := MkTimespec { ts_sec : Z; ts_nsec : Z }.

(** [clock_gettime] where the system has none: mach ticks scaled by the time
    base, in [uint64_t] arithmetic. *)
Definition clock_gettime (mach_time numer denom : Z) : timespec :=
  let nano_sec :=
    if (numer =? 1) && (denom =? 1) then mach_time
    else u64 (mach_time * numer) `div` denom in
  MkTimespec (nano_sec `div` 1000000000) (nano_sec `mod` 1000000000).

(** [clock] is the result of [clock_gettime(CLOCK_MONOTONIC)], [None] when it
    fails; [day] is what [gettimeofday] gives. *)
Definition get_tick_count (clock : option timespec) (day : timeval) : timeval :=
  match clock with
  | Some ts => MkTimeval (ts_sec ts) (Z.quot (ts_nsec ts) 1000)
  | None => day
  end.

Definition mstime64 (clock : option timespec) (day : timeval) : Z :=
  let tv := get_tick_count clock day in
  u64 (tv_sec tv * 1000 + Z.quot (tv_usec tv) 1000).

(** The monotonic clock in nanoseconds. *)
Definition nanos (ts : timespec) : Z := ts_sec ts * 1000000000 + ts_nsec ts.
Definition timespec_ok (ts : timespec) : Prop :=
  0 <= ts_sec ts < 2 ^ 53 /\ 0 <= ts_nsec ts < 1000000000.

Lemma mstime64_spec ts day :
  timespec_ok ts -> mstime64 (Some ts) day = nanos ts `div` 1000000.
Proof.
  intros [Hs Hn]. unfold mstime64, nanos. simpl.
  rewrite !Z.quot_div_nonneg by (try apply Z.div_pos; try apply Z.quot_pos; lia).
  rewrite Z.div_div by lia. unfold u64.
  replace (ts_sec ts * 1000000000 + ts_nsec ts)
    with (ts_nsec ts + ts_sec ts * 1000 * (1000 * 1000)) by lia.
  change 1000000 with (1000 * 1000) at 1. rewrite Z.div_add by lia.
  rewrite Z.mod_small; [lia|].
  assert (0 <= ts_nsec ts `div` (1000 * 1000) < 1000) by (split; [apply Z.div_pos|apply Z.div_lt_upper_bound]; lia).
  lia.
Qed.

End Clock.
