(* ===== verification/Proto.v ===== *)
(** usbfluxd/usbmuxd-proto.h: the packed little-endian records of the usbmux
    protocol, and how the program builds and reads them. *)

From S2P Require Import Prelude.

(** [enum usbmuxd_result]. *)
Definition RESULT_OK : Z := 0.
Definition RESULT_BADCOMMAND : Z := 1.
Definition RESULT_BADDEV : Z := 2.
Definition RESULT_CONNREFUSED : Z := 3.
Definition RESULT_BADVERSION : Z := 6.

(** [enum usbmuxd_msgtype]. *)
Definition MESSAGE_RESULT : Z := 1.
Definition MESSAGE_CONNECT : Z := 2.
Definition MESSAGE_LISTEN : Z := 3.
Definition MESSAGE_DEVICE_ADD : Z := 4.
Definition MESSAGE_DEVICE_REMOVE : Z := 5.
Definition MESSAGE_PLIST : Z := 8.

(** [struct usbmuxd_header]. *)
Record usbmuxd_header := MkHeader {
  h_length : Z;
  h_version : Z;
  h_message : Z;
  h_tag : Z }.

(** [sizeof(struct usbmuxd_header)]. *)
Definition HEADER_SIZE : Z := 16.

(** Memory image of a field of [n] bytes. *)
Definition le (n : nat) (z : Z) : list byte := le_split n z.
Definition le_at (off n : nat) (l : list byte) : Z := le_combine (take n (drop off l)).

Definition encode_header (h : usbmuxd_header) : list byte :=
  le 4 (h_length h) ++ le 4 (h_version h) ++ le 4 (h_message h) ++ le 4 (h_tag h).

(** [(struct usbmuxd_header * )buf]. *)
Definition decode_header (l : list byte) : usbmuxd_header :=
  MkHeader (le_at 0 4 l) (le_at 4 4 l) (le_at 8 4 l) (le_at 12 4 l).

(** [struct usbmuxd_connect_request]: the fields after the header. *)
Record usbmuxd_connect_request := MkConnect {
  ch_device_id : Z; ch_port : Z; ch_reserved : Z }.
Definition decode_connect (l : list byte) : usbmuxd_connect_request :=
  MkConnect (le_at 16 4 l) (le_at 20 2 l) (le_at 22 2 l).

(** [struct usbmuxd_device_record] (the serial number as its 256 bytes). *)
Record usbmuxd_device_record := MkDeviceRecord {
  dr_device_id : Z; dr_product_id : Z; dr_serial_number : list byte;
  dr_padding : Z; dr_location : Z }.
Definition encode_device_record (r : usbmuxd_device_record) : list byte :=
  le 4 (dr_device_id r) ++ le 2 (dr_product_id r) ++ dr_serial_number r
  ++ le 2 (dr_padding r) ++ le 4 (dr_location r).

(** A C string of the program as a sequence of bytes, and back. *)
Definition string_bytes (s : string) : list byte := String.list_byte_of_string s.
Definition bytes_string (l : list byte) : string := String.string_of_list_byte l.

(** [strncpy(dst, s, n)] into a zeroed array of [n] bytes. *)
Definition strncpy (n : nat) (s : list byte) : list byte :=
  take n s ++ replicate (n - length s) Byte.x00.

(** *** The byte order round trips *)

Lemma length_le n z : length (le n z) = n.
Proof. apply length_le_split. Qed.
Lemma le_combine_le n z : le_combine (le n z) = z `mod` 2 ^ (8 * Z.of_nat n).
Proof. unfold le. rewrite le_combine_split. do 2 f_equal. lia. Qed.

Lemma length_encode_header h : length (encode_header h) = 16%nat.
Proof. done. Qed.

Lemma le_at_split pre n z post :
  le_at (length pre) n (pre ++ le n z ++ post) = z `mod` 2 ^ (8 * Z.of_nat n).
Proof.
  unfold le_at. rewrite drop_app_length.
  rewrite <- (length_le n z) at 1. rewrite take_app_length. apply le_combine_le.
Qed.

Definition header_ok (h : usbmuxd_header) : Prop :=
  0 <= h_length h < 2 ^ 32 /\ 0 <= h_version h < 2 ^ 32 /\
  0 <= h_message h < 2 ^ 32 /\ 0 <= h_tag h < 2 ^ 32.

Lemma decode_encode_app h rest :
  header_ok h -> decode_header (encode_header h ++ rest) = h.
Proof.
  intros (H1 & H2 & H3 & H4). destruct h as [l v m t]. unfold decode_header, encode_header.
  simpl h_length in *; simpl h_version in *; simpl h_message in *; simpl h_tag in *.
  rewrite <- !app_assoc.
  pose proof (le_at_split [] 4 l (le 4 v ++ le 4 m ++ le 4 t ++ rest)) as E1.
  pose proof (le_at_split (le 4 l) 4 v (le 4 m ++ le 4 t ++ rest)) as E2.
  pose proof (le_at_split (le 4 l ++ le 4 v) 4 m (le 4 t ++ rest)) as E3.
  pose proof (le_at_split (le 4 l ++ le 4 v ++ le 4 m) 4 t rest) as E4.
  rewrite <- ?app_assoc in *. rewrite ?length_app, ?length_le in *.
  f_equal.
  - etransitivity; [apply E1|]. by apply Z.mod_small.
  - etransitivity; [apply E2|]. by apply Z.mod_small.
  - etransitivity; [apply E3|]. by apply Z.mod_small.
  - etransitivity; [apply E4|]. by apply Z.mod_small.
Qed.

Lemma le_at_range off n l : 0 <= le_at off n l < 2 ^ (8 * Z.of_nat n).
Proof.
  unfold le_at. pose proof (le_combine_bound (take n (drop off l))) as [? H].
  split; [done|]. eapply Z.lt_le_trans; [exact H|]. apply Z.pow_le_mono_r; [lia|].
  rewrite length_take. lia.
Qed.

Lemma decode_header_ok l : header_ok (decode_header l).
Proof. unfold header_ok, decode_header; simpl. repeat split; apply le_at_range. Qed.
