(* ===== verification/CStr.v ===== *)
(** The string functions of the C library the program uses on its own keys:
    [strtol], [strtoul], and [snprintf] of the formats "0x%08x". *)

From S2P Require Import Prelude Proto.

(** Strings as character codes. *)
Definition codes (s : string) : list Z := byte.unsigned <$> string_bytes s.

Definition digit_value (c : Z) : option Z :=
  if (48 <=? c) && (c <=? 57) then Some (c - 48)
  else if (97 <=? c) && (c <=? 122) then Some (c - 87)
  else if (65 <=? c) && (c <=? 90) then Some (c - 55)
  else None.

Definition is_digit (base c : Z) : bool :=
  match digit_value c with Some d => d <? base | None => false end.

(** The value of the longest prefix of digits. *)
Fixpoint digits (base : Z) (l : list Z) (acc : Z) : Z :=
  match l with
  | [] => acc
  | c :: l' =>
      match digit_value c with
      | Some d => if d <? base then digits base l' (acc * base + d) else acc
      | None => acc
      end
  end.

Definition is_space (c : Z) : bool := (c =? 32) || ((9 <=? c) && (c <=? 13)).

Fixpoint skip_space (l : list Z) : list Z :=
  match l with
  | c :: l' => if is_space c then skip_space l' else l
  | [] => []
  end.

(** Optional sign: 45 is '-', 43 is '+'. *)
Definition split_sign (l : list Z) : bool * list Z :=
  match l with
  | 45 :: l' => (true, l')
  | 43 :: l' => (false, l')
  | _ => (false, l)
  end.

(** In base 16 a leading "0x" or "0X" is skipped when a digit follows. *)
Definition skip_prefix (base : Z) (l : list Z) : list Z :=
  if base =? 16 then
    match l with
    | 48 :: x :: c :: l' =>
        if ((x =? 120) || (x =? 88)) && is_digit 16 c then c :: l' else l
    | _ => l
    end
  else l.

Definition LONG_MAX : Z := 2 ^ 63 - 1.
Definition LONG_MIN : Z := - 2 ^ 63.
Definition ULONG_MAX : Z := 2 ^ 64 - 1.

Definition strtol (s : string) (base : Z) : Z :=
  let '(neg, l) := split_sign (skip_space (codes s)) in
  let v := digits base (skip_prefix base l) 0 in
  if neg then Z.max LONG_MIN (- v) else Z.min LONG_MAX v.

Definition strtoul (s : string) (base : Z) : Z :=
  let '(neg, l) := split_sign (skip_space (codes s)) in
  let v := digits base (skip_prefix base l) 0 in
  if ULONG_MAX <? v then ULONG_MAX else if neg then u64 (- v) else v.

(** The last [n] hexadecimal digits of [d], most significant first. *)
Definition hex_digit (n : Z) : Z := if n <? 10 then 48 + n else 87 + n.
Fixpoint hex_digits (n : nat) (d : Z) : list Z :=
  match n with
  | O => []
  | S n' => hex_digit ((d `div` 16 ^ Z.of_nat n') `mod` 16) :: hex_digits n' d
  end.

Definition codes_string (l : list Z) : string := bytes_string (byte.of_Z <$> l).

(** [snprintf(s, 16, "0x%08x", d)] for a 32 bit [d]: always ten characters. *)
Definition format_devid (d : Z) : string := codes_string (48 :: 120 :: hex_digits 8 d).

(** *** [strtol(format_devid d, NULL, 16) = d] *)

Lemma hex_digit_range n : 0 <= n < 16 -> 48 <= hex_digit n < 103.
Proof. intros. unfold hex_digit. destruct (Z.ltb_spec n 10); lia. Qed.

Lemma digit_value_hex n : 0 <= n < 16 -> digit_value (hex_digit n) = Some n.
Proof.
  intros Hn. pose proof (check_below (fun n => bool_decide (digit_value (hex_digit n) = Some n))
    16 n ltac:(by vm_compute) Hn) as H. by apply bool_decide_eq_true in H.
Qed.

Lemma digits_hex n d acc :
  digits 16 (hex_digits n d) acc = acc * 16 ^ Z.of_nat n + d `mod` 16 ^ Z.of_nat n.
Proof.
  revert acc. induction n as [|n IH]; intros acc; cbn [hex_digits digits].
  { rewrite Z.mod_1_r. simpl. lia. }
  pose proof (Z.mod_pos_bound (d `div` 16 ^ Z.of_nat n) 16 ltac:(lia)).
  rewrite digit_value_hex by done. rewrite (proj2 (Z.ltb_lt _ _)) by lia.
  rewrite IH, Nat2Z.inj_succ, Z.pow_succ_r by lia.
  rewrite (Z.mul_comm 16), Z.rem_mul_r by lia. lia.
Qed.

Lemma codes_of_codes l : Forall (fun c => 0 <= c < 256) l -> codes (codes_string l) = l.
Proof.
  intros H. unfold codes, codes_string, string_bytes, bytes_string.
  rewrite String.list_byte_of_string_of_list_byte.
  induction H as [|c l Hc _ IH]; csimpl; [done|].
  rewrite byte.unsigned_of_Z, IH. f_equal. by apply Z.mod_small.
Qed.

Lemma hex_digits_range n d : Forall (fun c => 0 <= c < 256) (hex_digits n d).
Proof.
  induction n; simpl; constructor; [|done].
  pose proof (Z.mod_pos_bound (d `div` 16 ^ Z.of_nat n) 16 ltac:(lia)) as Hm.
  pose proof (hex_digit_range _ Hm). lia.
Qed.

Lemma codes_format_devid d : codes (format_devid d) = 48 :: 120 :: hex_digits 8 d.
Proof.
  apply codes_of_codes. constructor; [lia|]. constructor; [lia|]. apply hex_digits_range.
Qed.

Lemma is_digit_hex n : 0 <= n < 16 -> is_digit 16 (hex_digit n) = true.
Proof. intros. unfold is_digit. rewrite digit_value_hex by done. apply Z.ltb_lt. lia. Qed.

Lemma strtol_format d : 0 <= d < 2 ^ 32 -> strtol (format_devid d) 16 = d.
Proof.
  intros Hd. unfold strtol. rewrite codes_format_devid. cbn [skip_space].
  change (is_space 48) with false. cbn [split_sign].
  unfold skip_prefix. change (16 =? 16) with true. cbn [hex_digits].
  change ((120 =? 120) || (120 =? 88)) with true. rewrite andb_true_l.
  rewrite is_digit_hex by (apply Z.mod_pos_bound; lia).
  change (hex_digit _ :: _) with (hex_digits 8 d) at 1.
  rewrite digits_hex. rewrite Z.mod_small by (simpl; lia).
  unfold LONG_MAX. lia.
Qed.

Lemma format_devid_inj d d' :
  0 <= d < 2 ^ 32 -> 0 <= d' < 2 ^ 32 -> format_devid d = format_devid d' -> d = d'.
Proof. intros H H' E. rewrite <- (strtol_format d), <- (strtol_format d'), E; done. Qed.
