(* ===== verification/RemoteId.v ===== *)
(** usbfluxd/usbmux_remote.c: the bitmap of identifiers in use.

    A remote usbmuxd instance is named by one byte, which becomes the top byte
    of the 32 bit device ids shown to clients. [remote_id_map] is an array of 32
    bytes with one bit per identifier; 0 is the local usbmuxd. *)

From S2P Require Import Prelude.

(** [static uint8_t remote_id_map[32]], after [memset(..., 0, ...)]. *)
Definition remote_id_map_init : list Z := replicate 32 0.

Definition cell (m : list Z) (i : Z) : Z := default 0 (m !! Z.to_nat (Z.shiftr i 3)).

Definition set_remote_id_used (idval : Z) (used : bool) (m : list Z) : list Z :=
  let i := Z.to_nat (Z.shiftr idval 3) in
  let bit := Z.shiftl 1 (Z.land idval 7) in
  if used then <[i := u8 (Z.lor (cell m idval) bit)]> m
  else <[i := u8 (Z.land (cell m idval) (Z.lnot bit))]> m.

(** [remote_id_map[i >> 3] & (1 << (i & 7))]. *)
Definition id_used (m : list Z) (i : Z) : bool :=
  has (cell m i) (Z.shiftl 1 (Z.land i 7)).

(** [for (i = 1; i < 256; i++) if (free) { use_id = i; break; }]; [fuel] is the
    number of values left below 256. *)
Fixpoint find_id (m : list Z) (fuel : nat) (i : Z) : Z :=
  match fuel with
  | O => 0
  | S fuel' => if negb (id_used m i) then u8 i else find_id m fuel' (i + 1)
  end.
Definition get_new_remote_id (m : list Z) : Z := find_id m 255 1.

(** *** Bits *)

Definition map_ok (m : list Z) : Prop :=
  length m = 32%nat /\ Forall (fun c => 0 <= c < 256) m.

Lemma has_bit c k : 0 <= k -> has c (Z.shiftl 1 k) = Z.testbit c k.
Proof.
  intros Hk. unfold has. rewrite Z.shiftl_1_l.
  destruct (Z.testbit c k) eqn:E.
  - rewrite negb_true_iff, Z.eqb_neq. intros H0.
    apply (f_equal (fun z => Z.testbit z k)) in H0.
    rewrite Z.land_spec, Z.pow2_bits_true, E, Z.bits_0 in H0 by done. done.
  - rewrite negb_false_iff, Z.eqb_eq. apply Z.bits_inj'. intros i Hi.
    rewrite Z.land_spec, Z.pow2_bits_eqb, Z.bits_0 by done.
    destruct (Z.eqb_spec k i) as [<-|]; [by rewrite E|by rewrite andb_false_r].
Qed.

Lemma land7 i : 0 <= i -> Z.land i 7 = i `mod` 8.
Proof. intros. change 7 with (Z.ones 3). by rewrite Z.land_ones. Qed.
Lemma shiftr3 i : Z.shiftr i 3 = i `div` 8.
Proof. by rewrite Z.shiftr_div_pow2. Qed.

Lemma id_used_bit m i : 0 <= i -> id_used m i = Z.testbit (cell m i) (i `mod` 8).
Proof.
  intros. unfold id_used. rewrite land7 by done.
  apply has_bit. apply Z.mod_pos_bound. lia.
Qed.

Lemma cell_range m i : map_ok m -> 0 <= cell m i < 256.
Proof.
  intros [_ Hf]. unfold cell. destruct (m !! _) eqn:E; simpl; [|lia].
  by eapply Forall_lookup_1 in Hf.
Qed.

Lemma testbit_u8 z k : 0 <= k < 8 -> Z.testbit (u8 z) k = Z.testbit z k.
Proof. intros. unfold u8. rewrite Z.mod_pow2_bits_low; [done|lia]. Qed.

Lemma set_ok m i used : map_ok m -> map_ok (set_remote_id_used i used m).
Proof.
  intros [Hl Hf]. unfold set_remote_id_used, map_ok.
  destruct used; rewrite length_insert; (split; [done|]);
    apply Forall_insert; auto using u8_range.
Qed.

Lemma cell_insert m i j v :
  map_ok m -> 0 <= i < 256 -> 0 <= j ->
  cell (<[Z.to_nat (Z.shiftr i 3) := v]> m) j
  = if i `div` 8 =? j `div` 8 then v else cell m j.
Proof.
  intros [Hl _] Hi Hj. unfold cell. rewrite !shiftr3.
  assert (i `div` 8 < 32) by (apply Z.div_lt_upper_bound; lia).
  assert (0 <= i `div` 8 /\ 0 <= j `div` 8) by (split; apply Z.div_pos; lia).
  destruct (Z.eqb_spec (i `div` 8) (j `div` 8)) as [E|E].
  - rewrite E, list_lookup_insert_eq; [done|lia].
  - by rewrite list_lookup_insert_ne by lia.
Qed.

(** Setting or clearing one identifier changes that identifier only. *)
Lemma id_used_set m i j used :
  map_ok m -> 0 <= i < 256 -> 0 <= j < 256 ->
  id_used (set_remote_id_used i used m) j = if i =? j then used else id_used m j.
Proof.
  intros Hm Hi Hj. rewrite !id_used_bit by lia.
  pose proof (Z.mod_pos_bound i 8 ltac:(lia)). pose proof (Z.mod_pos_bound j 8 ltac:(lia)).
  pose proof (Z.div_mod i 8 ltac:(lia)). pose proof (Z.div_mod j 8 ltac:(lia)).
  unfold set_remote_id_used.
  destruct used; rewrite cell_insert by (done || lia);
    rewrite land7, Z.shiftl_1_l by lia.
  - destruct (Z.eqb_spec (i `div` 8) (j `div` 8)) as [E|E].
    + rewrite testbit_u8, Z.lor_spec, Z.pow2_bits_eqb by lia.
      assert (cell m i = cell m j) as -> by (unfold cell; by rewrite !shiftr3, E).
      destruct (Z.eqb_spec (i `mod` 8) (j `mod` 8)), (Z.eqb_spec i j); try lia;
        by rewrite ?orb_true_r, ?orb_false_r.
    + destruct (Z.eqb_spec i j); [lia|done].
  - destruct (Z.eqb_spec (i `div` 8) (j `div` 8)) as [E|E].
    + rewrite testbit_u8, Z.land_spec, Z.lnot_spec, Z.pow2_bits_eqb by lia.
      assert (cell m i = cell m j) as -> by (unfold cell; by rewrite !shiftr3, E).
      destruct (Z.eqb_spec (i `mod` 8) (j `mod` 8)), (Z.eqb_spec i j); try lia;
        by rewrite ?andb_false_r, ?andb_true_r.
    + destruct (Z.eqb_spec i j); [lia|done].
Qed.

Lemma id_used_init j : id_used remote_id_map_init j = false.
Proof.
  unfold id_used, cell, remote_id_map_init.
  destruct (replicate 32 0 !! _) eqn:E; simpl; [|by unfold has; rewrite Z.land_0_l].
  apply lookup_replicate in E as [-> _]. unfold has. by rewrite Z.land_0_l.
Qed.

(** The search returns the smallest free identifier, or 0. *)
Lemma find_id_spec m fuel i :
  1 <= i -> i + Z.of_nat fuel = 256 ->
  (find_id m fuel i = 0 /\ forall j, i <= j < 256 -> id_used m j = true) \/
  (i <= find_id m fuel i < 256 /\ id_used m (find_id m fuel i) = false /\
   forall j, i <= j < find_id m fuel i -> id_used m j = true).
Proof.
  revert i. induction fuel as [|fuel IH]; intros i Hi Hf.
  { left. split; [done|]. intros. lia. }
  cbn [find_id]. destruct (id_used m i) eqn:E; simpl.
  - destruct (IH (i + 1)) as [[H0 Hall]|(Hr & Hfree & Hall)]; [lia|lia| |].
    + left. split; [done|]. intros j Hj. destruct (decide (j = i)) as [->|]; [done|].
      apply Hall. lia.
    + right. split; [lia|]. split; [done|]. intros j Hj.
      destruct (decide (j = i)) as [->|]; [done|]. apply Hall. lia.
  - right. rewrite u8_small by lia. split; [lia|]. split; [done|]. intros. lia.
Qed.

Lemma get_new_remote_id_range m : 0 <= get_new_remote_id m < 256.
Proof.
  unfold get_new_remote_id.
  destruct (find_id_spec m 255 1) as [[-> _]|(? & _)]; [done|done|lia|lia].
Qed.

Lemma get_new_remote_id_free m :
  get_new_remote_id m <> 0 -> id_used m (get_new_remote_id m) = false.
Proof. intros Hn. by destruct (find_id_spec m 255 1) as [[? _]|(_ & ? & _)]. Qed.
