(* ===== verification/Plist.v ===== *)
(** libplist as the program uses it.

    libplist is not part of the repository, so its type of property lists and
    its functions are parameters: [PlistLib] lists the operations the source
    calls, [PlistLaws] what their documentation says of them. Values are
    immutable here: [plist_copy] is the identity, [plist_free] nothing, and a
    nested node that the C code changes in place is written back into its parent.

    [ModelPlist] is one concrete instance; theorems that need the laws are
    witnessed with it. *)

From S2P Require Import Prelude Proto.

(** [plist_type], as far as the program distinguishes. *)
Inductive plist_type :=
| PLIST_BOOLEAN | PLIST_UINT | PLIST_STRING | PLIST_ARRAY | PLIST_DICT | PLIST_OTHER.

#[export] Instance plist_type_eq_dec : EqDecision plist_type.
Proof. solve_decision. Defined.

Class PlistLib := {
  plist : Type;
  plist_new_dict : plist;
  plist_new_array : plist;
  plist_new_string : string -> plist;
  plist_new_uint : Z -> plist;
  plist_new_bool : bool -> plist;
  plist_get_node_type : plist -> plist_type;
  (** [None]: the output variable keeps its value. *)
  plist_get_string_val : plist -> option string;
  plist_get_uint_val : plist -> option Z;
  plist_get_bool_val : plist -> option bool;
  plist_dict_get_item : plist -> string -> option plist;
  plist_dict_set_item : plist -> string -> plist -> plist;
  plist_dict_remove_item : plist -> string -> plist;
  (** What [plist_dict_new_iter] and [plist_dict_next_item] enumerate. *)
  plist_dict_items : plist -> list (string * plist);
  (** [plist_access_path(dict, 2, key1, key2)]. *)
  plist_access_path2 : plist -> string -> string -> option plist;
  plist_array_append_item : plist -> plist -> plist;
  (** [plist_array_get_size] and [plist_array_get_item]. *)
  plist_array_items : plist -> list plist;
  plist_to_xml : plist -> option (list byte);
  plist_from_xml : list byte -> option plist }.

Section laws.
Context `{PL : PlistLib}.

Definition is_dict (d : plist) : Prop := plist_get_node_type d = PLIST_DICT.

Class PlistLaws : Prop := {
  new_dict_type : is_dict plist_new_dict;
  set_item_type d k v : is_dict d -> is_dict (plist_dict_set_item d k v);
  remove_item_type d k : is_dict d -> is_dict (plist_dict_remove_item d k);
  get_new_dict k : plist_dict_get_item plist_new_dict k = None;
  get_set_eq d k v : is_dict d ->
    plist_dict_get_item (plist_dict_set_item d k v) k = Some v;
  get_set_ne d k k' v : is_dict d -> k <> k' ->
    plist_dict_get_item (plist_dict_set_item d k v) k' = plist_dict_get_item d k';
  get_remove_eq d k : is_dict d ->
    plist_dict_get_item (plist_dict_remove_item d k) k = None;
  get_remove_ne d k k' : is_dict d -> k <> k' ->
    plist_dict_get_item (plist_dict_remove_item d k) k' = plist_dict_get_item d k';
  items_nodup d : is_dict d -> NoDup (fst <$> plist_dict_items d);
  items_get d k v : is_dict d ->
    (k, v) ∈ plist_dict_items d <-> plist_dict_get_item d k = Some v;
  access_path2 d k1 k2 :
    plist_access_path2 d k1 k2 =
    match plist_dict_get_item d k1 with
    | Some n => plist_dict_get_item n k2
    | None => None
    end;
  string_val s : plist_get_string_val (plist_new_string s) = Some s;
  string_type s : plist_get_node_type (plist_new_string s) = PLIST_STRING;
  uint_val n : 0 <= n < 2 ^ 64 -> plist_get_uint_val (plist_new_uint n) = Some n;
  uint_type n : plist_get_node_type (plist_new_uint n) = PLIST_UINT;
  (** The printed length is an [int] for the callers. *)
  xml_length p xml : plist_to_xml p = Some xml -> zlen xml < 2 ^ 30;
  bool_val b : plist_get_bool_val (plist_new_bool b) = Some b;
  bool_type b : plist_get_node_type (plist_new_bool b) = PLIST_BOOLEAN;
  array_new : plist_array_items plist_new_array = [];
  array_append a x l : plist_array_items a = l -> a = plist_new_array \/ l <> [] ->
    plist_array_items (plist_array_append_item a x) = l ++ [x] }.
End laws.
Arguments PlistLaws _ : clear implicits.
#[export] Hint Resolve new_dict_type set_item_type remove_item_type : usbflux.

(** ** A concrete instance *)

Module ModelPlist.

#[warnings="-register-all"]
Inductive node :=
| NDict (l : list (string * node))
| NArray (l : list node)
| NString (s : string)
| NUint (n : Z)
| NBool (b : bool).

Definition items (d : node) : list (string * node) :=
  match d with NDict l => l | _ => [] end.

Fixpoint assoc_get (l : list (string * node)) (k : string) : option node :=
  match l with
  | [] => None
  | (k', v) :: l' => if decide (k' = k) then Some v else assoc_get l' k
  end.
Fixpoint assoc_set (l : list (string * node)) (k : string) (v : node) :=
  match l with
  | [] => [(k, v)]
  | (k', v') :: l' => if decide (k' = k) then (k, v) :: l' else (k', v') :: assoc_set l' k v
  end.
Definition assoc_remove (l : list (string * node)) (k : string) :=
  filter (fun kv => kv.1 <> k) l.

(** A dictionary is built from empty with distinct keys; [dedup] makes the
    instance lawful on every value. *)
Fixpoint dedup (l : list (string * node)) : list (string * node) :=
  match l with
  | [] => []
  | (k, v) :: l' => (k, v) :: assoc_remove (dedup l') k
  end.

(** A prefix code standing for the XML text. *)
Definition enc_string (s : string) : list byte :=
  le 4 (zlen (string_bytes s)) ++ string_bytes s.
Fixpoint encode (n : node) : list byte :=
  match n with
  | NDict l => Byte.x01 :: le 4 (zlen l)
               ++ concat (map (fun kv => enc_string kv.1 ++ encode kv.2) l)
  | NArray l => Byte.x02 :: le 4 (zlen l) ++ concat (map encode l)
  | NString s => Byte.x03 :: enc_string s
  | NUint z => Byte.x04 :: le 8 z
  | NBool b => [Byte.x05; if b then Byte.x01 else Byte.x00]
  end.

Definition dec_string (l : list byte) : string * list byte :=
  let n := Z.to_nat (le_at 0 4 l) in
  (bytes_string (take n (drop 4 l)), drop n (drop 4 l)).
Fixpoint decode (fuel : nat) (l : list byte) : option (node * list byte) :=
  match fuel with
  | O => None
  | S fuel' =>
      match l with
      | Byte.x01 :: r =>
          (fix entries (f n : nat) (r : list byte) (acc : list (string * node)) :=
             match f, n with
             | _, O => Some (NDict acc, r)
             | O, _ => None
             | S f', S n' =>
                 let '(k, r) := dec_string r in
                 match decode fuel' r with
                 | Some (v, r) => entries f' n' r (acc ++ [(k, v)])
                 | None => None
                 end
             end) fuel' (Z.to_nat (le_at 0 4 r)) (drop 4 r) []
      | Byte.x02 :: r =>
          (fix elts (f n : nat) (r : list byte) (acc : list node) :=
             match f, n with
             | _, O => Some (NArray acc, r)
             | O, _ => None
             | S f', S n' =>
                 match decode fuel' r with
                 | Some (v, r) => elts f' n' r (acc ++ [v])
                 | None => None
                 end
             end) fuel' (Z.to_nat (le_at 0 4 r)) (drop 4 r) []
      | Byte.x03 :: r => let '(s, r) := dec_string r in Some (NString s, r)
      | Byte.x04 :: r => Some (NUint (le_at 0 8 r), drop 8 r)
      | Byte.x05 :: b :: r => Some (NBool (negb (byte.unsigned b =? 0)), r)
      | _ => None
      end
  end.

Definition get (d : node) (k : string) : option node := assoc_get (dedup (items d)) k.

#[export] Instance lib : PlistLib := {|
  plist := node;
  plist_new_dict := NDict [];
  plist_new_array := NArray [];
  plist_new_string := NString;
  plist_new_uint := NUint;
  plist_new_bool := NBool;
  plist_get_node_type n :=
    match n with
    | NDict _ => PLIST_DICT | NArray _ => PLIST_ARRAY | NString _ => PLIST_STRING
    | NUint _ => PLIST_UINT | NBool _ => PLIST_BOOLEAN
    end;
  plist_get_string_val n := match n with NString s => Some s | _ => None end;
  plist_get_uint_val n := match n with NUint z => Some z | _ => None end;
  plist_get_bool_val n := match n with NBool b => Some b | _ => None end;
  plist_dict_get_item := get;
  plist_dict_set_item d k v :=
    match d with NDict l => NDict (assoc_set (dedup l) k v) | _ => d end;
  plist_dict_remove_item d k :=
    match d with NDict l => NDict (assoc_remove (dedup l) k) | _ => d end;
  plist_dict_items d := dedup (items d);
  plist_access_path2 d k1 k2 :=
    match get d k1 with Some n => get n k2 | None => None end;
  plist_array_append_item a x := match a with NArray l => NArray (l ++ [x]) | _ => a end;
  plist_array_items a := match a with NArray l => l | _ => [] end;
  plist_to_xml n := let xml := encode n in if zlen xml <? 2 ^ 30 then Some xml else None;
  plist_from_xml l := fst <$> decode (length l) l |}.

Lemma assoc_get_remove l k k' :
  assoc_get (assoc_remove l k) k' = if decide (k = k') then None else assoc_get l k'.
Proof.
  induction l as [|[k0 v] l IH]; simpl; [by case_decide|].
  unfold assoc_remove. rewrite filter_cons. fold (assoc_remove l k). simpl.
  repeat (case_decide; simpl); subst; try done; rewrite ?IH; repeat case_decide; congruence.
Qed.
Lemma assoc_get_set l k k' v :
  assoc_get (assoc_set l k v) k' = if decide (k = k') then Some v else assoc_get l k'.
Proof.
  induction l as [|[k0 v0] l IH]; simpl; [by case_decide|].
  repeat (case_decide; simpl); subst; try done; rewrite ?IH; repeat case_decide; congruence.
Qed.
Lemma remove_subset l k kv : kv ∈ assoc_remove l k -> kv ∈ l /\ kv.1 <> k.
Proof. unfold assoc_remove. rewrite list_elem_of_filter. naive_solver. Qed.
Lemma remove_nodup l k : NoDup (fst <$> l) -> NoDup (fst <$> assoc_remove l k).
Proof.
  induction l as [|[k0 v] l IH]; simpl; [done|]. rewrite NoDup_cons. intros [Hn Hd].
  unfold assoc_remove. rewrite filter_cons. fold (assoc_remove l k). simpl.
  case_decide; [|by apply IH]. simpl. rewrite NoDup_cons. split; [|by apply IH].
  intros ([k1 v1] & -> & Hin)%list_elem_of_fmap. apply Hn.
  apply list_elem_of_fmap. exists (k1, v1). split; [done|]. by apply remove_subset in Hin as [].
Qed.
Lemma dedup_nodup l : NoDup (fst <$> dedup l).
Proof.
  induction l as [|[k v] l IH]; simpl; [constructor|]. rewrite NoDup_cons. split.
  - intros ([k1 v1] & -> & Hin)%list_elem_of_fmap. by apply remove_subset in Hin as [_ []].
  - by apply remove_nodup.
Qed.
Lemma set_nodup l k v : NoDup (fst <$> l) -> NoDup (fst <$> assoc_set l k v).
Proof.
  assert (forall l x, x ∈ fst <$> assoc_set l k v -> x = k \/ x ∈ fst <$> l) as Hin.
  { clear l. induction l as [|[k0 v0] l IH]; simpl; intros x Hx; [set_solver|].
    case_decide; simpl in *; [set_solver|].
    apply elem_of_cons in Hx as [->|Hx]; [set_solver|].
    destruct (IH _ Hx); set_solver. }
  induction l as [|[k0 v0] l IH]; simpl; intros Hnd.
  { apply NoDup_singleton. }
  apply NoDup_cons in Hnd as [Hn Hnd]. case_decide; simpl; rewrite NoDup_cons.
  - subst. done.
  - split; [|by apply IH]. intros Hx. apply Hin in Hx as [->|?]; done.
Qed.
Lemma remove_fresh l k : k ∉ fst <$> l -> assoc_remove l k = l.
Proof.
  induction l as [|[k0 v0] l IH]; simpl; [done|]. rewrite not_elem_of_cons. intros [Hk Hl].
  unfold assoc_remove. rewrite filter_cons_True by (simpl; congruence). f_equal. by apply IH.
Qed.
Lemma dedup_id l : NoDup (fst <$> l) -> dedup l = l.
Proof.
  induction l as [|[k v] l IH]; simpl; [done|]. rewrite NoDup_cons. intros [Hn Hnd].
  rewrite IH by done. f_equal. by apply remove_fresh.
Qed.
Lemma assoc_get_in l k v : NoDup (fst <$> l) -> (k, v) ∈ l <-> assoc_get l k = Some v.
Proof.
  induction l as [|[k0 v0] l IH]; simpl; intros Hnd.
  { split; [|done]. intros H. by apply elem_of_nil in H. }
  apply NoDup_cons in Hnd as [Hn Hnd]. rewrite elem_of_cons, (IH Hnd). case_decide.
  - subst. split.
    + intros [|Hg]; [congruence|]. destruct Hn. apply list_elem_of_fmap.
      exists (k, v). split; [done|]. by apply IH.
    + intros. left. congruence.
  - split; [|by right]. intros [|?]; [congruence|done].
Qed.

#[export] Instance laws : PlistLaws lib.
Proof.
  split; try done.
  - intros [] ???; done.
  - intros [] ??; done.
  - intros [] k v Hd; try done. simpl. unfold get. simpl.
    rewrite dedup_id by apply set_nodup, dedup_nodup. rewrite assoc_get_set. by case_decide.
  - intros [] k k' v Hd Hk; try done. simpl. unfold get. simpl.
    rewrite dedup_id by apply set_nodup, dedup_nodup. rewrite assoc_get_set. by case_decide.
  - intros [] k Hd; try done. simpl. unfold get. simpl.
    rewrite dedup_id by apply remove_nodup, dedup_nodup. rewrite assoc_get_remove. by case_decide.
  - intros [] k k' Hd Hk; try done. simpl. unfold get. simpl.
    rewrite dedup_id by apply remove_nodup, dedup_nodup. rewrite assoc_get_remove. by case_decide.
  - intros d _. simpl. apply dedup_nodup.
  - intros d k v _. simpl. apply assoc_get_in, dedup_nodup.
  - intros p xml. simpl. case_match eqn:E; [|done]. intros [= <-]. by apply Z.ltb_lt.
  - intros [] x l' <- H; simpl in *; try done; destruct H; try done; congruence.
Qed.

End ModelPlist.
