(* ===== verification/World.v ===== *)
(** The state of the daemon, the calls it makes to the operating system, and
    access to the heap objects [struct mux_client] and [struct remote_mux].

    Objects live in two heaps indexed by address; [free] removes them, so that a
    later access through a stale pointer is [UseAfterFree]. The file-scope
    variables of client.c, usbmux_remote.c and socket.c are fields of [world].
    Results of system calls come from [Env], the environment of one handler
    call: every handler makes each call at most once per descriptor. Calls whose
    effect is visible outside ([close], [send], starting a thread) are logged in
    [w_trace], newest first. *)

From S2P Require Import Prelude Exec Mem Utils Plist.
Export Collection Fdlist.

(** ** The environment of one handler call *)

(** Result of [connect] on a non-blocking socket. *)
Inductive connect_result := CONNECTED | INPROGRESS | REFUSED.

Class Env := {
  (** [mstime64()]. *)
  sys_now : Z;
  (** Whether [realloc] of that many bytes succeeds. *)
  sys_realloc : Z -> bool;
  (** Bytes available on a descriptor: [None] an error, [[]] end of file. *)
  sys_recv : Z -> option (list byte);
  (** How many bytes the kernel is ready to take; [<= 0] is a failed [send]. *)
  sys_send : Z -> Z;
  (** [accept]. *)
  sys_accept : Z -> Z;
  (** [stat]: [None] fails, [Some b] tells whether the file is a socket. *)
  sys_stat : string -> option bool;
  (** [socket]. *)
  sys_socket : Z;
  (** [connect] to a Unix domain path. *)
  sys_connect_unix : Z -> string -> bool;
  (** [gethostbyname]: [None] unknown host, [Some None] no address. *)
  sys_gethostbyname : string -> option (option Z);
  (** [setsockopt(SO_REUSEADDR)]. *)
  sys_reuseaddr : Z -> bool;
  (** [connect] to an address and port. *)
  sys_connect : Z -> Z -> Z -> connect_result;
  (** [select] for writing with a timeout in seconds, and [SO_ERROR]. *)
  sys_select : Z -> Z -> Z;
  sys_so_error : Z -> Z;
  (** [fcntl(F_GETFL)] and [fcntl(F_SETFL)]. *)
  sys_getfl : Z -> Z;
  sys_setfl : Z -> Z;
  (** [pthread_create() == 0]. *)
  sys_thread : bool }.

(** Descriptors a [fd_set] has room for. *)
Definition FD_SETSIZE : Z := 1024.

(** What is assumed of the environment: memory blocks stay below 2 GiB and
    smaller requests are granted; a process has at most 1024 descriptors, the
    usual soft limit. *)
Class EnvLaws `{EN : Env} : Prop := {
  socket_small : sys_socket < FD_SETSIZE;
  realloc_small n : n < BUF_MAX -> sys_realloc n = true;
  realloc_large n : sys_realloc n = true -> n < BUF_MAX }.
Arguments EnvLaws _ : clear implicits.

(** ** Data *)

(** [enum client_state]. *)
Inductive client_state :=
| CLIENT_COMMAND | CLIENT_LISTEN | CLIENT_CONNECTING1 | CLIENT_CONNECTING2
| CLIENT_CONNECTED | CLIENT_DEAD.

(** [enum remote_state]. *)
Inductive remote_state :=
| REMOTE_COMMAND | REMOTE_LISTEN | REMOTE_CONNECTING1 | REMOTE_CONNECTING2
| REMOTE_CONNECTED | REMOTE_DEAD.

#[export] Instance client_state_eq_dec : EqDecision client_state.
Proof. solve_decision. Defined.
#[export] Instance remote_state_eq_dec : EqDecision remote_state.
Proof. solve_decision. Defined.

(** [enum remote_command]; -1 and 0 are stored for "none". *)
Definition REMOTE_CMD_LISTEN : Z := 1.
Definition REMOTE_CMD_READ_PAIR_RECORD : Z := 2.
Definition REMOTE_CMD_SAVE_PAIR_RECORD : Z := 3.
Definition REMOTE_CMD_DELETE_PAIR_RECORD : Z := 4.
Definition REMOTE_CMD_READ_BUID : Z := 5.

Inductive mutex := client_list_mutex | remote_list_mutex | gethostbyname_mutex.
#[export] Instance mutex_eq_dec : EqDecision mutex.
Proof. solve_decision. Defined.

Inductive event :=
| EvClose (fd : Z)
| EvSend (fd : Z) (sent : list byte)
| EvCheckThread (fd : Z)
| EvResolve (service_name : string)
| EvResolverFree
| EvPollQuit.

Section records.
Context `{PL : PlistLib}.

(** [struct mux_client]. *)
Record mux_client := MkClient {
  c_fd : Z;
  c_ob : iobuf;
  c_ib : iobuf;
  c_events : Z;
  c_devents : Z;
  c_connect_tag : Z;
  c_connect_device : Z;
  c_state : client_state;
  c_proto_version : Z;
  c_remote : option ptr;
  c_last_tag : Z;
  c_last_command : Z;
  c_number : Z;
  c_info : option plist }.

(** [struct remote_mux]. *)
Record remote_mux := MkRemote {
  r_fd : Z;
  r_ob : iobuf;
  r_ib : iobuf;
  r_events : Z;
  r_devents : Z;
  r_state : remote_state;
  r_last_command : Z;
  r_id : Z;
  r_is_listener : bool;
  r_service_name : option string;
  r_is_unix : bool;
  r_host : option string;
  r_port : Z;
  r_client : option ptr;
  r_last_active : Z }.

(** The whole state; [w_next] is the address the next [malloc] returns. *)
Record world := MkWorld {
  w_clients : gmap positive mux_client;
  w_remotes : gmap positive remote_mux;
  w_next : positive;
  client_list : collection;
  remote_list : collection;
  client_number : Z;
  remote_device_list : option plist;
  remote_id_map : list Z;
  w_locks : list mutex;
  w_trace : list event }.

(** Field updates. *)
Definition set_c_fd (x : Z) (c : mux_client) : mux_client :=
  MkClient x (c_ob c) (c_ib c) (c_events c) (c_devents c) (c_connect_tag c)
    (c_connect_device c) (c_state c) (c_proto_version c) (c_remote c) (c_last_tag c)
    (c_last_command c) (c_number c) (c_info c).
Definition set_c_ob (x : iobuf) (c : mux_client) : mux_client :=
  MkClient (c_fd c) x (c_ib c) (c_events c) (c_devents c) (c_connect_tag c)
    (c_connect_device c) (c_state c) (c_proto_version c) (c_remote c) (c_last_tag c)
    (c_last_command c) (c_number c) (c_info c).
Definition set_c_ib (x : iobuf) (c : mux_client) : mux_client :=
  MkClient (c_fd c) (c_ob c) x (c_events c) (c_devents c) (c_connect_tag c)
    (c_connect_device c) (c_state c) (c_proto_version c) (c_remote c) (c_last_tag c)
    (c_last_command c) (c_number c) (c_info c).
Definition set_c_events (x : Z) (c : mux_client) : mux_client :=
  MkClient (c_fd c) (c_ob c) (c_ib c) x (c_devents c) (c_connect_tag c) (c_connect_device c)
    (c_state c) (c_proto_version c) (c_remote c) (c_last_tag c) (c_last_command c)
    (c_number c) (c_info c).
Definition set_c_devents (x : Z) (c : mux_client) : mux_client :=
  MkClient (c_fd c) (c_ob c) (c_ib c) (c_events c) x (c_connect_tag c) (c_connect_device c)
    (c_state c) (c_proto_version c) (c_remote c) (c_last_tag c) (c_last_command c)
    (c_number c) (c_info c).
Definition set_c_connect_tag (x : Z) (c : mux_client) : mux_client :=
  MkClient (c_fd c) (c_ob c) (c_ib c) (c_events c) (c_devents c) x (c_connect_device c)
    (c_state c) (c_proto_version c) (c_remote c) (c_last_tag c) (c_last_command c)
    (c_number c) (c_info c).
Definition set_c_connect_device (x : Z) (c : mux_client) : mux_client :=
  MkClient (c_fd c) (c_ob c) (c_ib c) (c_events c) (c_devents c) (c_connect_tag c) x
    (c_state c) (c_proto_version c) (c_remote c) (c_last_tag c) (c_last_command c)
    (c_number c) (c_info c).
Definition set_c_state (x : client_state) (c : mux_client) : mux_client :=
  MkClient (c_fd c) (c_ob c) (c_ib c) (c_events c) (c_devents c) (c_connect_tag c)
    (c_connect_device c) x (c_proto_version c) (c_remote c) (c_last_tag c)
    (c_last_command c) (c_number c) (c_info c).
Definition set_c_proto_version (x : Z) (c : mux_client) : mux_client :=
  MkClient (c_fd c) (c_ob c) (c_ib c) (c_events c) (c_devents c) (c_connect_tag c)
    (c_connect_device c) (c_state c) x (c_remote c) (c_last_tag c) (c_last_command c)
    (c_number c) (c_info c).
Definition set_c_remote (x : option ptr) (c : mux_client) : mux_client :=
  MkClient (c_fd c) (c_ob c) (c_ib c) (c_events c) (c_devents c) (c_connect_tag c)
    (c_connect_device c) (c_state c) (c_proto_version c) x (c_last_tag c) (c_last_command c)
    (c_number c) (c_info c).
Definition set_c_last_tag (x : Z) (c : mux_client) : mux_client :=
  MkClient (c_fd c) (c_ob c) (c_ib c) (c_events c) (c_devents c) (c_connect_tag c)
    (c_connect_device c) (c_state c) (c_proto_version c) (c_remote c) x (c_last_command c)
    (c_number c) (c_info c).
Definition set_c_last_command (x : Z) (c : mux_client) : mux_client :=
  MkClient (c_fd c) (c_ob c) (c_ib c) (c_events c) (c_devents c) (c_connect_tag c)
    (c_connect_device c) (c_state c) (c_proto_version c) (c_remote c) (c_last_tag c) x
    (c_number c) (c_info c).
Definition set_c_number (x : Z) (c : mux_client) : mux_client :=
  MkClient (c_fd c) (c_ob c) (c_ib c) (c_events c) (c_devents c) (c_connect_tag c)
    (c_connect_device c) (c_state c) (c_proto_version c) (c_remote c) (c_last_tag c)
    (c_last_command c) x (c_info c).
Definition set_c_info (x : option plist) (c : mux_client) : mux_client :=
  MkClient (c_fd c) (c_ob c) (c_ib c) (c_events c) (c_devents c) (c_connect_tag c)
    (c_connect_device c) (c_state c) (c_proto_version c) (c_remote c) (c_last_tag c)
    (c_last_command c) (c_number c) x.
Definition set_r_fd (x : Z) (r : remote_mux) : remote_mux :=
  MkRemote x (r_ob r) (r_ib r) (r_events r) (r_devents r) (r_state r) (r_last_command r)
    (r_id r) (r_is_listener r) (r_service_name r) (r_is_unix r) (r_host r) (r_port r)
    (r_client r) (r_last_active r).
Definition set_r_ob (x : iobuf) (r : remote_mux) : remote_mux :=
  MkRemote (r_fd r) x (r_ib r) (r_events r) (r_devents r) (r_state r) (r_last_command r)
    (r_id r) (r_is_listener r) (r_service_name r) (r_is_unix r) (r_host r) (r_port r)
    (r_client r) (r_last_active r).
Definition set_r_ib (x : iobuf) (r : remote_mux) : remote_mux :=
  MkRemote (r_fd r) (r_ob r) x (r_events r) (r_devents r) (r_state r) (r_last_command r)
    (r_id r) (r_is_listener r) (r_service_name r) (r_is_unix r) (r_host r) (r_port r)
    (r_client r) (r_last_active r).
Definition set_r_events (x : Z) (r : remote_mux) : remote_mux :=
  MkRemote (r_fd r) (r_ob r) (r_ib r) x (r_devents r) (r_state r) (r_last_command r)
    (r_id r) (r_is_listener r) (r_service_name r) (r_is_unix r) (r_host r) (r_port r)
    (r_client r) (r_last_active r).
Definition set_r_devents (x : Z) (r : remote_mux) : remote_mux :=
  MkRemote (r_fd r) (r_ob r) (r_ib r) (r_events r) x (r_state r) (r_last_command r) (r_id r)
    (r_is_listener r) (r_service_name r) (r_is_unix r) (r_host r) (r_port r) (r_client r)
    (r_last_active r).
Definition set_r_state (x : remote_state) (r : remote_mux) : remote_mux :=
  MkRemote (r_fd r) (r_ob r) (r_ib r) (r_events r) (r_devents r) x (r_last_command r)
    (r_id r) (r_is_listener r) (r_service_name r) (r_is_unix r) (r_host r) (r_port r)
    (r_client r) (r_last_active r).
Definition set_r_last_command (x : Z) (r : remote_mux) : remote_mux :=
  MkRemote (r_fd r) (r_ob r) (r_ib r) (r_events r) (r_devents r) (r_state r) x (r_id r)
    (r_is_listener r) (r_service_name r) (r_is_unix r) (r_host r) (r_port r) (r_client r)
    (r_last_active r).
Definition set_r_id (x : Z) (r : remote_mux) : remote_mux :=
  MkRemote (r_fd r) (r_ob r) (r_ib r) (r_events r) (r_devents r) (r_state r)
    (r_last_command r) x (r_is_listener r) (r_service_name r) (r_is_unix r) (r_host r)
    (r_port r) (r_client r) (r_last_active r).
Definition set_r_is_listener (x : bool) (r : remote_mux) : remote_mux :=
  MkRemote (r_fd r) (r_ob r) (r_ib r) (r_events r) (r_devents r) (r_state r)
    (r_last_command r) (r_id r) x (r_service_name r) (r_is_unix r) (r_host r) (r_port r)
    (r_client r) (r_last_active r).
Definition set_r_service_name (x : option string) (r : remote_mux) : remote_mux :=
  MkRemote (r_fd r) (r_ob r) (r_ib r) (r_events r) (r_devents r) (r_state r)
    (r_last_command r) (r_id r) (r_is_listener r) x (r_is_unix r) (r_host r) (r_port r)
    (r_client r) (r_last_active r).
Definition set_r_is_unix (x : bool) (r : remote_mux) : remote_mux :=
  MkRemote (r_fd r) (r_ob r) (r_ib r) (r_events r) (r_devents r) (r_state r)
    (r_last_command r) (r_id r) (r_is_listener r) (r_service_name r) x (r_host r) (r_port r)
    (r_client r) (r_last_active r).
Definition set_r_host (x : option string) (r : remote_mux) : remote_mux :=
  MkRemote (r_fd r) (r_ob r) (r_ib r) (r_events r) (r_devents r) (r_state r)
    (r_last_command r) (r_id r) (r_is_listener r) (r_service_name r) (r_is_unix r) x
    (r_port r) (r_client r) (r_last_active r).
Definition set_r_port (x : Z) (r : remote_mux) : remote_mux :=
  MkRemote (r_fd r) (r_ob r) (r_ib r) (r_events r) (r_devents r) (r_state r)
    (r_last_command r) (r_id r) (r_is_listener r) (r_service_name r) (r_is_unix r)
    (r_host r) x (r_client r) (r_last_active r).
Definition set_r_client (x : option ptr) (r : remote_mux) : remote_mux :=
  MkRemote (r_fd r) (r_ob r) (r_ib r) (r_events r) (r_devents r) (r_state r)
    (r_last_command r) (r_id r) (r_is_listener r) (r_service_name r) (r_is_unix r)
    (r_host r) (r_port r) x (r_last_active r).
Definition set_r_last_active (x : Z) (r : remote_mux) : remote_mux :=
  MkRemote (r_fd r) (r_ob r) (r_ib r) (r_events r) (r_devents r) (r_state r)
    (r_last_command r) (r_id r) (r_is_listener r) (r_service_name r) (r_is_unix r)
    (r_host r) (r_port r) (r_client r) x.
Definition set_w_clients (x : gmap positive mux_client) (w : world) : world :=
  MkWorld x (w_remotes w) (w_next w) (client_list w) (remote_list w) (client_number w)
    (remote_device_list w) (remote_id_map w) (w_locks w) (w_trace w).
Definition set_w_remotes (x : gmap positive remote_mux) (w : world) : world :=
  MkWorld (w_clients w) x (w_next w) (client_list w) (remote_list w) (client_number w)
    (remote_device_list w) (remote_id_map w) (w_locks w) (w_trace w).
Definition set_w_next (x : positive) (w : world) : world :=
  MkWorld (w_clients w) (w_remotes w) x (client_list w) (remote_list w) (client_number w)
    (remote_device_list w) (remote_id_map w) (w_locks w) (w_trace w).
Definition set_client_list (x : collection) (w : world) : world :=
  MkWorld (w_clients w) (w_remotes w) (w_next w) x (remote_list w) (client_number w)
    (remote_device_list w) (remote_id_map w) (w_locks w) (w_trace w).
Definition set_remote_list (x : collection) (w : world) : world :=
  MkWorld (w_clients w) (w_remotes w) (w_next w) (client_list w) x (client_number w)
    (remote_device_list w) (remote_id_map w) (w_locks w) (w_trace w).
Definition set_client_number (x : Z) (w : world) : world :=
  MkWorld (w_clients w) (w_remotes w) (w_next w) (client_list w) (remote_list w) x
    (remote_device_list w) (remote_id_map w) (w_locks w) (w_trace w).
Definition set_remote_device_list (x : option plist) (w : world) : world :=
  MkWorld (w_clients w) (w_remotes w) (w_next w) (client_list w) (remote_list w)
    (client_number w) x (remote_id_map w) (w_locks w) (w_trace w).
Definition set_remote_id_map (x : list Z) (w : world) : world :=
  MkWorld (w_clients w) (w_remotes w) (w_next w) (client_list w) (remote_list w)
    (client_number w) (remote_device_list w) x (w_locks w) (w_trace w).
Definition set_w_locks (x : list mutex) (w : world) : world :=
  MkWorld (w_clients w) (w_remotes w) (w_next w) (client_list w) (remote_list w)
    (client_number w) (remote_device_list w) (remote_id_map w) x (w_trace w).
Definition set_w_trace (x : list event) (w : world) : world :=
  MkWorld (w_clients w) (w_remotes w) (w_next w) (client_list w) (remote_list w)
    (client_number w) (remote_device_list w) (remote_id_map w) (w_locks w) x.
End records.

(** ** Heap, mutexes and system calls *)

Abbreviation M := (prog world) (only parsing).

Section access.
Context `{PL : PlistLib}.

Definition client_slots (w : world) : list (option ptr) := slots (client_list w).
Definition remote_slots (w : world) : list (option ptr) := slots (remote_list w).

(** A pointer the code dereferences without testing it. *)
Definition nonnull (o : option ptr) : M ptr := demand NullDeref o.

Definition read_client (p : ptr) : M mux_client :=
  w ← get; demand UseAfterFree (w_clients w !! p).
Definition read_remote (p : ptr) : M remote_mux :=
  w ← get; demand UseAfterFree (w_remotes w !! p).

Definition put_client (p : ptr) (c : mux_client) (w : world) : world :=
  set_w_clients (<[p := c]> (w_clients w)) w.
Definition put_remote (p : ptr) (r : remote_mux) (w : world) : world :=
  set_w_remotes (<[p := r]> (w_remotes w)) w.

(** [p->field = value]. *)
Definition write_client (p : ptr) (f : mux_client -> mux_client) : M unit :=
  c ← read_client p; modify (put_client p (f c)).
Definition write_remote (p : ptr) (f : remote_mux -> remote_mux) : M unit :=
  r ← read_remote p; modify (put_remote p (f r)).

(** The same for a fallible update of a buffer. *)
Definition lift {A} (r : A + fault) : M A :=
  match r with inl a => mret a | inr f => crash f end.

(** [malloc] and initialisation of an object, then [free]. *)
Definition alloc_client (c : mux_client) : M ptr :=
  w ← get;
  _ ← modify (fun w => set_w_next (Pos.succ (w_next w)) (put_client (w_next w) c w));
  mret (w_next w).
Definition alloc_remote (r : remote_mux) : M ptr :=
  w ← get;
  _ ← modify (fun w => set_w_next (Pos.succ (w_next w)) (put_remote (w_next w) r w));
  mret (w_next w).
Definition free_client (p : ptr) : M unit :=
  _ ← read_client p; modify (fun w => set_w_clients (delete p (w_clients w)) w).
Definition free_remote (p : ptr) : M unit :=
  _ ← read_remote p; modify (fun w => set_w_remotes (delete p (w_remotes w)) w).

(** [pthread_mutex_lock] on a default (non-recursive) mutex: a thread that
    already holds it blocks for ever. *)
Definition lock (m : mutex) : M unit :=
  w ← get;
  if bool_decide (m ∈ w_locks w) then crash SelfDeadlock
  else modify (fun w => set_w_locks (m :: w_locks w) w).
Definition unlock (m : mutex) : M unit :=
  modify (fun w => set_w_locks (filter (fun m' => m' <> m) (w_locks w)) w).

Definition log_event (e : event) : M unit :=
  modify (fun w => set_w_trace (e :: w_trace w) w).
Definition close (fd : Z) : M unit := log_event (EvClose fd).

Context `{EN : Env}.

(** [recv(fd, ..., len, 0)]: at most [len] of the available bytes. *)
Definition recv (fd len : Z) : option (list byte) := take (Z.to_nat len) <$> sys_recv fd.

(** [send(fd, bs, |bs|, 0)]: at most all of the bytes. *)
Definition send (fd : Z) (bs : list byte) : M Z :=
  if sys_send fd <=? 0 then mret (sys_send fd)
  else
    let n := Z.min (sys_send fd) (zlen bs) in
    _ ← log_event (EvSend fd (take (Z.to_nat n) bs)); mret n.

(** [recv] into a buffer at its size, which advances over what was received.
    [None] stands for a result [<= 0]: an error, end of file, or EFAULT when the
    buffer is NULL (the kernel, not the program, touches it). *)
Definition recv_into (fd : Z) (ib : iobuf) (len : Z) : M (option iobuf) :=
  match buf ib, recv fd len with
  | None, _ | _, None | _, Some [] => mret None
  | Some _, Some bs =>
      ib' ← lift (iobuf_write (size ib) bs ib);
      mret (Some (set_size (u32 (size ib + zlen bs)) ib'))
  end.
End access.
