(* ===== verification/Socket.v ===== *)
(** usbfluxd/socket.c: outgoing connections and the listening socket.

    The build without [SO_NOSIGPIPE] is modelled (Linux); log output is not.
    The socket options whose failure is only logged have no effect here. *)

From S2P Require Import Prelude Exec Mem Utils Proto Plist World.

Section socket.
Context `{PL : PlistLib} `{EN : Env}.

Definition socket_close (sfd : Z) : M unit := close sfd.

(** [sizeof(name.sun_path) - 1]: the path is truncated to that. *)
Definition SUN_PATH_MAX : nat := 107.

Definition socket_connect_unix (filename : string) : M Z :=
  match sys_stat filename with
  | None => mret (-1)
  | Some false => mret (-1)
  | Some true =>
      let sfd := sys_socket in
      if sfd <? 0 then mret (-1)
      else
        let path := bytes_string (take SUN_PATH_MAX (string_bytes filename)) in
        if negb (sys_connect_unix sfd path)
        then _ ← socket_close sfd; mret (-1)
        else mret sfd
  end.

(** [timeout] in seconds, [None] where the C caller passes NULL. The two early
    returns inside the locked region leave [gethostbyname_mutex] held. *)
Definition socket_connect_timeout (addr : option string) (port : Z) (timeout : option Z)
    : M Z :=
  match addr with
  | None => mret (-1)
  | Some addr =>
      _ ← lock gethostbyname_mutex;
      match sys_gethostbyname addr with
      | None => mret (-1)
      | Some None => mret (-1)
      | Some (Some s_addr) =>
          _ ← unlock gethostbyname_mutex;
          let sfd := sys_socket in
          if sfd <? 0 then mret (-1)
          else if negb (sys_reuseaddr sfd) then _ ← socket_close sfd; mret (-1)
          else
            match sys_connect sfd s_addr port with
            | CONNECTED => mret sfd
            | REFUSED => _ ← socket_close sfd; mret (-1)
            | INPROGRESS =>
                (* FD_SET writes a bit of a set of FD_SETSIZE bits *)
                _ ← when (FD_SETSIZE <=? sfd) (crash OutOfBounds);
                let rc := sys_select sfd (default 10 timeout) in
                if rc =? 1 then
                  if sys_so_error sfd =? 0 then mret sfd
                  else _ ← socket_close sfd; mret (-1)
                else if rc =? 0 then _ ← socket_close sfd; mret (-1)
                else _ ← socket_close sfd; mret (-1)
            end
      end
  end.

Definition socket_connect (addr : option string) (port : Z) : M Z :=
  socket_connect_timeout addr port None.

(** *** What the connect functions do to the state *)

(** The lookup found an address. *)
Definition resolves (addr : string) : Prop := exists a, sys_gethostbyname addr = Some (Some a).

(** Both connect functions only log [close] events; the descriptor they return
    is the one [socket] gave. *)
Definition only_closes (w w' : world) : Prop :=
  exists evs, w' = set_w_trace (evs ++ w_trace w) w /\
    Forall (fun e => exists fd, e = EvClose fd) evs.

Lemma set_w_trace_id w : set_w_trace (w_trace w) w = w.
Proof. by destruct w. Qed.

Lemma only_closes_refl w : only_closes w w.
Proof. exists []. simpl. split; [by rewrite set_w_trace_id|constructor]. Qed.
Lemma only_closes_one w fd : only_closes w (set_w_trace (EvClose fd :: w_trace w) w).
Proof. exists [EvClose fd]. split; [done|]. constructor; [by eexists|constructor]. Qed.

Ltac connect_case :=
  do 2 eexists; split; [done|];
  split; [first [apply only_closes_refl|apply only_closes_one]|lia].

Lemma socket_connect_unix_spec filename w :
  exists r w', socket_connect_unix filename w = Done r w' /\ only_closes w w' /\
    (0 <= r -> r = sys_socket).
Proof.
  unfold socket_connect_unix.
  destruct (sys_stat filename) as [[]|]; [|connect_case..].
  destruct (sys_socket <? 0); [connect_case|]. destruct (negb _); connect_case.
Qed.

(** With the lookup mutex free, and a known host, the mutex is free again. *)
Lemma socket_connect_timeout_spec addr port timeout w :
  w_locks w = [] \/ w_locks w = [remote_list_mutex] -> resolves addr -> sys_socket < FD_SETSIZE ->
  exists r w', socket_connect_timeout (Some addr) port timeout w = Done r w' /\
    only_closes w w' /\ (0 <= r -> r = sys_socket).
Proof.
  intros Hl [a Ha] Hfd. rewrite <- Z.leb_gt in Hfd. unfold socket_connect_timeout, lock, unlock, socket_close, close, log_event.
  unfold mbind, prog_bind, get, modify, mret, prog_ret. rewrite Ha.
  assert (gethostbyname_mutex ∉ w_locks w) as Hn by (destruct Hl as [-> | ->]; set_solver).
  rewrite bool_decide_eq_false_2 by done. simpl.
  assert (filter (fun m => m <> gethostbyname_mutex) (gethostbyname_mutex :: w_locks w)
          = w_locks w) as Hf by (by destruct Hl as [-> | ->]).
  rewrite Hf.
  set (w1 := set_w_locks _ _).
  assert (w1 = w) as -> by (by destruct w).
  unfold when, mret, prog_ret. rewrite Hfd. cbn. repeat case_match; connect_case.
Qed.
End socket.
