(* ===== verification/Client.v ===== *)
(** usbfluxd/client.c, first part: the functions of a client connection that do
    not call back into usbmux_remote.c: packet output, notifications, event
    masks, acceptance of connections. *)

From S2P Require Import Prelude Exec Mem Utils Proto Plist World.

Section client.
Context `{PL : PlistLib} `{EN : Env}.

Definition CMD_BUF_SIZE : Z := 0x10000.
Definition REPLY_BUF_SIZE : Z := 0x10000.

(** [client_read]: [None] is a negative result. *)
Definition client_read (client : ptr) (len : Z) : M (option (list byte)) :=
  c ← read_client client;
  if bool_decide (c_state c <> CLIENT_CONNECTED) then mret None
  else mret (recv (c_fd c) len).

Definition client_write (client : ptr) (buffer : list byte) : M Z :=
  c ← read_client client;
  if bool_decide (c_state c <> CLIENT_CONNECTED) then mret (-1)
  else send (c_fd c) buffer.

Definition client_set_events (client : ptr) (events : Z) : M Z :=
  c ← read_client client;
  if bool_decide (c_state c <> CLIENT_CONNECTED /\ c_state c <> CLIENT_CONNECTING2)
  then mret (-1)
  else
    _ ← write_client client (set_c_devents events);
    _ ← when (bool_decide (c_state c = CLIENT_CONNECTED))
         (write_client client (set_c_events events));
    mret 0.

Definition client_or_events (client : ptr) (events : Z) : M Z :=
  c ← read_client client;
  if bool_decide (c_state c <> CLIENT_CONNECTED /\ c_state c <> CLIENT_CONNECTING2)
  then mret (-1)
  else
    _ ← write_client client (fun c => set_c_devents (Z.lor (c_devents c) events) c);
    _ ← when (bool_decide (c_state c = CLIENT_CONNECTED))
         (write_client client (fun c => set_c_events (Z.lor (c_events c) events) c));
    mret 0.

(** A freshly accepted client ([memset] to zero, then the assignments). *)
Definition client_fresh (fd number : Z) : mux_client :=
  {| c_fd := fd;
     c_ob := iobuf_new REPLY_BUF_SIZE;
     c_ib := iobuf_new CMD_BUF_SIZE;
     c_events := POLLIN; c_devents := 0;
     c_connect_tag := 0; c_connect_device := 0;
     c_state := CLIENT_COMMAND; c_proto_version := 0; c_remote := None;
     c_last_tag := 0; c_last_command := 0; c_number := number; c_info := None |}.

Definition client_accept (listenfd : Z) : M Z :=
  let cfd := sys_accept listenfd in
  if cfd <? 0 then mret cfd
  else
    client ← alloc_client (client_fresh cfd 0);
    _ ← lock client_list_mutex;
    w ← get;
    _ ← write_client client (set_c_number (client_number w));
    _ ← modify (set_client_number (u32 (client_number w + 1)));
    _ ← modify (fun w => set_client_list (collection_add (client_list w) client) w);
    _ ← unlock client_list_mutex;
    c ← read_client client;
    mret (c_fd c).

(** An out-of-bounds write of the descriptor list is a fault. *)
Definition client_get_fds (l : fdlist) : M fdlist :=
  _ ← lock client_list_mutex;
  l' ← foreach_acc client_slots (fun l p =>
          c ← read_client p;
          demand OutOfBounds (fdlist_add l FD_CLIENT (c_fd c) (c_events c))) l;
  _ ← unlock client_list_mutex;
  mret l'.

(** ** Packets *)

Definition send_pkt_raw (client : ptr) (buffer : list byte) : M Z :=
  c ← read_client client;
  match iobuf_reserve sys_realloc (zlen buffer) (c_ob c) with
  | None => mret (-1)
  | Some ob =>
      ob ← lift (iobuf_write (size ob) buffer ob);
      _ ← write_client client (fun c =>
             set_c_events (Z.lor (c_events c) POLLOUT)
               (set_c_ob (set_size (u32 (size ob + zlen buffer)) ob) c));
      mret (zlen buffer)
  end.

Definition send_pkt (client : ptr) (tag msg : Z) (payload : list byte) : M Z :=
  c ← read_client client;
  let payload_length := zlen payload in
  let hdr := MkHeader (u32 (HEADER_SIZE + payload_length)) (c_proto_version c) msg tag in
  match iobuf_reserve sys_realloc (h_length hdr) (c_ob c) with
  | None => mret (-1)
  | Some ob =>
      ob ← lift (iobuf_write (size ob) (encode_header hdr) ob);
      ob ← (if payload_length =? 0 then mret ob
            else lift (iobuf_write (size ob + HEADER_SIZE) payload ob));
      _ ← write_client client (fun c =>
             set_c_events (Z.lor (c_events c) POLLOUT)
               (set_c_ob (set_size (u32 (size ob + h_length hdr)) ob) c));
      mret (i32 (h_length hdr))
  end.

Definition send_plist_pkt (client : ptr) (tag : Z) (p : plist) : M Z :=
  match plist_to_xml p with
  | Some xml => send_pkt client tag MESSAGE_PLIST xml
  | None => mret (-1)
  end.

(** The two encodings of a result. *)
Definition result_dict (result : Z) : plist :=
  plist_dict_set_item
    (plist_dict_set_item plist_new_dict "MessageType" (plist_new_string "Result"))
    "Number" (plist_new_uint result).

Definition send_result (client : ptr) (tag result : Z) : M Z :=
  c ← read_client client;
  if c_proto_version c =? 1
  then send_plist_pkt client tag (result_dict result)
  else send_pkt client tag MESSAGE_RESULT (le 4 result).

Definition client_send_plist_pkt (client : ptr) (p : plist) : M Z :=
  send_plist_pkt client 0 p.

Definition client_send_packet_data (client : ptr) (hdr payload : list byte) : M Z :=
  res ← send_pkt_raw client hdr;
  if 0 <? zlen payload then send_pkt_raw client payload else mret res.

(** ** Notifications *)

Definition client_set_remote (client remote : ptr) : M unit :=
  write_client client (set_c_remote (Some remote)).
Definition client_clear_remote (client : ptr) : M unit :=
  write_client client (set_c_remote None).

Definition client_notify_connect (client : ptr) (result : Z) : M Z :=
  c ← read_client client;
  if bool_decide (c_state c = CLIENT_DEAD) then mret (-1)
  else if bool_decide (c_state c <> CLIENT_CONNECTING1) then mret (-1)
  else
    res ← send_result client (c_connect_tag c) result;
    if res <? 0 then mret (-1)
    else if result =? RESULT_OK then
      _ ← write_client client (fun c =>
             set_c_ib (iobuf_drop (c_ib c))
               (set_c_events POLLOUT (set_c_state CLIENT_CONNECTING2 c)));
      mret 0
    else
      _ ← write_client client (set_c_state CLIENT_COMMAND); mret 0.

(** An optional [uint] child of the device dictionary, 0 when absent. *)
Definition uint_or_0 (node : option plist) : Z :=
  match node with Some n => default 0 (plist_get_uint_val n) | None => 0 end.

(** The binary announcement of a device: [struct usbmuxd_device_record]. The
    serial number keeps at most 255 bytes, the last byte is always 0. *)
Definition device_record (dev : plist) : usbmuxd_device_record :=
  let serial :=
    match plist_access_path2 dev "Properties" "SerialNumber" with
    | Some n => match plist_get_string_val n with
                | Some s => strncpy 256 (string_bytes s)
                | None => replicate 256 Byte.x00
                end
    | None => replicate 256 Byte.x00
    end in
  {| dr_device_id := u32 (uint_or_0 (plist_dict_get_item dev "DeviceID"));
     dr_product_id := u16 (uint_or_0 (plist_access_path2 dev "Properties" "ProductID"));
     dr_serial_number := <[255%nat := Byte.x00]> serial;
     dr_padding := 0;
     dr_location := u32 (uint_or_0 (plist_access_path2 dev "Properties" "LocationID")) |}.

Definition notify_device_add (client : ptr) (dev : plist) : M Z :=
  c ← read_client client;
  if c_proto_version c =? 1 then send_plist_pkt client 0 dev
  else send_pkt client 0 MESSAGE_DEVICE_ADD (encode_device_record (device_record dev)).

Definition detached_dict (device_id : Z) : plist :=
  plist_dict_set_item
    (plist_dict_set_item plist_new_dict "MessageType" (plist_new_string "Detached"))
    "DeviceID" (plist_new_uint device_id).

Definition notify_device_remove (client : ptr) (device_id : Z) : M Z :=
  c ← read_client client;
  if c_proto_version c =? 1 then send_plist_pkt client 0 (detached_dict device_id)
  else send_pkt client 0 MESSAGE_DEVICE_REMOVE (le 4 device_id).

(** Both broadcasts run over the list with its mutex held. *)
Definition client_broadcast (notify : ptr -> M Z) : M unit :=
  _ ← lock client_list_mutex;
  _ ← foreach client_slots (fun p =>
         c ← read_client p;
         when (bool_decide (c_state c = CLIENT_LISTEN)) (_ ← notify p; mret tt));
  unlock client_list_mutex.

Definition client_device_add (dev : plist) : M unit :=
  client_broadcast (fun p => notify_device_add p dev).
Definition client_device_remove (device_id : Z) : M unit :=
  client_broadcast (fun p => notify_device_remove p device_id).

Definition client_remote_unset (remote : option ptr) : M unit :=
  _ ← lock client_list_mutex;
  _ ← foreach client_slots (fun p =>
         c ← read_client p;
         when (bool_decide (c_remote c = remote)) (write_client p (set_c_remote None)));
  unlock client_list_mutex.

(** ** Information about the peer *)

(** [plist_dict_copy_string_val]. *)
Definition plist_dict_copy_string_val (dict : plist) (key : string) : option string :=
  if bool_decide (plist_get_node_type dict <> PLIST_DICT) then None
  else
    match plist_dict_get_item dict key with
    | Some item =>
        if bool_decide (plist_get_node_type item <> PLIST_STRING) then None
        else plist_get_string_val item
    | None => None
    end.

Definition copy_string_item (dict : plist) (key : string) (info : plist) : plist :=
  match plist_dict_get_item dict key with
  | Some node =>
      if bool_decide (plist_get_node_type node = PLIST_STRING) then
        plist_dict_set_item info key
          (plist_new_string (default EmptyString (plist_get_string_val node)))
      else info
  | None => info
  end.

Definition client_info (dict : plist) : plist :=
  let info := copy_string_item dict "BundleID" plist_new_dict in
  let info := copy_string_item dict "ClientVersionString" info in
  let info := copy_string_item dict "ProgName" info in
  match plist_dict_get_item dict "kLibUSBMuxVersion" with
  | Some node =>
      if bool_decide (plist_get_node_type node = PLIST_UINT) then
        plist_dict_set_item info "kLibUSBMuxVersion"
          (plist_new_uint (default 0 (plist_get_uint_val node)))
      else info
  | None => info
  end.

Definition update_client_info (client : ptr) (dict : plist) : M unit :=
  write_client client (set_c_info (Some (client_info dict))).

Definition client_init : M unit :=
  modify (fun w => set_client_list collection_init w).
End client.
