(* ===== verification/Remote.v ===== *)
(** usbfluxd/usbmux_remote.c, first part: connections to usbmuxd instances, the
    requests forwarded over them, the list of devices and the lists shown to
    clients. Tearing connections down is in Teardown.v. *)

From stdpp Require Import pretty.
From S2P Require Import Prelude Exec Mem Utils Proto CStr RemoteId Plist World Socket Client.

Definition USBMUXD_RENAMED_SOCKET : string := "/var/run/usbmuxd.orig".

Section remote.
Context `{PL : PlistLib} `{EN : Env}.

(** ** New connections *)

(** The object built for a connected descriptor. *)
Definition remote_fresh (fd : Z) : remote_mux :=
  {| r_fd := fd;
     r_ob := iobuf_new REPLY_BUF_SIZE;
     r_ib := iobuf_new (REPLY_BUF_SIZE * 8);
     r_events := POLLIN; r_devents := 0;
     r_state := REMOTE_COMMAND; r_last_command := -1; r_id := 0;
     r_is_listener := false; r_service_name := None; r_is_unix := false;
     r_host := None; r_port := 0; r_client := None; r_last_active := sys_now |}.

Definition remote_mux_new_with_fd (fd : Z) : M (option ptr) :=
  if sys_getfl fd <? 0 then _ ← close fd; mret None
  else if sys_setfl fd <? 0 then _ ← close fd; mret None
  else r ← alloc_remote (remote_fresh fd); mret (Some r).

Definition remote_mux_new_with_unix_socket (upath : string) : M (option ptr) :=
  fd ← socket_connect_unix upath;
  if fd <? 0 then mret None
  else
    r ← remote_mux_new_with_fd fd;
    match r with
    | Some p => _ ← write_remote p (set_r_is_unix true); mret (Some p)
    | None => mret None
    end.

Definition remote_mux_new_with_host (hostname : option string) (port : Z) : M (option ptr) :=
  fd ← socket_connect_timeout hostname port (Some 5);
  if fd <? 0 then mret None
  else
    r ← remote_mux_new_with_fd fd;
    match r with
    | Some p =>
        h ← demand NullDeref hostname;
        _ ← write_remote p (fun r => set_r_port port (set_r_host (Some h) r));
        mret (Some p)
    | None => mret None
    end.

(** ** Packets *)

Definition PLIST_BUNDLE_ID : string := "com.corellium.usbfluxd".
Definition PLIST_PROGNAME : string := "usbfluxd".
Definition PLIST_LIBUSBMUX_VERSION : Z := 3.
(** [PLIST_PROGNAME " " VERSION], with the version of configure.ac. *)
Definition PLIST_CLIENT_VERSION_STRING : string := "usbfluxd 1.2.0".

Definition create_plist_message (message_type : string) : plist :=
  let d := plist_new_dict in
  let d := plist_dict_set_item d "BundleID" (plist_new_string PLIST_BUNDLE_ID) in
  let d := plist_dict_set_item d "ClientVersionString"
             (plist_new_string PLIST_CLIENT_VERSION_STRING) in
  let d := plist_dict_set_item d "MessageType" (plist_new_string message_type) in
  let d := plist_dict_set_item d "ProgName" (plist_new_string PLIST_PROGNAME) in
  plist_dict_set_item d "kLibUSBMuxVersion" (plist_new_uint PLIST_LIBUSBMUX_VERSION).

Definition remote_send_pkt (remote : ptr) (tag msg : Z) (payload : list byte) : M Z :=
  r ← read_remote remote;
  let payload_length := zlen payload in
  let hdr := MkHeader (u32 (HEADER_SIZE + payload_length)) 1 msg tag in
  match iobuf_reserve sys_realloc (h_length hdr) (r_ob r) with
  | None => mret (-1)
  | Some ob =>
      ob ← lift (iobuf_write (size ob) (encode_header hdr) ob);
      ob ← (if payload_length =? 0 then mret ob
            else lift (iobuf_write (size ob + HEADER_SIZE) payload ob));
      _ ← write_remote remote (fun r =>
             set_r_events (Z.lor (r_events r) POLLOUT)
               (set_r_ob (set_size (u32 (size ob + h_length hdr)) ob) r));
      mret (i32 (h_length hdr))
  end.

Definition remote_send_plist_pkt (remote : ptr) (tag : Z) (p : plist) : M Z :=
  match plist_to_xml p with
  | Some xml => remote_send_pkt remote tag MESSAGE_PLIST xml
  | None => mret (-1)
  end.

Definition remote_send_listen_packet (remote : ptr) : M Z :=
  res ← remote_send_plist_pkt remote 0 (create_plist_message "Listen");
  _ ← when (0 <? res) (write_remote remote (set_r_last_command REMOTE_CMD_LISTEN));
  mret res.

(** ** Requests of clients *)

(** The loop that finds the listening remote of an id and opens another
    connection to the same host. *)
Definition connect_like (remote_mux_id : Z) : M (option ptr) :=
  r ← foreach_break remote_slots (fun p =>
        r ← read_remote p;
        if (r_id r =? remote_mux_id) && bool_decide (r_state r = REMOTE_LISTEN)
        then n ← remote_mux_new_with_host (r_host r) (r_port r); mret (Some n)
        else mret None);
  mret (mjoin r).

Definition add_to_remote_list (remote : ptr) : M unit :=
  modify (fun w => set_remote_list (collection_add (remote_list w) remote) w).

Definition usbmux_remote_connect (device_id : Z) (req : plist) (client : ptr) : M Z :=
  let remote_mux_id := u8 (Z.shiftr device_id 24) in
  _ ← lock remote_list_mutex;
  remote ← (if remote_mux_id =? 0
             then remote_mux_new_with_unix_socket USBMUXD_RENAMED_SOCKET
             else connect_like remote_mux_id);
  _ ← match remote with
      | Some p =>
          _ ← write_remote p (fun r =>
                 set_r_client (Some client)
                   (set_r_state REMOTE_CONNECTING1 (set_r_id remote_mux_id r)));
          _ ← client_set_remote client p;
          add_to_remote_list p
      | None => mret tt
      end;
  _ ← unlock remote_list_mutex;
  match remote with
  | None => mret (-1)
  | Some p =>
      let req := plist_dict_set_item req "DeviceID"
                   (plist_new_uint (Z.land device_id 0xFFFFFF)) in
      _ ← remote_send_plist_pkt p 0 req;
      mret 0
  end.

(** [plist_dict_foreach]: the callback is given a context and stops the
    iteration with a negative result. *)
Fixpoint plist_dict_foreach {C} (l : list (string * plist))
    (func : string -> plist -> C -> M (Z * C)) (context : C) : M C :=
  match l with
  | [] => mret context
  | (key, value) :: l' =>
      rc ← func key value context;
      if rc.1 <? 0 then mret rc.2 else plist_dict_foreach l' func rc.2
  end.

(** The entries of [remote_device_list]; a NULL list has none. *)
Definition device_entries (w : world) : list (string * plist) :=
  match remote_device_list w with Some d => plist_dict_items d | None => [] end.

(** [(uint32_t)strtol(key, NULL, 16)]. *)
Definition key_device_id (key : string) : Z := u32 (strtol key 16).
#[global] Arguments key_device_id : simpl never.

(** The last part of the four pair-record and BUID requests: link the new
    connection to the client and remember it. *)
Definition register_request (remote : option ptr) (client : ptr) : M unit :=
  match remote with
  | Some p => _ ← client_set_remote client p; add_to_remote_list p
  | None => mret tt
  end.
Definition finish_request (remote : ptr) (res command : Z) (client : ptr) : M Z :=
  if 0 <? res then
    _ ← write_remote remote (fun r => set_r_client (Some client) (set_r_last_command command r));
    mret 0
  else mret (-1).

Definition usbmux_remote_read_buid (tag : Z) (client : ptr) : M Z :=
  _ ← lock remote_list_mutex;
  w ← get;
  let remote_mux_id :=
    match device_entries w with
    | (key, _) :: _ => Z.shiftr (key_device_id key) 24
    | [] => 0
    end in
  remote ← (if remote_mux_id =? 0
             then remote_mux_new_with_unix_socket USBMUXD_RENAMED_SOCKET
             else connect_like remote_mux_id);
  _ ← register_request remote client;
  _ ← unlock remote_list_mutex;
  match remote with
  | None => mret (-1)
  | Some p =>
      res ← remote_send_plist_pkt p tag (create_plist_message "ReadBUID");
      finish_request p res REMOTE_CMD_READ_BUID client
  end.

(** [record_id] is NULL when the request has no record id; [strcmp] with it is
    then a NULL dereference. *)
Definition match_device (record_id : option string) (key : string) (value : plist)
    (device_id : Z) : M (Z * Z) :=
  let device_udid :=
    match plist_access_path2 value "Properties" "SerialNumber" with
    | Some p_udid => plist_get_string_val p_udid
    | None => None
    end in
  match device_udid with
  | Some udid =>
      id ← demand NullDeref record_id;
      if String.eqb udid id then mret (-1, key_device_id key) else mret (0, device_id)
  | None => mret (0, device_id)
  end.

(** The connection for a pair-record request: that of the device with the given
    UDID, else the local usbmuxd. *)
Definition connect_for_record (record_id : option string) : M (option ptr) :=
  w ← get;
  device_id ← plist_dict_foreach (device_entries w) (match_device record_id) 0;
  if device_id =? 0 then remote_mux_new_with_unix_socket USBMUXD_RENAMED_SOCKET
  else
    let remote_mux_id := u8 (Z.shiftr device_id 24) in
    if remote_mux_id =? 0 then remote_mux_new_with_unix_socket USBMUXD_RENAMED_SOCKET
    else connect_like remote_mux_id.

Definition record_message (message_type : string) (record_id : string) : plist :=
  plist_dict_set_item (create_plist_message message_type) "PairRecordID"
    (plist_new_string record_id).

Definition usbmux_remote_read_pair_record (record_id : option string) (tag : Z)
    (client : ptr) : M Z :=
  _ ← lock remote_list_mutex;
  remote ← connect_for_record record_id;
  _ ← register_request remote client;
  _ ← unlock remote_list_mutex;
  match remote with
  | None => mret (-1)
  | Some p =>
      id ← demand NullDeref record_id;
      res ← remote_send_plist_pkt p tag (record_message "ReadPairRecord" id);
      finish_request p res REMOTE_CMD_READ_PAIR_RECORD client
  end.

Definition usbmux_remote_save_pair_record (record_id : option string) (req : plist)
    (tag : Z) (client : ptr) : M Z :=
  _ ← lock remote_list_mutex;
  remote ← connect_for_record record_id;
  _ ← register_request remote client;
  _ ← unlock remote_list_mutex;
  match remote with
  | None => mret (-1)
  | Some p =>
      res ← remote_send_plist_pkt p tag req;
      finish_request p res REMOTE_CMD_SAVE_PAIR_RECORD client
  end.

Definition usbmux_remote_delete_pair_record (record_id : option string) (tag : Z)
    (client : ptr) : M Z :=
  _ ← lock remote_list_mutex;
  remote ← connect_for_record record_id;
  _ ← register_request remote client;
  _ ← unlock remote_list_mutex;
  match remote with
  | None => mret (-1)
  | Some p =>
      id ← demand NullDeref record_id;
      res ← remote_send_plist_pkt p tag (record_message "DeletePairRecord" id);
      finish_request p res REMOTE_CMD_DELETE_PAIR_RECORD client
  end.

(** ** Adding instances *)

(** The test of [remote_mux_service_add]: the names are those of a listener, so
    [strcmp] gets no NULL. *)
Definition same_instance (service_name host_name : string) (port : Z) (r : remote_mux)
    : M bool :=
  if negb (r_is_unix r) && r_is_listener r then
    s ← demand NullDeref (r_service_name r);
    if String.eqb s service_name then mret true
    else
      h ← demand NullDeref (r_host r);
      mret (String.eqb h host_name && (r_port r =? port))
  else mret false.

Definition remote_mux_service_add (service_name host_name : string) (port : Z) : M Z :=
  _ ← lock remote_list_mutex;
  found ← foreach_break remote_slots (fun p =>
            r ← read_remote p;
            b ← same_instance service_name host_name port r;
            mret (if b : bool then Some p else None));
  match found with
  | Some _ => _ ← unlock remote_list_mutex; mret (-2)
  | None =>
      remote ← remote_mux_new_with_host (Some host_name) port;
      match remote with
      | None => _ ← unlock remote_list_mutex; mret (-1)
      | Some p =>
          w ← get;
          let new_remote_id := get_new_remote_id (remote_id_map w) in
          if new_remote_id =? 0 then
            _ ← unlock remote_list_mutex;
            r ← read_remote p;
            _ ← close (r_fd r);
            _ ← free_remote p;
            mret (-1)
          else
            _ ← write_remote p (fun r =>
                   set_r_is_listener true
                     (set_r_service_name (Some service_name) (set_r_id new_remote_id r)));
            _ ← add_to_remote_list p;
            _ ← modify (fun w => set_remote_id_map
                   (set_remote_id_used new_remote_id true (remote_id_map w)) w);
            _ ← remote_send_listen_packet p;
            _ ← unlock remote_list_mutex;
            mret 0
      end
  end.

Definition usbmux_remote_add_remote (host_name : string) (port : Z) : M Z :=
  remote_mux_service_add host_name host_name port.

(** [no_mdns] only decides whether the mDNS thread is started. *)
Definition usbmux_remote_init (no_mdns : bool) : M unit :=
  _ ← modify (fun w => set_remote_list collection_init w);
  _ ← modify (fun w => set_remote_device_list (Some plist_new_dict) w);
  _ ← modify (fun w => set_remote_id_map remote_id_map_init w);
  remote ← remote_mux_new_with_unix_socket USBMUXD_RENAMED_SOCKET;
  match remote with
  | None => mret tt
  | Some p =>
      _ ← lock remote_list_mutex;
      _ ← write_remote p (fun r => set_r_is_listener true (set_r_id 0 r));
      _ ← add_to_remote_list p;
      _ ← modify (fun w => set_remote_id_map (set_remote_id_used 0 true (remote_id_map w)) w);
      _ ← remote_send_listen_packet p;
      unlock remote_list_mutex
  end.

(** ** What poll watches *)

(** A remote silent for ten seconds gets a thread probing its host. *)
Definition check_silent (p : ptr) (r : remote_mux) : M unit :=
  let now := sys_now in
  when (negb (r_is_unix r) && (10000 <? u64 (now - r_last_active r)))
    (_ ← when (bool_decide (r_host r <> None) && negb (r_port r =? 0))
           (when sys_thread (log_event (EvCheckThread (r_fd r))));
     write_remote p (set_r_last_active now)).

Definition usbmux_remote_get_fds (l : fdlist) : M fdlist :=
  _ ← lock remote_list_mutex;
  l' ← foreach_acc remote_slots (fun l p =>
          r ← read_remote p;
          _ ← check_silent p r;
          demand OutOfBounds (fdlist_add l FD_REMOTE (r_fd r) (r_events r))) l;
  _ ← unlock remote_list_mutex;
  mret l'.

(** The body of that thread: on failure the descriptor of the remote is closed
    behind the main thread, which then sees [POLLNVAL]. *)
Definition check_remote_func (remote : ptr) : M unit :=
  r ← read_remote remote;
  let openfd := r_fd r in
  checkfd ← socket_connect_timeout (r_host r) (r_port r) (Some 2);
  if checkfd <? 0 then socket_close openfd else socket_close checkfd.

(** ** Lists for clients *)

Definition array_append_item_copy (key : string) (value : plist) (array : plist) : M (Z * plist) :=
  mret (0, plist_array_append_item array value).

Definition usbmux_remote_copy_device_list : M plist :=
  _ ← lock remote_list_mutex;
  w ← get;
  devices ← plist_dict_foreach (device_entries w) array_append_item_copy plist_new_array;
  _ ← unlock remote_list_mutex;
  mret devices.

Definition usbmux_remote_clear_client (remote : ptr) : M unit :=
  write_remote remote (set_r_client None).

Definition remote_device_get_for_instance (id : Z) (key : string) (value : plist)
    (array : plist) : M (Z * plist) :=
  if Z.shiftr (key_device_id key) 24 =? id then
    match plist_access_path2 value "Properties" "SerialNumber" with
    | Some udid => mret (0, plist_array_append_item array udid)
    | None => mret (0, array)
    end
  else mret (0, array).

Definition instance_entry (r : remote_mux) (devices : plist) : M plist :=
  let entry := plist_dict_set_item plist_new_dict "IsUnix" (plist_new_bool (r_is_unix r)) in
  entry ← (if negb (r_is_unix r) then
              s ← demand NullDeref (r_service_name r);
              h ← demand NullDeref (r_host r);
              let entry := plist_dict_set_item entry "ServiceName" (plist_new_string s) in
              let entry := plist_dict_set_item entry "Host" (plist_new_string h) in
              mret (plist_dict_set_item entry "Port" (plist_new_uint (r_port r)))
            else mret entry);
  let entry := plist_dict_set_item entry "DeviceCount"
                 (plist_new_uint (zlen (plist_array_items devices))) in
  mret (plist_dict_set_item entry "Devices" devices).

Definition usbmux_remote_copy_instances : M plist :=
  _ ← lock remote_list_mutex;
  dict ← foreach_acc remote_slots (fun dict p =>
            r ← read_remote p;
            w ← get;
            if r_is_listener r && bool_decide (r_state r = REMOTE_LISTEN) then
              devices ← plist_dict_foreach (device_entries w)
                          (remote_device_get_for_instance (r_id r)) plist_new_array;
              entry ← instance_entry r devices;
              mret (plist_dict_set_item dict (pretty (r_id r)) entry)
            else mret dict) plist_new_dict;
  _ ← unlock remote_list_mutex;
  mret dict.
End remote.
