(* ===== verification/Teardown.v ===== *)
(** Closing connections: the mutually dependent functions of client.c and
    usbmux_remote.c that free clients and remotes.

    [client_close] frees a client and the remote it is linked to;
    [usbmux_remote_close] starts from the remote; [usbmux_remote_dispose] also
    withdraws the devices of the remote and releases its identifier;
    [remote_mark_dead] condemns every connection of an instance. *)

From S2P Require Import Prelude Exec Mem Utils Proto CStr RemoteId Plist World.
From S2P Require Import Socket Client Remote.

Section teardown.
Context `{PL : PlistLib} `{EN : Env}.

Definition remove_from_remote_list (remote : ptr) : M unit :=
  modify (fun w => set_remote_list (collection_remove (remote_list w) remote) w).

(** [remote_close] of usbmux_remote.c. *)
Definition remote_close (remote : ptr) : M unit :=
  r ← read_remote remote;
  _ ← close (r_fd r);
  _ ← remove_from_remote_list remote;
  free_remote remote.

Definition usbmux_remote_notify_client_close (remote : ptr) : M unit :=
  _ ← lock remote_list_mutex;
  _ ← remote_close remote;
  unlock remote_list_mutex.

Definition client_close (client : ptr) : M unit :=
  c ← read_client client;
  _ ← when (bool_decide (c_state c = CLIENT_CONNECTING1 \/ c_state c = CLIENT_CONNECTING2))
       (write_client client (set_c_state CLIENT_DEAD));
  _ ← close (c_fd c);
  _ ← match c_remote c with
      | Some remote =>
          _ ← usbmux_remote_clear_client remote;
          usbmux_remote_notify_client_close remote
      | None => mret tt
      end;
  _ ← lock client_list_mutex;
  _ ← modify (fun w => set_client_list (collection_remove (client_list w) client) w);
  _ ← unlock client_list_mutex;
  free_client client.

Definition client_notify_remote_close (client : ptr) : M unit := client_close client.

Definition usbmux_remote_close (remote : ptr) : M unit :=
  r ← read_remote remote;
  match r_client r with
  | Some client => client_notify_remote_close client
  | None =>
      _ ← lock remote_list_mutex;
      _ ← remote_close remote;
      unlock remote_list_mutex
  end.

(** The device list callback: withdraws the devices of one instance. *)
Definition remote_device_notify_remove (id : Z) (key : string) (value : plist) (_ : unit)
    : M (Z * unit) :=
  let val := key_device_id key in
  _ ← when (Z.shiftr val 24 =? id)
       (_ ← client_device_remove val;
        modify (fun w =>
          set_remote_device_list
            ((fun d => plist_dict_remove_item d key) <$> remote_device_list w) w));
  mret (0, tt).

Definition usbmux_remote_dispose (remote : ptr) : M unit :=
  r ← read_remote remote;
  _ ← close (r_fd r);
  w ← get;
  _ ← plist_dict_foreach (device_entries w) (remote_device_notify_remove (r_id r)) tt;
  _ ← remove_from_remote_list remote;
  _ ← match r_client r with
      | Some client =>
          _ ← client_clear_remote client;
          client_notify_remote_close client
      | None => mret tt
      end;
  _ ← when (r_is_listener r && bool_decide (r_host r <> None))
       (modify (fun w =>
          set_remote_id_map (set_remote_id_used (r_id r) false (remote_id_map w)) w));
  free_remote remote.

(** "mark as dead, and all others with same remote id"; then make sure the next
    poll comes back to reap them, or reap here when no remote is left alive. *)
Definition remote_mark_dead (remote : ptr) : M unit :=
  _ ← write_remote remote (set_r_state REMOTE_DEAD);
  _ ← foreach remote_slots (fun p =>
         r ← read_remote p;
         r0 ← read_remote remote;
         when (r_id r =? r_id r0) (write_remote p (set_r_state REMOTE_DEAD)));
  rem ← foreach_break remote_slots (fun p =>
         r ← read_remote p;
         if bool_decide (r_state r <> REMOTE_DEAD) then
           _ ← write_remote p (fun r => set_r_events (Z.lor (r_events r) POLLOUT) r);
           mret (Some p)
         else mret None);
  match rem with
  | Some _ => mret tt
  | None => foreach remote_slots usbmux_remote_dispose
  end.

Definition usbmux_remote_mark_dead (remote : ptr) : M unit :=
  _ ← lock remote_list_mutex;
  _ ← remote_mark_dead remote;
  unlock remote_list_mutex.

(** Which listener a removal names: by service (mDNS) or by host and port. *)
Definition names_instance (service_name host_name : option string) (port : Z) (r : remote_mux)
    : M bool :=
  if negb (r_is_unix r) && r_is_listener r then
    by_service ← match service_name with
                 | Some s => n ← demand NullDeref (r_service_name r); mret (String.eqb n s)
                 | None => mret false
                 end;
    if by_service : bool then mret true
    else
      match host_name with
      | Some h =>
          n ← demand NullDeref (r_host r);
          mret (String.eqb n h && (r_port r =? port))
      | None => mret false
      end
  else mret false.

Definition remote_mux_service_remove (service_name host_name : option string) (port : Z) : M Z :=
  _ ← lock remote_list_mutex;
  found ← foreach_break remote_slots (fun p =>
            r ← read_remote p;
            b ← names_instance service_name host_name port r;
            mret (if b : bool then Some p else None));
  res ← match found with
        | Some remote => _ ← remote_mark_dead remote; mret 0
        | None => mret (-1)
        end;
  _ ← unlock remote_list_mutex;
  mret res.

Definition usbmux_remote_remove_remote (host_name : string) (port : Z) : M Z :=
  remote_mux_service_remove None (Some host_name) port.

Definition usbmux_remote_shutdown : M unit :=
  _ ← lock remote_list_mutex;
  _ ← foreach remote_slots usbmux_remote_dispose;
  _ ← unlock remote_list_mutex;
  _ ← modify (fun w => set_remote_list (collection_free (remote_list w)) w);
  modify (fun w => set_remote_device_list None w).

Definition client_shutdown : M unit :=
  _ ← foreach client_slots client_close;
  modify (fun w => set_client_list (collection_free (client_list w)) w).
End teardown.
