(* ===== verification/Command.v ===== *)
(** usbfluxd/client.c, second part: the commands of a client and the processing
    of poll events on client descriptors. *)

From stdpp Require Import pretty.
From S2P Require Import Prelude Exec Mem Utils Proto CStr RemoteId Plist World.
From S2P Require Import Socket Client Remote Teardown.

Section command.
Context `{PL : PlistLib} `{EN : Env}.

(** ** Lists *)

Definition send_device_list (client : ptr) (tag : Z) : M Z :=
  devices ← usbmux_remote_copy_device_list;
  send_plist_pkt client tag (plist_dict_set_item plist_new_dict "DeviceList" devices).

(** One entry of "ListenerList". The id string is made from the number of the
    client that asks, not of the listener [lc]. *)
Definition listener_entry (number : Z) (lc : mux_client) : plist :=
  let from_info key :=
    match c_info lc with Some i => plist_dict_get_item i key | None => None end in
  let l := plist_dict_set_item plist_new_dict "Blacklisted" (plist_new_bool false) in
  let l := match from_info "BundleID" with
           | Some n => plist_dict_set_item l "BundleID" n
           | None => l
           end in
  let l := plist_dict_set_item l "ConnType" (plist_new_uint 0) in
  let progname :=
    match from_info "ProgName" with
    | Some n => default "unknown"%string (plist_get_string_val n)
    | None => "unknown"%string
    end in
  let idstring := (pretty number +:+ "-" +:+ progname)%string in
  let l := plist_dict_set_item l "ID String" (plist_new_string idstring) in
  let l := plist_dict_set_item l "ProgName" (plist_new_string progname) in
  plist_dict_set_item l "kLibUSBMuxVersion"
    (plist_new_uint (uint_or_0 (from_info "kLibUSBMuxVersion"))).

Definition send_listener_list (client : ptr) (tag : Z) : M Z :=
  _ ← lock client_list_mutex;
  listeners ← foreach_acc client_slots (fun listeners p =>
        lc ← read_client p;
        if bool_decide (c_state lc = CLIENT_LISTEN) then
          c ← read_client client;
          mret (plist_array_append_item listeners (listener_entry (c_number c) lc))
        else mret listeners) plist_new_array;
  _ ← unlock client_list_mutex;
  send_plist_pkt client tag (plist_dict_set_item plist_new_dict "ListenerList" listeners).

Definition send_instances (client : ptr) (tag : Z) : M Z :=
  instances ← usbmux_remote_copy_instances;
  send_plist_pkt client tag (plist_dict_set_item plist_new_dict "Instances" instances).

(** The devices already known are announced one by one; the result is how many
    announcements were queued. *)
Fixpoint announce (client : ptr) (devs : list plist) (count : Z) : M Z :=
  match devs with
  | [] => mret count
  | dev :: devs' =>
      res ← notify_device_add client dev;
      if res <? 0 then mret count else announce client devs' (count + 1)
  end.

Definition start_listen (client : ptr) : M Z :=
  _ ← write_client client (set_c_state CLIENT_LISTEN);
  devices ← usbmux_remote_copy_device_list;
  announce client (plist_array_items devices) 0.

(** ** Commands *)

(** [if (send_result(...) < 0) return -1; return 0;] *)
Definition reply (client : ptr) (tag result : Z) : M Z :=
  res ← send_result client tag result;
  mret (if res <? 0 then -1 else 0).

(** What both connect requests do with the result of [usbmux_remote_connect]. *)
Definition connect_outcome (client : ptr) (tag device_id res : Z) : M Z :=
  if res <? 0 then reply client tag (- res)
  else
    _ ← write_client client (fun c =>
           set_c_state CLIENT_CONNECTING1
             (set_c_connect_device (i32 device_id) (set_c_connect_tag tag c)));
    mret 0.

Definition cmd_connect (client : ptr) (tag : Z) (dict : plist) : M Z :=
  match plist_dict_get_item dict "DeviceID" with
  | None => reply client tag RESULT_BADDEV
  | Some node =>
      let device_id := u32 (default 0 (plist_get_uint_val node)) in
      match plist_dict_get_item dict "PortNumber" with
      | None => reply client tag RESULT_BADCOMMAND
      | Some _ =>
          res ← usbmux_remote_connect device_id dict client;
          connect_outcome client tag device_id res
      end
  end.

(** The host and port arguments of "AddInstance" and "RemoveInstance". *)
Definition instance_args (dict : plist) : option (string * Z) :=
  match plist_dict_copy_string_val dict "HostAddress" with
  | None => None
  | Some hostaddr =>
      match plist_dict_get_item dict "PortNumber" with
      | None => None
      | Some node => Some (hostaddr, u16 (default 0 (plist_get_uint_val node)))
      end
  end.

Definition cmd_add_instance (client : ptr) (tag : Z) (dict : plist) : M Z :=
  match instance_args dict with
  | None => reply client tag RESULT_BADCOMMAND
  | Some (hostaddr, portnum) =>
      rv ← usbmux_remote_add_remote hostaddr portnum;
      if rv <? 0 then
        reply client tag (if rv =? -2 then RESULT_BADDEV else RESULT_CONNREFUSED)
      else reply client tag RESULT_OK
  end.

Definition cmd_remove_instance (client : ptr) (tag : Z) (dict : plist) : M Z :=
  match instance_args dict with
  | None => reply client tag RESULT_BADCOMMAND
  | Some (hostaddr, portnum) =>
      rv ← usbmux_remote_remove_remote hostaddr portnum;
      if rv <? 0 then reply client tag RESULT_BADDEV else reply client tag RESULT_OK
  end.

(** The answer comes before the announcements. *)
Definition listen_request (client : ptr) (tag : Z) : M Z :=
  res ← send_result client tag 0;
  if res <? 0 then mret (-1) else start_listen client.

(** [if (f(...) < 0) return -1; return 0;] *)
Definition status (m : M Z) : M Z := res ← m; mret (if res <? 0 then -1 else 0).

(** A plist message: dispatch on its "MessageType". *)
Definition plist_command (client : ptr) (tag : Z) (dict : plist) (message : string) : M Z :=
  let record_id := plist_dict_copy_string_val dict "PairRecordID" in
  if String.eqb message "Listen" then listen_request client tag
  else if String.eqb message "Connect" then cmd_connect client tag dict
  else if String.eqb message "ListDevices" then status (send_device_list client tag)
  else if String.eqb message "ListListeners" then status (send_listener_list client tag)
  else if String.eqb message "ReadBUID" then
    _ ← usbmux_remote_read_buid tag client; mret 0
  else if String.eqb message "ReadPairRecord" then
    status (usbmux_remote_read_pair_record record_id tag client)
  else if String.eqb message "SavePairRecord" then
    status (usbmux_remote_save_pair_record record_id dict tag client)
  else if String.eqb message "DeletePairRecord" then
    status (usbmux_remote_delete_pair_record record_id tag client)
  else if String.eqb message "Instances" then status (send_instances client tag)
  else if String.eqb message "AddInstance" then cmd_add_instance client tag dict
  else if String.eqb message "RemoveInstance" then cmd_remove_instance client tag dict
  else reply client tag RESULT_BADCOMMAND.

(** The dictionary the binary connect request is translated to. *)
Definition connect_dict (ch : usbmuxd_connect_request) : plist :=
  let msg := plist_dict_set_item plist_new_dict "MessageType" (plist_new_string "Connect") in
  let msg := plist_dict_set_item msg "DeviceID" (plist_new_uint (ch_device_id ch)) in
  plist_dict_set_item msg "PortNumber" (plist_new_uint (ch_port ch)).

(** The binary request: the two fields read are the bytes 16 to 21 of the input
    buffer, whatever the message length. *)
Definition binary_connect (client : ptr) (tag : Z) (ib : iobuf) : M Z :=
  req ← lift (iobuf_read 0 22 ib);
  let ch := decode_connect req in
  res ← usbmux_remote_connect (ch_device_id ch) (connect_dict ch) client;
  connect_outcome client tag (ch_device_id ch) res.

(** A property list message; the header and the payload are in the input buffer. *)
Definition plist_request (client : ptr) (hdr : usbmuxd_header) (ib : iobuf) : M Z :=
  _ ← write_client client (set_c_proto_version 1);
  payload ← lift (iobuf_read HEADER_SIZE (u32 (h_length hdr - HEADER_SIZE)) ib);
  match plist_from_xml payload with
  | None => mret (-1)
  | Some dict =>
      match plist_dict_get_item dict "MessageType" with
      | None => mret (-1)
      | Some node =>
          if bool_decide (plist_get_node_type node <> PLIST_STRING) then mret (-1)
          else
            match plist_get_string_val node with
            | None => mret (-1)
            | Some message =>
                _ ← update_client_info client dict;
                plist_command client (h_tag hdr) dict message
            end
      end
  end.

(** [hdr] points to the start of the input buffer. *)
Definition client_command (client : ptr) : M Z :=
  c ← read_client client;
  raw ← lift (iobuf_read 0 HEADER_SIZE (c_ib c));
  let hdr := decode_header raw in
  let tag := h_tag hdr in
  if bool_decide (c_state c <> CLIENT_COMMAND) then
    res ← send_result client tag RESULT_BADCOMMAND;
    if res <? 0 then mret (-1)
    else _ ← client_close client; mret (-1)
  else if negb (h_version hdr =? 0) && negb (h_version hdr =? 1) then
    _ ← send_result client tag RESULT_BADVERSION; mret 0
  else if h_message hdr =? MESSAGE_PLIST then plist_request client hdr (c_ib c)
  else if h_message hdr =? MESSAGE_LISTEN then listen_request client tag
  else if h_message hdr =? MESSAGE_CONNECT then binary_connect client tag (c_ib c)
  else reply client tag RESULT_BADCOMMAND.

(** ** Poll events on a client descriptor *)

Definition clear_bit (mask bit : Z) : Z := Z.land mask (Z.lnot bit).

Definition process_send (client : ptr) : M unit :=
  c ← read_client client;
  if size (c_ob c) =? 0 then
    write_client client (fun c => set_c_events (clear_bit (c_events c) POLLOUT) c)
  else
    bs ← lift (iobuf_read 0 (size (c_ob c)) (c_ob c));
    res ← send (c_fd c) bs;
    if res <=? 0 then client_close client
    else
      ob ← lift (iobuf_consume res (c_ob c));
      _ ← write_client client (set_c_ob ob);
      if u32 res =? size (c_ob c) then
        _ ← write_client client (fun c => set_c_events (clear_bit (c_events c) POLLOUT) c);
        when (bool_decide (c_state c = CLIENT_CONNECTING2))
          (remote ← nonnull (c_remote c);
           _ ← read_remote remote;
           write_client client (fun c =>
             set_c_events (Z.lor (c_devents c) POLLIN)
               (set_c_ob (iobuf_drop (c_ob c)) (set_c_state CLIENT_CONNECTED c))))
      else mret tt.

Definition process_recv (client : ptr) : M unit :=
  c ← read_client client;
  (* first the header, if it is not complete *)
  st ← (if size (c_ib c) <? HEADER_SIZE then
           r ← recv_into (c_fd c) (c_ib c) (HEADER_SIZE - size (c_ib c));
           match r with
           | None => _ ← client_close client; mret None
           | Some ib =>
               _ ← write_client client (set_c_ib ib);
               mret (if size ib <? HEADER_SIZE then None else Some (ib, true))
           end
         else mret (Some (c_ib c, false)));
  match st with
  | None => mret tt
  | Some (ib, did_read) =>
      raw ← lift (iobuf_read 0 HEADER_SIZE ib);
      let hdr := decode_header raw in
      if capacity ib <? h_length hdr then client_close client
      else if h_length hdr <? HEADER_SIZE then client_close client
      else
        (* then the rest of the message *)
        complete ← (if size ib <? h_length hdr then
            if did_read : bool then mret false
            else
              r ← recv_into (c_fd c) ib (u32 (h_length hdr - size ib));
              match r with
              | None => _ ← client_close client; mret false
              | Some ib' =>
                  _ ← write_client client (set_c_ib ib');
                  mret (negb (size ib' <? h_length hdr))
              end
          else mret true);
        if complete : bool then
          res ← client_command client;
          when (res =? 0) (write_client client (fun c => set_c_ib (set_size 0 (c_ib c)) c))
        else mret tt
  end.

(** A connected client: bytes move between its socket and the remote's buffers. *)
Definition forward_to_remote (client : ptr) : M unit :=
  c ← read_client client;
  remote ← nonnull (c_remote c);
  r ← read_remote remote;
  let room := capacity (r_ob r) - size (r_ob r) in
  if room <=? 0 then mret tt
  else
    s ← client_read client (u32 room);
    match s with
    | None => client_close client
    | Some [] => client_close client
    | Some bs =>
        ob ← lift (iobuf_write (size (r_ob r)) bs (r_ob r));
        _ ← write_remote remote (fun r =>
               set_r_events (Z.lor (r_events r) POLLOUT)
                 (set_r_ob (set_size (u32 (size ob + zlen bs)) ob) r));
        write_client client (fun c => set_c_events (clear_bit (c_events c) POLLIN) c)
    end.

Definition forward_to_client (client : ptr) : M unit :=
  c ← read_client client;
  remote ← nonnull (c_remote c);
  r ← read_remote remote;
  if 0 <? size (r_ib r) then
    bs ← lift (iobuf_read 0 (size (r_ib r)) (r_ib r));
    res ← client_write client bs;
    if res <=? 0 then client_close client
    else
      ib ← lift (iobuf_consume res (r_ib r));
      _ ← write_remote remote (set_r_ib ib);
      when (u32 res =? size (r_ib r))
        (write_client client (fun c =>
           set_c_events (Z.lor (clear_bit (c_events c) POLLOUT) POLLIN) c))
  else mret tt.

(** The client of a descriptor: the first in the list. *)
Definition find_client (fd : Z) : M (option ptr) :=
  _ ← lock client_list_mutex;
  found ← foreach_break client_slots (fun p =>
            lc ← read_client p; mret (if c_fd lc =? fd then Some p else None));
  _ ← unlock client_list_mutex;
  mret found.

(** The rest of [client_process], on the client it found. *)
Definition process_client (events : Z) (client : ptr) : M unit :=
  c ← read_client client;
  if bool_decide (c_state c = CLIENT_CONNECTED) then
    if has events POLLIN then forward_to_remote client
    else if has events POLLOUT then forward_to_client client
    else mret tt
  else if has events POLLIN then process_recv client
  else if has events POLLOUT then process_send client
  else mret tt.

Definition client_process (fd events : Z) : M unit :=
  found ← find_client fd;
  match found with
  | Some client => process_client events client
  | None => mret tt
  end.
End command.
