(* ===== verification/RemoteProcess.v ===== *)
(** usbfluxd/usbmux_remote.c, second part: messages from usbmuxd instances and
    the processing of poll events on remote descriptors. *)

From S2P Require Import Prelude Exec Mem Utils Proto CStr RemoteId Plist World.
From S2P Require Import Socket Client Remote Teardown Command.

Section remote_process.
Context `{PL : PlistLib} `{EN : Env}.

(** [struct device_info] of client.h, laid over the payload: [serial] is a
    [const char *], so its eight bytes are an address taken from the message. *)
Record device_info := MkDeviceInfo {
  di_id : Z; di_serial : Z; di_location : Z; di_pid : Z; di_speed : Z }.
Definition device_info_at (payload : list byte) : device_info :=
  {| di_id := i32 (le_at 0 4 payload);
     di_serial := le_at 8 8 payload;
     di_location := le_at 16 4 payload;
     di_pid := le_at 20 2 payload;
     di_speed := le_at 24 8 payload |}.

(** [plist_new_string(dev->serial)] reads the string at that address. *)
Definition create_device_attached_plist (dev : device_info) : M plist :=
  crash (if di_serial dev =? 0 then NullDeref else WildPointer).

(** [hdr] and [payload] point into the input buffer of the remote; a result
    message is read at offset 16 whatever its length. *)
Definition message_get_result (hdr : usbmuxd_header) (ib : iobuf) (plist_msg : option plist)
    : M Z :=
  if h_message hdr =? MESSAGE_RESULT then
    bs ← lift (iobuf_read HEADER_SIZE 4 ib); mret (le_at 0 4 bs)
  else
    match plist_msg with
    | None => mret 0xbaad
    | Some msg =>
        let msgtype :=
          match plist_dict_get_item msg "MessageType" with
          | Some p => plist_get_string_val p
          | None => None
          end in
        if bool_decide (msgtype = Some "Result"%string) then
          match plist_dict_get_item msg "Number" with
          | Some p_num => mret (u32 (default 0xfeed (plist_get_uint_val p_num)))
          | None => mret 0xbaad
          end
        else mret 0xbaad
    end.

(** [(remote->id << 24) | (dev & 0xFFFFFF)] *)
Definition make_device_id (id dev : Z) : Z :=
  u32 (Z.lor (Z.shiftl id 24) (Z.land dev 0xFFFFFF)).

(** What a message to a listening remote announces: the type and the device id. *)
Definition device_event (id : Z) (hdr : usbmuxd_header) (ib : iobuf) (plist_msg : option plist)
    : M (Z * Z) :=
  if h_message hdr =? MESSAGE_DEVICE_ADD then
    bs ← lift (iobuf_read HEADER_SIZE 4 ib);
    mret (MESSAGE_DEVICE_ADD, make_device_id id (le_at 0 4 bs))
  else if h_message hdr =? MESSAGE_DEVICE_REMOVE then
    bs ← lift (iobuf_read HEADER_SIZE 4 ib);
    mret (MESSAGE_DEVICE_REMOVE, make_device_id id (le_at 0 4 bs))
  else
    match plist_msg with
    | None => mret (0, 0)
    | Some msg =>
        let msgtype :=
          match plist_dict_get_item msg "MessageType" with
          | Some p => plist_get_string_val p
          | None => None
          end in
        let type :=
          if bool_decide (msgtype = Some "Attached"%string) then MESSAGE_DEVICE_ADD
          else if bool_decide (msgtype = Some "Detached"%string) then MESSAGE_DEVICE_REMOVE
          else 0 in
        let devid :=
          match plist_dict_get_item msg "DeviceID" with
          | Some p => make_device_id id (u32 (default 0 (plist_get_uint_val p)))
          | None => 0
          end in
        mret (type, devid)
    end.

(** The announcement with the device id of this daemon in both places. *)
Definition rewrite_device_id (msg : plist) (devid : Z) : plist :=
  let msg := plist_dict_set_item msg "DeviceID" (plist_new_uint devid) in
  match plist_dict_get_item msg "Properties" with
  | Some props =>
      plist_dict_set_item msg "Properties"
        (plist_dict_set_item props "DeviceID" (plist_new_uint devid))
  | None => msg
  end.

Definition update_device_list (f : plist -> plist) : M unit :=
  modify (fun w => set_remote_device_list (f <$> remote_device_list w) w).

Definition handle_listen_message (remote : ptr) (hdr : usbmuxd_header) (ib : iobuf)
    (plist_msg : option plist) : M unit :=
  r ← read_remote remote;
  ev ← device_event (r_id r) hdr ib plist_msg;
  let '(type, devid) := ev in
  let s_devid := format_devid devid in
  if type =? MESSAGE_DEVICE_ADD then
    dev ← match plist_msg with
          | None =>
              (* the whole structure is read from the payload *)
              bs ← lift (iobuf_read HEADER_SIZE 32 ib);
              let di := device_info_at bs in
              create_device_attached_plist
                (MkDeviceInfo (i32 devid) (di_serial di) (di_location di) (di_pid di)
                   (di_speed di))
          | Some msg => mret (rewrite_device_id msg devid)
          end;
    _ ← lock remote_list_mutex;
    _ ← update_device_list (fun d => plist_dict_set_item d s_devid dev);
    _ ← client_device_add dev;
    unlock remote_list_mutex
  else if type =? MESSAGE_DEVICE_REMOVE then
    _ ← lock remote_list_mutex;
    _ ← update_device_list (fun d => plist_dict_remove_item d s_devid);
    _ ← client_device_remove devid;
    unlock remote_list_mutex
  else mret tt.

(** An answer to a forwarded request goes to the client as it came. *)
Definition forward_answer (remote : ptr) (ib : iobuf) (payload_size : Z) : M unit :=
  r ← read_remote remote;
  client ← nonnull (r_client r);
  hdr ← lift (iobuf_read 0 HEADER_SIZE ib);
  payload ← lift (iobuf_read HEADER_SIZE payload_size ib);
  _ ← client_send_packet_data client hdr payload;
  mret tt.

Definition is_request_command (cmd : Z) : bool :=
  (cmd =? REMOTE_CMD_READ_BUID) || (cmd =? REMOTE_CMD_READ_PAIR_RECORD) ||
  (cmd =? REMOTE_CMD_SAVE_PAIR_RECORD) || (cmd =? REMOTE_CMD_DELETE_PAIR_RECORD).

(** What is done with the message at the start of the input buffer, in each state
    of the remote [r]. *)
Definition by_state (remote : ptr) (r : remote_mux) (hdr : usbmuxd_header) (payload_size : Z)
    (plist_msg : option plist) : M unit :=
  match r_state r with
  | REMOTE_COMMAND =>
      _ ← (if r_last_command r =? REMOTE_CMD_LISTEN then
             result ← message_get_result hdr (r_ib r) plist_msg;
             when (result =? 0) (write_remote remote (set_r_state REMOTE_LISTEN))
           else if is_request_command (r_last_command r)
           then forward_answer remote (r_ib r) payload_size
           else mret tt);
      write_remote remote (set_r_last_command (-1))
  | REMOTE_LISTEN => handle_listen_message remote hdr (r_ib r) plist_msg
  | REMOTE_CONNECTING1 =>
      result ← message_get_result hdr (r_ib r) plist_msg;
      client ← nonnull (r_client r);
      _ ← client_notify_connect client result;
      when (result =? 0)
        (write_remote remote (fun r =>
           set_r_events (Z.lor POLLIN POLLOUT) (set_r_state REMOTE_CONNECTED r)))
  | _ => mret tt
  end.

Definition remote_handle_command_result (remote : ptr) : M Z :=
  r ← read_remote remote;
  let ib := r_ib r in
  raw ← lift (iobuf_read 0 HEADER_SIZE ib);
  let hdr := decode_header raw in
  if negb (h_version hdr =? 0) && negb (h_version hdr =? 1) then mret 0
  else
    let payload_size := u32 (h_length hdr - HEADER_SIZE) in
    plist_msg ← (if h_message hdr =? MESSAGE_PLIST
                 then payload ← lift (iobuf_read HEADER_SIZE payload_size ib);
                      mret (plist_from_xml payload)
                 else mret None);
    _ ← by_state remote r hdr payload_size plist_msg;
    mret 0.

(** ** Poll events on a remote descriptor *)

Definition remote_process_send (remote : ptr) : M unit :=
  r ← read_remote remote;
  if size (r_ob r) =? 0 then
    write_remote remote (fun r => set_r_events (clear_bit (r_events r) POLLOUT) r)
  else
    bs ← lift (iobuf_read 0 (size (r_ob r)) (r_ob r));
    res ← send (r_fd r) bs;
    if res <=? 0 then usbmux_remote_close remote
    else
      ob ← lift (iobuf_consume res (r_ob r));
      _ ← write_remote remote (fun r => set_r_last_active sys_now (set_r_ob ob r));
      if u32 res =? size (r_ob r) then
        _ ← write_remote remote (fun r => set_r_events (clear_bit (r_events r) POLLOUT) r);
        when (bool_decide (r_state r = REMOTE_CONNECTING2))
          (write_remote remote (fun r =>
             set_r_events (Z.lor (r_devents r) POLLIN) (set_r_state REMOTE_CONNECTED r)))
      else mret tt.

Definition remote_process_recv (remote : ptr) : M unit :=
  r ← read_remote remote;
  st ← (if size (r_ib r) <? HEADER_SIZE then
           x ← recv_into (r_fd r) (r_ib r) (HEADER_SIZE - size (r_ib r));
           match x with
           | None => _ ← usbmux_remote_mark_dead remote; mret None
           | Some ib =>
               _ ← write_remote remote (set_r_ib ib);
               mret (if size ib <? HEADER_SIZE then None else Some (ib, true))
           end
         else mret (Some (r_ib r, false)));
  match st with
  | None => mret tt
  | Some (ib, did_read) =>
      raw ← lift (iobuf_read 0 HEADER_SIZE ib);
      let hdr := decode_header raw in
      if capacity ib <? h_length hdr then usbmux_remote_mark_dead remote
      else if h_length hdr <? HEADER_SIZE then usbmux_remote_mark_dead remote
      else
        complete ← (if size ib <? h_length hdr then
            if did_read : bool then mret false
            else
              x ← recv_into (r_fd r) ib (u32 (h_length hdr - size ib));
              match x with
              | None => _ ← usbmux_remote_mark_dead remote; mret false
              | Some ib' =>
                  _ ← write_remote remote (fun r => set_r_ib ib' (set_r_last_active sys_now r));
                  mret (negb (size ib' <? h_length hdr))
              end
          else mret true);
        if complete : bool then
          _ ← remote_handle_command_result remote;
          write_remote remote (fun r =>
            set_r_last_command 0 (set_r_ib (set_size 0 (r_ib r)) r))
        else mret tt
  end.

(** The loop of [usbmux_remote_process]: dead remotes are reaped, and the last
    live remote of the descriptor is the one to process. *)
Definition find_and_reap (fd events : Z) : M (option ptr) :=
  foreach_acc remote_slots (fun remote rm =>
      r ← read_remote rm;
      if bool_decide (r_state r = REMOTE_DEAD) then
        _ ← usbmux_remote_dispose rm; mret remote
      else if r_fd r =? fd then
        if events =? POLLNVAL then _ ← usbmux_remote_dispose rm; mret None
        else mret (Some rm)
      else mret remote) None.

(** A connected remote: bytes move between its socket and its buffers, and the
    client is told which way is open. *)
Definition receive_for_client (remote : ptr) : M unit :=
  r ← read_remote remote;
  let room := capacity (r_ib r) - size (r_ib r) in
  if (0 <? size (r_ib r)) && (room <=? 0) then mret tt
  else
    match recv (r_fd r) (u32 room) with
    | None => usbmux_remote_close remote
    | Some [] => write_remote remote (fun r => set_r_events (clear_bit (r_events r) POLLIN) r)
    | Some bs =>
        ib ← lift (iobuf_write (size (r_ib r)) bs (r_ib r));
        _ ← write_remote remote (fun r =>
               set_r_ib (set_size (u32 (size ib + zlen bs)) ib) (set_r_last_active sys_now r));
        client ← nonnull (r_client r);
        _ ← client_or_events client POLLOUT;
        mret tt
    end.

(** [usbmux_remote_process] up to the point where it gives the mutex back, then the
    rest, on the remote it found. Between the two another thread may run. *)
Definition find_remote (fd events : Z) : M (option ptr) :=
  _ ← lock remote_list_mutex;
  found ← find_and_reap fd events;
  _ ← unlock remote_list_mutex;
  mret found.

Definition process_remote (events : Z) (remote : ptr) : M unit :=
  r ← read_remote remote;
  if bool_decide (r_state r = REMOTE_CONNECTED) then
    if has events POLLIN then receive_for_client remote
    else if has events POLLOUT then
      _ ← remote_process_send remote;
      r ← read_remote remote;
      client ← nonnull (r_client r);
      _ ← client_or_events client POLLIN;
      mret tt
    else usbmux_remote_close remote
  else if has events POLLIN then
    if bool_decide (r_state r = REMOTE_CONNECTING2) then
      write_remote remote (fun r =>
        set_r_events (Z.lor (r_devents r) POLLIN) (set_r_state REMOTE_CONNECTED r))
    else remote_process_recv remote
  else if has events POLLOUT then remote_process_send remote
  else mret tt.

Definition usbmux_remote_process (fd events : Z) : M unit :=
  found ← find_remote fd events;
  match found with
  | Some remote => process_remote events remote
  | None => mret tt
  end.
End remote_process.
