(* ===== verification/Discovery.v ===== *)
(** usbfluxd/usbmux_remote.c: discovery of instances by mDNS. The thread of
    [mdns_monitor_thread] waits for callbacks of Avahi (or, on macOS, CFNetwork),
    which add and remove instances under the mutex of the remote list.

    The two libraries are not part of the repository: what their calls return is an
    argument of the functions below, and the calls with an effect of their own are
    logged in the trace. *)

From S2P Require Import Prelude Exec Mem Utils Proto CStr RemoteId Plist World.
From S2P Require Import Socket Client Remote Teardown.

Section discovery.
Context `{PL : PlistLib} `{EN : Env}.

(** ** Avahi *)

Inductive resolver_event := AVAHI_RESOLVER_FOUND | AVAHI_RESOLVER_FAILURE | RESOLVER_OTHER.

(** The resolver is freed whatever it found. *)
Definition service_resolve_cb (event : resolver_event) (service_name host_name : string) (port : Z)
    : M unit :=
  _ ← match event with
      | AVAHI_RESOLVER_FOUND => _ ← remote_mux_service_add service_name host_name port; mret tt
      | AVAHI_RESOLVER_FAILURE | RESOLVER_OTHER => mret tt
      end;
  log_event EvResolverFree.

Inductive browser_event :=
| AVAHI_BROWSER_FAILURE | AVAHI_BROWSER_NEW | AVAHI_BROWSER_REMOVE
| AVAHI_BROWSER_ALL_FOR_NOW | AVAHI_BROWSER_CACHE_EXHAUSTED | BROWSER_OTHER.

(** [resolver] tells whether [avahi_service_resolver_new] gives one. *)
Definition service_browse_cb (event : browser_event) (service_name : string) (resolver : bool)
    : M unit :=
  match event with
  | AVAHI_BROWSER_FAILURE => log_event EvPollQuit
  | AVAHI_BROWSER_NEW => when resolver (log_event (EvResolve service_name))
  | AVAHI_BROWSER_REMOVE => _ ← remote_mux_service_remove (Some service_name) None 0; mret tt
  | AVAHI_BROWSER_ALL_FOR_NOW | AVAHI_BROWSER_CACHE_EXHAUSTED | BROWSER_OTHER => mret tt
  end.

(** [failure]: the state is [AVAHI_CLIENT_FAILURE]. *)
Definition client_cb (failure : bool) : M unit := when failure (log_event EvPollQuit).

(** ** CFNetwork *)

Definition kCFNetServiceFlagIsDomain : Z := 2.
Definition kCFNetServiceFlagRemove : Z := 8.

(** What the callback is given: NULL, an object that is no service, or a service
    with its name, and its target host and port once resolved. *)
Inductive cf_object :=
| CfNull
| CfOther
| CfService (name host : option string) (port : Z).

(** [CFStringGetCString(..., kCFStringEncodingASCII)] into a buffer that starts
    with a NUL: a string that is not ASCII leaves it empty. *)
Definition cf_c_string (s : string) : string :=
  if forallb (fun b => byte.unsigned b <? 128) (string_bytes s) then s else EmptyString.

(** [malloc_ok] tells whether the two buffers are there; [error] is the error
    number, if an error was passed. *)
Definition cf_service_browse_cb (malloc_ok : Z -> bool) (flags : Z) (domainOrService : cf_object)
    (error : option Z) : M unit :=
  match domainOrService with
  | CfNull => mret tt
  | _ =>
      if match error with Some e => negb (e =? 0) | None => false end then mret tt
      else if has flags kCFNetServiceFlagIsDomain then mret tt
      else
        match domainOrService with
        | CfService name host port =>
            if has flags kCFNetServiceFlagRemove then
              match name with
              | Some cf_service =>
                  if malloc_ok (zlen (string_bytes cf_service) + 1) then
                    _ ← remote_mux_service_remove (Some (cf_c_string cf_service)) None 0; mret tt
                  else mret tt
              | None => mret tt
              end
            else
              match host, name with
              | Some cf_hostname, Some cf_service =>
                  if 0 <? u32 port then
                    if negb (malloc_ok (zlen (string_bytes cf_hostname) + 1)) then mret tt
                    else
                      let host_name := cf_c_string cf_hostname in
                      if String.eqb host_name EmptyString then mret tt
                      else if negb (malloc_ok (zlen (string_bytes cf_service) + 1)) then mret tt
                      else
                        _ ← remote_mux_service_add (cf_c_string cf_service) host_name (u16 port);
                        mret tt
                  else mret tt
              | _, _ => mret tt
              end
        | _ => mret tt
        end
  end.

(** ** The thread *)

(** A call back into the program. *)
Inductive callback :=
| CbResolve (event : resolver_event) (service_name host_name : string) (port : Z)
| CbBrowse (event : browser_event) (service_name : string) (resolver : bool)
| CbClient (failure : bool)
| CbCf (malloc_ok : Z -> bool) (flags : Z) (domainOrService : cf_object) (error : option Z).

Definition run_callback (cb : callback) : M unit :=
  match cb with
  | CbResolve event service_name host_name port =>
      service_resolve_cb event service_name host_name port
  | CbBrowse event service_name resolver => service_browse_cb event service_name resolver
  | CbClient failure => client_cb failure
  | CbCf malloc_ok flags object error => cf_service_browse_cb malloc_ok flags object error
  end.
End discovery.

Section thread.
Context `{PL : PlistLib}.

(** [avahi_simple_poll_loop]: callbacks, each in the environment of its moment,
    until one of them asks to quit. *)
Definition quits (cb : callback) : bool :=
  match cb with
  | CbBrowse AVAHI_BROWSER_FAILURE _ _ | CbClient true => true
  | _ => false
  end.
Fixpoint simple_poll_loop (cbs : list (Env * callback)) : M unit :=
  match cbs with
  | [] => mret tt
  | (E, cb) :: cbs' =>
      _ ← run_callback (EN := E) cb;
      if quits cb then mret tt else simple_poll_loop cbs'
  end.

(** The objects the thread makes, in order, and frees again: the poll object, the
    client (during whose creation its callback may run), the browser. *)
Record avahi_setup := { as_poll : bool; as_client : bool; as_browser : bool }.
Inductive avahi_object := AvahiPoll | AvahiClient | AvahiBrowser.

Definition avahi_made (s : avahi_setup) : list avahi_object :=
  if as_poll s then
    if as_client s then
      if as_browser s then [AvahiBrowser; AvahiClient; AvahiPoll] else [AvahiClient; AvahiPoll]
    else [AvahiPoll]
  else [].

(** The objects freed at [monitor_thread_cleanup]; the loop runs only with all
    three made. *)
Definition mdns_monitor_thread (s : avahi_setup) (cbs : list (Env * callback))
    : M (list avahi_object) :=
  _ ← (if as_poll s && as_client s && as_browser s then simple_poll_loop cbs else mret tt);
  mret ((if as_poll s && as_client s && as_browser s then [AvahiBrowser] else [])
        ++ (if as_poll s && as_client s then [AvahiClient] else [])
        ++ (if as_poll s then [AvahiPoll] else [])).

(** The thread with CFNetwork: the search calls back until it ends. The results are
    whether the browser was invalidated, and whether it was released. *)
Record cf_setup := { cs_browser : bool; cs_search : bool }.
Fixpoint search_for_services (cbs : list (Env * callback)) : M unit :=
  match cbs with
  | [] => mret tt
  | (E, cb) :: cbs' => _ ← run_callback (EN := E) cb; search_for_services cbs'
  end.
Definition cf_monitor_thread (s : cf_setup) (cbs : list (Env * callback)) : M (bool * bool) :=
  if negb (cs_browser s) then mret (false, false)
  else _ ← search_for_services cbs; mret (cs_search s, true).
End thread.
