(* ===== verification/WorldFacts.v ===== *)
(** Rules for the elementary operations on the state: heap access, mutexes, the
    event log, reading from and writing to descriptors. *)

From S2P Require Import Prelude Exec Mem Utils Plist World.

Section world_facts.
Context `{PL : PlistLib}.

Lemma wp_read_client p c Q w : w_clients w !! p = Some c -> Q c w -> wp (read_client p) Q w.
Proof. intros Hc HQ. unfold wp, read_client, mbind, prog_bind, get. by rewrite Hc. Qed.
Lemma wp_read_remote p r Q w : w_remotes w !! p = Some r -> Q r w -> wp (read_remote p) Q w.
Proof. intros Hr HQ. unfold wp, read_remote, mbind, prog_bind, get. by rewrite Hr. Qed.
Lemma wp_write_client p f c Q w :
  w_clients w !! p = Some c -> Q tt (put_client p (f c) w) -> wp (write_client p f) Q w.
Proof. intros Hc HQ. unfold write_client. by apply wp_bind, (wp_read_client _ c). Qed.
Lemma wp_write_remote p f r Q w :
  w_remotes w !! p = Some r -> Q tt (put_remote p (f r) w) -> wp (write_remote p f) Q w.
Proof. intros Hr HQ. unfold write_remote. by apply wp_bind, (wp_read_remote _ r). Qed.

Lemma wp_lift {A} (r : A + fault) a Q w : r = inl a -> Q a w -> wp (lift r) Q w.
Proof. by intros ->. Qed.
Lemma wp_nonnull o p Q w : o = Some p -> Q p w -> wp (nonnull o) Q w.
Proof. by intros ->. Qed.

Lemma wp_lock m Q w :
  m ∉ w_locks w -> Q tt (set_w_locks (m :: w_locks w) w) -> wp (lock m) Q w.
Proof.
  intros Hm HQ. unfold lock. apply wp_bind, wp_get.
  by rewrite bool_decide_eq_false_2.
Qed.
Lemma wp_unlock m Q w :
  Q tt (set_w_locks (filter (fun m' => m' <> m) (w_locks w)) w) -> wp (unlock m) Q w.
Proof. done. Qed.
Lemma wp_log e Q w : Q tt (set_w_trace (e :: w_trace w) w) -> wp (log_event e) Q w.
Proof. done. Qed.
Lemma wp_free_client p c Q w :
  w_clients w !! p = Some c -> Q tt (set_w_clients (delete p (w_clients w)) w) ->
  wp (free_client p) Q w.
Proof. intros Hc HQ. unfold free_client. by apply wp_bind, (wp_read_client _ c). Qed.
Lemma wp_free_remote p c Q w :
  w_remotes w !! p = Some c -> Q tt (set_w_remotes (delete p (w_remotes w)) w) ->
  wp (free_remote p) Q w.
Proof. intros Hc HQ. unfold free_remote. by apply wp_bind, (wp_read_remote _ c). Qed.

(** A write then a read of the same object. *)
Lemma put_client_twice p c c' w : put_client p c (put_client p c' w) = put_client p c w.
Proof. unfold put_client. simpl. by rewrite insert_insert_eq. Qed.
Lemma put_remote_twice p r r' w : put_remote p r (put_remote p r' w) = put_remote p r w.
Proof. unfold put_remote. simpl. by rewrite insert_insert_eq. Qed.
Lemma put_client_id p c w : w_clients w !! p = Some c -> put_client p c w = w.
Proof. intros H. unfold put_client. rewrite insert_id by done. by destruct w. Qed.
Lemma put_remote_id p r w : w_remotes w !! p = Some r -> put_remote p r w = w.
Proof. intros H. unfold put_remote. rewrite insert_id by done. by destruct w. Qed.
Lemma put_client_lookup p c w : w_clients (put_client p c w) !! p = Some c.
Proof. apply lookup_insert_eq. Qed.
Lemma put_remote_lookup p r w : w_remotes (put_remote p r w) !! p = Some r.
Proof. apply lookup_insert_eq. Qed.
Lemma put_client_lookup_ne p q c w :
  p <> q -> w_clients (put_client p c w) !! q = w_clients w !! q.
Proof. apply lookup_insert_ne. Qed.
Lemma put_remote_lookup_ne p q r w :
  p <> q -> w_remotes (put_remote p r w) !! q = w_remotes w !! q.
Proof. apply lookup_insert_ne. Qed.

Context `{EN : Env}.

(** [send] only logs what it took; its result is at most the length. *)
Lemma wp_send fd bs Q w :
  (forall n, n <= 0 -> n = sys_send fd -> Q n w) ->
  (forall n, 0 < n <= zlen bs /\ n = Z.min (sys_send fd) (zlen bs) ->
     Q n (set_w_trace (EvSend fd (take (Z.to_nat n) bs) :: w_trace w) w)) ->
  bs <> [] -> wp (send fd bs) Q w.
Proof.
  intros Hfail Hok Hne. unfold send. destruct (Z.leb_spec (sys_send fd) 0).
  - apply wp_ret. by apply Hfail.
  - apply wp_bind, wp_log, wp_ret. apply Hok.
    destruct bs; [done|]. simpl length. split; [lia|done].
Qed.

Lemma wp_recv_into fd ib len Q w :
  buf_ok ib \/ buf ib = None -> size ib + len <= capacity ib -> 0 <= len ->
  Q None w ->
  (forall bs ib', bs <> [] -> zlen bs <= len ->
     (exists rest, sys_recv fd = Some (bs ++ rest)) ->
     buf_ok ib' -> capacity ib' = capacity ib -> size ib' = size ib + zlen bs ->
     data ib' = data ib ++ bs -> Q (Some ib') w) ->
  wp (recv_into fd ib len) Q w.
Proof.
  intros Hib Hfit Hlen Hnone Hsome. unfold recv_into.
  destruct (buf ib) eqn:Hb; [|by apply wp_ret].
  destruct Hib as [Hok|]; [|done].
  unfold recv. destruct (sys_recv fd) as [avail|] eqn:Er; csimpl; [|by apply wp_ret].
  destruct (take (Z.to_nat len) avail) as [|x l] eqn:Et; [by apply wp_ret|].
  assert (zlen (x :: l) <= len) as Hl by (rewrite <- Et, length_take; lia).
  destruct (iobuf_append_ok ib (x :: l) Hok) as (ib' & Hw & Hs & Hc & Hok' & Hd); [lia|].
  apply wp_bind. eapply wp_lift; [done|]. apply wp_ret.
  pose proof (ok_size _ Hok). pose proof (ok_cap _ Hok). unfold BUF_MAX in *.
  rewrite u32_small by lia. apply (Hsome (x :: l)); try done.
  exists (drop (Z.to_nat len) avail). by rewrite <- Et, take_drop.
Qed.
End world_facts.

(** One step of a composition, then the rules above by name. *)
Ltac wp_go :=
  repeat first
    [ wp_step
    | match goal with
      | |- wp (read_client _) _ _ =>
          eapply wp_read_client; [first [eassumption|apply put_client_lookup]|]
      | |- wp (read_remote _) _ _ =>
          eapply wp_read_remote; [first [eassumption|apply put_remote_lookup]|]
      | |- wp (write_client _ _) _ _ =>
          eapply wp_write_client; [first [eassumption|apply put_client_lookup]|]
      | |- wp (write_remote _ _) _ _ =>
          eapply wp_write_remote; [first [eassumption|apply put_remote_lookup]|]
      | |- wp (unlock _) _ _ => apply wp_unlock
      | |- wp (close _) _ _ => apply wp_log
      | |- wp (log_event _) _ _ => apply wp_log
      | H : ?r = inl _ |- wp (lift ?r) _ _ => eapply wp_lift; [exact H|]
      | H : ?o = Some _ |- wp (nonnull ?o) _ _ => eapply wp_nonnull; [exact H|]
      end; cbv beta ].
