(* ===== verification/Invariant.v ===== *)
(** The invariant of the daemon's state and how elementary updates preserve it.

    [wf L w] says that, with the mutexes [L] held, the two collections list
    exactly the live objects, that clients and remotes are linked one to one,
    that every buffer a state needs is there, and that the shared tables are in
    shape. The handlers of Client.v, Remote.v, Teardown.v, Command.v and
    RemoteProcess.v are shown to preserve it in the files that follow. *)

From S2P Require Import Prelude Exec Mem Utils Proto CStr RemoteId Plist World.
From S2P Require Import Socket Client Remote Teardown Command RemoteProcess.

Section invariant.
Context `{PL : PlistLib}.

(** A collection lists the objects of its heap, each once. *)
Record list_ok {A} (col : collection) (heap : gmap positive A) : Prop := {
  list_col : col_ok col;
  list_nodup : NoDup (elems col);
  list_dom p : p ∈ elems col <-> is_Some (heap !! p) }.

(** An input buffer has room for a header at least. *)
Definition input_ok (b : iobuf) : Prop := buf_ok b /\ HEADER_SIZE <= capacity b.

(** Buffers present in each state, and the states that need a remote. *)
Definition client_ok (cl : mux_client) : Prop :=
  match c_state cl with
  | CLIENT_COMMAND | CLIENT_LISTEN => buf_ok (c_ob cl) /\ input_ok (c_ib cl)
  | CLIENT_CONNECTING1 => buf_ok (c_ob cl) /\ input_ok (c_ib cl) /\ c_remote cl <> None
  | CLIENT_CONNECTING2 => buf_ok (c_ob cl) /\ buf (c_ib cl) = None /\ c_remote cl <> None
  | CLIENT_CONNECTED =>
      buf (c_ob cl) = None /\ buf (c_ib cl) = None /\ c_remote cl <> None
  | CLIENT_DEAD => False
  end.

Record remote_ok (rm : remote_mux) : Prop := {
  rok_ob : buf_ok (r_ob rm);
  rok_ib : buf_ok (r_ib rm);
  rok_cap : HEADER_SIZE <= capacity (r_ib rm) <= 2 ^ 20;
  rok_id : 0 <= r_id rm < 256;
  rok_connected : r_state rm ∈ [REMOTE_CONNECTING1; REMOTE_CONNECTING2; REMOTE_CONNECTED] ->
    r_client rm <> None;
  rok_request : r_state rm = REMOTE_COMMAND -> is_request_command (r_last_command rm) = true ->
    r_client rm <> None;
  rok_listener : r_is_listener rm = true -> r_is_unix rm = false ->
    r_service_name rm <> None /\ r_host rm <> None }.

(** A client that has been told its connection is open is linked to a remote
    that is open, or condemned. *)
Definition pair_ok (cl : mux_client) (rm : remote_mux) : Prop :=
  c_state cl ∈ [CLIENT_CONNECTING2; CLIENT_CONNECTED] ->
  r_state rm ∈ [REMOTE_CONNECTED; REMOTE_DEAD].

(** The listener of a host: the remotes that own an identifier. *)
Definition host_listener (rm : remote_mux) : Prop :=
  r_is_listener rm = true /\ r_host rm <> None.

#[export] Instance host_listener_dec rm : Decision (host_listener rm).
Proof. apply and_dec; solve_decision. Defined.

(** Their identifiers are marked used, and no two of them share one. *)
Record places (rs : gmap positive remote_mux) (m : list Z) : Prop := {
  pl_used p rm : rs !! p = Some rm -> host_listener rm -> 1 <= r_id rm /\ id_used m (r_id rm) = true;
  pl_distinct p q rm rm' : rs !! p = Some rm -> rs !! q = Some rm' ->
    host_listener rm -> host_listener rm' -> r_id rm = r_id rm' -> p = q }.

(** An update that moves no listener. *)
Definition same_place (rm rm' : remote_mux) : Prop :=
  r_is_listener rm' = r_is_listener rm /\ r_host rm' = r_host rm /\ r_id rm' = r_id rm.

Record wf (L : list mutex) (w : world) : Prop := {
  wf_locks : w_locks w = L;
  wf_clist : list_ok (client_list w) (w_clients w);
  wf_rlist : list_ok (remote_list w) (w_remotes w);
  wf_fresh p : (w_next w <= p)%positive -> w_clients w !! p = None /\ w_remotes w !! p = None;
  wf_client c cl : w_clients w !! c = Some cl -> client_ok cl;
  wf_remote r rm : w_remotes w !! r = Some rm -> remote_ok rm;
  wf_c2r c cl r : w_clients w !! c = Some cl -> c_remote cl = Some r ->
    exists rm, w_remotes w !! r = Some rm /\ r_client rm = Some c /\ pair_ok cl rm;
  wf_r2c r rm c : w_remotes w !! r = Some rm -> r_client rm = Some c ->
    exists cl, w_clients w !! c = Some cl /\ c_remote cl = Some r;
  wf_devices : exists d, remote_device_list w = Some d /\ is_dict d;
  wf_ids : map_ok (remote_id_map w);
  wf_places : places (w_remotes w) (remote_id_map w) }.

(** *** Identifiers *)

Lemma same_place_listener rm rm' : same_place rm rm' -> host_listener rm' -> host_listener rm.
Proof. intros (E1 & E2 & _) [? ?]. split; congruence. Qed.

Lemma places_update rs m p rm rm' :
  rs !! p = Some rm -> same_place rm rm' -> places rs m -> places (<[p := rm']> rs) m.
Proof.
  intros Hp Hs [Hu Hd]. pose proof (same_place_listener _ _ Hs) as Hl. destruct Hs as (_ & _ & Hid).
  assert (forall q y, <[p := rm']> rs !! q = Some y ->
    exists x, rs !! q = Some x /\ (host_listener y -> host_listener x) /\ r_id y = r_id x) as Hold.
  { intros q y [[<- <-]|[_ Hy]]%lookup_insert_Some; eauto. }
  split.
  - intros q y (x & Hx & Hlx & ->)%Hold Hy. eauto.
  - intros q1 q2 y1 y2 (x1 & Hx1 & Hl1 & ->)%Hold (x2 & Hx2 & Hl2 & ->)%Hold ???. eauto.
Qed.
Lemma places_delete rs m p : places rs m -> places (delete p rs) m.
Proof.
  intros [Hu Hd]. split.
  - intros q y [_ Hy]%lookup_delete_Some. eauto.
  - intros q1 q2 y1 y2 [_ H1]%lookup_delete_Some [_ H2]%lookup_delete_Some. eauto.
Qed.

(** A new remote that is no listener, or one with an identifier that was free. *)
Definition may_join (rm : remote_mux) (m : list Z) : Prop :=
  host_listener rm -> 1 <= r_id rm /\ id_used m (r_id rm) = false.
Lemma places_add rs m m' p rm :
  rs !! p = None -> places rs m -> may_join rm m ->
  (forall q y, rs !! q = Some y -> id_used m (r_id y) = true -> id_used m' (r_id y) = true) ->
  (host_listener rm -> id_used m' (r_id rm) = true) -> places (<[p := rm]> rs) m'.
Proof.
  intros Hp [Hu Hd] Hj Hmono Hnew.
  assert (forall q y, rs !! q = Some y -> host_listener y -> host_listener rm -> r_id y <> r_id rm)
    as Hne.
  { intros q y Hy Hly Hlr E. destruct (Hu q y Hy Hly) as [_ H1]. destruct (Hj Hlr) as [_ H2]. congruence. }
  split.
  - intros q y [[<- <-]|[_ Hy]]%lookup_insert_Some Hl.
    + split; [by apply Hj|by apply Hnew].
    + destruct (Hu q y Hy Hl). eauto.
  - intros q1 q2 y1 y2 [[<- <-]|[_ H1]]%lookup_insert_Some [[<- <-]|[_ H2]]%lookup_insert_Some Hl1 Hl2 E;
      try done.
    + by destruct (Hne q2 y2 H2 Hl2 Hl1).
    + by destruct (Hne q1 y1 H1 Hl1 Hl2).
    + eauto.
Qed.
Lemma places_add_plain rs m p rm :
  rs !! p = None -> places rs m -> ~ host_listener rm -> places (<[p := rm]> rs) m.
Proof. intros Hp Hpl Hn. by eapply places_add. Qed.
Lemma places_add_marked rs m p rm :
  rs !! p = None -> (forall q y, rs !! q = Some y -> 0 <= r_id y < 256) -> map_ok m ->
  0 <= r_id rm < 256 -> places rs m -> may_join rm m ->
  places (<[p := rm]> rs) (set_remote_id_used (r_id rm) true m).
Proof.
  intros Hp Hids Hm Hid Hpl Hj. eapply places_add; [done..| |].
  - intros q y Hy Hu. rewrite id_used_set by eauto. by case_match.
  - intros _. rewrite id_used_set by done. by rewrite Z.eqb_refl.
Qed.

(** Giving back the identifier of a listener that is gone. *)
Lemma places_release rs m p rm :
  rs !! p = Some rm -> host_listener rm -> 0 <= r_id rm < 256 ->
  (forall q y, rs !! q = Some y -> 0 <= r_id y < 256) -> map_ok m -> places rs m ->
  places (delete p rs) (set_remote_id_used (r_id rm) false m).
Proof.
  intros Hp Hl Hid Hids Hm Hpl. pose proof (places_delete _ _ p Hpl) as [Hu Hd]. split; [|done].
  intros q y Hy Hly. destruct (Hu q y Hy Hly) as [H1 H2]. split; [done|].
  apply lookup_delete_Some in Hy as [Hne Hy].
  rewrite id_used_set by eauto. destruct (Z.eqb_spec (r_id rm) (r_id y)); [|done].
  destruct Hne. by eapply (pl_distinct _ _ Hpl).
Qed.

(** *** Object lists *)

Lemma list_ok_update {A} col (heap : gmap positive A) p a b :
  heap !! p = Some a -> list_ok col heap -> list_ok col (<[p := b]> heap).
Proof.
  intros Hp [Hc Hn Hd]. split; [done|done|]. intros q. rewrite Hd.
  destruct (decide (p = q)) as [->|].
  - rewrite lookup_insert_eq, Hp. split; by eexists.
  - by rewrite lookup_insert_ne.
Qed.

Lemma list_ok_add {A} col (heap : gmap positive A) p a :
  heap !! p = None -> list_ok col heap -> list_ok (collection_add col p) (<[p := a]> heap).
Proof.
  intros Hp [Hc Hn Hd]. pose proof (elems_add _ p Hc) as Hperm.
  split; [by apply add_ok| |].
  - rewrite Hperm. apply NoDup_cons. split; [|done]. rewrite Hd, Hp. by intros [].
  - intros q. rewrite Hperm, elem_of_cons, Hd. destruct (decide (p = q)) as [->|].
    + rewrite lookup_insert_eq. naive_solver.
    + rewrite lookup_insert_ne by done. naive_solver.
Qed.

Lemma list_ok_remove {A} col (heap : gmap positive A) p a :
  heap !! p = Some a -> list_ok col heap ->
  list_ok (collection_remove col p) (delete p heap).
Proof.
  intros Hp [Hc Hn Hd]. assert (p ∈ elems col) as Hin by (apply Hd; by eexists).
  pose proof (elems_remove _ p Hc Hin) as Hperm.
  rewrite <- Hperm in Hn. apply NoDup_cons in Hn as [Hnp Hn].
  split; [by apply remove_ok|done|].
  intros q. destruct (decide (p = q)) as [->|Hne].
  - rewrite lookup_delete_eq. split; [done|by intros []].
  - rewrite lookup_delete_ne, <- Hd, <- Hperm, elem_of_cons by done. naive_solver.
Qed.

Lemma wf_client_slot L w p :
  wf L w -> Some p ∈ client_slots w -> is_Some (w_clients w !! p).
Proof.
  intros Hw Hp. apply (list_dom _ _ (wf_clist _ _ Hw)). by apply elem_of_omap_id.
Qed.
Lemma wf_remote_slot L w p :
  wf L w -> Some p ∈ remote_slots w -> is_Some (w_remotes w !! p).
Proof.
  intros Hw Hp. apply (list_dom _ _ (wf_rlist _ _ Hw)). by apply elem_of_omap_id.
Qed.

(** *** Elementary updates *)

Lemma wf_log L w e : wf L w -> wf L (set_w_trace (e :: w_trace w) w).
Proof. by intros []. Qed.

Lemma wf_lock L m w :
  m ∉ L -> wf L w -> wf (m :: L) (set_w_locks (m :: w_locks w) w).
Proof. intros Hm []. split; simpl; try done. by f_equal. Qed.

Lemma filter_mutex (m : mutex) (L : list mutex) : m ∉ L -> filter (fun m' => m' <> m) (m :: L) = L.
Proof.
  intros Hm. rewrite filter_cons_False by naive_solver.
  induction L as [|m' L IH]; [done|]. apply not_elem_of_cons in Hm as [??].
  rewrite filter_cons_True by done. f_equal. by apply IH.
Qed.

Lemma wf_unlock L m w :
  m ∉ L -> wf (m :: L) w ->
  wf L (set_w_locks (filter (fun m' => m' <> m) (w_locks w)) w).
Proof.
  intros Hm []. split; simpl; try done. rewrite wf_locks0. by apply filter_mutex.
Qed.

(** Replacing an object by one with the same link. *)
Lemma wf_put_client L w c cl cl' :
  wf L w -> w_clients w !! c = Some cl -> client_ok cl' -> c_remote cl' = c_remote cl ->
  (forall rm, pair_ok cl rm -> pair_ok cl' rm) ->
  wf L (put_client c cl' w).
Proof.
  intros [] Hc Hok Hlink Hpair. split; simpl; try done.
  - by eapply list_ok_update.
  - intros p Hp. destruct (wf_fresh0 p Hp) as [Hp' ?].
    rewrite lookup_insert_ne; [done|]. by intros <-; rewrite Hc in Hp'.
  - intros p x Hx. destruct (decide (c = p)) as [->|].
    + rewrite lookup_insert_eq in Hx. by simplify_eq.
    + rewrite lookup_insert_ne in Hx by done. eauto.
  - intros p x r Hx Hr. destruct (decide (c = p)) as [->|].
    + rewrite lookup_insert_eq in Hx. simplify_eq. rewrite Hlink in Hr.
      destruct (wf_c2r0 p cl r Hc Hr) as (rm & ? & ? & ?). eauto.
    + rewrite lookup_insert_ne in Hx by done. eauto.
  - intros r rm p Hr Hp. destruct (wf_r2c0 r rm p Hr Hp) as (x & Hx & ?).
    destruct (decide (c = p)) as [->|].
    + exists cl'. rewrite lookup_insert_eq. split; [done|]. congruence.
    + exists x. by rewrite lookup_insert_ne.
Qed.

Lemma wf_put_remote L w r rm rm' :
  wf L w -> w_remotes w !! r = Some rm -> remote_ok rm' -> r_client rm' = r_client rm ->
  same_place rm rm' -> (forall cl, pair_ok cl rm -> pair_ok cl rm') ->
  wf L (put_remote r rm' w).
Proof.
  intros [] Hr Hok Hlink Hplace Hpair. split; simpl; try done; [..|by eapply places_update].
  - by eapply list_ok_update.
  - intros p Hp. destruct (wf_fresh0 p Hp) as [? Hp'].
    rewrite lookup_insert_ne; [done|]. by intros <-; rewrite Hr in Hp'.
  - intros p x Hx. destruct (decide (r = p)) as [->|].
    + rewrite lookup_insert_eq in Hx. by simplify_eq.
    + rewrite lookup_insert_ne in Hx by done. eauto.
  - intros c cl p Hc Hp. destruct (wf_c2r0 c cl p Hc Hp) as (x & Hx & Hxc & ?).
    destruct (decide (r = p)) as [->|].
    + exists rm'. rewrite lookup_insert_eq. simplify_eq. split_and!; [done|congruence|eauto].
    + exists x. by rewrite lookup_insert_ne.
  - intros p x c Hx Hxc. destruct (decide (r = p)) as [->|].
    + rewrite lookup_insert_eq in Hx. simplify_eq. rewrite Hlink in Hxc. eauto.
    + rewrite lookup_insert_ne in Hx by done. eauto.
Qed.

Lemma wf_device_list L w d :
  wf L w -> is_dict d -> wf L (set_remote_device_list (Some d) w).
Proof. intros [] Hd. split; simpl; try done. by exists d. Qed.

Lemma wf_id_map L w m :
  wf L w -> map_ok m -> places (w_remotes w) m -> wf L (set_remote_id_map m w).
Proof. intros [] Hm Hp. by split. Qed.

(** *** Removing objects *)

Definition drop_client (c : ptr) (w : world) : world :=
  set_w_clients (delete c (w_clients w))
    (set_client_list (collection_remove (client_list w) c) w).
Definition drop_remote (r : ptr) (w : world) : world :=
  set_w_remotes (delete r (w_remotes w))
    (set_remote_list (collection_remove (remote_list w) r) w).

Lemma wf_drop_client L w c cl :
  wf L w -> w_clients w !! c = Some cl -> c_remote cl = None -> wf L (drop_client c w).
Proof.
  intros [] Hc Hn. split; simpl; try done.
  - by eapply list_ok_remove.
  - intros p Hp. destruct (wf_fresh0 p Hp). split; [|done]. by apply lookup_delete_None; right.
  - intros p x Hx. apply lookup_delete_Some in Hx as [_ Hx]. eauto.
  - intros p x r Hx Hr. apply lookup_delete_Some in Hx as [_ Hx]. eauto.
  - intros r rm p Hr Hp. destruct (wf_r2c0 r rm p Hr Hp) as (x & Hx & ?).
    exists x. rewrite lookup_delete_ne; [done|]. intros ->. congruence.
Qed.

Lemma wf_drop_remote L w r rm :
  wf L w -> w_remotes w !! r = Some rm -> r_client rm = None -> wf L (drop_remote r w).
Proof.
  intros [] Hr Hn. split; simpl; try done; [..|by apply places_delete].
  - by eapply list_ok_remove.
  - intros p Hp. destruct (wf_fresh0 p Hp). split; [done|]. by apply lookup_delete_None; right.
  - intros p x Hx. apply lookup_delete_Some in Hx as [_ Hx]. eauto.
  - intros c cl p Hc Hp. destruct (wf_c2r0 c cl p Hc Hp) as (x & Hx & Hxc & ?).
    exists x. rewrite lookup_delete_ne; [done|]. intros ->. congruence.
  - intros p x c Hx Hxc. apply lookup_delete_Some in Hx as [_ Hx]. eauto.
Qed.

(** Both ends of a link at once. *)
Lemma wf_drop_pair L w c cl r rm :
  wf L w -> w_clients w !! c = Some cl -> c_remote cl = Some r ->
  w_remotes w !! r = Some rm -> r_client rm = Some c ->
  wf L (drop_client c (drop_remote r w)).
Proof.
  intros [] Hc Hcr Hr Hrc. split; simpl; try done; [..|by apply places_delete].
  - by eapply list_ok_remove.
  - by eapply list_ok_remove.
  - intros p Hp. destruct (wf_fresh0 p Hp). split; by apply lookup_delete_None; right.
  - intros p x Hx. apply lookup_delete_Some in Hx as [_ Hx]. eauto.
  - intros p x Hx. apply lookup_delete_Some in Hx as [_ Hx]. eauto.
  - intros p x q Hx Hq. apply lookup_delete_Some in Hx as [Hne Hx].
    destruct (wf_c2r0 p x q Hx Hq) as (y & Hy & Hyc & ?).
    exists y. rewrite lookup_delete_ne; [done|]. intros ->. congruence.
  - intros q y p Hy Hp. apply lookup_delete_Some in Hy as [Hne Hy].
    destruct (wf_r2c0 q y p Hy Hp) as (x & Hx & ?).
    exists x. rewrite lookup_delete_ne; [done|]. intros ->. congruence.
Qed.

(** *** Adding objects *)

Lemma wf_add_client L w cl :
  wf L w -> client_ok cl -> c_remote cl = None ->
  wf L (set_w_next (Pos.succ (w_next w))
          (set_client_list (collection_add (client_list w) (w_next w))
             (put_client (w_next w) cl w))).
Proof.
  intros [] Hok Hn. destruct (wf_fresh0 (w_next w)) as [Hfc Hfr]; [lia|].
  split; simpl; try done.
  - by apply list_ok_add.
  - intros p Hp. destruct (wf_fresh0 p) as [??]; [lia|].
    rewrite lookup_insert_ne by lia. done.
  - intros p x Hx. apply lookup_insert_Some in Hx as [[_ <-]|[_ Hx]]; eauto.
  - intros p x r Hx Hr. apply lookup_insert_Some in Hx as [[_ <-]|[_ Hx]]; [congruence|eauto].
  - intros r rm p Hr Hp. destruct (wf_r2c0 r rm p Hr Hp) as (x & Hx & ?).
    exists x. rewrite lookup_insert_ne; [done|]. intros <-. congruence.
Qed.

(** A new remote without a client, with the identifiers [m] in use afterwards. *)
Definition joined (rm : remote_mux) (m : list Z) (w : world) : world :=
  set_remote_id_map m
    (set_w_next (Pos.succ (w_next w))
       (set_remote_list (collection_add (remote_list w) (w_next w))
          (put_remote (w_next w) rm w))).
Lemma wf_joined L w rm m :
  wf L w -> remote_ok rm -> r_client rm = None -> map_ok m ->
  places (<[w_next w := rm]> (w_remotes w)) m -> wf L (joined rm m w).
Proof.
  intros [] Hok Hn Hm Hpl. destruct (wf_fresh0 (w_next w)) as [Hfc Hfr]; [lia|].
  split; simpl; try done.
  - by apply list_ok_add.
  - intros p Hp. destruct (wf_fresh0 p) as [??]; [lia|].
    rewrite lookup_insert_ne by lia. done.
  - intros p x Hx. apply lookup_insert_Some in Hx as [[_ <-]|[_ Hx]]; eauto.
  - intros c cl p Hc Hp. destruct (wf_c2r0 c cl p Hc Hp) as (x & Hx & Hxc & ?).
    exists x. rewrite lookup_insert_ne; [done|]. intros <-. congruence.
  - intros p x c Hx Hxc. apply lookup_insert_Some in Hx as [[_ <-]|[_ Hx]]; [congruence|eauto].
Qed.

(** A listener takes an identifier that was free, or owns none. *)
Lemma wf_add_listener L w rm :
  wf L w -> remote_ok rm -> r_client rm = None -> may_join rm (remote_id_map w) ->
  wf L (joined rm (set_remote_id_used (r_id rm) true (remote_id_map w)) w).
Proof.
  intros Hw Hok Hn Hj. apply wf_joined; [done..|by apply set_ok, wf_ids with (L := L)|].
  apply places_add_marked; [by apply (wf_fresh _ _ Hw)|..|apply (wf_places _ _ Hw)|done].
  - intros q y Hy. by apply (wf_remote _ _ Hw q y Hy).
  - apply (wf_ids _ _ Hw).
  - apply Hok.
Qed.

(** A new remote linked to a client that had none. *)
Lemma wf_add_linked L w c cl cl' rm :
  wf L w -> w_clients w !! c = Some cl -> c_remote cl = None ->
  client_ok cl' -> c_remote cl' = Some (w_next w) ->
  remote_ok rm -> r_client rm = Some c -> ~ host_listener rm -> pair_ok cl' rm ->
  wf L (set_w_next (Pos.succ (w_next w))
          (set_remote_list (collection_add (remote_list w) (w_next w))
             (put_remote (w_next w) rm (put_client c cl' w)))).
Proof.
  intros [] Hc Hn Hok Hlink Hrok Hrc Hpl Hpair.
  destruct (wf_fresh0 (w_next w)) as [Hfc Hfr]; [lia|].
  split; simpl; try done; [..|by apply places_add_plain].
  - by eapply list_ok_update.
  - by apply list_ok_add.
  - intros p Hp. destruct (wf_fresh0 p) as [Hp' ?]; [lia|].
    rewrite !lookup_insert_ne; [done|lia|]. by intros <-; rewrite Hc in Hp'.
  - intros p x Hx. apply lookup_insert_Some in Hx as [[_ <-]|[_ Hx]]; eauto.
  - intros p x Hx. apply lookup_insert_Some in Hx as [[_ <-]|[_ Hx]]; eauto.
  - intros p x r Hx Hr. apply lookup_insert_Some in Hx as [[<- <-]|[Hne Hx]].
    + rewrite Hlink in Hr. simplify_eq. exists rm. by rewrite lookup_insert_eq.
    + destruct (wf_c2r0 p x r Hx Hr) as (y & Hy & ? & ?). exists y.
      rewrite lookup_insert_ne; [done|]. intros <-. congruence.
  - intros p x d Hx Hd. apply lookup_insert_Some in Hx as [[<- <-]|[Hne Hx]].
    + rewrite Hrc in Hd. simplify_eq. exists cl'. by rewrite lookup_insert_eq.
    + destruct (wf_r2c0 p x d Hx Hd) as (y & Hy & ?). exists y.
      rewrite lookup_insert_ne; [done|]. intros <-. congruence.
Qed.
End invariant.
