(* ===== verification/ClientFacts.v ===== *)
(** What the packet output and notification functions of client.c do: the exact
    bytes queued, and preservation of the invariant. *)

From S2P Require Import Prelude Exec Mem Utils Proto CStr RemoteId Plist World WorldFacts.
From S2P Require Import Socket Client Remote Teardown Command RemoteProcess Invariant.

Section client_facts.
Context `{PL : PlistLib} `{EN : Env} {EL : EnvLaws EN}.

(** Payloads the program sends are far below 1 GiB. *)
Definition small (l : list byte) : Prop := zlen l < 2 ^ 30 + 2 ^ 19.

(** Updates of a client that only queue output. *)
Definition queued (cl cl' : mux_client) : Prop :=
  cl' = cl \/
  (buf_ok (c_ob cl) /\ buf_ok (c_ob cl') /\
   cl' = set_c_events (c_events cl') (set_c_ob (c_ob cl') cl)).

Definition sends (w w' : world) : Prop :=
  w' = set_w_clients (w_clients w') w /\
  forall p, match w_clients w !! p, w_clients w' !! p with
            | Some cl, Some cl' => queued cl cl'
            | None, None => True
            | _, _ => False
            end.

Lemma queued_refl cl : queued cl cl.
Proof. by left. Qed.
Lemma queued_trans a b c : queued a b -> queued b c -> queued a c.
Proof.
  intros [->|(Ha & Hb & Eb)] [->|(Hb' & Hc & Ec)]; [by left|by right|by right|].
  right. split_and!; [done|done|]. rewrite Ec, Eb. done.
Qed.
Lemma sends_refl w : sends w w.
Proof.
  split; [by destruct w|]. intros p. destruct (w_clients w !! p); [by left|done].
Qed.
Lemma sends_trans a b c : sends a b -> sends b c -> sends a c.
Proof.
  intros [Ha Hab] [Hb Hbc]. split; [rewrite Hb, Ha; done|]. intros p.
  specialize (Hab p). specialize (Hbc p).
  destruct (w_clients a !! p), (w_clients b !! p), (w_clients c !! p); try done.
  by eapply queued_trans.
Qed.
Lemma sends_put w p cl cl' :
  w_clients w !! p = Some cl -> queued cl cl' -> sends w (put_client p cl' w).
Proof.
  intros Hp Hq. split; [done|]. intros q. destruct (decide (p = q)) as [->|].
  - by rewrite put_client_lookup, Hp.
  - rewrite put_client_lookup_ne by done. destruct (w_clients w !! q); [by left|done].
Qed.

Lemma queued_fields cl cl' :
  queued cl cl' -> c_state cl' = c_state cl /\ c_remote cl' = c_remote cl /\
    c_fd cl' = c_fd cl /\ c_ib cl' = c_ib cl.
Proof. by intros [->|(_ & _ & ->)]. Qed.
Lemma queued_ok cl cl' : queued cl cl' -> client_ok cl -> client_ok cl'.
Proof.
  intros [->|(Hb & Hb' & ->)]; [done|]. unfold client_ok. simpl.
  destruct (c_state cl); try tauto. intros (Hn & _). destruct Hb as [(? & Hs & _) _ _].
  congruence.
Qed.

Lemma sends_client w w' p cl :
  sends w w' -> w_clients w !! p = Some cl ->
  exists cl', w_clients w' !! p = Some cl' /\ queued cl cl'.
Proof.
  intros [_ H] Hp. specialize (H p). rewrite Hp in H.
  destruct (w_clients w' !! p); [by eexists|done].
Qed.
Lemma sends_client_inv w w' p cl' :
  sends w w' -> w_clients w' !! p = Some cl' ->
  exists cl, w_clients w !! p = Some cl /\ queued cl cl'.
Proof.
  intros [_ H] Hp. specialize (H p). rewrite Hp in H.
  destruct (w_clients w !! p); [by eexists|done].
Qed.
Lemma sends_rest w w' :
  sends w w' -> w_remotes w' = w_remotes w /\ client_list w' = client_list w /\
    remote_list w' = remote_list w /\ w_locks w' = w_locks w /\
    remote_device_list w' = remote_device_list w /\ remote_id_map w' = remote_id_map w /\
    w_next w' = w_next w /\ w_trace w' = w_trace w.
Proof. by intros [-> _]. Qed.

Lemma pair_ok_state cl cl' rm : c_state cl' = c_state cl -> pair_ok cl rm -> pair_ok cl' rm.
Proof. unfold pair_ok. by intros ->. Qed.

Lemma wf_sends L w w' : wf L w -> sends w w' -> wf L w'.
Proof.
  intros Hw Hs. pose proof Hs as [He Hp].
  destruct (sends_rest _ _ Hs) as (Hr & Hcl & Hrl & Hlk & Hd & Hi & Hn & _).
  destruct Hw. split; rewrite ?Hr, ?Hcl, ?Hrl, ?Hlk, ?Hd, ?Hi, ?Hn; try done.
  - destruct wf_clist as [? ? Hdom]. split; [done|done|]. intros p. rewrite Hdom.
    specialize (Hp p). destruct (w_clients w !! p), (w_clients w' !! p); done.
  - intros p Hlt. destruct (wf_fresh p Hlt) as [Hc ?]. split; [|done].
    specialize (Hp p). rewrite Hc in Hp. by destruct (w_clients w' !! p).
  - intros c cl Hc. destruct (sends_client_inv _ _ _ _ Hs Hc) as (x & Hx & Hq).
    eapply queued_ok; [done|eauto].
  - intros c cl r Hc Hcr. destruct (sends_client_inv _ _ _ _ Hs Hc) as (x & Hx & Hq).
    destruct (queued_fields _ _ Hq) as (Hst & Hrem & _). rewrite Hrem in Hcr.
    destruct (wf_c2r c x r Hx Hcr) as (rm & ? & ? & ?). exists rm. split_and!; try done.
    by eapply pair_ok_state.
  - intros r rm c Hrm Hc. destruct (wf_r2c r rm c Hrm Hc) as (x & Hx & Hxr).
    destruct (sends_client _ _ _ _ Hs Hx) as (cl' & ? & Hq).
    destruct (queued_fields _ _ Hq) as (_ & Hrem & _). exists cl'. by rewrite Hrem.
Qed.

(** *** Packets *)

(** The bytes of one packet. *)
Definition packet (version msg tag : Z) (payload : list byte) : list byte :=
  encode_header (MkHeader (16 + zlen payload) version msg tag) ++ payload.

Lemma packet_header_length payload :
  small payload -> u32 (HEADER_SIZE + zlen payload) = 16 + zlen payload /\
    i32 (16 + zlen payload) = 16 + zlen payload.
Proof.
  unfold small, HEADER_SIZE, i32. intros. rewrite u32_small, Z.mod_small by lia. lia.
Qed.

(** Either memory is exhausted and nothing changes, or exactly the packet is
    appended to the output and [POLLOUT] requested. *)
Definition queues (p : ptr) (cl : mux_client) (pkt : list byte) (n : Z) (w w' : world) : Prop :=
  (n = -1 /\ w' = w /\ exists k, sys_realloc k = false /\
     k <= capacity (c_ob cl) + zlen pkt + 4096) \/
  (n = zlen pkt /\ exists ob, buf_ok ob /\ data ob = data (c_ob cl) ++ pkt /\
     capacity (c_ob cl) <= capacity ob /\
     w' = put_client p (set_c_events (Z.lor (c_events cl) POLLOUT) (set_c_ob ob cl)) w).

Lemma queues_sends p cl pkt n w w' :
  w_clients w !! p = Some cl -> buf_ok (c_ob cl) -> queues p cl pkt n w w' -> sends w w'.
Proof.
  intros Hp Hok [(_ & -> & _)|(_ & ob & Hob & _ & _ & ->)]; [apply sends_refl|].
  eapply sends_put; [done|]. by right.
Qed.

Lemma wp_send_pkt p tag msg payload cl w :
  w_clients w !! p = Some cl -> buf_ok (c_ob cl) -> small payload ->
  wp (send_pkt p tag msg payload)
     (fun n w' => queues p cl (packet (c_proto_version cl) msg tag payload) n w w') w.
Proof.
  intros Hp Hok Hsmall. destruct (packet_header_length payload Hsmall) as [Hu Hi].
  assert (zlen (packet (c_proto_version cl) msg tag payload) = 16 + zlen payload) as Hlen.
  { unfold packet. rewrite length_app, length_encode_header. lia. }
  unfold send_pkt. wp_go. rewrite Hu. cbn [h_length].
  pose proof (iobuf_reserve_ok sys_realloc (c_ob cl) (16 + zlen payload) Hok) as Hres.
  unfold small in Hsmall.
  specialize (Hres ltac:(lia) realloc_large).
  destruct (iobuf_reserve _ _ _) as [ob|] eqn:E.
  2: { destruct Hres as (k & ? & ?). wp_go. left. rewrite Hlen. eauto 6 with lia. }
  destruct Hres as (Hobok & Hsz & Hdata & Hfit & Hcap).
  set (hdr := encode_header _).
  assert (zlen hdr = 16) as Hh by done.
  destruct (iobuf_packet_ok ob hdr payload Hobok) as
    (b1 & b2 & H1 & Hs1 & H2 & Hs2 & Hc2 & Hok2 & Hd2); [lia|].
  wp_go. rewrite Hh in *.
  assert (forall Q, Q b2 w -> wp (if zlen payload =? 0 then mret b1
     else lift (iobuf_write (size b1 + HEADER_SIZE) payload b1)) Q w) as Hwp.
  { intros Q HQ. unfold HEADER_SIZE in *. destruct (zlen payload =? 0).
    - simplify_eq. by apply wp_ret.
    - by eapply wp_lift. }
  apply Hwp. wp_go. right. rewrite Hi, Hlen. split; [done|].
  pose proof (ok_size _ Hobok). pose proof (ok_cap _ Hobok). unfold BUF_MAX in *.
  rewrite Hs2, Z.add_assoc, u32_small by lia.
  eexists. split; [exact Hok2|]. split; [|split; [simpl; lia|done]].
  by rewrite Hd2, Hdata.
Qed.

Lemma wp_send_pkt_raw p buffer cl w :
  w_clients w !! p = Some cl -> buf_ok (c_ob cl) -> small buffer ->
  wp (send_pkt_raw p buffer) (fun n w' => queues p cl buffer n w w') w.
Proof.
  intros Hp Hok Hsmall. unfold send_pkt_raw. wp_go. unfold small in Hsmall.
  pose proof (iobuf_reserve_ok sys_realloc (c_ob cl) (zlen buffer) Hok
                ltac:(lia) realloc_large) as Hres.
  destruct (iobuf_reserve _ _ _) as [ob|] eqn:E.
  2: { destruct Hres as (k & ? & ?). wp_go. left. eauto 6. }
  destruct Hres as (Hobok & Hsz & Hdata & Hfit & Hcap).
  destruct (iobuf_append_ok ob buffer Hobok) as (b1 & H1 & Hs1 & Hc1 & Hok1 & Hd1); [lia|].
  wp_go. right. split; [done|].
  pose proof (ok_size _ Hobok). pose proof (ok_cap _ Hobok). unfold BUF_MAX in *.
  rewrite Hs1, u32_small by lia.
  eexists. split; [exact Hok1|]. split; [by rewrite Hd1, Hdata|]. split; [simpl; lia|done].
Qed.

Context {PLaws : PlistLaws PL}.

Lemma small_xml (p : plist) xml : plist_to_xml p = Some xml -> small xml.
Proof. intros H%xml_length. unfold small. lia. Qed.

Lemma wp_send_plist_pkt p tag d cl w :
  w_clients w !! p = Some cl -> buf_ok (c_ob cl) ->
  wp (send_plist_pkt p tag d)
     (fun n w' => match plist_to_xml d with
                  | Some xml =>
                      queues p cl (packet (c_proto_version cl) MESSAGE_PLIST tag xml) n w w'
                  | None => n = -1 /\ w' = w
                  end) w.
Proof.
  intros Hp Hok. unfold send_plist_pkt. destruct (plist_to_xml d) eqn:E; [|by wp_go].
  apply wp_send_pkt; eauto using small_xml.
Qed.

Lemma send_plist_pkt_sends p tag d cl w :
  w_clients w !! p = Some cl -> buf_ok (c_ob cl) ->
  wp (send_plist_pkt p tag d) (fun _ w' => sends w w') w.
Proof.
  intros Hp Hok. wp_use (by eapply wp_send_plist_pkt). intros n w' H.
  destruct (plist_to_xml d); [by eapply queues_sends|].
  destruct H as [_ ->]. apply sends_refl.
Qed.

Lemma send_pkt_sends p tag msg payload cl w :
  w_clients w !! p = Some cl -> buf_ok (c_ob cl) -> small payload ->
  wp (send_pkt p tag msg payload) (fun _ w' => sends w w') w.
Proof.
  intros Hp Hok Hs. wp_use (by eapply wp_send_pkt). intros n w' H.
  by eapply queues_sends.
Qed.

Lemma small_le n z : (n <= 8)%nat -> small (le n z).
Proof. intros. unfold small. rewrite length_le. lia. Qed.

Lemma send_result_sends p tag result cl w :
  w_clients w !! p = Some cl -> buf_ok (c_ob cl) ->
  wp (send_result p tag result) (fun _ w' => sends w w') w.
Proof.
  intros Hp Hok. unfold send_result. wp_go. case_match.
  - by eapply send_plist_pkt_sends.
  - eapply send_pkt_sends; eauto. apply small_le. lia.
Qed.

Lemma client_send_packet_data_sends p hdr payload cl w :
  w_clients w !! p = Some cl -> buf_ok (c_ob cl) -> small hdr -> small payload ->
  wp (client_send_packet_data p hdr payload) (fun _ w' => sends w w') w.
Proof.
  intros Hp Hok Hh Hpl. unfold client_send_packet_data. wp_go.
  wp_use (by eapply wp_send_pkt_raw). intros n w' Hq.
  assert (sends w w') as Hs by by eapply queues_sends. destruct (0 <? zlen payload); [|by wp_go].
  destruct (sends_client _ _ _ _ Hs Hp) as (cl' & Hp' & Hcl').
  assert (buf_ok (c_ob cl')) as Hok' by (by destruct Hcl' as [->|(_ & ? & _)]).
  wp_use (by eapply wp_send_pkt_raw). intros m w'' Hq'.
  eapply sends_trans; [done|]. by eapply queues_sends.
Qed.

(** *** Device notifications *)

Lemma length_strncpy n s : length (strncpy n s) = n.
Proof. unfold strncpy. rewrite length_app, length_take, length_replicate. lia. Qed.

Lemma length_serial_number dev : length (dr_serial_number (device_record dev)) = 256%nat.
Proof.
  unfold device_record. cbn [dr_serial_number]. rewrite length_insert.
  repeat case_match; by rewrite ?length_strncpy, ?length_replicate.
Qed.

Lemma length_device_record dev : length (encode_device_record (device_record dev)) = 268%nat.
Proof.
  unfold encode_device_record. by rewrite !length_app, !length_le, length_serial_number.
Qed.

Lemma notify_device_add_sends p dev cl w :
  w_clients w !! p = Some cl -> buf_ok (c_ob cl) ->
  wp (notify_device_add p dev) (fun _ w' => sends w w') w.
Proof.
  intros Hp Hok. unfold notify_device_add. wp_go. case_match.
  - by eapply send_plist_pkt_sends.
  - eapply send_pkt_sends; eauto. unfold small. rewrite length_device_record. lia.
Qed.

Lemma notify_device_remove_sends p id cl w :
  w_clients w !! p = Some cl -> buf_ok (c_ob cl) ->
  wp (notify_device_remove p id) (fun _ w' => sends w w') w.
Proof.
  intros Hp Hok. unfold notify_device_remove. wp_go. case_match.
  - by eapply send_plist_pkt_sends.
  - eapply send_pkt_sends; eauto. apply small_le. lia.
Qed.

Lemma listen_ob_ok L w p cl :
  wf L w -> w_clients w !! p = Some cl -> c_state cl = CLIENT_LISTEN -> buf_ok (c_ob cl).
Proof.
  intros Hw Hp Hst. pose proof (wf_client _ _ Hw p cl Hp) as H.
  unfold client_ok in H. rewrite Hst in H. tauto.
Qed.

Lemma sends_slots w w' : sends w w' -> client_slots w' = client_slots w.
Proof. intros Hs. destruct (sends_rest _ _ Hs) as (_ & Hc & _). unfold client_slots. by rewrite Hc. Qed.

(** A broadcast queues output on listening clients only, and gives the list
    mutex back. *)
Lemma client_broadcast_sends L w notify :
  wf L w -> client_list_mutex ∉ L ->
  (forall p cl w', w_clients w' !! p = Some cl -> buf_ok (c_ob cl) ->
     wp (notify p) (fun _ w'' => sends w' w'') w') ->
  wp (client_broadcast notify) (fun _ w' => sends w w') w.
Proof.
  intros Hw Hm Hn. pose proof (wf_locks _ _ Hw) as HL.
  unfold client_broadcast. wp_go. apply wp_lock; [by rewrite HL|].
  set (w1 := set_w_locks _ w). wp_go.
  assert (wf (client_list_mutex :: L) w1) as Hw1 by (subst w1; by apply wf_lock).
  apply (wp_foreach_acc_stable _ _ (fun _ w' => sends w1 w') _ (client_slots w1)); [done| | |].
  - apply sends_refl.
  - intros _ w2 p Hs Hsl Hin. pose proof (wf_sends _ _ _ Hw1 Hs) as Hw2.
    destruct (wf_client_slot _ _ p Hw2) as [cl Hcl]; [by rewrite Hsl|].
    wp_go. apply wp_when; [|done]. intros Hst%bool_decide_eq_true_1. wp_go.
    wp_use (apply (Hn _ cl); [done|by eapply listen_ob_ok]).
    intros _ w3 Hs'. wp_go. split; [by eapply sends_trans|].
    by rewrite (sends_slots _ _ Hs').
  - intros _ w2 Hs _. wp_go.
    destruct (sends_rest _ _ Hs) as (_ & _ & _ & Hlk & _). rewrite Hlk. subst w1.
    cbn [w_locks set_w_locks]. rewrite HL, filter_mutex by done.
    destruct Hs as [He Hp]. split; [rewrite He; simpl; rewrite <- HL; by destruct w|done].
Qed.

Lemma client_device_add_sends L w dev :
  wf L w -> client_list_mutex ∉ L ->
  wp (client_device_add dev) (fun _ w' => sends w w') w.
Proof.
  intros. eapply client_broadcast_sends; [done..|]. eauto using notify_device_add_sends.
Qed.
Lemma client_device_remove_sends L w id :
  wf L w -> client_list_mutex ∉ L ->
  wp (client_device_remove id) (fun _ w' => sends w w') w.
Proof.
  intros. eapply client_broadcast_sends; [done..|]. eauto using notify_device_remove_sends.
Qed.
End client_facts.
