(* ===== verification/TeardownFacts.v ===== *)
(** Closing connections keeps the state well formed, and says exactly what is
    gone afterwards. *)

From S2P Require Import Prelude Exec Mem Utils Proto CStr RemoteId Plist World WorldFacts.
From S2P Require Import Socket Client Remote Teardown Command RemoteProcess Invariant.
From S2P Require Import ClientFacts.

#[local] Opaque key_device_id.

Section teardown_facts.
Context `{PL : PlistLib} `{EN : Env}.

Definition log_close (fd : Z) (w : world) : world := set_w_trace (EvClose fd :: w_trace w) w.

(** The state after [client_close c]: the client is gone, and the remote it was
    linked to with it; both descriptors are closed. *)
Definition client_closed (c : ptr) (cl : mux_client) (w : world) : world :=
  match c_remote cl with
  | None => drop_client c (log_close (c_fd cl) w)
  | Some r =>
      match w_remotes w !! r with
      | Some rm => drop_client c (drop_remote r (log_close (r_fd rm) (log_close (c_fd cl) w)))
      | None => w
      end
  end.

Lemma set_w_locks_id w : set_w_locks (w_locks w) w = w.
Proof. by destruct w. Qed.

(** Lock, do something that ignores the locks, unlock. *)
Lemma unlock_lock (m : mutex) w (f : world -> world) :
  m ∉ w_locks w ->
  (forall l w', w_locks (f (set_w_locks l w')) = l) ->
  (forall l w', f (set_w_locks l w') = set_w_locks l (f w')) ->
  set_w_locks (filter (fun m' => m' <> m) (w_locks (f (set_w_locks (m :: w_locks w) w))))
    (f (set_w_locks (m :: w_locks w) w)) = f w.
Proof.
  intros Hm Hl Hf. rewrite Hl, filter_mutex by done. rewrite Hf.
  transitivity (set_w_locks (w_locks w) (f w)); [done|].
  rewrite <- Hf, set_w_locks_id. done.
Qed.

Lemma wp_remote_close r rm Q w :
  w_remotes w !! r = Some rm -> Q tt (drop_remote r (log_close (r_fd rm) w)) ->
  wp (remote_close r) Q w.
Proof.
  intros Hr HQ. unfold remote_close, remove_from_remote_list. wp_go.
  eapply wp_free_remote; [exact Hr|]. exact HQ.
Qed.

Lemma wp_notify_client_close r rm Q w :
  w_remotes w !! r = Some rm -> remote_list_mutex ∉ w_locks w ->
  Q tt (drop_remote r (log_close (r_fd rm) w)) ->
  wp (usbmux_remote_notify_client_close r) Q w.
Proof.
  intros Hr Hm HQ. unfold usbmux_remote_notify_client_close. wp_go. apply wp_lock; [done|].
  wp_go. eapply wp_remote_close; [exact Hr|]. wp_go.
  rewrite (unlock_lock remote_list_mutex w (fun w => drop_remote r (log_close (r_fd rm) w)));
    done.
Qed.

(** The end of [client_close], once the link is settled. *)
Lemma wp_client_close_tail c cl Q w :
  w_clients w !! c = Some cl -> client_list_mutex ∉ w_locks w -> Q tt (drop_client c w) ->
  wp (_ ← lock client_list_mutex;
      _ ← modify (fun w => set_client_list (collection_remove (client_list w) c) w);
      _ ← unlock client_list_mutex;
      free_client c) Q w.
Proof.
  intros Hc Hm HQ. wp_go. apply wp_lock; [done|]. wp_go.
  rewrite (unlock_lock client_list_mutex w
    (fun w => set_client_list (collection_remove (client_list w) c) w)) by done.
  by eapply wp_free_client.
Qed.

Lemma drop_client_put c cl w : drop_client c (put_client c cl w) = drop_client c w.
Proof. unfold drop_client, put_client. simpl. by rewrite delete_insert_eq. Qed.
Lemma drop_remote_put r rm w : drop_remote r (put_remote r rm w) = drop_remote r w.
Proof. unfold drop_remote, put_remote. simpl. by rewrite delete_insert_eq. Qed.

Lemma wp_client_close c cl Q w :
  w_clients w !! c = Some cl -> client_list_mutex ∉ w_locks w ->
  (forall r, c_remote cl = Some r ->
     is_Some (w_remotes w !! r) /\ remote_list_mutex ∉ w_locks w) ->
  Q tt (client_closed c cl w) -> wp (client_close c) Q w.
Proof.
  intros Hc Hm Hlink HQ. unfold client_close. wp_go.
  set (dead := bool_decide _).
  set (cl1 := if dead then set_c_state CLIENT_DEAD cl else cl).
  assert (forall Q', Q' tt (put_client c cl1 w) ->
            wp (when dead (write_client c (set_c_state CLIENT_DEAD))) Q' w) as Hdead.
  { intros Q' HQ'. unfold cl1 in HQ'. apply wp_when; intros E; rewrite E in *.
    - by eapply wp_write_client.
    - by rewrite put_client_id in HQ'. }
  apply Hdead. wp_go. unfold client_closed in HQ.
  assert (c_remote cl1 = c_remote cl) as Hcl1 by (unfold cl1; by destruct dead).
  destruct (c_remote cl) as [r|] eqn:Er.
  - destruct (Hlink r eq_refl) as [[rm Hrm] Hrl]. rewrite Hrm in HQ.
    unfold usbmux_remote_clear_client. wp_go.
    set (w1 := put_remote _ _ _).
    eapply (wp_notify_client_close r (set_r_client None rm)); [apply put_remote_lookup|done|].
    cbv beta. apply (wp_client_close_tail c cl1); [apply put_client_lookup|done|].
    subst w1. cbn [r_fd set_r_client].
    match goal with |- Q tt ?x => match type of HQ with Q tt ?y => replace x with y end end;
      [done|].
    transitivity (drop_client c (put_client c cl1 (drop_remote r (put_remote r
      (set_r_client None rm) (log_close (r_fd rm) (log_close (c_fd cl) w)))))); [|done].
    by rewrite drop_client_put, drop_remote_put.
  - apply wp_ret. cbv beta. apply (wp_client_close_tail c cl1); [apply put_client_lookup|done|].
    match goal with |- Q tt ?x => match type of HQ with Q tt ?y => replace x with y end end;
      [done|].
    transitivity (drop_client c (put_client c cl1 (log_close (c_fd cl) w))); [|done].
    by rewrite drop_client_put.
Qed.

Lemma wf_client_closed L w c cl :
  wf L w -> w_clients w !! c = Some cl -> wf L (client_closed c cl w).
Proof.
  intros Hw Hc. unfold client_closed. destruct (c_remote cl) as [r|] eqn:Er.
  - destruct (wf_c2r _ _ Hw c cl r Hc Er) as (rm & Hrm & Hrc & _). rewrite Hrm.
    eapply wf_drop_pair; try done. by apply wf_log, wf_log.
  - eapply wf_drop_client; [by apply wf_log|done|done].
Qed.

(** [client_close] on a well-formed state: no fault, and well formed again. *)
Lemma client_close_wf L c cl Q w :
  wf L w -> w_clients w !! c = Some cl -> client_list_mutex ∉ L ->
  (c_remote cl <> None -> remote_list_mutex ∉ L) ->
  (wf L (client_closed c cl w) -> Q tt (client_closed c cl w)) -> wp (client_close c) Q w.
Proof.
  intros Hw Hc Hm Hr HQ. pose proof (wf_locks _ _ Hw) as HL.
  eapply wp_client_close; [done|by rewrite HL| |].
  - intros r Er. destruct (wf_c2r _ _ Hw c cl r Hc Er) as (rm & Hrm & _).
    split; [by eexists|]. rewrite HL. apply Hr. by rewrite Er.
  - apply HQ. by apply wf_client_closed.
Qed.

(** The state after [usbmux_remote_close r]. *)
Definition remote_closed (r : ptr) (rm : remote_mux) (w : world) : world :=
  match r_client rm with
  | Some c => match w_clients w !! c with
              | Some cl => client_closed c cl w
              | None => w
              end
  | None => drop_remote r (log_close (r_fd rm) w)
  end.

Lemma usbmux_remote_close_wf L r rm Q w :
  wf L w -> w_remotes w !! r = Some rm -> client_list_mutex ∉ L -> remote_list_mutex ∉ L ->
  (wf L (remote_closed r rm w) -> Q tt (remote_closed r rm w)) ->
  wp (usbmux_remote_close r) Q w.
Proof.
  intros Hw Hr Hcm Hrm HQ. pose proof (wf_locks _ _ Hw) as HL.
  unfold usbmux_remote_close, client_notify_remote_close, remote_closed in *. wp_go.
  destruct (r_client rm) as [c|] eqn:Ec.
  - destruct (wf_r2c _ _ Hw r rm c Hr Ec) as (cl & Hc & _). rewrite Hc in HQ.
    eapply client_close_wf; eauto.
  - wp_go. apply wp_lock; [by rewrite HL|]. wp_go.
    eapply wp_remote_close; [exact Hr|]. wp_go.
    rewrite (unlock_lock remote_list_mutex w (fun w => drop_remote r (log_close (r_fd rm) w)))
      by (done || by rewrite HL).
    apply HQ. eapply wf_drop_remote; [by apply wf_log|done|done].
Qed.

(** *** The device list *)

Lemma wp_dict_foreach {C} (func : string -> plist -> C -> M (Z * C))
    (I : list (string * plist) -> C -> world -> Prop) Q l a w :
  I l a w ->
  (forall k v l a w, I ((k, v) :: l) a w ->
     wp (func k v a) (fun rc w' => if rc.1 <? 0 then Q rc.2 w' else I l rc.2 w') w) ->
  (forall a w, I [] a w -> Q a w) ->
  wp (plist_dict_foreach l func a) Q w.
Proof.
  intros HI Hstep Hend. revert a w HI. induction l as [|[k v] l IH]; intros a w HI; simpl.
  { apply wp_ret. auto. }
  apply wp_bind. wp_use (by apply Hstep). intros [rc a'] w'. simpl.
  destruct (rc <? 0); [apply wp_ret|apply IH].
Qed.

Context {EL : EnvLaws EN} {PLaws : PlistLaws PL}.

(** Only queued output and the device list differ. *)
Definition sends_devices (w w' : world) : Prop :=
  exists d, sends (set_remote_device_list d w) w'.

(** The keys of the devices of instance [id]. *)
Definition key_of_instance (id : Z) (key : string) : Prop :=
  Z.shiftr (key_device_id key) 24 = id.

Lemma sends_set_devices d w w' :
  sends w w' -> sends (set_remote_device_list d w) (set_remote_device_list d w').
Proof. intros [He Hp]. split; [|exact Hp]. rewrite He. done. Qed.

Lemma set_devices_twice d d' w :
  set_remote_device_list d (set_remote_device_list d' w) = set_remote_device_list d w.
Proof. done. Qed.
Lemma set_devices_id w : set_remote_device_list (remote_device_list w) w = w.
Proof. by destruct w. Qed.

(** What is left of [d] when the entries [l] are still to be visited. *)
Definition left_of (id : Z) (d : plist) (l : list (string * plist)) (d' : plist) : Prop :=
  is_dict d' /\ forall key, plist_dict_get_item d' key =
    if bool_decide (key ∈ l.*1) then plist_dict_get_item d key
    else if Z.shiftr (key_device_id key) 24 =? id then None
    else plist_dict_get_item d key.

Lemma left_of_all id d : is_dict d -> left_of id d (plist_dict_items d) d.
Proof.
  intros Hd. split; [done|]. intros key. case_bool_decide as Hk; [done|].
  destruct (plist_dict_get_item d key) as [v|] eqn:E; [|by case_match].
  apply items_get in E; [|done]. destruct Hk. apply list_elem_of_fmap. by exists (key, v).
Qed.

Lemma left_of_next id d k v l d' d'' :
  k ∉ l.*1 -> left_of id d ((k, v) :: l) d' -> is_dict d'' ->
  plist_dict_get_item d'' k =
    (if Z.shiftr (key_device_id k) 24 =? id then None else plist_dict_get_item d k) ->
  (forall key, k <> key -> plist_dict_get_item d'' key = plist_dict_get_item d' key) ->
  left_of id d l d''.
Proof.
  intros Hk [_ H] Hd Hat Hother. split; [done|]. intros key. destruct (decide (k = key)) as [<-|Hne].
  - by rewrite bool_decide_eq_false_2.
  - rewrite Hother, H, fmap_cons by done. destruct (decide (key ∈ l.*1)).
    + rewrite !bool_decide_eq_true_2; [done|done|by apply list_elem_of_further].
    + rewrite !bool_decide_eq_false_2; [done|done|]. by rewrite not_elem_of_cons.
Qed.

Lemma left_of_removed id d k v l d' :
  k ∉ l.*1 -> left_of id d ((k, v) :: l) d' -> (Z.shiftr (key_device_id k) 24 =? id) = true ->
  left_of id d l (plist_dict_remove_item d' k).
Proof.
  intros Hk H Hid. pose proof H as [Hd _]. eapply left_of_next; [done..|eauto with usbflux| |].
  - by rewrite get_remove_eq, Hid.
  - intros key Hne. by rewrite get_remove_ne.
Qed.

Lemma left_of_kept id d k v l d' :
  k ∉ l.*1 -> left_of id d ((k, v) :: l) d' -> (Z.shiftr (key_device_id k) 24 =? id) = false ->
  left_of id d l d'.
Proof.
  intros Hk H Hid. pose proof H as [Hd Hget]. eapply left_of_next; [done..| |done].
  rewrite Hget, fmap_cons. by rewrite bool_decide_eq_true_2, Hid by apply list_elem_of_here.
Qed.

Lemma remove_devices L w id :
  wf L w -> client_list_mutex ∉ L ->
  wp (plist_dict_foreach (device_entries w) (remote_device_notify_remove id) tt)
     (fun _ w' => wf L w' /\ sends_devices w w' /\
        forall d key, remote_device_list w = Some d ->
          exists d', remote_device_list w' = Some d' /\
            plist_dict_get_item d' key =
              if Z.shiftr (key_device_id key) 24 =? id then None
              else plist_dict_get_item d key) w.
Proof.
  intros Hw Hm. destruct (wf_devices _ _ Hw) as (d & Hd & Hdict).
  unfold device_entries. rewrite Hd.
  apply (wp_dict_foreach _ (fun l a w' => (wf L w' /\ sends_devices w w' /\
    exists d', remote_device_list w' = Some d' /\ left_of id d l d') /\ NoDup l.*1)).
  - split; [|by apply items_nodup]. split_and!; [done| |by eauto using left_of_all].
    exists (remote_device_list w). rewrite set_devices_id. apply sends_refl.
  - intros k v l [] w1 [(Hw1 & [d1 Hs] & d' & Hd' & Hleft) Hnd].
    rewrite fmap_cons in Hnd. apply NoDup_cons in Hnd as [Hk Hnd]. cbn [fst] in Hk.
    unfold remote_device_notify_remove. wp_go.
    apply wp_when; intros Hid; wp_go; cbn [fst snd]; change (0 <? 0) with false; cbv iota.
    + wp_use (by eapply client_device_remove_sends). intros [] w2 Hs2. wp_go.
      cbn [fst snd remote_device_list set_remote_device_list]. change (0 <? 0) with false. cbv iota.
      pose proof (wf_sends _ _ _ Hw1 Hs2) as Hw2. pose proof Hleft as [Hdict' _].
      destruct (sends_rest _ _ Hs2) as (_ & _ & _ & _ & Hd2 & _). rewrite Hd2, Hd'. cbn [fmap option_fmap option_map].
      split; [|done]. split_and!; [by apply wf_device_list; eauto with usbflux| |by eauto using left_of_removed].
      exists (Some (plist_dict_remove_item d' k)).
      rewrite <- (set_devices_twice _ d1). apply sends_set_devices. by eapply sends_trans.
    + split; [|done]. split_and!; [done|by exists d1|by eauto using left_of_kept].
  - intros [] w1 [(Hw1 & Hs & d' & Hd' & _ & Hget) _]. split_and!; [done..|].
    intros d0 key Hd0. simplify_eq. exists d'. split; [done|].
    rewrite Hget. by rewrite bool_decide_eq_false_2 by apply not_elem_of_nil.
Qed.

Lemma sends_devices_rest w w' :
  sends_devices w w' -> w_remotes w' = w_remotes w /\ client_list w' = client_list w /\
    remote_list w' = remote_list w /\ w_locks w' = w_locks w /\
    remote_id_map w' = remote_id_map w /\ w_next w' = w_next w /\ w_trace w' = w_trace w.
Proof. intros [d Hs]. apply sends_rest in Hs. naive_solver. Qed.
Lemma sends_devices_client w w' p cl :
  sends_devices w w' -> w_clients w !! p = Some cl ->
  exists cl', w_clients w' !! p = Some cl' /\ queued cl cl'.
Proof. intros [d Hs] Hp. by eapply sends_client in Hs. Qed.

(** *** [usbmux_remote_dispose] *)

(** The end of [usbmux_remote_dispose], after the devices were withdrawn. *)
Definition disposed (r : ptr) (rm : remote_mux) (w : world) : world :=
  let w := match r_client rm with
           | Some c => match w_clients w !! c with
                       | Some cl => drop_client c (log_close (c_fd cl) (drop_remote r w))
                       | None => w
                       end
           | None => drop_remote r w
           end in
  if r_is_listener rm && bool_decide (r_host rm <> None)
  then set_remote_id_map (set_remote_id_used (r_id rm) false (remote_id_map w)) w
  else w.

Lemma wf_disposed L w r rm :
  wf L w -> w_remotes w !! r = Some rm -> wf L (disposed r rm w).
Proof.
  intros Hw Hr. unfold disposed.
  assert (wf L (match r_client rm with
     | Some c => match w_clients w !! c with
                 | Some cl => drop_client c (log_close (c_fd cl) (drop_remote r w))
                 | None => w
                 end
     | None => drop_remote r w end)) as Hw'.
  { destruct (r_client rm) as [c|] eqn:Ec; [|by eapply wf_drop_remote].
    destruct (wf_r2c _ _ Hw r rm c Hr Ec) as (cl & Hc & Hcr). rewrite Hc.
    change (wf L (drop_client c (drop_remote r (log_close (c_fd cl) w)))).
    eapply wf_drop_pair; try done. by apply wf_log. }
  destruct (_ && _) eqn:El; [|exact Hw'].
  apply andb_true_iff in El as [El Eh%bool_decide_eq_true_1].
  set (w1 := match r_client rm with Some _ => _ | None => _ end) in *.
  assert (w_remotes w1 = delete r (w_remotes w) /\ remote_id_map w1 = remote_id_map w) as [E1 E2].
  { unfold w1. destruct (r_client rm) as [c|] eqn:Ec; [|done].
    destruct (wf_r2c _ _ Hw r rm c Hr Ec) as (cl & Hc & _). by rewrite Hc. }
  apply wf_id_map; [exact Hw'|apply set_ok, (wf_ids _ _ Hw')|]. rewrite E1, E2.
  apply places_release; [done|done| | |apply (wf_ids _ _ Hw)|apply (wf_places _ _ Hw)].
  - by apply (wf_remote _ _ Hw r rm).
  - intros q y Hy. by apply (wf_remote _ _ Hw q y Hy).
Qed.

(** What [usbmux_remote_dispose r] leaves, in terms of the state it starts from. *)
Record dispose_post (L : list mutex) (r : ptr) (rm : remote_mux) (w w' : world) : Prop := {
  dp_wf : wf L w';
  dp_remotes : w_remotes w' = delete r (w_remotes w);
  dp_list : remote_list w' = collection_remove (remote_list w) r;
  dp_client c : r_client rm = Some c -> w_clients w' !! c = None;
  dp_others c cl : r_client rm <> Some c -> w_clients w !! c = Some cl ->
    exists cl', w_clients w' !! c = Some cl' /\ queued cl cl';
  dp_shrinks c : is_Some (w_clients w' !! c) -> is_Some (w_clients w !! c);
  dp_devices d key : remote_device_list w = Some d ->
    exists d', remote_device_list w' = Some d' /\
      plist_dict_get_item d' key =
        if Z.shiftr (key_device_id key) 24 =? r_id rm then None
        else plist_dict_get_item d key;
  dp_ids : remote_id_map w' =
    if r_is_listener rm && bool_decide (r_host rm <> None)
    then set_remote_id_used (r_id rm) false (remote_id_map w) else remote_id_map w }.

Lemma disposed_fields r rm w :
  (forall c, r_client rm = Some c -> is_Some (w_clients w !! c)) ->
  w_remotes (disposed r rm w) = delete r (w_remotes w) /\
  remote_list (disposed r rm w) = collection_remove (remote_list w) r /\
  remote_device_list (disposed r rm w) = remote_device_list w /\
  remote_id_map (disposed r rm w) =
    (if r_is_listener rm && bool_decide (r_host rm <> None)
     then set_remote_id_used (r_id rm) false (remote_id_map w) else remote_id_map w) /\
  w_clients (disposed r rm w) =
    match r_client rm with Some c => delete c (w_clients w) | None => w_clients w end.
Proof.
  intros Hc. unfold disposed. destruct (r_client rm) as [c|].
  - destruct (Hc c eq_refl) as [cl ->]. by destruct (_ && _).
  - by destruct (_ && _).
Qed.

Lemma disposed_post L r rm w w1 :
  wf L w1 -> sends_devices w w1 -> w_remotes w1 !! r = Some rm ->
  (forall d key, remote_device_list w = Some d ->
     exists d', remote_device_list w1 = Some d' /\
       plist_dict_get_item d' key =
         if Z.shiftr (key_device_id key) 24 =? r_id rm then None else plist_dict_get_item d key) ->
  (forall c, r_client rm = Some c -> is_Some (w_clients w1 !! c)) ->
  dispose_post L r rm w (disposed r rm w1).
Proof.
  intros Hw1 Hs Hr1 Hdev Hcl1. destruct (sends_devices_rest _ _ Hs) as (Er & _ & Erl & _ & Ei & _ & _).
  destruct (disposed_fields r rm w1 Hcl1) as (E1 & E2 & E3 & E4 & E5).
  split; rewrite ?E1, ?E2, ?E3, ?E4, ?E5, ?Er, ?Erl, ?Ei; try done.
  - by apply wf_disposed.
  - intros c ->. apply lookup_delete_eq.
  - intros c cl Hne Hc. destruct (sends_devices_client _ _ _ _ Hs Hc) as (cl' & ? & ?).
    exists cl'. destruct (r_client rm) as [c'|]; [|done].
    rewrite lookup_delete_ne by congruence. done.
  - intros c Hc. assert (is_Some (w_clients w1 !! c)) as [x Hx].
    { destruct (r_client rm); [|done]. destruct Hc as [x [_ Hx]%lookup_delete_Some]. by exists x. }
    destruct Hs as [d Hs].
    destruct (sends_client_inv _ _ _ _ Hs Hx) as (y & Hy & _). by exists y.
Qed.

(** The identifier of a listener, then the object. *)
Lemma wp_release r rm w Q :
  w_remotes w !! r = Some rm ->
  (let w' := set_w_remotes (delete r (w_remotes w)) w in
   Q tt (if r_is_listener rm && bool_decide (r_host rm <> None)
         then set_remote_id_map (set_remote_id_used (r_id rm) false (remote_id_map w')) w'
         else w')) ->
  wp (_ ← when (r_is_listener rm && bool_decide (r_host rm <> None))
            (modify (fun w => set_remote_id_map
               (set_remote_id_used (r_id rm) false (remote_id_map w)) w));
      free_remote r) Q w.
Proof.
  intros Hr HQ. wp_go. apply wp_when; intros E; rewrite E in HQ; wp_go;
    (eapply wp_free_remote; [exact Hr|exact HQ]).
Qed.

Lemma wp_dispose L r rm Q w :
  wf L w -> w_remotes w !! r = Some rm -> client_list_mutex ∉ L ->
  (forall w', dispose_post L r rm w w' -> Q tt w') ->
  wp (usbmux_remote_dispose r) Q w.
Proof.
  intros Hw Hr Hm HQ. unfold usbmux_remote_dispose, remove_from_remote_list. wp_go.
  set (w0 := set_w_trace _ w). assert (wf L w0) as Hw0 by by apply wf_log.
  wp_use (by eapply remove_devices). intros [] w1 (Hw1 & Hs & Hdev). wp_go.
  assert (w_remotes w1 !! r = Some rm) as Hr1 by by rewrite (proj1 (sends_devices_rest _ _ Hs)).
  assert (forall c, r_client rm = Some c -> is_Some (w_clients w1 !! c)) as Hcl1.
  { intros c Ec. destruct (wf_r2c _ _ Hw1 r rm c Hr1 Ec) as (cl & Hc & _). by eexists. }
  assert (Q tt (disposed r rm w1)) as HQ' by (apply HQ; destruct (disposed_post L r rm w0 w1) as []; [done..|by split]).
  clear HQ. pose proof (wf_locks _ _ Hw1) as HL. set (w2 := set_remote_list _ w1).
  unfold client_clear_remote, client_notify_remote_close. unfold disposed in HQ'.
  destruct (r_client rm) as [c|] eqn:Ec.
  - destruct (Hcl1 c eq_refl) as [cl Hc]. rewrite Hc in HQ'.
    wp_go.
    apply (wp_client_close c (set_c_remote None cl)); [apply put_client_lookup| |done|].
    { simpl. by rewrite HL. }
    apply (wp_release r rm); [exact Hr1|]. unfold client_closed. cbn [c_remote c_fd set_c_remote].
    replace (set_w_remotes _ _) with (drop_client c (put_client c (set_c_remote None cl)
      (log_close (c_fd cl) (drop_remote r w1)))) by done.
    by rewrite drop_client_put.
  - apply wp_ret. cbv beta. by apply (wp_release r rm).
Qed.

(** *** [remote_mark_dead] *)

Lemma remote_ok_dead rm : remote_ok rm -> remote_ok (set_r_state REMOTE_DEAD rm).
Proof. intros []. split; simpl; try done. intros H. set_solver. Qed.
Lemma remote_ok_events rm ev : remote_ok rm -> remote_ok (set_r_events ev rm).
Proof. by intros []. Qed.

Lemma wf_kill L w p rm :
  wf L w -> w_remotes w !! p = Some rm -> wf L (put_remote p (set_r_state REMOTE_DEAD rm) w).
Proof.
  intros Hw Hp. eapply wf_put_remote; try done.
  - eapply remote_ok_dead, wf_remote; eauto.
  - intros cl _ _. simpl. set_solver.
Qed.

Lemma no_slots_no_remotes L w n :
  wf L w -> length (remote_slots w) = n ->
  (forall j, (j < n)%nat -> (j < n)%nat -> remote_slots w !! j = Some None) -> w_remotes w = ∅.
Proof.
  intros Hw Hn Hdone. apply map_empty. intros p.
  destruct (w_remotes w !! p) eqn:E; [|done]. exfalso.
  assert (p ∈ elems (remote_list w)) as Hp by (apply (wf_rlist _ _ Hw); by eexists).
  apply elem_of_omap_id, list_elem_of_lookup in Hp as [j Hj].
  pose proof (lookup_lt_Some _ _ _ Hj). unfold remote_slots in *.
  rewrite Hdone in Hj; [done|lia|lia].
Qed.

(** Clients without a remote survive, with at most more output queued; no client
    appears. *)
Record keeps (w w' : world) : Prop := {
  kp_unlinked c cl : w_clients w !! c = Some cl -> c_remote cl = None ->
    exists cl', w_clients w' !! c = Some cl' /\ queued cl cl';
  kp_shrinks c : is_Some (w_clients w' !! c) -> is_Some (w_clients w !! c) }.

Lemma keeps_refl w : keeps w w.
Proof. split; [|done]. intros c cl Hc _. eauto using queued_refl. Qed.
Lemma keeps_trans a b c : keeps a b -> keeps b c -> keeps a c.
Proof.
  intros [Hab Sab] [Hbc Sbc]. split; [|by auto].
  intros x cl Hx Hn. destruct (Hab x cl Hx Hn) as (cl' & Hx' & Hq).
  destruct (queued_fields _ _ Hq) as (_ & Hr & _).
  destruct (Hbc x cl' Hx') as (cl'' & ? & ?); [congruence|].
  eauto using queued_trans.
Qed.
Lemma keeps_clients w w' : w_clients w' = w_clients w -> keeps w w'.
Proof. intros E. split; rewrite E; [|done]. intros c cl. eauto using queued_refl. Qed.
Lemma dispose_keeps L r rm w w' :
  wf L w -> w_remotes w !! r = Some rm -> dispose_post L r rm w w' -> keeps w w'.
Proof.
  intros Hw Hr Hp. split; [|apply (dp_shrinks _ _ _ _ _ Hp)]. intros c cl Hc Hn. eapply (dp_others _ _ _ _ _ Hp); [|done].
  intros Hrc. destruct (wf_r2c _ _ Hw r rm c Hr Hrc) as (x & Hx & ?). congruence.
Qed.

(** Reaping every slot of the list: nothing is left. *)
Lemma wp_dispose_all L Q w :
  wf L w -> client_list_mutex ∉ L ->
  (forall w', wf L w' -> w_remotes w' = ∅ -> keeps w w' -> Q tt w') ->
  wp (foreach remote_slots usbmux_remote_dispose) Q w.
Proof.
  intros Hw Hm HQ.
  set (n := length (remote_slots w)).
  apply (wp_foreach _ _ (fun i w' => wf L w' /\ length (remote_slots w') = n /\ keeps w w' /\
    forall j, (j < i)%nat -> (j < n)%nat -> remote_slots w' !! j = Some None) _ n); [done| | |].
  - split_and!; [done|done|apply keeps_refl|]. intros. lia.
  - intros i w1 (Hw1 & Hn & Hk & Hdone) Hlen Hi.
    destruct (remote_slots w1 !! i) as [[p|]|] eqn:E.
    + destruct (wf_remote_slot _ _ p Hw1) as [rm Hp]; [by eapply list_elem_of_lookup_2|].
      eapply wp_dispose; [done|done|done|]. intros w2 Hpost.
      pose proof (dispose_keeps _ _ _ _ _ Hw1 Hp Hpost) as Hk2. destruct Hpost as [Hw2 _ El _ _ _ _ _].
      assert (length (remote_slots w2) = n) as Hl2.
      { unfold remote_slots in *. by rewrite El, length_slots_remove. }
      split; [|done]. split_and!; [done|done|by eapply keeps_trans|]. intros j Hj Hl.
      unfold remote_slots in *. rewrite El.
      rewrite slots_remove_lookup; [|apply (list_nodup _ _ (wf_rlist _ _ Hw1))|unfold slots in *; lia].
      case_decide as Ej; [done|]. apply Hdone; [|done].
      destruct (decide (j = i)) as [->|]; [congruence|lia].
    + split_and!; [done|done|done|]. intros j Hj Hl. destruct (decide (j = i)) as [->|]; [done|].
      apply Hdone; lia.
    + apply lookup_ge_None in E. lia.
  - intros w1 (Hw1 & Hn & Hk & Hdone). apply HQ; [done| |done]. by eapply no_slots_no_remotes.
Qed.

(** Remotes may only have died, or been asked for output. *)
Definition condemned (id : Z) (rm rm' : remote_mux) : Prop :=
  rm' = rm \/ (r_id rm = id /\ rm' = set_r_state REMOTE_DEAD rm).

Record condemns (id : Z) (w w' : world) : Prop := {
  cd_rest : w' = set_w_remotes (w_remotes w') w;
  cd_dom p : is_Some (w_remotes w !! p) <-> is_Some (w_remotes w' !! p);
  cd_each p rm rm' : w_remotes w !! p = Some rm -> w_remotes w' !! p = Some rm' ->
    condemned id rm rm' }.

Lemma condemns_refl id w : condemns id w w.
Proof. split; [by destruct w|done|]. intros p rm rm' H1 H2. left. congruence. Qed.

Lemma condemns_id id w w' p rm' :
  condemns id w w' -> w_remotes w' !! p = Some rm' ->
  exists rm, w_remotes w !! p = Some rm /\ r_id rm' = r_id rm /\ condemned id rm rm'.
Proof.
  intros Hc Hp. destruct (proj2 (cd_dom _ _ _ Hc p)) as [rm Hrm]; [by eexists|].
  exists rm. split; [done|]. pose proof (cd_each _ _ _ Hc p rm rm' Hrm Hp) as Hcd.
  split; [|done]. by destruct Hcd as [->|[_ ->]].
Qed.

Lemma condemns_kill id w w' p rm' :
  condemns id w w' -> w_remotes w' !! p = Some rm' -> r_id rm' = id ->
  condemns id w (put_remote p (set_r_state REMOTE_DEAD rm') w').
Proof.
  intros Hc Hp Hid. destruct (condemns_id _ _ _ _ _ Hc Hp) as (rm & Hrm & Heq & Hcd).
  destruct Hc as [Hr Hd He]. split.
  - rewrite Hr. by destruct w.
  - intros q. rewrite Hd. destruct (decide (p = q)) as [->|].
    + rewrite put_remote_lookup, Hp. split; by eexists.
    + by rewrite put_remote_lookup_ne.
  - intros q x y Hx. destruct (decide (p = q)) as [->|].
    + rewrite put_remote_lookup. intros [= <-]. simplify_eq. right.
      split; [congruence|]. by destruct Hcd as [->|[_ ->]].
    + rewrite put_remote_lookup_ne by done. by apply He.
Qed.

Lemma condemns_slots id w w' : condemns id w w' -> remote_slots w' = remote_slots w.
Proof. intros [Hr _ _]. rewrite Hr. done. Qed.

(** The first loop of [remote_mark_dead]. *)
Lemma wp_condemn_loop L remote rm0 Q w :
  wf L w -> w_remotes w !! remote = Some rm0 ->
  (forall w', wf L w' -> condemns (r_id rm0) w w' ->
     (forall p rm, w_remotes w' !! p = Some rm -> r_id rm = r_id rm0 ->
        r_state rm = REMOTE_DEAD) -> Q tt w') ->
  wp (foreach remote_slots (fun p =>
         r ← read_remote p; r0 ← read_remote remote;
         when (r_id r =? r_id r0) (write_remote p (set_r_state REMOTE_DEAD)))) Q w.
Proof.
  intros Hw Hrem HQ. set (id := r_id rm0).
  set (marked := fun i w' => forall j p rm, (j < i)%nat -> remote_slots w !! j = Some (Some p) ->
    w_remotes w' !! p = Some rm -> r_id rm = id -> r_state rm = REMOTE_DEAD).
  apply (wp_foreach _ _ (fun i w' => wf L w' /\ condemns id w w' /\ marked i w') _
    (length (remote_slots w))); [done| | |].
  - split; [done|]. split; [apply condemns_refl|]. intros j p rm Hj. lia.
  - intros i w1 (Hw1 & Hc & Hmk) Hlen Hi. rewrite (condemns_slots _ _ _ Hc).
    assert (forall w2 : world, (forall q, Some (Some q) = remote_slots w !! i ->
        forall rm, w_remotes w2 !! q = Some rm -> r_id rm = id -> r_state rm = REMOTE_DEAD) ->
      marked i w2 -> marked (i + 1)%nat w2) as Hnext.
    { intros w2 Hi2 Hm2 j q rm Hj Hq. destruct (decide (j = i)) as [->|]; [by apply Hi2|].
      apply (Hm2 j); [lia|done]. }
    destruct (remote_slots w !! i) as [[p|]|] eqn:E.
    2,3: split; [done|]; split; [done|]; apply Hnext; [intros; congruence|done].
    destruct (wf_remote_slot _ _ p Hw1) as [rm Hp].
    { rewrite (condemns_slots _ _ _ Hc). by eapply list_elem_of_lookup_2. }
    destruct (proj1 (cd_dom _ _ _ Hc remote)) as [rm1 Hrem1]; [by eexists|].
    destruct (condemns_id _ _ _ _ _ Hc Hrem1) as (x & Hx & Hidx & _). simplify_eq.
    wp_go. rewrite Hidx. apply wp_when.
    + intros Heq%Z.eqb_eq. wp_go.
      assert (condemns id w (put_remote p (set_r_state REMOTE_DEAD rm) w1)) as Hc2
        by by apply condemns_kill.
      split; [|by rewrite (condemns_slots _ _ _ Hc2)].
      split; [by apply wf_kill|]. split; [done|]. apply Hnext.
      * intros q [= ->] rm'. rewrite put_remote_lookup. by intros [= <-].
      * intros j q rm' Hj Hq. destruct (decide (p = q)) as [->|].
        -- rewrite put_remote_lookup. by intros [= <-].
        -- rewrite put_remote_lookup_ne by done. by eapply Hmk.
    + intros Hne%Z.eqb_neq. split; [|by rewrite (condemns_slots _ _ _ Hc)].
      split; [done|]. split; [done|]. apply Hnext; [|done].
      intros q [= ->] rm' Hrm' Hid'. simplify_eq.
  - intros w1 (Hw1 & Hc & Hmk). apply HQ; [done|done|]. intros p rm Hp Hid.
    assert (p ∈ elems (remote_list w1)) as Hin by (apply (wf_rlist _ _ Hw1); by eexists).
    apply elem_of_omap_id, list_elem_of_lookup in Hin as [j Hj].
    fold (remote_slots w1) in Hj.
    rewrite (condemns_slots _ _ _ Hc) in Hj. eapply Hmk; try done.
    by eapply lookup_lt_Some.
Qed.

(** Condemning the connections of one identifier, [remote] first: either a live
    one is left and is asked for output, so that the next poll returns and the
    dead are reaped, or all were dead and all are reaped at once. *)
Inductive mark_dead_post (L : list mutex) (id : Z) (w w' : world) : Prop :=
| mark_left p rm w1 :
    condemns id w w1 ->
    (forall q x, w_remotes w1 !! q = Some x -> r_id x = id -> r_state x = REMOTE_DEAD) ->
    w_remotes w1 !! p = Some rm -> r_id rm <> id -> r_state rm <> REMOTE_DEAD ->
    w' = put_remote p (set_r_events (Z.lor (r_events rm) POLLOUT) rm) w1 ->
    wf L w' -> mark_dead_post L id w w'
| mark_reaped :
    (forall q x, w_remotes w !! q = Some x -> r_id x = id \/ r_state x = REMOTE_DEAD) ->
    w_remotes w' = ∅ -> keeps w w' -> wf L w' -> mark_dead_post L id w w'.

Lemma condemns_first id w p rm w' :
  w_remotes w !! p = Some rm -> r_id rm = id ->
  condemns id (put_remote p (set_r_state REMOTE_DEAD rm) w) w' -> condemns id w w'.
Proof.
  intros Hp Hid [Hr Hd He]. split.
  - rewrite Hr. by destruct w.
  - intros q. rewrite <- Hd. destruct (decide (p = q)) as [->|].
    + rewrite put_remote_lookup, Hp. split; by eexists.
    + by rewrite put_remote_lookup_ne.
  - intros q x y Hx Hy. destruct (decide (p = q)) as [->|].
    + simplify_eq. right. split; [done|].
      by destruct (He q _ y (put_remote_lookup _ _ _) Hy) as [->|[_ ->]].
    + apply (He q); [by rewrite put_remote_lookup_ne|done].
Qed.

(** A remote that is not condemned kept its state. *)
Lemma condemned_alive id rm rm' :
  condemned id rm rm' -> r_state rm' <> REMOTE_DEAD -> rm' = rm.
Proof. by intros [->|[_ ->]]. Qed.

Lemma wp_mark_dead L r rm Q w :
  wf L w -> w_remotes w !! r = Some rm -> client_list_mutex ∉ L ->
  (forall w', mark_dead_post L (r_id rm) w w' -> Q tt w') ->
  wp (remote_mark_dead r) Q w.
Proof.
  intros Hw Hr Hm HQ. unfold remote_mark_dead. wp_go.
  set (w0 := put_remote _ _ w). assert (wf L w0) as Hw0 by by apply wf_kill.
  apply wp_bind. eapply wp_condemn_loop; [exact Hw0|apply put_remote_lookup|].
  intros w1 Hw1 Hc Hdead. cbn [r_id set_r_state] in Hc, Hdead.
  apply condemns_first in Hc; [|done|done]. wp_go.
  apply (wp_foreach_break _ _ (fun i w' => w' = w1 /\
    forall j p x, (j < i)%nat -> remote_slots w1 !! j = Some (Some p) ->
      w_remotes w1 !! p = Some x -> r_state x = REMOTE_DEAD) _ (length (remote_slots w1)));
    [done| | |].
  - split; [done|]. intros. lia.
  - intros i ? [-> Hseen] _ Hi.
    destruct (remote_slots w1 !! i) as [[p|]|] eqn:E.
    2,3: split; [done|]; intros j p x Hj Hp; destruct (decide (j = i)) as [->|];
      [congruence|apply (Hseen j); [lia|done]].
    destruct (wf_remote_slot _ _ p Hw1) as [x Hx]; [by eapply list_elem_of_lookup_2|]. wp_go.
    case_bool_decide as Hst; wp_go.
    + apply HQ. eapply (mark_left _ _ _ _ p x w1); try done.
      * intros Hid. destruct Hst. by eapply Hdead.
      * eapply wf_put_remote; try done. eapply remote_ok_events, wf_remote; eauto.
    + split; [|done]. split; [done|]. intros j q y Hj Hq Hy.
      destruct (decide (j = i)) as [->|]; [congruence|]. by apply (Hseen j q y); [lia|..].
  - intros ? [-> Hseen]. apply (wp_dispose_all L); [done|done|].
    intros w' Hw' Hemp Hk. apply HQ, mark_reaped; [|done| |done].
    2: { eapply keeps_trans, Hk. apply keeps_clients. rewrite (cd_rest _ _ _ Hc). done. }
    intros q x Hq. destruct (proj1 (cd_dom _ _ _ Hc q)) as [y Hy]; [by eexists|].
    destruct (cd_each _ _ _ Hc q x y Hq Hy) as [->|[? _]]; [|by left]. right.
    assert (q ∈ elems (remote_list w1)) as Hin by (apply (wf_rlist _ _ Hw1); by eexists).
    apply elem_of_omap_id, list_elem_of_lookup in Hin as [j Hj].
    eapply Hseen; [|exact Hj|done]. by eapply lookup_lt_Some.
Qed.

Lemma mark_dead_wf L id w w' : mark_dead_post L id w w' -> wf L w'.
Proof. by intros [p rm w1 ? ? ? ? ? ? ?|]. Qed.
Lemma mark_dead_keeps L id w w' : mark_dead_post L id w w' -> keeps w w'.
Proof.
  intros [p rm w1 Hc _ _ _ _ -> _|]; [|done].
  apply keeps_clients. simpl. by rewrite (cd_rest _ _ _ Hc).
Qed.

(** A post-state seen again after a mutex was given back. *)
Lemma wp_usbmux_remote_mark_dead r rm Q w :
  wf [] w -> w_remotes w !! r = Some rm ->
  (forall w', wf [] w' -> (w_remotes w' = ∅ \/
     (forall q x, w_remotes w' !! q = Some x -> r_id x = r_id rm -> r_state x = REMOTE_DEAD)) ->
     keeps w w' -> Q tt w') ->
  wp (usbmux_remote_mark_dead r) Q w.
Proof.
  intros Hw Hr HQ. pose proof (wf_locks _ _ Hw) as HL.
  unfold usbmux_remote_mark_dead. wp_go. apply wp_lock; [rewrite HL; set_solver|]. wp_go.
  eapply (wp_mark_dead [remote_list_mutex]); [apply wf_lock; [set_solver|done]|done|set_solver|].
  intros w' Hpost. wp_go. apply HQ.
  - apply wf_unlock; [set_solver|]. by eapply mark_dead_wf.
  - destruct Hpost as [p x w1 Hc Hdead Hp Hid Hst -> _|_ Hemp _ _]; [right|by left].
    intros q y. simpl. destruct (decide (p = q)) as [->|].
    + rewrite lookup_insert_eq. by intros [= <-].
    + rewrite lookup_insert_ne by done. apply Hdead.
  - apply mark_dead_keeps in Hpost as [K1 K2]. by split.
Qed.

(** *** Removing an instance, and shutting down *)

Lemma names_instance_done s h port rm w :
  remote_ok rm -> exists b, names_instance s h port rm w = Done b w.
Proof.
  intros Hok. unfold names_instance.
  destruct (r_is_unix rm) eqn:Eu, (r_is_listener rm) eqn:El; simpl; try by eexists.
  destruct (rok_listener _ Hok El Eu) as [Hs Hh].
  destruct (r_service_name rm) as [n|]; [|done]. destruct (r_host rm) as [m|]; [|done].
  unfold mbind, prog_bind, mret, prog_ret. cbn.
  destruct s as [s|]; [destruct (String.eqb n s)|]; destruct h; by eexists.
Qed.

Lemma wp_service_remove s h port Q w :
  wf [] w ->
  (forall w', wf [] w' -> keeps w w' -> Q 0 w') -> (Q (-1) w) ->
  wp (remote_mux_service_remove s h port) Q w.
Proof.
  intros Hw HQ0 HQ1. pose proof (wf_locks _ _ Hw) as HL.
  unfold remote_mux_service_remove. wp_go. apply wp_lock; [rewrite HL; set_solver|].
  set (w1 := set_w_locks _ w). wp_go.
  assert (wf [remote_list_mutex] w1) as Hw1 by (apply wf_lock; [set_solver|done]).
  apply (wp_foreach_break_stable _ _ (fun w' => w' = w1) _ (remote_slots w1)); [done|done| |].
  - intros ? p -> _ Hin. destruct (wf_remote_slot _ _ p Hw1 Hin) as [rm Hp]. wp_go.
    destruct (names_instance_done s h port rm w1) as [b Hb]; [by eapply wf_remote|].
    apply wp_run. exists b, w1. split; [exact Hb|]. destruct b; wp_go; [|done].
    eapply wp_mark_dead; [done|done|set_solver|]. intros w' Hpost. wp_go. apply HQ0.
    + apply wf_unlock; [set_solver|]. by eapply mark_dead_wf.
    + apply mark_dead_keeps in Hpost as [K1 K2]. by split.
  - intros ? -> _. wp_go. simpl. rewrite HL.
    replace (set_w_locks _ _) with w; [done|]. destruct w; simpl in *. by subst.
Qed.

(** Closing every client: none is left. *)
Lemma wp_close_all Q w :
  wf [] w -> (forall w', wf [] w' -> w_clients w' = ∅ -> Q tt w') ->
  wp (foreach client_slots client_close) Q w.
Proof.
  intros Hw HQ. set (n := length (client_slots w)).
  apply (wp_foreach _ _ (fun i w' => wf [] w' /\ length (client_slots w') = n /\
    forall j, (j < i)%nat -> (j < n)%nat -> client_slots w' !! j = Some None) _ n); [done| | |].
  - split_and!; [done|done|]. intros. lia.
  - intros i w1 (Hw1 & Hn & Hdone) Hlen Hi.
    destruct (client_slots w1 !! i) as [[p|]|] eqn:E.
    + destruct (wf_client_slot _ _ p Hw1) as [cl Hp]; [by eapply list_elem_of_lookup_2|].
      eapply client_close_wf; [done|done|apply not_elem_of_nil|intros _; apply not_elem_of_nil|].
      intros Hw2. set (w2 := client_closed p cl w1) in *.
      assert (client_list w2 = collection_remove (client_list w1) p) as El.
      { subst w2. unfold client_closed. destruct (c_remote cl) as [r|] eqn:Er; [|done].
        by destruct (wf_c2r _ _ Hw1 p cl r Hp Er) as (rm & -> & _). }
      assert (length (client_slots w2) = n) as Hl2.
      { unfold client_slots in *. by rewrite El, length_slots_remove. }
      split; [|done]. split_and!; [done|done|]. intros j Hj Hl.
      unfold client_slots in *. rewrite El.
      rewrite slots_remove_lookup; [|apply (list_nodup _ _ (wf_clist _ _ Hw1))|unfold slots in *; lia].
      case_decide as Ej; [done|]. apply Hdone; [|done].
      destruct (decide (j = i)) as [->|]; [congruence|lia].
    + split_and!; [done|done|]. intros j Hj Hl. destruct (decide (j = i)) as [->|]; [done|].
      apply Hdone; lia.
    + apply lookup_ge_None in E. lia.
  - intros w1 (Hw1 & Hn & Hdone). apply HQ; [done|]. apply map_empty. intros p.
    destruct (w_clients w1 !! p) eqn:E; [|done]. exfalso.
    assert (p ∈ elems (client_list w1)) as Hp by (apply (wf_clist _ _ Hw1); by eexists).
    apply elem_of_omap_id, list_elem_of_lookup in Hp as [j Hj].
    pose proof (lookup_lt_Some _ _ _ Hj). unfold client_slots in *.
    rewrite Hdone in Hj; [done|lia|lia].
Qed.

Lemma wp_client_shutdown Q w :
  wf [] w -> (forall w', wf [] w' -> w_clients w' = ∅ -> Q tt w') -> wp client_shutdown Q w.
Proof.
  intros Hw HQ. unfold client_shutdown. wp_go. apply wp_close_all; [done|].
  intros w' Hw' Hemp. wp_go. apply HQ; [|done].
  destruct Hw'. split; try done. destruct (col_ok_free (client_list w')) as [Hf He].
  split; simpl; [exact Hf|rewrite He; apply NoDup_nil_2|].
  intros p. rewrite He, Hemp, lookup_empty. split; [intros H; by apply elem_of_nil in H|by intros []].
Qed.

Lemma wp_remote_shutdown Q w :
  wf [] w ->
  (forall w', w_remotes w' = ∅ -> w_locks w' = [] -> remote_device_list w' = None ->
     elems (remote_list w') = [] -> keeps w w' -> Q tt w') ->
  wp usbmux_remote_shutdown Q w.
Proof.
  intros Hw HQ. pose proof (wf_locks _ _ Hw) as HL.
  unfold usbmux_remote_shutdown. wp_go. apply wp_lock; [rewrite HL; set_solver|]. wp_go.
  eapply (wp_dispose_all [remote_list_mutex]); [apply wf_lock; [set_solver|done]|set_solver|].
  intros w' Hw' Hemp [K1 K2]. wp_go. apply HQ; simpl; try done.
  by rewrite (wf_locks _ _ Hw').
Qed.
End teardown_facts.
