(* ===== verification/RemoteFacts.v ===== *)
(** What the functions of Remote.v do: new connections, requests sent over
    them, the instances added, the lists for clients. *)

From S2P Require Import Prelude Exec Mem Utils Proto CStr RemoteId Plist World WorldFacts.
From S2P Require Import Socket Client Remote Teardown Command RemoteProcess Invariant.
From S2P Require Import ClientFacts TeardownFacts.

Section remote_facts.
Context `{PL : PlistLib} `{EN : Env} {EL : EnvLaws EN} {PLaws : PlistLaws PL}.

(** The name service answers for every host. *)
Definition dns_up : Prop := forall h, resolves h.

Lemma wf_only_closes L w w' : wf L w -> only_closes w w' -> wf L w'.
Proof. intros [] (evs & -> & _). by split. Qed.

Lemma only_closes_trans w1 w2 w3 : only_closes w1 w2 -> only_closes w2 w3 -> only_closes w1 w3.
Proof.
  intros (e1 & -> & H1) (e2 & -> & H2). exists (e2 ++ e1). split.
  - simpl. by rewrite app_assoc.
  - by apply Forall_app.
Qed.

(** *** New connections *)

(** A connection just made: over the local socket or to a host. *)
Definition is_conn (unix : bool) (host : option string) (port : Z) (rm : remote_mux) : Prop :=
  exists fd, rm = set_r_port port (set_r_host host (set_r_is_unix unix (remote_fresh fd))).

Definition allocated (rm : remote_mux) (w : world) : world :=
  set_w_next (Pos.succ (w_next w)) (put_remote (w_next w) rm w).

(** The outcome of an attempt: nothing but closed descriptors, or a new object
    that is not in the list yet. *)
Definition new_conn (P : remote_mux -> Prop) (o : option ptr) (w w' : world) : Prop :=
  match o with
  | None => only_closes w w'
  | Some p => exists w1 rm, only_closes w w1 /\ P rm /\ p = w_next w1 /\ w' = allocated rm w1
  end.

Lemma new_conn_mono (P P' : remote_mux -> Prop) o w w' :
  (forall rm, P rm -> P' rm) -> new_conn P o w w' -> new_conn P' o w w'.
Proof. intros HP. destruct o; simpl; [|done]. intros (w1 & rm & ? & ? & ?). eauto 6. Qed.

Lemma only_closes_log w w' fd :
  only_closes w w' -> only_closes w (set_w_trace (EvClose fd :: w_trace w') w').
Proof. intros H. eapply only_closes_trans; [done|apply only_closes_one]. Qed.

Lemma wp_new_with_fd fd w :
  wp (remote_mux_new_with_fd fd) (fun o w' => new_conn (fun rm => rm = remote_fresh fd) o w w') w.
Proof.
  unfold remote_mux_new_with_fd.
  destruct (_ <? 0); [wp_go; apply only_closes_one|].
  destruct (_ <? 0); [wp_go; apply only_closes_one|].
  unfold alloc_remote. wp_go. simpl.
  exists w, (remote_fresh fd). split_and!; try done. apply only_closes_refl.
Qed.

Lemma put_allocated rm rm' w :
  put_remote (w_next w) rm' (allocated rm w) = allocated rm' w.
Proof. unfold put_remote, allocated. simpl. by rewrite insert_insert_eq. Qed.
Lemma allocated_lookup rm w : w_remotes (allocated rm w) !! w_next w = Some rm.
Proof. apply put_remote_lookup. Qed.

(** A later assignment to the new object. *)
Lemma wp_write_new P P' p f w w' Q :
  new_conn P (Some p) w w' -> (forall rm, P rm -> P' (f rm)) ->
  (forall w'', new_conn P' (Some p) w w'' -> Q tt w'') ->
  wp (write_remote p f) Q w'.
Proof.
  intros (w1 & rm & Hc & HP & -> & ->) HP' HQ.
  eapply wp_write_remote; [apply allocated_lookup|]. apply HQ.
  exists w1, (f rm). rewrite put_allocated. eauto.
Qed.

Lemma wp_new_unix path w :
  wp (remote_mux_new_with_unix_socket path) (fun o w' => new_conn (is_conn true None 0) o w w') w.
Proof.
  unfold remote_mux_new_with_unix_socket. apply wp_bind.
  destruct (socket_connect_unix_spec path w) as (fd & w1 & Hs & Hc & Hfd).
  apply wp_run. exists fd, w1. split; [done|].
  destruct (fd <? 0); [by wp_go|]. wp_go. wp_use (apply wp_new_with_fd).
  intros [p|] w2 Hn; wp_go.
  - eapply (wp_write_new (fun rm => rm = remote_fresh fd) (is_conn true None 0) _ _ w).
    + destruct Hn as (w3 & rm & ? & ? & ?). exists w3, rm.
      split; [by eapply only_closes_trans|done].
    + intros rm ->. by exists fd.
    + intros w3 H3. by wp_go.
  - by eapply only_closes_trans.
Qed.

Lemma wp_new_host h port w :
  dns_up -> w_locks w = [] \/ w_locks w = [remote_list_mutex] ->
  wp (remote_mux_new_with_host (Some h) port) (fun o w' => new_conn (is_conn false (Some h) port) o w w') w.
Proof.
  intros Hdns Hl. unfold remote_mux_new_with_host. apply wp_bind.
  destruct (socket_connect_timeout_spec h port (Some 5) w Hl (Hdns h) socket_small)
    as (fd & w1 & Hs & Hc & Hfd).
  apply wp_run. exists fd, w1. split; [done|].
  destruct (fd <? 0); [by wp_go|]. wp_go. wp_use (apply wp_new_with_fd).
  intros [p|] w2 Hn; wp_go.
  - eapply (wp_write_new (fun rm => rm = remote_fresh fd) (is_conn false (Some h) port) _ _ w).
    + destruct Hn as (w3 & rm & ? & ? & ?). exists w3, rm.
      split; [by eapply only_closes_trans|done].
    + intros rm ->. by exists fd.
    + intros w3 H3. by wp_go.
  - by eapply only_closes_trans.
Qed.

(** Where the connection for an identifier goes: the local socket for 0, else the
    host of a listening remote with that identifier. *)
Definition route (w : world) (id : Z) (unix : bool) (host : option string) (port : Z) : Prop :=
  if id =? 0 then unix = true /\ host = None /\ port = 0
  else unix = false /\ exists q rm, w_remotes w !! q = Some rm /\ r_id rm = id /\
         r_state rm = REMOTE_LISTEN /\ r_host rm = host /\ r_port rm = port.

Definition routed (w : world) (id : Z) (rm : remote_mux) : Prop :=
  exists u h p, is_conn u h p rm /\ route w id u h p.

Lemma wp_connect_like id w :
  dns_up -> wf [remote_list_mutex] w -> id <> 0 ->
  wp (connect_like id) (fun o w' => new_conn (routed w id) o w w') w.
Proof.
  intros Hdns Hw Hid. unfold connect_like. wp_go.
  apply (wp_foreach_break_stable _ _ (fun w' => w' = w) _ (remote_slots w)); [done|done| |].
  - intros ? p -> _ Hin. destruct (wf_remote_slot _ _ p Hw Hin) as [rm Hp]. wp_go.
    destruct (_ && _) eqn:E; wp_go; [|done].
    apply andb_true_iff in E as [Eid%Z.eqb_eq Est%bool_decide_eq_true_1].
    destruct (r_host rm) as [h|] eqn:Eh.
    + wp_use (by apply wp_new_host; [|right; apply (wf_locks _ _ Hw)]).
      intros o w' Ho. wp_go. eapply new_conn_mono; [|exact Ho].
      intros rm' Hc. exists false, (Some h), (r_port rm). split; [done|].
      unfold route. rewrite (proj2 (Z.eqb_neq id 0)) by done. eauto 10.
    + unfold remote_mux_new_with_host, socket_connect_timeout. wp_go. simpl. wp_go.
      apply only_closes_refl.
  - intros ? -> _. wp_go. apply only_closes_refl.
Qed.

Lemma wp_new_route id w :
  dns_up -> wf [remote_list_mutex] w ->
  wp (if id =? 0 then remote_mux_new_with_unix_socket USBMUXD_RENAMED_SOCKET
      else connect_like id) (fun o w' => new_conn (routed w id) o w w') w.
Proof.
  intros Hdns Hw. destruct (Z.eqb_spec id 0) as [->|]; [|by apply wp_connect_like].
  wp_use (apply wp_new_unix). intros o w' Ho. eapply new_conn_mono; [|exact Ho].
  intros rm Hc. exists true, None, 0. done.
Qed.

(** *** Packets to a remote *)

Definition with_output (ob : iobuf) (rm : remote_mux) : remote_mux :=
  set_r_events (Z.lor (r_events rm) POLLOUT) (set_r_ob ob rm).

(** As for clients: nothing when memory is exhausted, else one more packet. *)
Definition rqueues (p : ptr) (rm : remote_mux) (pkt : list byte) (n : Z) (w w' : world) : Prop :=
  (n = -1 /\ w' = w /\ exists k, sys_realloc k = false /\
     k <= capacity (r_ob rm) + zlen pkt + 4096) \/
  (n = zlen pkt /\ exists ob, buf_ok ob /\ data ob = data (r_ob rm) ++ pkt /\
     capacity (r_ob rm) <= capacity ob /\ w' = put_remote p (with_output ob rm) w).

Lemma wp_remote_send_pkt p tag msg payload rm w :
  w_remotes w !! p = Some rm -> buf_ok (r_ob rm) -> small payload ->
  wp (remote_send_pkt p tag msg payload)
     (fun n w' => rqueues p rm (packet 1 msg tag payload) n w w') w.
Proof.
  intros Hp Hok Hsmall. destruct (packet_header_length payload Hsmall) as [Hu Hi].
  assert (zlen (packet 1 msg tag payload) = 16 + zlen payload) as Hlen.
  { unfold packet. rewrite length_app, length_encode_header. lia. }
  unfold remote_send_pkt. wp_go. rewrite Hu. cbn [h_length].
  pose proof (iobuf_reserve_ok sys_realloc (r_ob rm) (16 + zlen payload) Hok) as Hres.
  unfold small in Hsmall.
  specialize (Hres ltac:(lia) realloc_large).
  destruct (iobuf_reserve _ _ _) as [ob|] eqn:E.
  2: { destruct Hres as (k & ? & ?). wp_go. left. rewrite Hlen. eauto 6 with lia. }
  destruct Hres as (Hobok & Hsz & Hdata & Hfit & Hcap).
  set (hdr := encode_header _).
  assert (zlen hdr = 16) as Hh by done.
  destruct (iobuf_packet_ok ob hdr payload Hobok) as
    (b1 & b2 & H1 & Hs1 & H2 & Hs2 & Hc2 & Hok2 & Hd2); [lia|].
  wp_go. rewrite Hh in *.
  assert (forall Q, Q b2 w -> wp (if zlen payload =? 0 then mret b1
     else lift (iobuf_write (size b1 + HEADER_SIZE) payload b1)) Q w) as Hwp.
  { intros Q HQ. unfold HEADER_SIZE in *. destruct (zlen payload =? 0).
    - simplify_eq. by apply wp_ret.
    - by eapply wp_lift. }
  apply Hwp. wp_go. right. rewrite Hi, Hlen. split; [done|].
  pose proof (ok_size _ Hobok). pose proof (ok_cap _ Hobok). unfold BUF_MAX in *.
  rewrite Hs2, Z.add_assoc, u32_small by lia.
  eexists. split; [exact Hok2|]. split; [|split; [simpl; lia|done]].
  by rewrite Hd2, Hdata.
Qed.

(** A message that libplist can print. *)
Definition prints (d : plist) : Prop := plist_to_xml d <> None.

(** The output buffer of a connection just made takes any printed message. *)
Lemma wp_remote_send_plist p tag d rm w :
  w_remotes w !! p = Some rm -> r_ob rm = iobuf_new REPLY_BUF_SIZE ->
  wp (remote_send_plist_pkt p tag d)
     (fun n w' =>
        match plist_to_xml d with
        | Some xml => 0 < n /\ exists ob, buf_ok ob /\
            data ob = packet 1 MESSAGE_PLIST tag xml /\ w' = put_remote p (with_output ob rm) w
        | None => n = -1 /\ w' = w
        end) w.
Proof.
  intros Hp Hob. unfold remote_send_plist_pkt.
  destruct (plist_to_xml d) as [xml|] eqn:E; [|by wp_go].
  wp_use (eapply wp_remote_send_pkt; [done| |by eapply small_xml]).
  { rewrite Hob. by apply buf_ok_new. }
  apply xml_length in E.
  assert (zlen (packet 1 MESSAGE_PLIST tag xml) = 16 + zlen xml) as Hlen.
  { unfold packet. rewrite length_app, length_encode_header. lia. }
  intros n w' [(_ & _ & k & Hk & Hle)|(-> & ob & Hok & Hd & _ & ->)].
  - rewrite realloc_small in Hk; [done|]. rewrite Hlen, Hob in Hle. simpl in Hle.
    unfold REPLY_BUF_SIZE, BUF_MAX in *. lia.
  - rewrite Hlen. split; [lia|]. exists ob. rewrite Hob in Hd. simpl in Hd. done.
Qed.

Lemma remote_ok_output rm ob : remote_ok rm -> buf_ok ob -> remote_ok (with_output ob rm).
Proof. intros [] Hob. by split. Qed.

Lemma is_conn_ok u h p rm : is_conn u h p rm -> remote_ok rm.
Proof.
  intros [fd ->]. split; simpl; try done.
  - by apply buf_ok_new.
  - by apply buf_ok_new.
  - intros H. set_solver.
Qed.

Lemma remote_ok_assigned rm c st id :
  remote_ok rm -> 0 <= id < 256 ->
  remote_ok (set_r_client (Some c) (set_r_state st (set_r_id id rm))).
Proof. intros [] Hid. by split. Qed.

(** *** Requests of clients *)

(** A client that accepts commands has no remote yet. *)
Lemma pair_ok_unlinked L w c cl cl' rm :
  wf L w -> w_clients w !! c = Some cl -> c_remote cl = None ->
  c_state cl' = c_state cl -> pair_ok cl' rm.
Proof.
  intros Hw Hc Hn Hst Hin. pose proof (wf_client _ _ Hw c cl Hc) as Hok.
  unfold client_ok in Hok. rewrite Hst in Hin. destruct (c_state cl); try done; set_solver.
Qed.

Lemma client_ok_link L w c cl p :
  wf L w -> w_clients w !! c = Some cl -> c_remote cl = None ->
  client_ok (set_c_remote (Some p) cl).
Proof.
  intros Hw Hc Hn. pose proof (wf_client _ _ Hw c cl Hc) as Hok.
  unfold client_ok in *. simpl. destruct (c_state cl); naive_solver.
Qed.

(** The world in which client [c] is linked to a new remote [rm]. *)
Definition linked (c : ptr) (cl : mux_client) (rm : remote_mux) (w : world) : world :=
  set_w_next (Pos.succ (w_next w))
    (set_remote_list (collection_add (remote_list w) (w_next w))
       (put_remote (w_next w) rm (put_client c (set_c_remote (Some (w_next w)) cl) w))).

Lemma wf_linked L w c cl rm :
  wf L w -> w_clients w !! c = Some cl -> c_remote cl = None ->
  remote_ok rm -> r_client rm = Some c -> r_is_listener rm = false -> wf L (linked c cl rm w).
Proof.
  intros Hw Hc Hn Hrm Hrc Hnl. eapply wf_add_linked; try done; [|by intros [H _]; congruence|].
  - by eapply client_ok_link.
  - by eapply pair_ok_unlinked.
Qed.

(** What a request that reached a remote leaves: the client linked to a new
    connection made along the route of [id]. *)
Record requested (id rid : Z) (c : ptr) (cl : mux_client) (st : remote_state) (cmd : Z)
    (output : list byte) (w w' : world) : Prop := {
  rq_wf : wf [] w';
  rq_link : exists p rm, w_remotes w !! p = None /\
    w_clients w' = <[c := set_c_remote (Some p) cl]> (w_clients w) /\
    w_remotes w' = <[p := rm]> (w_remotes w) /\
    r_client rm = Some c /\ r_id rm = rid /\ r_state rm = st /\ r_last_command rm = cmd /\
    data (r_ob rm) = output /\ has (r_events rm) POLLIN = true /\
    route w id (r_is_unix rm) (r_host rm) (r_port rm) }.

(** The last steps: the request is queued on the new remote. *)
Lemma requested_linked id rid c cl st cmd output w w0 w1 w' rm :
  wf [] w -> w_clients w !! c = Some cl -> c_remote cl = None ->
  w0 = set_w_locks [remote_list_mutex] w -> only_closes w0 w1 ->
  remote_ok rm -> r_client rm = Some c -> r_is_listener rm = false -> r_id rm = rid ->
  r_state rm = st ->
  r_last_command rm = cmd -> data (r_ob rm) = output -> has (r_events rm) POLLIN = true ->
  route w id (r_is_unix rm) (r_host rm) (r_port rm) ->
  w' = set_w_locks [] (linked c cl rm w1) ->
  requested id rid c cl st cmd output w w'.
Proof.
  intros Hw Hc Hn -> (evs & -> & _) Hrm Hrc Hnl Hid Hst Hcmd Hout Hev Hro ->.
  split.
  - change (wf [] (set_w_trace (evs ++ w_trace w) (linked c cl rm (set_w_locks [] w)))).
    rewrite <- (wf_locks _ _ Hw).
    replace (set_w_locks (w_locks w) w) with w by (by destruct w).
    pose proof (wf_linked _ _ _ _ rm Hw Hc Hn Hrm Hrc Hnl) as []. by split.
  - exists (w_next w), rm. split_and!; try done. by apply (wf_fresh _ _ Hw).
Qed.

Lemma wp_usbmux_remote_connect device_id req c cl w Q :
  dns_up -> wf [] w -> w_clients w !! c = Some cl -> c_remote cl = None ->
  (forall w', only_closes w w' -> Q (-1) w') ->
  (forall w' xml, requested (u8 (Z.shiftr device_id 24)) (u8 (Z.shiftr device_id 24)) c cl
      REMOTE_CONNECTING1 (-1) xml w w' ->
    xml = match plist_to_xml (plist_dict_set_item req "DeviceID"
                   (plist_new_uint (Z.land device_id 0xFFFFFF))) with
          | Some xml => packet 1 MESSAGE_PLIST 0 xml
          | None => []
          end -> Q 0 w') ->
  wp (usbmux_remote_connect device_id req c) Q w.
Proof.
  intros Hdns Hw Hc Hn HQ1 HQ0. pose proof (wf_locks _ _ Hw) as HL.
  unfold usbmux_remote_connect. set (id := u8 _) in *.
  wp_go. apply wp_lock; [rewrite HL; set_solver|]. rewrite HL. wp_go.
  set (w0 := set_w_locks _ w).
  assert (wf [remote_list_mutex] w0) as Hw0.
  { pose proof (wf_lock [] remote_list_mutex w (not_elem_of_nil _) Hw) as H. by rewrite HL in H. }
  wp_use (by apply wp_new_route). intros [p|] w1.
  2: { intros Ho. wp_go. apply HQ1. destruct Ho as (evs & -> & Hf). exists evs. split; [|done].
       destruct w; simpl in *. by subst. }
  intros (w2 & rm & Hoc & (u & h & port & (fd & ->) & Hro) & -> & ->). wp_go.
  pose proof Hoc as (evs & Ew2 & _).
  assert (remote_ok (set_r_port port (set_r_host h (set_r_is_unix u (remote_fresh fd)))))
    as Hconn by (apply (is_conn_ok u h port); by exists fd).
  assert (w_clients (allocated (set_r_port port (set_r_host h (set_r_is_unix u
    (remote_fresh fd)))) w2) !! c = Some cl) as Hc2 by (by rewrite Ew2).
  rewrite put_allocated. wp_go.
  unfold client_set_remote. wp_go. unfold add_to_remote_list. wp_go.
  set (rm1 := set_r_client _ _).
  wp_use (eapply (wp_remote_send_plist _ _ _ rm1); [apply lookup_insert_eq|done]).
  intros n w3 Hn3. wp_go.
  set (msg := plist_dict_set_item _ _ _) in *.
  set (out := match plist_to_xml msg with Some xml => _ | None => _ end) in *.
  apply (HQ0 w3 out); [|done]. subst out. destruct (plist_to_xml msg) as [xml|].
  - destruct Hn3 as (_ & ob & Hob & Hd & ->).
    eapply (requested_linked _ _ _ _ _ _ _ _ w0 w2 _ (with_output ob rm1));
      [exact Hw|exact Hc|exact Hn|reflexivity|exact Hoc| |reflexivity..|exact Hd|reflexivity
      |exact Hro|].
    + apply remote_ok_output; [|done]. apply remote_ok_assigned; [exact Hconn|apply u8_range].
    + subst w0. rewrite Ew2. unfold linked, put_remote, allocated, put_client. simpl.
      by rewrite !insert_insert_eq.
  - destruct Hn3 as (_ & ->).
    eapply (requested_linked _ _ _ _ _ _ _ _ w0 w2 _ rm1);
      [exact Hw|exact Hc|exact Hn|reflexivity|exact Hoc| |reflexivity..|exact Hro|].
    + apply remote_ok_assigned; [exact Hconn|apply u8_range].
    + subst w0. by rewrite Ew2.
Qed.

(** The four requests differ in how the connection is chosen ([choose]) and in
    the message. *)
Definition send_request (choose : M (option ptr)) (d : plist) (tag cmd : Z) (c : ptr) : M Z :=
  _ ← lock remote_list_mutex;
  remote ← choose;
  _ ← register_request remote c;
  _ ← unlock remote_list_mutex;
  match remote with
  | None => mret (-1)
  | Some p =>
      res ← remote_send_plist_pkt p tag d;
      finish_request p res cmd c
  end.

Lemma remote_ok_request rm c cmd :
  remote_ok rm -> remote_ok (set_r_client (Some c) (set_r_last_command cmd rm)).
Proof. intros []. by split. Qed.

Lemma wp_send_request choose id d xml tag cmd c cl w Q :
  wf [] w -> w_clients w !! c = Some cl -> c_remote cl = None ->
  (forall w0, w0 = set_w_locks [remote_list_mutex] w -> wf [remote_list_mutex] w0 ->
     wp choose (fun o w' => new_conn (routed w0 id) o w0 w') w0) ->
  plist_to_xml d = Some xml ->
  (forall w', only_closes w w' -> Q (-1) w') ->
  (forall w', requested id 0 c cl REMOTE_COMMAND cmd (packet 1 MESSAGE_PLIST tag xml) w w' ->
     Q 0 w') ->
  wp (send_request choose d tag cmd c) Q w.
Proof.
  intros Hw Hc Hn Hch Hxml HQ1 HQ0. pose proof (wf_locks _ _ Hw) as HL.
  unfold send_request. wp_go. apply wp_lock; [rewrite HL; set_solver|]. rewrite HL. wp_go.
  set (w0 := set_w_locks _ w).
  assert (wf [remote_list_mutex] w0) as Hw0.
  { pose proof (wf_lock [] remote_list_mutex w (not_elem_of_nil _) Hw) as H. by rewrite HL in H. }
  wp_use (by apply Hch). intros [p|] w1.
  2: { intros Ho. wp_go. apply HQ1. destruct Ho as (evs & -> & Hf). exists evs. split; [|done].
       destruct w; simpl in *. by subst. }
  intros (w2 & rm & Hoc & (u & h & port & Hconn & Hro) & -> & ->).
  pose proof (is_conn_ok _ _ _ _ Hconn) as Hrm. pose proof Hoc as (evs & Ew2 & _).
  assert (w_clients (allocated rm w2) !! c = Some cl) as Hc2 by (by rewrite Ew2).
  unfold register_request, client_set_remote, add_to_remote_list. wp_go.
  wp_use (eapply (wp_remote_send_plist _ _ _ rm);
    [apply lookup_insert_eq|by destruct Hconn as [fd ->]]).
  rewrite Hxml. intros n w3 (Hn3 & ob & Hob & Hd & ->).
  unfold finish_request. rewrite (proj2 (Z.ltb_lt _ _)) by done. wp_go.
  apply HQ0. set (rm1 := set_r_client _ _).
  eapply (requested_linked _ _ _ _ _ _ _ _ w0 w2 _ rm1);
    [exact Hw|exact Hc|exact Hn|reflexivity|exact Hoc| |reflexivity|..|exact Hd| | |].
  - by apply remote_ok_request, remote_ok_output.
  - by destruct Hconn as [fd ->].
  - by destruct Hconn as [fd ->].
  - by destruct Hconn as [fd ->].
  - done.
  - by destruct Hconn as [fd ->].
  - by destruct Hconn as [fd ->].
  - subst w0. rewrite Ew2. unfold linked, put_remote, allocated, put_client. simpl.
    by rewrite !insert_insert_eq.
Qed.

Lemma wp_read_buid tag xml c cl w Q :
  dns_up -> wf [] w -> w_clients w !! c = Some cl -> c_remote cl = None ->
  plist_to_xml (create_plist_message "ReadBUID") = Some xml ->
  (forall w', only_closes w w' -> Q (-1) w') ->
  (forall w' id, requested id 0 c cl REMOTE_COMMAND REMOTE_CMD_READ_BUID
      (packet 1 MESSAGE_PLIST tag xml) w w' -> Q 0 w') ->
  wp (usbmux_remote_read_buid tag c) Q w.
Proof.
  intros Hdns Hw Hc Hn Hxml HQ1 HQ0.
  set (id := fun w => match device_entries w with
    | (key, _) :: _ => Z.shiftr (key_device_id key) 24 | [] => 0 end).
  change (wp (send_request (w ← get; if id w =? 0
      then remote_mux_new_with_unix_socket USBMUXD_RENAMED_SOCKET
      else connect_like (id w)) (create_plist_message "ReadBUID") tag
      REMOTE_CMD_READ_BUID c) Q w).
  eapply (wp_send_request _ (id w)); [done..| |exact Hxml|exact HQ1|exact (fun w' => HQ0 w' _)].
  intros w0 Ew0 Hw0. wp_go. replace (id w) with (id w0) by (by subst w0).
  by apply wp_new_route.
Qed.

(** The UDID of a device in the list, and the device a pair record belongs to. *)
Definition udid_of (value : plist) : option string :=
  match plist_access_path2 value "Properties" "SerialNumber" with
  | Some n => plist_get_string_val n
  | None => None
  end.
Fixpoint record_device (rid : string) (l : list (string * plist)) : Z :=
  match l with
  | [] => 0
  | (key, value) :: l' =>
      if bool_decide (udid_of value = Some rid) then key_device_id key else record_device rid l'
  end.

Lemma match_device_spec rid key value w :
  match_device (Some rid) key value 0 w =
    Done (if bool_decide (udid_of value = Some rid) then (-1, key_device_id key) else (0, 0)) w.
Proof.
  unfold match_device. fold (udid_of value). destruct (udid_of value) as [udid|].
  2: { by rewrite bool_decide_eq_false_2. }
  unfold mbind, prog_bind, demand, mret, prog_ret. cbn.
  destruct (String.eqb_spec udid rid) as [->|].
  - by rewrite bool_decide_eq_true_2.
  - rewrite bool_decide_eq_false_2; [done|congruence].
Qed.

Lemma find_record_device rid l w :
  plist_dict_foreach l (match_device (Some rid)) 0 w = Done (record_device rid l) w.
Proof.
  induction l as [|[k v] l IH]; [done|].
  cbn [plist_dict_foreach record_device]. unfold mbind, prog_bind.
  rewrite match_device_spec. by case_bool_decide.
Qed.

Definition record_instance (rid : string) (w : world) : Z :=
  u8 (Z.shiftr (record_device rid (device_entries w)) 24).

Lemma wp_connect_for_record rid w :
  dns_up -> wf [remote_list_mutex] w ->
  wp (connect_for_record (Some rid))
     (fun o w' => new_conn (routed w (record_instance rid w)) o w w') w.
Proof.
  intros Hdns Hw. unfold connect_for_record. wp_go.
  apply wp_run. exists (record_device rid (device_entries w)), w.
  split; [apply find_record_device|].
  pose proof (wp_new_route (record_instance rid w) w Hdns Hw) as H.
  unfold record_instance in *. destruct (Z.eqb_spec (record_device rid (device_entries w)) 0) as [E|];
    [|exact H]. rewrite E in *. exact H.
Qed.

Lemma wp_record_request rid d xml tag cmd c cl w Q :
  dns_up -> wf [] w -> w_clients w !! c = Some cl -> c_remote cl = None ->
  plist_to_xml d = Some xml ->
  (forall w', only_closes w w' -> Q (-1) w') ->
  (forall w', requested (record_instance rid w) 0 c cl REMOTE_COMMAND cmd
      (packet 1 MESSAGE_PLIST tag xml) w w' -> Q 0 w') ->
  wp (send_request (connect_for_record (Some rid)) d tag cmd c) Q w.
Proof.
  intros Hdns Hw Hc Hn Hxml HQ1 HQ0.
  eapply wp_send_request; [done..| |exact Hxml|exact HQ1|exact HQ0].
  intros w0 Ew0 Hw0. replace (record_instance rid w) with (record_instance rid w0) by (by subst w0).
  by apply wp_connect_for_record.
Qed.

Lemma wp_read_pair_record rid xml tag c cl w Q :
  dns_up -> wf [] w -> w_clients w !! c = Some cl -> c_remote cl = None ->
  plist_to_xml (record_message "ReadPairRecord" rid) = Some xml ->
  (forall w', only_closes w w' -> Q (-1) w') ->
  (forall w', requested (record_instance rid w) 0 c cl REMOTE_COMMAND
      REMOTE_CMD_READ_PAIR_RECORD (packet 1 MESSAGE_PLIST tag xml) w w' -> Q 0 w') ->
  wp (usbmux_remote_read_pair_record (Some rid) tag c) Q w.
Proof.
  intros. change (wp (send_request (connect_for_record (Some rid))
    (record_message "ReadPairRecord" rid) tag REMOTE_CMD_READ_PAIR_RECORD c) Q w).
  by eapply wp_record_request.
Qed.
Lemma wp_save_pair_record rid req xml tag c cl w Q :
  dns_up -> wf [] w -> w_clients w !! c = Some cl -> c_remote cl = None ->
  plist_to_xml req = Some xml ->
  (forall w', only_closes w w' -> Q (-1) w') ->
  (forall w', requested (record_instance rid w) 0 c cl REMOTE_COMMAND
      REMOTE_CMD_SAVE_PAIR_RECORD (packet 1 MESSAGE_PLIST tag xml) w w' -> Q 0 w') ->
  wp (usbmux_remote_save_pair_record (Some rid) req tag c) Q w.
Proof.
  intros. change (wp (send_request (connect_for_record (Some rid)) req tag
    REMOTE_CMD_SAVE_PAIR_RECORD c) Q w).
  by eapply wp_record_request.
Qed.
Lemma wp_delete_pair_record rid xml tag c cl w Q :
  dns_up -> wf [] w -> w_clients w !! c = Some cl -> c_remote cl = None ->
  plist_to_xml (record_message "DeletePairRecord" rid) = Some xml ->
  (forall w', only_closes w w' -> Q (-1) w') ->
  (forall w', requested (record_instance rid w) 0 c cl REMOTE_COMMAND
      REMOTE_CMD_DELETE_PAIR_RECORD (packet 1 MESSAGE_PLIST tag xml) w w' -> Q 0 w') ->
  wp (usbmux_remote_delete_pair_record (Some rid) tag c) Q w.
Proof.
  intros. change (wp (send_request (connect_for_record (Some rid))
    (record_message "DeletePairRecord" rid) tag REMOTE_CMD_DELETE_PAIR_RECORD c) Q w).
  by eapply wp_record_request.
Qed.

(** *** Instances *)

(** What [remote_mux_service_add] leaves when it succeeds. *)
Record instance_added (service host : string) (port id : Z) (w w' : world) : Prop := {
  ia_wf : wf [] w';
  ia_clients : w_clients w' = w_clients w;
  ia_ids : remote_id_map w' = set_remote_id_used id true (remote_id_map w);
  ia_remote : exists p rm, w_remotes w !! p = None /\ w_remotes w' = <[p := rm]> (w_remotes w) /\
    r_id rm = id /\ r_is_listener rm = true /\ r_is_unix rm = false /\
    r_service_name rm = Some service /\ r_host rm = Some host /\ r_port rm = port /\
    r_client rm = None /\ r_state rm = REMOTE_COMMAND }.

(** A listener for the same service, or the same host and port. *)
Definition is_instance (s h : string) (port : Z) (rm : remote_mux) : bool :=
  negb (r_is_unix rm) && r_is_listener rm &&
  (bool_decide (r_service_name rm = Some s) ||
   (bool_decide (r_host rm = Some h) && (r_port rm =? port))).
Definition has_instance (s h : string) (port : Z) (w : world) : Prop :=
  exists q rm, w_remotes w !! q = Some rm /\ is_instance s h port rm = true.

Lemma eqb_some n s : String.eqb n s = bool_decide (Some n = Some s).
Proof.
  destruct (String.eqb_spec n s) as [->|].
  - by rewrite bool_decide_eq_true_2.
  - rewrite bool_decide_eq_false_2; [done|congruence].
Qed.

Lemma same_instance_done s h port rm w :
  remote_ok rm -> same_instance s h port rm w = Done (is_instance s h port rm) w.
Proof.
  intros Hok. unfold same_instance, is_instance.
  destruct (r_is_unix rm) eqn:Eu, (r_is_listener rm) eqn:El; try done.
  destruct (rok_listener _ Hok El Eu) as [Hs Hh].
  destruct (r_service_name rm) as [n|]; [|done]. destruct (r_host rm) as [m|]; [|done].
  unfold mbind, prog_bind, mret, prog_ret. cbn.
  rewrite (eqb_some n s). case_bool_decide; [done|].
  rewrite (eqb_some m h). done.
Qed.

(** All the slots seen and none taken. *)
Lemma no_instance L s h port w :
  wf L w ->
  (forall p rm, Some p ∈ remote_slots w -> w_remotes w !! p = Some rm ->
     is_instance s h port rm = false) -> ~ has_instance s h port w.
Proof.
  intros Hw Hall (q & rm & Hq & Hi). rewrite (Hall q rm) in Hi; [done| |done].
  apply elem_of_omap_id. apply (list_dom _ _ (wf_rlist _ _ Hw)). by eexists.
Qed.

Lemma wp_find_instance L s h port w :
  wf L w ->
  wp (foreach_break remote_slots (fun p =>
        r ← read_remote p; b ← same_instance s h port r;
        mret (if b : bool then Some p else None)))
     (fun o w' => w' = w /\ match o with
                           | Some _ => has_instance s h port w
                           | None => ~ has_instance s h port w
                           end) w.
Proof.
  intros Hw.
  apply (wp_foreach_break _ _ (fun i w' => w' = w /\ forall j p rm, (j < i)%nat ->
    remote_slots w !! j = Some (Some p) -> w_remotes w !! p = Some rm ->
    is_instance s h port rm = false) _ (length (remote_slots w))); [done| | |].
  - split; [done|]. intros. lia.
  - intros i ? [-> Hseen] _ Hi. destruct (remote_slots w !! i) as [[p|]|] eqn:E.
    2,3: split; [done|]; intros j p rm Hj Hp; destruct (decide (j = i)) as [->|];
      [congruence|apply (Hseen j); [lia|done]].
    destruct (wf_remote_slot _ _ p Hw) as [rm Hp]; [by eapply list_elem_of_lookup_2|]. wp_go.
    apply wp_run. do 2 eexists.
    split; [apply same_instance_done; by eapply wf_remote|].
    destruct (is_instance s h port rm) eqn:Eb; wp_go.
    + split; [done|]. by exists p, rm.
    + split; [|done]. split; [done|]. intros j q y Hj Hq Hy.
      destruct (decide (j = i)) as [->|]; [congruence|]. by apply (Hseen j q y); [lia|..].
  - intros ? [-> Hseen]. split; [done|]. eapply no_instance; [done|].
    intros p rm [j Hj]%list_elem_of_lookup Hp. eapply Hseen; [|done|done].
    by eapply lookup_lt_Some.
Qed.

Lemma wf_bump L w n : wf L w -> (w_next w <= n)%positive -> wf L (set_w_next n w).
Proof. intros [] Hn. split; try done. intros p Hp. apply wf_fresh. simpl in Hp. lia. Qed.

(** The new listener, before and after it joins the list. *)
Lemma listener_ok s h port id fd :
  0 <= id < 256 ->
  remote_ok (set_r_is_listener true (set_r_service_name (Some s) (set_r_id id
    (set_r_port port (set_r_host (Some h) (set_r_is_unix false (remote_fresh fd))))))).
Proof. intros Hid. pose proof (is_conn_ok false (Some h) port _ (ex_intro _ fd eq_refl)) as []. by split. Qed.
Lemma wf_listener_joined rm ob w :
  wf [] w -> remote_ok rm -> buf_ok ob -> r_is_listener rm = true -> r_host rm <> None ->
  r_state rm = REMOTE_COMMAND -> r_client rm = None ->
  r_id rm = get_new_remote_id (remote_id_map w) -> r_id rm <> 0 ->
  let rm' := set_r_last_command REMOTE_CMD_LISTEN (with_output ob rm) in
  wf [] (joined rm' (set_remote_id_used (r_id rm') true (remote_id_map w)) w).
Proof.
  intros Hw Hok Hob Hl Hh Hst Hc Hid H0 rm'. pose proof (get_new_remote_id_range (remote_id_map w)).
  apply wf_add_listener; [done| |done|].
  - destruct (remote_ok_output rm ob Hok Hob). by split.
  - intros _. simpl. split; [lia|]. rewrite Hid. apply get_new_remote_id_free. by rewrite <- Hid.
Qed.

Lemma wp_service_add s h port w Q :
  dns_up -> wf [] w -> prints (create_plist_message "Listen") ->
  (has_instance s h port w -> Q (-2) w) ->
  (forall w', ~ has_instance s h port w -> wf [] w' -> w_clients w' = w_clients w ->
     w_remotes w' = w_remotes w -> remote_id_map w' = remote_id_map w -> Q (-1) w') ->
  (forall w', ~ has_instance s h port w -> get_new_remote_id (remote_id_map w) <> 0 ->
     instance_added s h port (get_new_remote_id (remote_id_map w)) w w' -> Q 0 w') ->
  wp (remote_mux_service_add s h port) Q w.
Proof.
  intros Hdns Hw Hpr HQ2 HQ1 HQ0. pose proof (wf_locks _ _ Hw) as HL.
  unfold remote_mux_service_add. wp_go. apply wp_lock; [rewrite HL; set_solver|]. rewrite HL. wp_go.
  set (w0 := set_w_locks _ w).
  assert (wf [remote_list_mutex] w0) as Hw0.
  { pose proof (wf_lock [] remote_list_mutex w (not_elem_of_nil _) Hw) as H. by rewrite HL in H. }
  wp_use (by eapply wp_find_instance). intros [p|] ? [-> Hhas]; wp_go.
  { simpl. replace (set_w_locks _ w0) with w; [by apply HQ2|]. destruct w; simpl in *; by subst. }
  wp_use (apply wp_new_host; [done|by right]). intros [p|] w1.
  2: { intros (evs & -> & _). wp_go. apply HQ1; try done.
       pose proof (wf_unlock [] remote_list_mutex w0 (not_elem_of_nil _) Hw0) as []. by split. }
  intros (w2 & rm & Hoc & [fd ->] & -> & ->). pose proof Hoc as (evs & -> & _). wp_go.
  cbn [remote_id_map allocated set_w_next put_remote set_w_remotes set_w_trace set_w_locks w0].
  set (id := get_new_remote_id _) in *.
  pose proof (get_new_remote_id_range (remote_id_map w)) as Hid. fold id in Hid.
  assert (wf [] (set_w_trace (evs ++ w_trace w) w)) as Hwt by (destruct Hw; by split).
  set (w2 := set_w_trace (evs ++ w_trace w) w) in *.
  destruct (Z.eqb_spec id 0) as [E0|E0].
  - wp_go.
    eapply wp_free_remote; [apply lookup_insert_eq|]. wp_go.
    assert (w_remotes w !! w_next w = None) as Hfr by by apply (wf_fresh _ _ Hw).
    apply HQ1; try done.
    + pose proof (wf_bump _ _ (Pos.succ (w_next w)) Hw ltac:(lia)) as [].
      split; simpl; by rewrite ?delete_insert_id by done.
    + simpl. by rewrite delete_insert_id.
  - wp_go. unfold add_to_remote_list. wp_go.
    set (rm1 := set_r_is_listener true _).
    assert (remote_ok rm1) as Hrm1 by by apply listener_ok.
    destruct (plist_to_xml (create_plist_message "Listen")) as [xml|] eqn:Exml; [|done].
    unfold remote_send_listen_packet. wp_go.
    wp_use (eapply (wp_remote_send_plist _ _ _ rm1); [apply lookup_insert_eq|done]).
    rewrite Exml. intros n w3 (Hn & ob & Hob & Hd & ->). wp_go. apply wp_when; [|lia]. intros _.
    wp_go. apply (HQ0 _); [done|done|].
    set (rm2 := set_r_last_command _ _).
    assert (wf [] (joined rm2 (set_remote_id_used (r_id rm2) true (remote_id_map w2)) w2)) as Hw4
      by by apply wf_listener_joined.
    assert (map_ok (set_remote_id_used id true (remote_id_map w))) as Hmap
      by apply set_ok, (wf_ids _ _ Hw).
    split; simpl; [|done|done|].
    + destruct Hw4. split; simpl; by rewrite ?insert_insert_eq.
    + exists (w_next w), rm2. rewrite !insert_insert_eq. split_and!; try done.
      by apply (wf_fresh _ _ Hw).
Qed.

(** *** Lists for clients *)

Lemma relock L m w :
  wf L w -> m ∉ L ->
  set_w_locks (filter (fun m' => m' <> m) (m :: w_locks w)) (set_w_locks (m :: w_locks w) w) = w.
Proof.
  intros Hw Hm. rewrite (wf_locks _ _ Hw), filter_mutex by done.
  rewrite <- (wf_locks _ _ Hw). by destruct w.
Qed.

Lemma copy_entries l a w :
  a = plist_new_array \/ plist_array_items a <> [] ->
  exists a', plist_dict_foreach l array_append_item_copy a w = Done a' w /\
    plist_array_items a' = plist_array_items a ++ (snd <$> l) /\
    (a' = plist_new_array \/ plist_array_items a' <> []).
Proof.
  revert a. induction l as [|[k v] l IH]; intros a Ha.
  { exists a. csimpl. by rewrite app_nil_r. }
  cbn [plist_dict_foreach]. unfold mbind, prog_bind.
  change (array_append_item_copy k v a w) with (Done (0, plist_array_append_item a v) w).
  cbv beta iota. cbn [fst snd]. change (0 <? 0) with false. cbv iota.
  pose proof (array_append a v _ eq_refl Ha) as Happ.
  destruct (IH (plist_array_append_item a v)) as (a' & -> & Hi & Ha').
  { right. rewrite Happ. by destruct (plist_array_items a). }
  exists a'. split; [done|]. split; [|done]. rewrite Hi, Happ. by rewrite <- app_assoc.
Qed.

(** The copy holds the devices of the list in their order; nothing changes. *)
Lemma wp_copy_device_list L w Q :
  wf L w -> remote_list_mutex ∉ L ->
  (forall devices, plist_array_items devices = snd <$> device_entries w -> Q devices w) ->
  wp usbmux_remote_copy_device_list Q w.
Proof.
  intros Hw Hm HQ. unfold usbmux_remote_copy_device_list. wp_go.
  apply wp_lock; [by rewrite (wf_locks _ _ Hw)|]. wp_go.
  destruct (copy_entries (device_entries w) plist_new_array
    (set_w_locks (remote_list_mutex :: w_locks w) w)) as (a & Ha & Hi & _); [by left|].
  apply wp_run. do 2 eexists. split; [exact Ha|]. wp_go.
  cbn [w_locks set_w_locks]. erewrite relock by done. apply HQ. by rewrite Hi, array_new.
Qed.

Lemma instance_entry_done rm devices w :
  r_is_unix rm = true \/ (r_service_name rm <> None /\ r_host rm <> None) ->
  exists e, instance_entry rm devices w = Done e w.
Proof.
  intros H. unfold instance_entry, mbind, prog_bind, mret, prog_ret.
  destruct (r_is_unix rm) eqn:Eu; cbn; [by eexists|]. destruct H as [|[Hs Hh]]; [done|].
  destruct (r_service_name rm); [|done]. destruct (r_host rm); [|done]. cbn. by eexists.
Qed.

Lemma devices_of_instance id l a w :
  exists a', plist_dict_foreach l (remote_device_get_for_instance id) a w = Done a' w.
Proof.
  revert a. induction l as [|[k v] l IH]; intros a; [by eexists|].
  cbn [plist_dict_foreach]. unfold remote_device_get_for_instance, mbind, prog_bind.
  destruct (_ =? _); [|apply IH]. destruct (plist_access_path2 _ _ _); apply IH.
Qed.

Lemma wp_copy_instances L w Q :
  wf L w -> remote_list_mutex ∉ L -> (forall dict, Q dict w) ->
  wp usbmux_remote_copy_instances Q w.
Proof.
  intros Hw Hm HQ. unfold usbmux_remote_copy_instances. wp_go.
  apply wp_lock; [by rewrite (wf_locks _ _ Hw)|]. set (w1 := set_w_locks _ w).
  assert (wf (remote_list_mutex :: L) w1) as Hw1 by by apply wf_lock. wp_go.
  apply (wp_foreach_acc_stable _ _ (fun _ w' => w' = w1) _ (remote_slots w1)); [done|done| |].
  - intros dict ? p -> _ Hin. destruct (wf_remote_slot _ _ p Hw1 Hin) as [rm Hp]. wp_go.
    destruct (_ && _) eqn:E; wp_go; [|done]. apply andb_true_iff in E as [El _].
    destruct (devices_of_instance (r_id rm) (device_entries w1) plist_new_array w1) as [a Ha].
    apply wp_run. do 2 eexists. split; [exact Ha|]. wp_go.
    destruct (instance_entry_done rm a w1) as [e He].
    { destruct (r_is_unix rm) eqn:Eu; [by left|right].
      by apply (rok_listener _ (wf_remote _ _ Hw1 p rm Hp)). }
    apply wp_run. do 2 eexists. split; [exact He|]. by wp_go.
  - intros dict ? -> _. wp_go. subst w1. cbn [w_locks set_w_locks]. by erewrite relock by done.
Qed.

(** *** Initialisation *)

Definition world_init : world :=
  MkWorld ∅ ∅ 1 (collection_free collection_init) (collection_free collection_init) 0 None [] []
    [].

Lemma wp_init no_mdns Q :
  prints (create_plist_message "Listen") ->
  (forall w', wf [] w' -> w_clients w' = ∅ ->
     (forall p rm, w_remotes w' !! p = Some rm -> r_is_unix rm = true /\ r_is_listener rm = true /\
        r_id rm = 0) ->
     (forall i, 1 <= i < 256 -> id_used (remote_id_map w') i = false) -> Q tt w') ->
  wp (_ ← client_init; usbmux_remote_init no_mdns) Q world_init.
Proof.
  intros Hpr HQ. unfold client_init, usbmux_remote_init. wp_go.
  set (w0 := set_remote_id_map _ _).
  assert (wf [] w0) as Hw0.
  { split; try done.
    - split; [apply col_ok_init|apply NoDup_nil_2|]. intros p. simpl. rewrite lookup_empty.
      split; [intros H; by apply elem_of_nil in H|by intros []].
    - split; [apply col_ok_init|apply NoDup_nil_2|]. intros p. simpl. rewrite lookup_empty.
      split; [intros H; by apply elem_of_nil in H|by intros []].
    - exists plist_new_dict. split; [done|apply new_dict_type].
    - split; [done|]. by apply Forall_replicate. }
  assert (forall i, id_used remote_id_map_init i = false) as Hids by apply id_used_init.
  wp_use (apply wp_new_unix). intros [p|] w1.
  2: { intros (evs & -> & _). wp_go. apply HQ; try done. by destruct Hw0; split. }
  intros (w2 & rm & (evs & -> & _) & [fd ->] & -> & ->). wp_go.
  apply wp_lock; [apply not_elem_of_nil|]. wp_go. unfold add_to_remote_list. wp_go.
  set (rm1 := set_r_is_listener true _).
  assert (remote_ok rm1) as Hrm1.
  { pose proof (is_conn_ok true None 0 _ (ex_intro _ fd eq_refl)) as []. by split. }
  destruct (plist_to_xml (create_plist_message "Listen")) as [xml|] eqn:Exml; [|done].
  unfold remote_send_listen_packet. wp_go.
  wp_use (eapply (wp_remote_send_plist _ _ _ rm1); [apply lookup_insert_eq|done]).
  rewrite Exml. intros n w3 (Hn & ob & Hob & Hd & ->). wp_go. apply wp_when; [|lia]. intros _.
  wp_go. set (rm2 := set_r_last_command _ _).
  assert (remote_ok rm2) as Hrm2 by (destruct (remote_ok_output rm1 ob Hrm1 Hob); by split).
  assert (wf [] (set_w_trace (evs ++ []) w0)) as Hw1 by (destruct Hw0; by split).
  assert (may_join rm2 remote_id_map_init) as Hjoin by by intros [_ H].
  pose proof (wf_add_listener _ _ rm2 Hw1 Hrm2 eq_refl Hjoin) as Hw4.
  assert (map_ok (set_remote_id_used 0 true remote_id_map_init)) as Hmap
    by apply set_ok, (wf_ids _ _ Hw0).
  apply HQ.
  - destruct Hw4. split; simpl; by rewrite ?insert_insert_eq.
  - done.
  - intros q x. simpl. rewrite !insert_insert_eq.
    intros [[<- <-]|[_ Hx]]%lookup_insert_Some; [done|]. by rewrite lookup_empty in Hx.
  - intros i Hi. change (id_used (set_remote_id_used 0 true remote_id_map_init) i = false).
    rewrite id_used_set; [|apply (wf_ids _ _ Hw0)|lia|lia].
    rewrite (proj2 (Z.eqb_neq _ _)) by lia. apply Hids.
Qed.
End remote_facts.
