(* ===== verification/CommandFacts.v ===== *)
(** What the functions of Command.v do: every command of a client, and every
    poll event on a client descriptor, keeps the invariant and runs without a
    fault, provided the request is one the daemon is prepared for. *)

From S2P Require Import Prelude Exec Mem Utils Proto CStr RemoteId Plist World WorldFacts.
From S2P Require Import Socket Client Remote Teardown Command RemoteProcess Invariant.
From S2P Require Import ClientFacts TeardownFacts RemoteFacts.

Section command_facts.
Context `{PL : PlistLib} `{EN : Env} {EL : EnvLaws EN} {PLaws : PlistLaws PL}.

(** *** Requests the daemon is prepared for *)

(** The messages it sends on for this request can be printed, and the record
    requests name a record. *)
Definition forwardable (dict : plist) (message : string) : Prop :=
  let with_record (f : string -> plist) :=
    exists rid, plist_dict_copy_string_val dict "PairRecordID" = Some rid /\ prints (f rid) in
  (message = "ReadBUID"%string -> prints (create_plist_message "ReadBUID")) /\
  (message = "ReadPairRecord"%string -> with_record (record_message "ReadPairRecord")) /\
  (message = "SavePairRecord"%string -> with_record (fun _ => dict)) /\
  (message = "DeletePairRecord"%string -> with_record (record_message "DeletePairRecord")) /\
  (message = "AddInstance"%string -> prints (create_plist_message "Listen")).

Definition request_ok (msg : list byte) : Prop :=
  let hdr := decode_header msg in
  (h_message hdr = MESSAGE_CONNECT -> 22 <= zlen msg) /\
  (h_message hdr = MESSAGE_PLIST -> forall dict node message,
     plist_from_xml (drop 16 msg) = Some dict ->
     plist_dict_get_item dict "MessageType" = Some node ->
     plist_get_string_val node = Some message -> forwardable dict message).

(** A client between requests. *)
Definition idle (c : ptr) (w : world) : Prop :=
  exists cl, w_clients w !! c = Some cl /\ c_state cl = CLIENT_COMMAND /\ c_remote cl = None.
Definition good (c : ptr) (w : world) : Prop := wf [] w /\ is_Some (w_clients w !! c).

Lemma idle_sends c w w' : sends w w' -> idle c w -> idle c w'.
Proof.
  intros Hs (cl & Hc & Hst & Hr). destruct (sends_client _ _ _ _ Hs Hc) as (cl' & Hc' & Hq).
  destruct (queued_fields _ _ Hq) as (Hst' & Hr' & _). exists cl'. split_and!; congruence.
Qed.
Lemma idle_keeps c w w' : keeps w w' -> idle c w -> idle c w'.
Proof.
  intros Hs (cl & Hc & Hst & Hr). destruct (kp_unlinked _ _ Hs _ _ Hc Hr) as (cl' & Hc' & Hq).
  destruct (queued_fields _ _ Hq) as (Hst' & Hr' & _). exists cl'. split_and!; congruence.
Qed.
Lemma idle_ob L c w cl :
  wf L w -> idle c w -> w_clients w !! c = Some cl -> buf_ok (c_ob cl) /\ input_ok (c_ib cl).
Proof.
  intros Hw (x & Hx & Hst & _) Hc. assert (x = cl) as -> by congruence.
  pose proof (wf_client _ _ Hw c cl Hc) as Hok. unfold client_ok in Hok. by rewrite Hst in Hok.
Qed.
Lemma good_sends c w w' : sends w w' -> good c w -> good c w'.
Proof.
  intros Hs [Hw [cl Hc]]. split; [by eapply wf_sends|].
  destruct (sends_client _ _ _ _ Hs Hc) as (cl' & ? & _). by eexists.
Qed.
Lemma good_idle c w : wf [] w -> idle c w -> good c w.
Proof. intros Hw (cl & Hc & _). split; [done|by eexists]. Qed.

Lemma wp_reply c tag result w Q :
  wf [] w -> idle c w -> (forall n w', good c w' -> Q n w') -> wp (reply c tag result) Q w.
Proof.
  intros Hw Hi HQ. pose proof Hi as (cl & Hc & _).
  destruct (idle_ob _ _ _ _ Hw Hi Hc) as [Hob _].
  unfold reply. wp_go. wp_use (by eapply send_result_sends). intros n w' Hs. wp_go.
  apply HQ. eapply good_sends; [done|by apply good_idle].
Qed.

Lemma wp_send_plist c tag d w :
  wf [] w -> idle c w -> wp (send_plist_pkt c tag d) (fun _ w' => good c w') w.
Proof.
  intros Hw Hi. pose proof Hi as (cl & Hc & _).
  destruct (idle_ob _ _ _ _ Hw Hi Hc) as [Hob _].
  wp_use (by eapply send_plist_pkt_sends). intros n w' Hs.
  eapply good_sends; [done|by apply good_idle].
Qed.

(** *** Lists *)

Lemma wp_send_device_list c tag w Q :
  wf [] w -> idle c w -> (forall n w', good c w' -> Q n w') ->
  wp (status (send_device_list c tag)) Q w.
Proof.
  intros Hw Hi HQ. unfold status, send_device_list. wp_go.
  eapply wp_copy_device_list; [done|apply not_elem_of_nil|]. intros devices _.
  wp_use (by apply wp_send_plist). intros n w' Hg. wp_go. by apply HQ.
Qed.

Lemma wp_send_instances c tag w Q :
  wf [] w -> idle c w -> (forall n w', good c w' -> Q n w') ->
  wp (status (send_instances c tag)) Q w.
Proof.
  intros Hw Hi HQ. unfold status, send_instances. wp_go.
  eapply wp_copy_instances; [done|apply not_elem_of_nil|]. intros dict.
  wp_use (by apply wp_send_plist). intros n w' Hg. wp_go. by apply HQ.
Qed.

Lemma wp_send_listener_list c tag w Q :
  wf [] w -> idle c w -> (forall n w', good c w' -> Q n w') ->
  wp (status (send_listener_list c tag)) Q w.
Proof.
  intros Hw Hi HQ. unfold status, send_listener_list. wp_go.
  apply wp_lock; [rewrite (wf_locks _ _ Hw); apply not_elem_of_nil|].
  set (w1 := set_w_locks _ w).
  assert (wf [client_list_mutex] w1) as Hw1 by (apply wf_lock; [apply not_elem_of_nil|done]).
  pose proof Hi as (cl & Hc & _). wp_go.
  apply (wp_foreach_acc_stable _ _ (fun _ w' => w' = w1) _ (client_slots w1)); [done|done| |].
  - intros l ? p -> _ Hin. destruct (wf_client_slot _ _ p Hw1 Hin) as [lc Hp]. wp_go.
    case_bool_decide; [|by wp_go]. by wp_go.
  - intros l ? -> _. wp_go. subst w1. cbn [w_locks set_w_locks].
    erewrite relock by (done || apply not_elem_of_nil).
    wp_use (by apply wp_send_plist). intros n w' Hg. wp_go. by apply HQ.
Qed.

(** *** Listening *)

Lemma wp_announce c devs n w Q :
  good c w -> (exists cl, w_clients w !! c = Some cl /\ c_state cl = CLIENT_LISTEN) ->
  (forall n w', good c w' -> Q n w') -> wp (announce c devs n) Q w.
Proof.
  revert n w. induction devs as [|d devs IH]; intros n w Hg (cl & Hc & Hst) HQ; cbn [announce].
  { wp_go. by apply HQ. }
  wp_go. pose proof Hg as [Hw _].
  wp_use (eapply notify_device_add_sends; [exact Hc|by eapply listen_ob_ok]).
  intros m w' Hs. pose proof (good_sends _ _ _ Hs Hg) as Hg'.
  destruct (m <? 0); [wp_go; by apply HQ|]. apply IH; [done| |done].
  destruct (sends_client _ _ _ _ Hs Hc) as (cl' & Hc' & Hq).
  exists cl'. split; [done|]. by rewrite (proj1 (queued_fields _ _ Hq)).
Qed.

Lemma wp_start_listen c w Q :
  wf [] w -> idle c w -> (forall n w', good c w' -> Q n w') -> wp (start_listen c) Q w.
Proof.
  intros Hw Hi HQ. pose proof Hi as (cl & Hc & Hst & Hr).
  pose proof (idle_ob _ _ _ _ Hw Hi Hc) as Hb.
  unfold start_listen. wp_go. set (w1 := put_client _ _ w).
  assert (wf [] w1) as Hw1.
  { eapply wf_put_client; [done|done|exact Hb|done|]. intros rm _ H. set_solver. }
  eapply wp_copy_device_list; [done|apply not_elem_of_nil|]. intros devices _.
  apply wp_announce; [|eexists; split; [apply put_client_lookup|done]|done].
  split; [done|]. eexists. apply put_client_lookup.
Qed.

(** *** Commands *)

Lemma idle_closes c w w' : only_closes w w' -> idle c w -> idle c w'.
Proof. by intros (evs & -> & _). Qed.

Lemma requested_good id rid c cl st cmd out w w' :
  requested id rid c cl st cmd out w w' -> good c w'.
Proof.
  intros [Hw (p & rm & _ & Hcl & _)]. split; [done|]. rewrite Hcl, lookup_insert_eq. by eexists.
Qed.

Lemma wp_connect_outcome c tag dev req w Q :
  dns_up -> wf [] w -> idle c w -> (forall n w', good c w' -> Q n w') ->
  wp (res ← usbmux_remote_connect dev req c; connect_outcome c tag dev res) Q w.
Proof.
  intros Hdns Hw Hi HQ. pose proof Hi as (cl & Hc & Hst & Hr).
  pose proof (idle_ob _ _ _ _ Hw Hi Hc) as [Hob Hib]. wp_go.
  eapply wp_usbmux_remote_connect; [done..| |].
  - intros w' Ho. unfold connect_outcome. change (-1 <? 0) with true. cbv iota.
    apply wp_reply; [by eapply wf_only_closes|by eapply idle_closes|done].
  - intros w' xml Hq _. unfold connect_outcome. change (0 <? 0) with false. cbv iota.
    destruct Hq as [Hw' (p & rm & _ & Hcl & _)].
    assert (w_clients w' !! c = Some (set_c_remote (Some p) cl)) as Hc'
      by by rewrite Hcl, lookup_insert_eq.
    wp_go. apply HQ. split; [|eexists; apply put_client_lookup].
    eapply wf_put_client; [done|exact Hc'| |done|].
    + done.
    + intros rm' _ H. simpl in H. set_solver.
Qed.

Lemma wp_cmd_connect c tag dict w Q :
  dns_up -> wf [] w -> idle c w -> (forall n w', good c w' -> Q n w') ->
  wp (cmd_connect c tag dict) Q w.
Proof.
  intros. unfold cmd_connect.
  destruct (plist_dict_get_item dict "DeviceID"); [|by apply wp_reply].
  destruct (plist_dict_get_item dict "PortNumber"); [|by apply wp_reply].
  by apply wp_connect_outcome.
Qed.

Lemma wp_cmd_add_instance c tag dict w Q :
  dns_up -> prints (create_plist_message "Listen") ->
  wf [] w -> idle c w -> (forall n w', good c w' -> Q n w') ->
  wp (cmd_add_instance c tag dict) Q w.
Proof.
  intros Hdns Hpr Hw Hi HQ. pose proof Hi as (cl & Hc & Hst & Hr). unfold cmd_add_instance.
  destruct (instance_args dict) as [[h port]|]; [|by apply wp_reply].
  unfold usbmux_remote_add_remote. wp_go.
  eapply wp_service_add; [done..|by intros _; apply wp_reply| |].
  - intros w' _ Hw' Hcl _ _. apply wp_reply; [done| |done]. exists cl. by rewrite Hcl.
  - intros w' _ _ [Hw' Hcl _ _]. apply wp_reply; [done| |done]. exists cl. by rewrite Hcl.
Qed.

Lemma wp_cmd_remove_instance c tag dict w Q :
  wf [] w -> idle c w -> (forall n w', good c w' -> Q n w') ->
  wp (cmd_remove_instance c tag dict) Q w.
Proof.
  intros Hw Hi HQ. unfold cmd_remove_instance.
  destruct (instance_args dict) as [[h port]|]; [|by apply wp_reply].
  unfold usbmux_remote_remove_remote. wp_go. apply wp_service_remove; [done| |].
  - intros w' Hw' Hk. apply wp_reply; [done|by eapply idle_keeps|done].
  - by apply wp_reply.
Qed.

Lemma good_closes c w w' : only_closes w w' -> good c w -> good c w'.
Proof.
  intros H [Hw Hc]. split; [by eapply wf_only_closes|]. by destruct H as (evs & -> & _).
Qed.

(** The three record requests, through [status]. *)
Ltac record_request lem H :=
  destruct H as (rid & -> & Hpr); unfold prints in Hpr;
  match type of Hpr with
  | ?t <> None => destruct t as [xml|] eqn:?; [|done]
  end;
  unfold status; wp_go; eapply lem; [done..| |].

Lemma wp_listen_request c tag w Q :
  wf [] w -> idle c w -> (forall n w', good c w' -> Q n w') -> wp (listen_request c tag) Q w.
Proof.
  intros Hw Hi HQ. pose proof Hi as (cl & Hc & _). unfold listen_request. wp_go.
  destruct (idle_ob _ _ _ _ Hw Hi Hc) as [Hob _].
  wp_use (by eapply send_result_sends). intros n w' Hs.
  destruct (n <? 0); [wp_go; apply HQ; eapply good_sends; [done|by apply good_idle]|].
  apply wp_start_listen; [by eapply wf_sends|by eapply idle_sends|done].
Qed.

Lemma wp_plist_command c tag dict message w Q :
  dns_up -> forwardable dict message ->
  wf [] w -> idle c w -> (forall n w', good c w' -> Q n w') ->
  wp (plist_command c tag dict message) Q w.
Proof.
  intros Hdns (F1 & F2 & F3 & F4 & F5) Hw Hi HQ. pose proof Hi as (cl & Hc & Hst & Hr).
  pose proof (good_idle _ _ Hw Hi) as Hg.
  assert (forall n w', only_closes w w' -> Q n w') as HQc.
  { intros n w' Ho. apply HQ. by eapply good_closes. }
  unfold plist_command.
  destruct (String.eqb_spec message "Listen") as [->|_].
  { by apply wp_listen_request. }
  destruct (String.eqb_spec message "Connect") as [->|_]; [by apply wp_cmd_connect|].
  destruct (String.eqb_spec message "ListDevices") as [->|_]; [by apply wp_send_device_list|].
  destruct (String.eqb_spec message "ListListeners") as [->|_]; [by apply wp_send_listener_list|].
  destruct (String.eqb_spec message "ReadBUID") as [->|_].
  { specialize (F1 eq_refl). unfold prints in F1.
    destruct (plist_to_xml (create_plist_message "ReadBUID")) as [xml|] eqn:E; [|done].
    wp_go. eapply wp_read_buid; [done..| |].
    - intros w' Ho. wp_go. by apply HQc.
    - intros w' id Hq. wp_go. apply HQ. by eapply requested_good. }
  destruct (String.eqb_spec message "ReadPairRecord") as [->|_].
  { record_request wp_read_pair_record (F2 eq_refl).
    - intros w' Ho. wp_go. by apply HQc.
    - intros w' Hq. wp_go. apply HQ. by eapply requested_good. }
  destruct (String.eqb_spec message "SavePairRecord") as [->|_].
  { record_request wp_save_pair_record (F3 eq_refl).
    - intros w' Ho. wp_go. by apply HQc.
    - intros w' Hq. wp_go. apply HQ. by eapply requested_good. }
  destruct (String.eqb_spec message "DeletePairRecord") as [->|_].
  { record_request wp_delete_pair_record (F4 eq_refl).
    - intros w' Ho. wp_go. by apply HQc.
    - intros w' Hq. wp_go. apply HQ. by eapply requested_good. }
  destruct (String.eqb_spec message "Instances") as [->|_]; [by apply wp_send_instances|].
  destruct (String.eqb_spec message "AddInstance") as [->|_].
  { apply wp_cmd_add_instance; auto. }
  destruct (String.eqb_spec message "RemoveInstance") as [->|_].
  { by apply wp_cmd_remove_instance. }
  by apply wp_reply.
Qed.

(** *** A complete message *)

Lemma iobuf_read_data b off n :
  buf_ok b -> 0 <= off -> 0 <= n -> off + n <= size b ->
  iobuf_read off n b = inl (take (Z.to_nat n) (drop (Z.to_nat off) (data b))).
Proof.
  intros [(blk & Hb & ? & ?) ? ?] H1 H2 H3. unfold iobuf_read, block_read, data. rewrite Hb.
  rewrite !(proj2 (Z.ltb_ge _ _)) by lia. simpl. f_equal.
  rewrite !take_drop_commute, take_take. do 2 f_equal. lia.
Qed.

Lemma le_at_take off k n l : (off + k <= n)%nat -> le_at off k (take n l) = le_at off k l.
Proof.
  intros H. unfold le_at. rewrite !take_drop_commute, take_take. do 3 f_equal. lia.
Qed.
Lemma decode_header_take n l : (16 <= n)%nat -> decode_header (take n l) = decode_header l.
Proof. intros H. unfold decode_header. by rewrite !le_at_take by lia. Qed.

(** The bytes of the message at the front of a buffer. *)
Definition message_in (l : list byte) : list byte :=
  take (Z.to_nat (h_length (decode_header l))) l.

Lemma wf_update_idle c cl f w :
  wf [] w -> w_clients w !! c = Some cl -> idle c w ->
  c_state (f cl) = c_state cl -> c_remote (f cl) = c_remote cl -> c_ob (f cl) = c_ob cl ->
  c_ib (f cl) = c_ib cl ->
  wf [] (put_client c (f cl) w) /\ idle c (put_client c (f cl) w).
Proof.
  intros Hw Hc (x & Hx & Hst & Hr) E1 E2 E3 E4. assert (x = cl) as -> by congruence. split.
  - eapply wf_put_client; [done|done| |done|].
    + pose proof (wf_client _ _ Hw c cl Hc) as Hok. unfold client_ok in *.
      by rewrite E1, E2, E3, E4.
    + intros rm. by apply pair_ok_state.
  - exists (f cl). rewrite put_client_lookup. split_and!; [done|congruence..].
Qed.

(** A header, and the message it belongs to, in the buffer. *)
Lemma message_length ib :
  buf_ok ib -> 16 <= h_length (decode_header (data ib)) <= size ib ->
  zlen (message_in (data ib)) = h_length (decode_header (data ib)) /\
  decode_header (message_in (data ib)) = decode_header (data ib).
Proof.
  intros Hib Hlen. unfold message_in. rewrite length_take, decode_header_take by lia.
  pose proof (data_length _ Hib). split; [lia|done].
Qed.

Lemma wp_plist_request c cl w Q :
  let hdr := decode_header (data (c_ib cl)) in
  dns_up -> wf [] w -> w_clients w !! c = Some cl -> idle c w -> buf_ok (c_ib cl) ->
  16 <= h_length hdr <= size (c_ib cl) -> h_message hdr = MESSAGE_PLIST ->
  request_ok (message_in (data (c_ib cl))) -> (forall n w', good c w' -> Q n w') ->
  wp (plist_request c hdr (c_ib cl)) Q w.
Proof.
  intros hdr Hdns Hw Hc Hi Hib Hlen Em [_ R2] HQ. unfold plist_request. wp_go.
  destruct (message_length _ Hib Hlen) as [Hmlen Hmhdr]. fold hdr in Hmlen, Hmhdr.
  pose proof Hi as (x & Hx & Hst & Hr). assert (x = cl) as -> by congruence.
  destruct (wf_update_idle c cl (set_c_proto_version 1) w) as [Hw1 Hi1]; [done..|].
  set (w1 := put_client _ _ w) in *.
  pose proof (decode_header_ok (data (c_ib cl))) as [Hl32 _]. fold hdr in Hl32.
  unfold HEADER_SIZE. rewrite u32_small by lia.
  eapply wp_lift; [apply iobuf_read_data; [done|lia..]|]. wp_go.
  replace (take _ _) with (drop 16 (message_in (data (c_ib cl)))).
  2: { unfold message_in. fold hdr. rewrite take_drop_commute. do 3 f_equal. lia. }
  assert (good c w1) as Hg1 by by apply good_idle.
  destruct (plist_from_xml _) as [dict|] eqn:Ex; [|wp_go; by apply HQ].
  destruct (plist_dict_get_item dict "MessageType") as [node|] eqn:En; [|wp_go; by apply HQ].
  case_bool_decide; [wp_go; by apply HQ|].
  destruct (plist_get_string_val node) as [message|] eqn:Es; [|wp_go; by apply HQ].
  wp_go. unfold update_client_info. wp_go.
  destruct (wf_update_idle c (set_c_proto_version 1 cl)
    (set_c_info (Some (client_info dict))) w1) as [Hw2 Hi2]; [done|apply put_client_lookup|done..|].
  apply wp_plist_command; [done| |done..]. eapply R2; [by rewrite Hmhdr|done..].
Qed.

Lemma wp_client_command c cl w Q :
  let msg := message_in (data (c_ib cl)) in
  dns_up -> wf [] w -> w_clients w !! c = Some cl -> buf_ok (c_ob cl) -> buf_ok (c_ib cl) ->
  16 <= h_length (decode_header (data (c_ib cl))) <= size (c_ib cl) ->
  (c_state cl = CLIENT_COMMAND -> c_remote cl = None /\ request_ok msg) ->
  (forall n w', wf [] w' -> (n = 0 -> is_Some (w_clients w' !! c)) -> Q n w') ->
  wp (client_command c) Q w.
Proof.
  intros msg Hdns Hw Hc Hob Hib Hlen Hreq HQ.
  assert (forall n w', good c w' -> Q n w') as HQg by (intros n w' [? ?]; by apply HQ).
  destruct (message_length _ Hib Hlen) as [Hmlen Hmhdr]. fold msg in Hmlen, Hmhdr.
  unfold client_command. wp_go.
  eapply wp_lift; [by apply iobuf_read_data; (done || unfold HEADER_SIZE; lia)|].
  wp_go. rewrite drop_0, decode_header_take by (unfold HEADER_SIZE; lia).
  case_bool_decide as Hst.
  { wp_go. wp_use (by eapply send_result_sends). intros n w' Hs.
    pose proof (wf_sends _ _ _ Hw Hs) as Hw'.
    destruct (n <? 0); [wp_go; by apply HQ|]. wp_go.
    destruct (sends_client _ _ _ _ Hs Hc) as (cl' & Hc' & _).
    eapply client_close_wf; [done..|apply not_elem_of_nil|intros _; apply not_elem_of_nil|].
    intros Hw''. wp_go. by apply HQ. }
  destruct (Hreq Hst) as [Hr Hok]. assert (idle c w) as Hi by by exists cl.
  destruct (_ && _).
  { wp_go. wp_use (by eapply send_result_sends). intros n w' Hs. wp_go.
    apply HQg. eapply good_sends; [done|by apply good_idle]. }
  destruct (Z.eqb_spec (h_message (decode_header (data (c_ib cl)))) MESSAGE_PLIST) as [Em|_];
    [by apply wp_plist_request|].
  destruct (_ =? MESSAGE_LISTEN); [by apply wp_listen_request|].
  destruct (Z.eqb_spec (h_message (decode_header (data (c_ib cl)))) MESSAGE_CONNECT) as [Em|_];
    [|by apply wp_reply].
  destruct Hok as [R1 _]. rewrite Hmhdr in R1. specialize (R1 Em). unfold binary_connect. wp_go.
  eapply wp_lift; [apply iobuf_read_data; [done|lia..]|]. cbv beta zeta.
  eapply (wp_connect_outcome c); done.
Qed.

(** *** Receiving *)

Lemma decode_header_app l r : (16 <= length l)%nat -> decode_header (l ++ r) = decode_header l.
Proof.
  intros H. rewrite <- (decode_header_take 16 (l ++ r)), <- (decode_header_take 16 l) by lia.
  by rewrite take_app_le.
Qed.
Lemma message_in_app l r :
  (16 <= length l)%nat -> h_length (decode_header l) <= zlen l ->
  message_in (l ++ r) = message_in l.
Proof.
  intros H Hl. unfold message_in. rewrite decode_header_app by done. apply take_app_le. lia.
Qed.

(** The states in which a client is read as a sequence of messages. *)
Definition reading (cl : mux_client) : Prop :=
  c_state cl = CLIENT_COMMAND \/ c_state cl = CLIENT_LISTEN \/ c_state cl = CLIENT_CONNECTING1.

Lemma reading_bufs L w c cl :
  wf L w -> w_clients w !! c = Some cl -> reading cl -> buf_ok (c_ob cl) /\ input_ok (c_ib cl).
Proof.
  intros Hw Hc Hr. pose proof (wf_client _ _ Hw c cl Hc) as Hok. unfold client_ok in Hok.
  destruct Hr as [E|[E|E]]; rewrite E in Hok; tauto.
Qed.

Lemma wf_set_ib L w c cl ib :
  wf L w -> w_clients w !! c = Some cl -> reading cl -> input_ok ib ->
  wf L (put_client c (set_c_ib ib cl) w).
Proof.
  intros Hw Hc Hr Hib. eapply wf_put_client; [done|done| |done|].
  - pose proof (wf_client _ _ Hw c cl Hc) as Hok. unfold client_ok in *. simpl.
    destruct Hr as [E|[E|E]]; rewrite E in *; tauto.
  - intros rm. by apply pair_ok_state.
Qed.

Lemma wf_reset_ib L w c cl :
  wf L w -> w_clients w !! c = Some cl ->
  wf L (put_client c (set_c_ib (set_size 0 (c_ib cl)) cl) w).
Proof.
  intros Hw Hc. eapply wf_put_client; [done|done| |done|].
  - pose proof (wf_client _ _ Hw c cl Hc) as Hok. unfold client_ok, input_ok in *. simpl.
    destruct (c_state cl); intuition auto using buf_ok_reset.
  - intros rm. by apply pair_ok_state.
Qed.

(** What the client sends next is a request the daemon is prepared for. *)
Definition stream_ok (cl : mux_client) (stream : list byte) : Prop :=
  c_state cl = CLIENT_COMMAND -> c_remote cl = None /\ request_ok (message_in stream).

Lemma wp_complete c cl stream rest w Q :
  dns_up -> wf [] w -> w_clients w !! c = Some cl -> reading cl ->
  stream = data (c_ib cl) ++ rest -> stream_ok cl stream ->
  16 <= h_length (decode_header (data (c_ib cl))) <= size (c_ib cl) ->
  (forall w', wf [] w' -> Q tt w') ->
  wp (res ← client_command c;
      when (res =? 0) (write_client c (fun c => set_c_ib (set_size 0 (c_ib c)) c))) Q w.
Proof.
  intros Hdns Hw Hc Hrd -> Hs Hlen HQ. pose proof (reading_bufs _ _ _ _ Hw Hc Hrd) as [Hob [Hib _]].
  pose proof (data_length _ Hib) as Hdl. wp_go.
  eapply wp_client_command; [done..| |].
  { intros Hst. destruct (Hs Hst) as [? Hok]. split; [done|].
    rewrite message_in_app in Hok by lia. done. }
  intros n w' Hw' Hn. apply wp_when; [|intros; by apply HQ].
  intros Hn0%Z.eqb_eq. destruct (Hn Hn0) as [cl' Hc']. wp_go. apply HQ. by apply wf_reset_ib.
Qed.

(** Closing is always possible while no mutex is held. *)
Lemma wp_close_ok c cl w Q :
  wf [] w -> w_clients w !! c = Some cl -> (forall w', wf [] w' -> Q tt w') ->
  wp (client_close c) Q w.
Proof.
  intros Hw Hc HQ.
  eapply client_close_wf; [done..|apply not_elem_of_nil|intros _; apply not_elem_of_nil|].
  intros Hw'. by apply HQ.
Qed.

Lemma recv_into_input fd ib len w Q :
  input_ok ib -> 0 <= len -> size ib + len <= capacity ib ->
  Q None w ->
  (forall ib' bs rest, input_ok ib' -> capacity ib' = capacity ib ->
     size ib' = size ib + zlen bs -> zlen bs <= len ->
     default [] (sys_recv fd) = bs ++ rest -> data ib' = data ib ++ bs -> Q (Some ib') w) ->
  wp (recv_into fd ib len) Q w.
Proof.
  intros [Hib Hcap] H0 Hfit Hnone Hsome. apply wp_recv_into; [by left|done|done|done|].
  intros bs ib' _ Hbs (rest & Hr) Hok Hc Hs Hd. apply (Hsome ib' bs rest); try done.
  - split; [done|]. by rewrite Hc.
  - by rewrite Hr.
Qed.

(** The second half of [process_recv], for the buffer the first one leaves. *)
Definition after_header (c : ptr) (fd : Z) (ib : iobuf) (did : bool) : M unit :=
  raw ← lift (iobuf_read 0 HEADER_SIZE ib);
  let hdr := decode_header raw in
  if capacity ib <? h_length hdr then client_close c
  else if h_length hdr <? HEADER_SIZE then client_close c
  else
    complete ← (if size ib <? h_length hdr then
        if did then mret false
        else
          r ← recv_into fd ib (u32 (h_length hdr - size ib));
          match r with
          | None => _ ← client_close c; mret false
          | Some ib' =>
              _ ← write_client c (set_c_ib ib'); mret (negb (size ib' <? h_length hdr))
          end
      else mret true);
    if complete : bool then
      res ← client_command c;
      when (res =? 0) (write_client c (fun c => set_c_ib (set_size 0 (c_ib c)) c))
    else mret tt.

Lemma wp_after_header c cl ib did stream rest w Q :
  dns_up -> wf [] w -> w_clients w !! c = Some (set_c_ib ib cl) -> reading cl -> input_ok ib ->
  16 <= size ib -> stream = data ib ++ rest -> stream_ok cl stream ->
  (did = false -> default [] (sys_recv (c_fd cl)) = rest) -> (forall w', wf [] w' -> Q tt w') ->
  wp (after_header c (c_fd cl) ib did) Q w.
Proof.
  intros Hdns Hw Hc Hrd [Hib Hcap] H16 Hst Hs Hrest HQ. unfold after_header.
  pose proof (data_length _ Hib) as Hdl. pose proof (ok_size _ Hib). pose proof (ok_cap _ Hib).
  apply wp_bind. eapply wp_lift; [by apply iobuf_read_data; (done || unfold HEADER_SIZE; lia)|].
  cbv beta zeta. rewrite drop_0, decode_header_take by (unfold HEADER_SIZE; lia).
  set (hdr := decode_header (data ib)). unfold BUF_MAX, HEADER_SIZE in *.
  destruct (Z.ltb_spec (capacity ib) (h_length hdr)); [by eapply wp_close_ok|].
  destruct (Z.ltb_spec (h_length hdr) 16); [by eapply wp_close_ok|].
  apply wp_bind. destruct (Z.ltb_spec (size ib) (h_length hdr)).
  - destruct did; [wp_go; by apply HQ|]. rewrite u32_small by lia. apply wp_bind.
    apply recv_into_input; [by split|lia|lia| |].
    + wp_go. by eapply wp_close_ok; [..|intros; wp_go; apply HQ].
    + intros ib' bs rest' Hib' Hc' Hs' Hbs Hr Hd'. wp_go.
      set (w2 := put_client c _ w).
      assert (wf [] w2) as Hw2 by by eapply wf_set_ib.
      destruct (Z.ltb_spec (size ib') (h_length hdr)); simpl; [wp_go; by apply HQ|].
      eapply (wp_complete _ _ stream rest'); [done|done|apply put_client_lookup|done| |done| |done];
        cbn [c_ib set_c_ib]; rewrite Hd'.
      * rewrite <- app_assoc, <- Hr, Hrest by done. exact Hst.
      * rewrite decode_header_app by lia. fold hdr. lia.
  - apply wp_ret. cbv beta iota.
    eapply (wp_complete _ _ stream rest); [done|done|exact Hc|done|done|done| |done].
    cbn [c_ib set_c_ib]. fold hdr. lia.
Qed.

Lemma wp_process_recv c cl w Q :
  dns_up -> wf [] w -> w_clients w !! c = Some cl -> reading cl ->
  stream_ok cl (data (c_ib cl) ++ default [] (sys_recv (c_fd cl))) ->
  (forall w', wf [] w' -> Q tt w') -> wp (process_recv c) Q w.
Proof.
  intros Hdns Hw Hc Hrd Hs HQ. pose proof (reading_bufs _ _ _ _ Hw Hc Hrd) as [Hob [Hib Hcap]].
  set (stream := data (c_ib cl) ++ _) in *. pose proof (ok_size _ Hib) as Hsz.
  assert (HEADER_SIZE = 16) as EH by done. unfold process_recv. wp_go.
  destruct (Z.ltb_spec (size (c_ib cl)) HEADER_SIZE) as [Hlt|Hge].
  - apply wp_bind. apply recv_into_input; [by split|lia|lia| |].
    + wp_go. by eapply wp_close_ok; [..|intros; wp_go; apply HQ].
    + intros ib' bs rest Hib' Hc' Hs' Hbs Hr Hd'. wp_go.
      destruct (Z.ltb_spec (size ib') HEADER_SIZE) as [|H16];
        [wp_go; apply HQ; by eapply wf_set_ib|].
      apply wp_ret. cbv beta iota.
      change (wp (after_header c (c_fd cl) ib' true) Q (put_client c (set_c_ib ib' cl) w)).
      eapply (wp_after_header _ _ ib' true stream rest);
        [done|by eapply wf_set_ib|apply put_client_lookup|done|done|exact H16| |done|done|done].
      unfold stream. by rewrite Hd', Hr, app_assoc.
  - apply wp_ret. cbv beta iota.
    change (wp (after_header c (c_fd cl) (c_ib cl) false) Q w).
    eapply (wp_after_header _ _ (c_ib cl) false stream);
      [done|done| |done|by split|exact Hge|reflexivity|done|done|done].
    rewrite Hc. f_equal. by destruct cl.
Qed.

(** *** Sending *)

Lemma not_connected_ob L w c cl :
  wf L w -> w_clients w !! c = Some cl -> c_state cl <> CLIENT_CONNECTED -> buf_ok (c_ob cl).
Proof.
  intros Hw Hc Hst. pose proof (wf_client _ _ Hw c cl Hc) as Hok. unfold client_ok in Hok.
  destruct (c_state cl); tauto.
Qed.

Lemma wf_set_ob L w c cl ob ev :
  wf L w -> w_clients w !! c = Some cl -> c_state cl <> CLIENT_CONNECTED -> buf_ok ob ->
  wf L (put_client c (set_c_events ev (set_c_ob ob cl)) w).
Proof.
  intros Hw Hc Hst Hob. eapply wf_put_client; [done|done| |done|].
  - pose proof (wf_client _ _ Hw c cl Hc) as Hok. unfold client_ok in *. simpl.
    destruct (c_state cl); tauto.
  - intros rm. by apply pair_ok_state.
Qed.

(** The transition of a client whose "connected" answer has been sent. *)
Definition opened (cl : mux_client) : mux_client :=
  set_c_events (Z.lor (c_devents cl) POLLIN)
    (set_c_ob (iobuf_drop (c_ob cl)) (set_c_state CLIENT_CONNECTED cl)).

Lemma wf_opened L w c cl :
  wf L w -> w_clients w !! c = Some cl -> c_state cl = CLIENT_CONNECTING2 ->
  wf L (put_client c (opened cl) w).
Proof.
  intros Hw Hc Hst. eapply wf_put_client; [done|done| |done|].
  - pose proof (wf_client _ _ Hw c cl Hc) as Hok. unfold client_ok in *. simpl.
    rewrite Hst in Hok. tauto.
  - intros rm Hp _. apply Hp. rewrite Hst. set_solver.
Qed.

(** What is left of a client after its socket took the first [n] bytes. *)
Inductive client_sent (cl : mux_client) (n : Z) : mux_client -> Prop :=
| sent_some ob :
    n < size (c_ob cl) -> buf_ok ob -> data ob = drop (Z.to_nat n) (data (c_ob cl)) ->
    client_sent cl n (set_c_ob ob cl)
| sent_all cl' ob :
    n = size (c_ob cl) -> data ob = [] ->
    cl' = set_c_events (clear_bit (c_events cl) POLLOUT) (set_c_ob ob cl) ->
    c_state cl <> CLIENT_CONNECTING2 -> client_sent cl n cl'
| sent_open cl' ob :
    n = size (c_ob cl) -> c_state cl = CLIENT_CONNECTING2 ->
    cl' = opened (set_c_events (clear_bit (c_events cl) POLLOUT) (set_c_ob ob cl)) ->
    client_sent cl n cl'.

Lemma set_c_events_same cl : set_c_events (c_events cl) cl = cl.
Proof. by destruct cl. Qed.

Lemma wp_process_send c cl w Q :
  wf [] w -> w_clients w !! c = Some cl -> c_state cl <> CLIENT_CONNECTED ->
  (size (c_ob cl) = 0 ->
     wf [] (put_client c (set_c_events (clear_bit (c_events cl) POLLOUT) cl) w) ->
     Q tt (put_client c (set_c_events (clear_bit (c_events cl) POLLOUT) cl) w)) ->
  (forall w', 0 < size (c_ob cl) -> sys_send (c_fd cl) <= 0 -> wf [] w' ->
     w' = client_closed c cl w -> Q tt w') ->
  (forall w' cl' n, 0 < n <= size (c_ob cl) /\ n = Z.min (sys_send (c_fd cl)) (size (c_ob cl)) ->
     client_sent cl n cl' -> wf [] w' ->
     w' = put_client c cl'
            (set_w_trace (EvSend (c_fd cl) (take (Z.to_nat n) (data (c_ob cl))) :: w_trace w) w) ->
     Q tt w') ->
  wp (process_send c) Q w.
Proof.
  intros Hw Hc Hst HQ0 HQ1 HQ2. pose proof (not_connected_ob _ _ _ _ Hw Hc Hst) as Hob.
  pose proof (data_length _ Hob) as Hdl. pose proof (ok_size _ Hob). pose proof (ok_cap _ Hob).
  unfold process_send. wp_go. destruct (Z.eqb_spec (size (c_ob cl)) 0) as [E0|E0].
  { wp_go. apply HQ0; [done|]. rewrite <- (put_client_twice c _ cl).
    rewrite (put_client_id c cl w) by done.
    pose proof (wf_set_ob [] w c cl (c_ob cl) (clear_bit (c_events cl) POLLOUT) Hw Hc Hst Hob) as H'.
    by destruct cl. }
  wp_go. eapply wp_lift; [apply iobuf_read_data; [done|lia..]|]. wp_go.
  rewrite drop_0, take_ge by lia.
  apply wp_send.
  - intros n Hn ->. rewrite (proj2 (Z.leb_le _ _)) by done.
    eapply client_close_wf; [done..|apply not_elem_of_nil|intros _; apply not_elem_of_nil|].
    intros Hw'. apply HQ1; [lia|done|done|done].
  - intros n Hn. rewrite (proj2 (Z.leb_gt _ _)) by lia. rewrite Hdl in Hn.
    destruct (iobuf_consume_ok (c_ob cl) n Hob) as (ob & Hcons & Hok & Hc' & Hs' & Hd'); [lia|].
    wp_go. unfold BUF_MAX in *. rewrite u32_small by lia.
    set (w1 := set_w_trace _ w). assert (wf [] w1) as Hw1 by by apply wf_log.
    assert (w_clients w1 !! c = Some cl) as Hc1 by done.
    destruct (Z.eqb_spec n (size (c_ob cl))) as [En|En].
    + wp_go. rewrite put_client_twice. cbn [c_events set_c_ob].
      set (cl1 := set_c_events _ _). set (w2 := put_client c cl1 w1).
      assert (wf [] w2) as Hw2 by by apply wf_set_ob.
      assert (data ob = []) as Hnil by (rewrite Hd', drop_ge by lia; done).
      apply wp_when; intros E; [apply bool_decide_eq_true_1 in E|apply bool_decide_eq_false_1 in E].
      * pose proof (wf_client _ _ Hw c cl Hc) as Hok1. unfold client_ok in Hok1. rewrite E in Hok1.
        destruct Hok1 as (_ & _ & Hr). destruct (c_remote cl) as [r|] eqn:Er; [|done].
        destruct (wf_c2r _ _ Hw c cl r Hc Er) as (rm & Hrm & _). wp_go.
        eapply wp_nonnull; [done|]. wp_go.
        eapply (HQ2 _ (opened cl1) n); [lia|by eapply sent_open| |by subst w2; rewrite put_client_twice].
        apply wf_opened; [done|apply put_client_lookup|done].
      * eapply (HQ2 _ cl1 n); [lia|by eapply sent_all|done|done].
    + wp_go. eapply (HQ2 _ (set_c_ob ob cl) n); [lia|apply sent_some; [lia|done|done]| |done].
      rewrite <- (set_c_events_same (set_c_ob ob cl)). by apply wf_set_ob.
  - intros E. rewrite E in Hdl. simpl in Hdl. lia.
Qed.

(** *** Forwarding between a client and its remote *)

Lemma wf_set_r_ob L w r rm ob ev :
  wf L w -> w_remotes w !! r = Some rm -> buf_ok ob ->
  wf L (put_remote r (set_r_events ev (set_r_ob ob rm)) w).
Proof.
  intros Hw Hr Hob. eapply wf_put_remote; [done|done| |done..].
  destruct (wf_remote _ _ Hw r rm Hr). by split.
Qed.

Lemma wf_set_r_ib L w r rm ib :
  wf L w -> w_remotes w !! r = Some rm -> buf_ok ib -> capacity ib = capacity (r_ib rm) ->
  wf L (put_remote r (set_r_ib ib rm) w).
Proof.
  intros Hw Hr Hib Hcap. eapply wf_put_remote; [done|done| |done..].
  destruct (wf_remote _ _ Hw r rm Hr). split; try done. simpl. by rewrite Hcap.
Qed.

Lemma wf_set_c_events L w c cl ev :
  wf L w -> w_clients w !! c = Some cl -> wf L (put_client c (set_c_events ev cl) w).
Proof.
  intros Hw Hc. eapply wf_put_client; [done|done| |done|].
  - exact (wf_client _ _ Hw c cl Hc).
  - intros rm. by apply pair_ok_state.
Qed.

(** The remote of a client that must have one. *)
Lemma client_remote L w c cl :
  wf L w -> w_clients w !! c = Some cl ->
  c_state cl = CLIENT_CONNECTING2 \/ c_state cl = CLIENT_CONNECTED ->
  exists r rm, c_remote cl = Some r /\ w_remotes w !! r = Some rm /\ r_client rm = Some c /\
    remote_ok rm.
Proof.
  intros Hw Hc Hst. pose proof (wf_client _ _ Hw c cl Hc) as Hok. unfold client_ok in Hok.
  assert (c_remote cl <> None) as Hn by (destruct Hst as [E|E]; rewrite E in Hok; tauto).
  destruct (c_remote cl) as [r|] eqn:Er; [|done].
  destruct (wf_c2r _ _ Hw c cl r Hc Er) as (rm & Hr & Hrc & _).
  exists r, rm. split_and!; try done. by eapply wf_remote.
Qed.

(** Bytes from the client's socket go to the output buffer of its remote; when
    that is full, nothing is read: the client waits. *)
Lemma wp_forward_to_remote c cl r rm w Q :
  wf [] w -> w_clients w !! c = Some cl -> c_state cl = CLIENT_CONNECTED ->
  c_remote cl = Some r -> w_remotes w !! r = Some rm ->
  (size (r_ob rm) = capacity (r_ob rm) -> Q tt w) ->
  (forall w', size (r_ob rm) < capacity (r_ob rm) ->
     (sys_recv (c_fd cl) = None \/ sys_recv (c_fd cl) = Some []) ->
     wf [] w' -> w' = client_closed c cl w -> Q tt w') ->
  (forall w' bs rest ob, sys_recv (c_fd cl) = Some (bs ++ rest) -> bs <> [] ->
     zlen bs <= capacity (r_ob rm) - size (r_ob rm) ->
     buf_ok ob -> data ob = data (r_ob rm) ++ bs -> wf [] w' ->
     w' = put_client c (set_c_events (clear_bit (c_events cl) POLLIN) cl)
            (put_remote r (with_output ob rm) w) -> Q tt w') ->
  wp (forward_to_remote c) Q w.
Proof.
  intros Hw Hc Hst Hr Hrm HQ0 HQ1 HQ2. pose proof (wf_remote _ _ Hw r rm Hrm) as Hrok.
  pose proof (rok_ob _ Hrok) as Hob. pose proof (ok_size _ Hob). pose proof (ok_cap _ Hob).
  unfold forward_to_remote. wp_go.
  destruct (Z.leb_spec (capacity (r_ob rm) - size (r_ob rm)) 0) as [Hle|Hlt].
  { wp_go. apply HQ0. lia. }
  unfold BUF_MAX in *. rewrite u32_small by lia. unfold client_read, recv. wp_go.
  rewrite bool_decide_eq_false_2 by (rewrite Hst; by intros H'). wp_go.
  assert ((sys_recv (c_fd cl) = None \/ sys_recv (c_fd cl) = Some []) ->
    wp (client_close c) Q w) as Hclose.
  { intros Hno.
    eapply client_close_wf; [done..|apply not_elem_of_nil|intros _; apply not_elem_of_nil|].
    intros Hw'. eapply HQ1; [lia|done|done|done]. }
  destruct (sys_recv (c_fd cl)) as [avail|] eqn:Er; csimpl; [|by apply Hclose; left].
  destruct (take _ avail) as [|x bs] eqn:Et.
  { apply Hclose. right. f_equal.
    destruct avail; [done|]. destruct (Z.to_nat _) eqn:En in Et; [lia|done]. }
  assert (zlen (x :: bs) <= capacity (r_ob rm) - size (r_ob rm)) as Hbs.
  { rewrite <- Et, length_take. lia. }
  destruct (iobuf_append_ok (r_ob rm) (x :: bs) Hob) as (ob & Hwr & Hs' & Hc' & Hok' & Hd'); [lia|].
  wp_go. rewrite Hs', u32_small by lia.
  set (ob' := set_size _ ob) in *. change (set_r_events _ _) with (with_output ob' rm).
  set (w1 := put_remote r _ w). assert (wf [] w1) as Hw1 by by apply wf_set_r_ob.
  assert (w_clients w1 !! c = Some cl) as Hc1 by done.
  eapply (HQ2 _ (x :: bs) _ ob'); [by rewrite <- Et, take_drop|done|done|done|done| |done].
  by apply wf_set_c_events.
Qed.

(** Bytes from the input buffer of the remote go to the client's socket. *)
Lemma wp_forward_to_client c cl r rm w Q :
  wf [] w -> w_clients w !! c = Some cl -> c_state cl = CLIENT_CONNECTED ->
  c_remote cl = Some r -> w_remotes w !! r = Some rm ->
  (size (r_ib rm) = 0 -> Q tt w) ->
  (forall w', 0 < size (r_ib rm) -> sys_send (c_fd cl) <= 0 -> wf [] w' ->
     w' = client_closed c cl w -> Q tt w') ->
  (forall w' n ib, 0 < n <= size (r_ib rm) -> buf_ok ib ->
     data ib = drop (Z.to_nat n) (data (r_ib rm)) -> wf [] w' ->
     w' = (if n =? size (r_ib rm)
           then put_client c (set_c_events (Z.lor (clear_bit (c_events cl) POLLOUT) POLLIN) cl)
           else id)
          (put_remote r (set_r_ib ib rm)
             (set_w_trace (EvSend (c_fd cl) (take (Z.to_nat n) (data (r_ib rm))) :: w_trace w) w)) ->
     Q tt w') ->
  wp (forward_to_client c) Q w.
Proof.
  intros Hw Hc Hst Hr Hrm HQ0 HQ1 HQ2. pose proof (wf_remote _ _ Hw r rm Hrm) as Hrok.
  pose proof (rok_ib _ Hrok) as Hib. pose proof (ok_size _ Hib). pose proof (ok_cap _ Hib).
  pose proof (data_length _ Hib) as Hdl. pose proof (rok_cap _ Hrok) as Hcap.
  unfold forward_to_client. wp_go. destruct (Z.ltb_spec 0 (size (r_ib rm))) as [Hlt|Hle].
  2: { wp_go. apply HQ0. lia. }
  wp_go. eapply wp_lift; [apply iobuf_read_data; [done|lia..]|]. wp_go.
  rewrite drop_0, take_ge by lia. unfold client_write. wp_go.
  rewrite bool_decide_eq_false_2 by (rewrite Hst; by intros H').
  apply wp_send.
  - intros n Hn ->. rewrite (proj2 (Z.leb_le _ _)) by done.
    eapply client_close_wf; [done..|apply not_elem_of_nil|intros _; apply not_elem_of_nil|].
    intros Hw'. by apply HQ1.
  - intros n Hn. rewrite (proj2 (Z.leb_gt _ _)) by lia. rewrite Hdl in Hn.
    destruct (iobuf_consume_ok (r_ib rm) n Hib) as (ib & Hcons & Hok & Hc' & Hs' & Hd'); [lia|].
    wp_go. unfold BUF_MAX in *. rewrite u32_small by lia.
    set (w1 := set_w_trace _ w). assert (wf [] w1) as Hw1 by by apply wf_log.
    set (w2 := put_remote r _ w1).
    assert (wf [] w2) as Hw2.
    { by apply wf_set_r_ib. }
    assert (w_clients w2 !! c = Some cl) as Hc2 by done. wp_go.
    apply wp_when; intros E; [wp_go|]; (eapply (HQ2 _ n ib); [lia|done|done| |by rewrite E]).
    + by apply wf_set_c_events.
    + done.
  - intros E. rewrite E in Hdl. simpl in Hdl. lia.
Qed.

(** *** Poll events *)

Lemma wp_find_client fd w :
  wf [] w ->
  wp (find_client fd) (fun o w' => w' = w /\
     match o with
     | Some c => exists cl, w_clients w !! c = Some cl /\ c_fd cl = fd
     | None => forall c cl, w_clients w !! c = Some cl -> c_fd cl <> fd
     end) w.
Proof.
  intros Hw. unfold find_client. wp_go.
  apply wp_lock; [rewrite (wf_locks _ _ Hw); apply not_elem_of_nil|].
  set (w1 := set_w_locks _ w).
  assert (wf [client_list_mutex] w1) as Hw1 by (apply wf_lock; [apply not_elem_of_nil|done]).
  assert (set_w_locks (filter (fun m => m <> client_list_mutex) (w_locks w1)) w1 = w) as Hre.
  { subst w1. cbn [w_locks set_w_locks]. by erewrite relock by (done || apply not_elem_of_nil). }
  wp_go.
  apply (wp_foreach_break _ _ (fun i w' => w' = w1 /\ forall j p cl, (j < i)%nat ->
    client_slots w1 !! j = Some (Some p) -> w_clients w1 !! p = Some cl -> c_fd cl <> fd)
    _ (length (client_slots w1))); [done| | |].
  - split; [done|]. intros. lia.
  - intros i ? [-> Hseen] _ Hi. destruct (client_slots w1 !! i) as [[p|]|] eqn:E.
    2,3: split; [done|]; intros j p cl Hj Hp; destruct (decide (j = i)) as [->|];
      [congruence|apply (Hseen j); [lia|done]].
    destruct (wf_client_slot _ _ p Hw1) as [cl Hp]; [by eapply list_elem_of_lookup_2|]. wp_go.
    destruct (Z.eqb_spec (c_fd cl) fd); wp_go.
    + rewrite Hre. split; [done|]. by exists cl.
    + split; [|done]. split; [done|]. intros j q y Hj Hq Hy.
      destruct (decide (j = i)) as [->|]; [congruence|]. by apply (Hseen j q y); [lia|..].
  - intros ? [-> Hseen]. wp_go. rewrite Hre. split; [done|]. intros c cl Hc.
    assert (c ∈ elems (client_list w1)) as Hin by (apply (wf_clist _ _ Hw1); by eexists).
    apply elem_of_omap_id, list_elem_of_lookup in Hin as [j Hj].
    eapply Hseen; [|exact Hj|exact Hc]. by eapply lookup_lt_Some.
Qed.

(** The events the poll loop may deliver for a client descriptor: input only
    where it is asked for, and a request the daemon is prepared for. *)
Definition client_event_ok (fd events : Z) (w : world) : Prop :=
  forall c cl, w_clients w !! c = Some cl -> c_fd cl = fd -> has events POLLIN = true ->
    c_state cl <> CLIENT_CONNECTING2 /\
    stream_ok cl (data (c_ib cl) ++ default [] (sys_recv fd)).

Lemma reading_state L w c cl :
  wf L w -> w_clients w !! c = Some cl -> c_state cl <> CLIENT_CONNECTING2 ->
  c_state cl <> CLIENT_CONNECTED -> reading cl.
Proof.
  intros Hw Hc H2 H3. pose proof (wf_client _ _ Hw c cl Hc) as Hok. unfold client_ok in Hok.
  unfold reading. destruct (c_state cl); tauto.
Qed.

(** The event may be handled for the client. *)
Definition client_ready (events : Z) (cl : mux_client) : Prop :=
  has events POLLIN = true -> c_state cl <> CLIENT_CONNECTING2 /\
    stream_ok cl (data (c_ib cl) ++ default [] (sys_recv (c_fd cl))).

Lemma process_client_wf events c cl w :
  dns_up -> wf [] w -> w_clients w !! c = Some cl -> client_ready events cl ->
  wp (process_client events c) (fun _ w' => wf [] w') w.
Proof.
  intros Hdns Hw Hc Hev. unfold process_client. wp_go. case_bool_decide as Hst.
  - destruct (client_remote _ _ _ _ Hw Hc) as (r & rm & Hr & Hrm & _); [by right|].
    destruct (has events POLLIN); [by eapply wp_forward_to_remote|].
    destruct (has events POLLOUT); [by eapply wp_forward_to_client|by wp_go].
  - destruct (has events POLLIN) eqn:Ein.
    + destruct (Hev Ein) as [H2 Hs].
      by eapply wp_process_recv; [done|done|exact Hc|by eapply reading_state| |].
    + destruct (has events POLLOUT); [by eapply wp_process_send|by wp_go].
Qed.

Lemma client_process_wf fd events w :
  dns_up -> wf [] w -> client_event_ok fd events w ->
  wp (client_process fd events) (fun _ w' => wf [] w') w.
Proof.
  intros Hdns Hw Hev. unfold client_process. wp_go.
  wp_use (by apply wp_find_client). intros [c|] ? [-> Hfd]; [|by wp_go].
  destruct Hfd as (cl & Hc & <-). eapply process_client_wf; [done|done|exact Hc|].
  intros Hin. by apply (Hev c cl).
Qed.

(** Accepting a client. *)
Lemma wp_client_accept fd w Q :
  wf [] w -> (sys_accept fd < 0 -> Q (sys_accept fd) w) ->
  (forall w' c, wf [] w' -> 0 <= sys_accept fd -> w_clients w !! c = None ->
     w_clients w' = <[c := client_fresh (sys_accept fd) (client_number w)]> (w_clients w) ->
     w_remotes w' = w_remotes w -> client_number w' = u32 (client_number w + 1) ->
     Q (sys_accept fd) w') ->
  wp (client_accept fd) Q w.
Proof.
  intros Hw HQ0 HQ1. unfold client_accept, alloc_client.
  destruct (Z.ltb_spec (sys_accept fd) 0); [wp_go; by apply HQ0|]. wp_go.
  apply wp_lock; [simpl; rewrite (wf_locks _ _ Hw); apply not_elem_of_nil|]. wp_go.
  simpl c_fd.
  set (cl := client_fresh (sys_accept fd) (client_number w)).
  assert (client_ok cl) as Hcl.
  { split; [by apply buf_ok_new|]. split; [by apply buf_ok_new|done]. }
  pose proof (wf_add_client _ _ cl Hw Hcl eq_refl) as Hw'.
  apply (HQ1 _ (w_next w)); simpl; rewrite ?insert_insert_eq; try done.
  - pose proof (wf_locks _ _ Hw) as HL.
    destruct Hw'. split; simpl; rewrite ?insert_insert_eq; try done. by rewrite HL.
  - by apply (wf_fresh _ _ Hw).
Qed.
End command_facts.
