(* ===== verification/RemoteProcessFacts.v ===== *)
(** What the functions of RemoteProcess.v do: every message of a remote and
    every poll event on a remote descriptor keeps the invariant and runs without
    a fault, provided the message is one the daemon is prepared for. *)

From S2P Require Import Prelude Exec Mem Utils Proto CStr RemoteId Plist World WorldFacts.
From S2P Require Import Socket Client Remote Teardown Command RemoteProcess Invariant.
From S2P Require Import ClientFacts TeardownFacts RemoteFacts CommandFacts.

Section remote_process_facts.
Context `{PL : PlistLib} `{EN : Env} {EL : EnvLaws EN} {PLaws : PlistLaws PL}.

(** Messages the daemon is prepared for: the binary forms are long enough, and a
    device is not announced in binary. *)
Definition answer_ok (st : remote_state) (msg : list byte) : Prop :=
  let hdr := decode_header msg in
  (h_message hdr = MESSAGE_RESULT -> 20 <= zlen msg) /\
  (st = REMOTE_LISTEN -> h_message hdr <> MESSAGE_DEVICE_ADD) /\
  (h_message hdr = MESSAGE_DEVICE_REMOVE -> 20 <= zlen msg).

Definition remote_good (r : ptr) (w : world) : Prop := wf [] w /\ is_Some (w_remotes w !! r).

Lemma remote_good_sends r w w' : sends w w' -> remote_good r w -> remote_good r w'.
Proof.
  intros Hs [Hw Hr]. split; [by eapply wf_sends|].
  by destruct (sends_rest _ _ Hs) as (-> & _).
Qed.

(** A remote that is neither connected nor condemned has no client that believes
    to be connected. *)
Lemma pair_ok_early cl rm rm' :
  r_state rm <> REMOTE_CONNECTED -> r_state rm <> REMOTE_DEAD -> pair_ok cl rm -> pair_ok cl rm'.
Proof. intros H1 H2 Hp Hin. specialize (Hp Hin). set_solver. Qed.

Lemma early_client_ob L w r rm c :
  wf L w -> w_remotes w !! r = Some rm -> r_client rm = Some c ->
  r_state rm <> REMOTE_CONNECTED -> r_state rm <> REMOTE_DEAD ->
  exists cl, w_clients w !! c = Some cl /\ c_remote cl = Some r /\ buf_ok (c_ob cl) /\
    c_state cl <> CLIENT_CONNECTED /\ c_state cl <> CLIENT_CONNECTING2.
Proof.
  intros Hw Hr Hc H1 H2. destruct (wf_r2c _ _ Hw r rm c Hr Hc) as (cl & Hcl & Hcr).
  destruct (wf_c2r _ _ Hw c cl r Hcl Hcr) as (x & Hx & _ & Hp).
  assert (x = rm) as -> by congruence.
  assert (c_state cl <> CLIENT_CONNECTED /\ c_state cl <> CLIENT_CONNECTING2) as [? ?].
  { split; intros E; unfold pair_ok in Hp; rewrite E in Hp; set_solver. }
  exists cl. split_and!; try done. by eapply not_connected_ob.
Qed.

Lemma is_request_none : is_request_command (-1) = false.
Proof. done. Qed.
Lemma is_request_zero : is_request_command 0 = false.
Proof. done. Qed.

(** Forgetting the command is always possible. *)
Lemma wf_forget L w r rm cmd :
  wf L w -> w_remotes w !! r = Some rm -> is_request_command cmd = false ->
  wf L (put_remote r (set_r_last_command cmd rm) w).
Proof.
  intros Hw Hr Hcmd. eapply wf_put_remote; [done|done| |done..].
  destruct (wf_remote _ _ Hw r rm Hr). split; try done. simpl. congruence.
Qed.

Lemma wf_listening L w r rm :
  wf L w -> w_remotes w !! r = Some rm -> r_state rm = REMOTE_COMMAND ->
  wf L (put_remote r (set_r_state REMOTE_LISTEN rm) w).
Proof.
  intros Hw Hr Hst. eapply wf_put_remote; [done|done| |done|done|].
  - destruct (wf_remote _ _ Hw r rm Hr). split; try done. simpl. intros H; set_solver.
  - intros cl. apply pair_ok_early; rewrite Hst; done.
Qed.

(** *** Messages *)

(** The message at the front of the input buffer is complete. *)
Definition complete (rm : remote_mux) : Prop :=
  16 <= h_length (decode_header (data (r_ib rm))) <= size (r_ib rm).

(** Reading the result of a message long enough for it. *)
Lemma message_result_done hdr ib plist_msg (w : world) :
  buf_ok ib -> (h_message hdr = MESSAGE_RESULT -> 20 <= size ib) ->
  exists n, message_get_result hdr ib plist_msg w = Done n w.
Proof.
  intros Hib Hlen. unfold message_get_result.
  destruct (Z.eqb_spec (h_message hdr) MESSAGE_RESULT) as [E|].
  - specialize (Hlen E). unfold mbind, prog_bind, mret, prog_ret.
    rewrite iobuf_read_data by (done || unfold HEADER_SIZE; lia). simpl. by eexists.
  - destruct plist_msg as [msg|]; [|by eexists]. cbv zeta.
    case_bool_decide; [|by eexists].
    destruct (plist_dict_get_item msg "Number"); by eexists.
Qed.

Lemma wp_forward_answer r rm c n w Q :
  wf [] w -> w_remotes w !! r = Some rm -> r_client rm = Some c ->
  r_state rm = REMOTE_COMMAND -> 0 <= n -> 16 <= size (r_ib rm) -> 16 + n <= size (r_ib rm) ->
  (forall w', sends w w' -> Q tt w') -> wp (forward_answer r (r_ib rm) n) Q w.
Proof.
  intros Hw Hr Hc Hst Hn H16 Hlen HQ. pose proof (wf_remote _ _ Hw r rm Hr) as Hok.
  pose proof (rok_ib _ Hok) as Hib. pose proof (ok_size _ Hib). pose proof (rok_cap _ Hok).
  destruct (early_client_ob _ _ r rm c Hw Hr Hc) as (cl & Hcl & _ & Hob & _);
    [rewrite Hst; done..|].
  unfold forward_answer. wp_go.
  eapply wp_lift; [apply iobuf_read_data; [done|unfold HEADER_SIZE; lia..]|]. wp_go.
  eapply wp_lift; [apply iobuf_read_data; [done|unfold HEADER_SIZE; lia..]|]. wp_go.
  wp_use (eapply client_send_packet_data_sends; [exact Hcl|done| |]).
  { unfold small. rewrite length_take. unfold HEADER_SIZE. lia. }
  { unfold small. rewrite length_take. lia. }
  intros m w' Hs. wp_go. by apply HQ.
Qed.

(** *** Announcements *)

Lemma device_event_done id hdr ib plist_msg w :
  buf_ok ib ->
  (h_message hdr = MESSAGE_DEVICE_ADD -> 20 <= size ib) ->
  (h_message hdr = MESSAGE_DEVICE_REMOVE -> 20 <= size ib) ->
  exists ev, device_event id hdr ib plist_msg w = Done ev w /\
    (ev.1 = MESSAGE_DEVICE_ADD -> plist_msg = None -> h_message hdr = MESSAGE_DEVICE_ADD).
Proof.
  intros Hib Ha Hr. unfold device_event.
  destruct (Z.eqb_spec (h_message hdr) MESSAGE_DEVICE_ADD) as [E|_].
  { specialize (Ha E). unfold mbind, prog_bind, mret, prog_ret.
    rewrite iobuf_read_data by (done || unfold HEADER_SIZE; lia). by eexists. }
  destruct (Z.eqb_spec (h_message hdr) MESSAGE_DEVICE_REMOVE) as [E|_].
  { specialize (Hr E). unfold mbind, prog_bind, mret, prog_ret.
    rewrite iobuf_read_data by (done || unfold HEADER_SIZE; lia). by eexists. }
  destruct plist_msg as [msg|]; eexists; split; try done.
Qed.

Lemma wf_devices_update w f :
  wf [remote_list_mutex] w -> (forall d, is_dict d -> is_dict (f d)) ->
  wf [remote_list_mutex] (set_remote_device_list (f <$> remote_device_list w) w).
Proof.
  intros Hw Hf. destruct (wf_devices _ _ Hw) as (d & Hd & Hdict). rewrite Hd.
  apply wf_device_list; [done|by apply Hf].
Qed.

(** Updating the list and telling the clients, with the mutex taken around. *)
Lemma wp_announce_change f (tell : M unit) r w Q :
  (forall d, is_dict d -> is_dict (f d)) ->
  (forall w', wf [remote_list_mutex] w' -> wp tell (fun _ w'' => sends w' w'') w') ->
  remote_good r w -> (forall w', remote_good r w' -> Q tt w') ->
  wp (_ ← lock remote_list_mutex; _ ← update_device_list f; _ ← tell;
      unlock remote_list_mutex) Q w.
Proof.
  intros Hf Htell [Hw Hr] HQ. pose proof (wf_locks _ _ Hw) as HL.
  wp_go. apply wp_lock; [rewrite HL; apply not_elem_of_nil|].
  unfold update_device_list. wp_go. set (w1 := set_w_locks _ w).
  assert (wf [remote_list_mutex] w1) as Hw1 by (apply wf_lock; [apply not_elem_of_nil|done]).
  pose proof (wf_devices_update _ _ Hw1 Hf) as Hw2.
  wp_use (by apply Htell). intros [] w3 Hs. wp_go.
  destruct (sends_rest _ _ Hs) as (Er & _). apply HQ. split.
  - apply wf_unlock; [apply not_elem_of_nil|]. by eapply wf_sends.
  - simpl. by rewrite Er.
Qed.

Lemma wp_handle_listen r rm hdr plist_msg w Q :
  wf [] w -> w_remotes w !! r = Some rm ->
  h_message hdr <> MESSAGE_DEVICE_ADD ->
  (h_message hdr = MESSAGE_DEVICE_REMOVE -> 20 <= size (r_ib rm)) ->
  (forall w', remote_good r w' -> Q tt w') ->
  wp (handle_listen_message r hdr (r_ib rm) plist_msg) Q w.
Proof.
  intros Hw Hr Hadd Hrem HQ. pose proof (rok_ib _ (wf_remote _ _ Hw r rm Hr)) as Hib.
  assert (remote_good r w) as Hg by (split; [done|by eexists]).
  unfold handle_listen_message. wp_go.
  destruct (device_event_done (r_id rm) hdr (r_ib rm) plist_msg w Hib) as ([ty devid] & Hev & Hbin);
    [done|done|].
  apply wp_run. do 2 eexists. split; [exact Hev|].
  simpl in Hbin. cbv beta iota zeta.
  destruct (Z.eqb_spec ty MESSAGE_DEVICE_ADD) as [->|_].
  - destruct plist_msg as [msg|]; [|by destruct Hadd; apply Hbin].
    apply wp_bind. apply wp_ret. cbv beta.
    apply (wp_announce_change _ (client_device_add _) r); [|  |done|done].
    + intros d. apply set_item_type.
    + intros w' Hw'. eapply client_device_add_sends; [done|set_solver].
  - destruct (ty =? MESSAGE_DEVICE_REMOVE); [|wp_go; by apply HQ].
    apply (wp_announce_change _ (client_device_remove devid) r); [| |done|done].
    + intros d. apply remove_item_type.
    + intros w' Hw'. eapply client_device_remove_sends; [done|set_solver].
Qed.

(** *** The answer to a connect request *)

(** The client as [client_notify_connect] leaves it: unchanged but for output
    when it was not waiting or could not be told, connecting, or idle again. *)
Definition notified (result : Z) (cl cl' : mux_client) : Prop :=
  queued cl cl' \/
  (c_state cl = CLIENT_CONNECTING1 /\ result = RESULT_OK /\
     exists x, queued cl x /\ cl' = set_c_ib (iobuf_drop (c_ib x))
       (set_c_events POLLOUT (set_c_state CLIENT_CONNECTING2 x))) \/
  (c_state cl = CLIENT_CONNECTING1 /\ result <> RESULT_OK /\
     exists x, queued cl x /\ cl' = set_c_state CLIENT_COMMAND x).

Lemma queues_put c cl pkt n w w' :
  w_clients w !! c = Some cl -> buf_ok (c_ob cl) -> queues c cl pkt n w w' ->
  exists x, queued cl x /\ w' = put_client c x w.
Proof.
  intros Hc Hob [(_ & -> & _)|(_ & ob & Hok & _ & _ & ->)].
  - exists cl. split; [apply queued_refl|by rewrite put_client_id].
  - eexists. split; [|done]. by right.
Qed.

Lemma wp_send_result_put c tag result cl w :
  w_clients w !! c = Some cl -> buf_ok (c_ob cl) ->
  wp (send_result c tag result) (fun _ w' => exists x, queued cl x /\ w' = put_client c x w) w.
Proof.
  intros Hc Hob. unfold send_result. wp_go. case_match.
  - wp_use (by eapply wp_send_plist_pkt). intros n w' Hq.
    destruct (plist_to_xml _); [by eapply queues_put|]. destruct Hq as [_ ->].
    exists cl. split; [apply queued_refl|by rewrite put_client_id].
  - wp_use (eapply wp_send_pkt; [done|done|apply small_le; lia]). intros n w' Hq.
    by eapply queues_put.
Qed.

Lemma wp_notify_connect c cl result w Q :
  w_clients w !! c = Some cl -> buf_ok (c_ob cl) ->
  (forall n cl' w', notified result cl cl' -> w' = put_client c cl' w -> Q n w') ->
  wp (client_notify_connect c result) Q w.
Proof.
  intros Hc Hob HQ. unfold client_notify_connect. wp_go.
  assert (forall n, Q n w) as HQ0.
  { intros n. eapply HQ; [left; apply queued_refl|by rewrite put_client_id]. }
  case_bool_decide; [wp_go; apply HQ0|]. case_bool_decide as Hst; [wp_go; apply HQ0|].
  assert (c_state cl = CLIENT_CONNECTING1) as Hst' by (by destruct (decide
    (c_state cl = CLIENT_CONNECTING1))).
  wp_go. wp_use (by apply wp_send_result_put). intros n w' (x & Hx & ->).
  destruct (n <? 0); [wp_go; eapply HQ; [by left|done]|].
  destruct (Z.eqb_spec result RESULT_OK) as [->|Hne]; wp_go;
    (eapply HQ; [|apply put_client_twice]).
  - right; left. eauto.
  - right; right. eauto.
Qed.

(** Both ends change together: the client is told, the remote opens. *)
Lemma wf_put_pair L w c cl cl' r rm rm' :
  wf L w -> w_clients w !! c = Some cl -> c_remote cl = Some r ->
  w_remotes w !! r = Some rm -> r_client rm = Some c ->
  client_ok cl' -> c_remote cl' = Some r -> remote_ok rm' -> r_client rm' = Some c ->
  same_place rm rm' -> pair_ok cl' rm' -> wf L (put_remote r rm' (put_client c cl' w)).
Proof.
  intros [] Hc Hcr Hr Hrc Hcok Hcr' Hrok Hrc' Hpl Hp. split; simpl; try done; [..|by eapply places_update].
  - by eapply list_ok_update.
  - by eapply list_ok_update.
  - intros p Hp'. destruct (wf_fresh p Hp') as [H1 H2].
    rewrite !lookup_insert_ne; [done|intros <-; congruence..].
  - intros p x [[<- <-]|[_ Hx]]%lookup_insert_Some; eauto.
  - intros p x [[<- <-]|[_ Hx]]%lookup_insert_Some; eauto.
  - intros p x q [[<- <-]|[Hne Hx]]%lookup_insert_Some Hq.
    + assert (q = r) as -> by congruence. exists rm'. by rewrite lookup_insert_eq.
    + destruct (wf_c2r p x q Hx Hq) as (y & Hy & Hyc & ?). exists y.
      rewrite lookup_insert_ne; [done|]. intros <-. congruence.
  - intros q y p [[<- <-]|[Hne Hy]]%lookup_insert_Some Hp'.
    + assert (p = c) as -> by congruence. exists cl'. by rewrite lookup_insert_eq.
    + destruct (wf_r2c q y p Hy Hp') as (x & Hx & Hxr). exists x.
      rewrite lookup_insert_ne; [done|]. intros <-. congruence.
Qed.

(** The remote after a positive answer. *)
Definition answered (rm : remote_mux) : remote_mux :=
  set_r_events (Z.lor POLLIN POLLOUT) (set_r_state REMOTE_CONNECTED rm).

Lemma notified_wf result w c cl cl' r rm rm' :
  wf [] w -> w_clients w !! c = Some cl -> c_remote cl = Some r ->
  w_remotes w !! r = Some rm -> r_client rm = Some c -> r_state rm = REMOTE_CONNECTING1 ->
  notified result cl cl' -> rm' = (if result =? 0 then answered rm else rm) ->
  wf [] (put_remote r rm' (put_client c cl' w)).
Proof.
  intros Hw Hc Hcr Hr Hrc Hst Hn ->.
  pose proof (wf_client _ _ Hw c cl Hc) as Hcok. pose proof (wf_remote _ _ Hw r rm Hr) as Hrok.
  destruct (wf_c2r _ _ Hw c cl r Hc Hcr) as (y & Hy & _ & Hp). assert (y = rm) as -> by congruence.
  assert (remote_ok (answered rm)) as Hans.
  { destruct Hrok. split; try done. simpl. intros _. by rewrite Hrc. }
  assert (forall x, pair_ok x (answered rm)) as Hpa by (intros x _; simpl; set_solver).
  assert (c_state cl <> CLIENT_CONNECTING2 /\ c_state cl <> CLIENT_CONNECTED) as [Hn2 Hn3].
  { split; intros E; unfold pair_ok in Hp; rewrite E, Hst in Hp; set_solver. }
  eapply wf_put_pair; try done.
  - destruct Hn as [Hq|[(Hs & _ & x & Hq & ->)|(Hs & _ & x & Hq & ->)]];
      [by eapply queued_ok|..]; pose proof (queued_ok _ _ Hq Hcok) as Hxok;
      destruct (queued_fields _ _ Hq) as (Exs & _); unfold client_ok in *; rewrite Exs, Hs in Hxok;
      simpl; tauto.
  - destruct Hn as [Hq|[(_ & _ & x & Hq & ->)|(_ & _ & x & Hq & ->)]]; simpl;
      by destruct (queued_fields _ _ Hq) as (_ & -> & _).
  - by destruct (result =? 0).
  - by destruct (result =? 0).
  - by destruct (result =? 0).
  - destruct (Z.eqb_spec result 0); [apply Hpa|].
    destruct Hn as [Hq|[(_ & ? & _)|(_ & _ & x & Hq & ->)]]; [|done|intros H; simpl in H; set_solver].
    destruct (queued_fields _ _ Hq) as (Ecs & _). by eapply pair_ok_state.
Qed.

(** *** One message *)

Lemma wp_answer_connecting r rm hdr msg w Q :
  wf [] w -> w_remotes w !! r = Some rm -> r_state rm = REMOTE_CONNECTING1 ->
  (h_message hdr = MESSAGE_RESULT -> 20 <= size (r_ib rm)) ->
  (forall w', remote_good r w' -> Q tt w') ->
  wp (result ← message_get_result hdr (r_ib rm) msg;
      client ← nonnull (r_client rm);
      _ ← client_notify_connect client result;
      when (result =? 0)
        (write_remote r (fun r =>
           set_r_events (Z.lor POLLIN POLLOUT) (set_r_state REMOTE_CONNECTED r)))) Q w.
Proof.
  intros Hw Hr Hst Hlen HQ. pose proof (wf_remote _ _ Hw r rm Hr) as Hok.
  destruct (message_result_done hdr (r_ib rm) msg w (rok_ib _ Hok) Hlen) as [n Hn].
  wp_go. apply wp_run. do 2 eexists. split; [exact Hn|]. wp_go.
  destruct (r_client rm) as [c|] eqn:Ec.
  2: { exfalso. apply (rok_connected _ Hok); [rewrite Hst; set_solver|done]. }
  destruct (early_client_ob _ _ r rm c Hw Hr Ec) as (cl & Hc & Hcr & Hob & _);
    [rewrite Hst; done..|].
  eapply wp_nonnull; [done|]. wp_go. eapply wp_notify_connect; [done..|].
  intros m cl' w' Hcl' ->.
  pose proof (notified_wf n w c cl cl' r rm _ Hw Hc Hcr Hr Ec Hst Hcl' eq_refl) as Hw'.
  apply wp_when; intros E; rewrite E in Hw'; [wp_go|]; apply HQ; split.
  - exact Hw'.
  - eexists. apply put_remote_lookup.
  - by rewrite put_remote_id in Hw'.
  - by eexists.
Qed.

Lemma wp_answer_command r rm hdr msg n w Q :
  wf [] w -> w_remotes w !! r = Some rm -> r_state rm = REMOTE_COMMAND ->
  (h_message hdr = MESSAGE_RESULT -> 20 <= size (r_ib rm)) ->
  0 <= n -> 16 + n <= size (r_ib rm) ->
  (forall w', remote_good r w' -> Q tt w') ->
  wp (_ ← (if r_last_command rm =? REMOTE_CMD_LISTEN then
             result ← message_get_result hdr (r_ib rm) msg;
             when (result =? 0) (write_remote r (set_r_state REMOTE_LISTEN))
           else if is_request_command (r_last_command rm)
           then forward_answer r (r_ib rm) n
           else mret tt);
      write_remote r (set_r_last_command (-1))) Q w.
Proof.
  intros Hw Hr Hst Hlen Hn H16 HQ. pose proof (wf_remote _ _ Hw r rm Hr) as Hok.
  assert (forall w' rm', wf [] w' -> w_remotes w' !! r = Some rm' ->
    wp (write_remote r (set_r_last_command (-1))) Q w') as Hforget.
  { intros w' rm' Hw' Hr'. wp_go. apply HQ.
    split; [by apply wf_forget|]. eexists. apply put_remote_lookup. }
  apply wp_bind. destruct (_ =? REMOTE_CMD_LISTEN).
  - destruct (message_result_done hdr (r_ib rm) msg w (rok_ib _ Hok) Hlen) as [m Hm].
    apply wp_bind, wp_run. do 2 eexists. split; [exact Hm|].
    apply wp_when; intros _; [|by eapply Hforget].
    eapply wp_write_remote; [exact Hr|]. eapply Hforget; [by apply wf_listening|].
    apply put_remote_lookup.
  - destruct (is_request_command (r_last_command rm)) eqn:Ereq; [|apply wp_ret; by eapply Hforget].
    destruct (r_client rm) as [c|] eqn:Ec; [|by destruct (rok_request _ Hok Hst Ereq)].
    eapply wp_forward_answer; [done..|lia|done|].
    intros w' Hs. destruct (sends_rest _ _ Hs) as (Er & _).
    eapply Hforget; [by eapply wf_sends|by rewrite Er].
Qed.

Lemma wp_by_state r rm hdr msg w Q :
  wf [] w -> w_remotes w !! r = Some rm ->
  hdr = decode_header (data (r_ib rm)) -> 16 <= h_length hdr <= size (r_ib rm) ->
  (h_message hdr = MESSAGE_RESULT -> 20 <= h_length hdr) ->
  (r_state rm = REMOTE_LISTEN -> h_message hdr <> MESSAGE_DEVICE_ADD) ->
  (h_message hdr = MESSAGE_DEVICE_REMOVE -> 20 <= h_length hdr) ->
  (forall w', remote_good r w' -> Q tt w') ->
  wp (by_state r rm hdr (h_length hdr - 16) msg) Q w.
Proof.
  intros Hw Hr -> Hlen A1 A2 A3 HQ. pose proof (wf_remote _ _ Hw r rm Hr) as Hok.
  assert (remote_good r w) as Hg by (split; [done|by eexists]).
  unfold by_state. destruct (r_state rm) eqn:Est; try (apply wp_ret; by apply HQ).
  - eapply wp_answer_command; [done..|intros E; specialize (A1 E); lia|lia|lia|done].
  - eapply wp_handle_listen; [done..|by apply A2|intros E; specialize (A3 E); lia|done].
  - eapply wp_answer_connecting; [done..|intros E; specialize (A1 E); lia|done].
Qed.

Lemma wp_handle_result r rm w Q :
  wf [] w -> w_remotes w !! r = Some rm -> complete rm ->
  answer_ok (r_state rm) (message_in (data (r_ib rm))) ->
  (forall n w', remote_good r w' -> Q n w') ->
  wp (remote_handle_command_result r) Q w.
Proof.
  intros Hw Hr Hcomp Hans HQ. pose proof (wf_remote _ _ Hw r rm Hr) as Hok.
  pose proof (rok_ib _ Hok) as Hib. destruct (message_length _ Hib Hcomp) as [Hml Hdec].
  unfold answer_ok in Hans. rewrite Hdec in Hans.
  destruct Hcomp as [H16 Hle]. set (hdr := decode_header (data (r_ib rm))) in *.
  rewrite Hml in Hans. destruct Hans as (A1 & A2 & A3).
  assert (remote_good r w) as Hg by (split; [done|by eexists]).
  pose proof (decode_header_ok (data (r_ib rm))) as [Hl32 _]. fold hdr in Hl32.
  assert (HEADER_SIZE = 16) as EH by done.
  unfold remote_handle_command_result. wp_go.
  eapply wp_lift; [apply iobuf_read_data; [done|lia..]|]. cbv beta zeta.
  rewrite drop_0, decode_header_take by lia. fold hdr.
  destruct (_ && _); [wp_go; by apply HQ|]. apply wp_bind. rewrite EH, u32_small by lia.
  assert (forall msg, wp (_ ← by_state r rm hdr (h_length hdr - 16) msg; mret 0) Q w) as Hmain.
  { intros msg. apply wp_bind. eapply wp_by_state; [done..|lia|by apply A1|by apply A2|by apply A3|].
    intros w' Hg'. apply wp_ret. by apply HQ. }
  destruct (h_message hdr =? MESSAGE_PLIST); [|apply wp_ret; apply Hmain].
  apply wp_bind. eapply wp_lift; [apply iobuf_read_data; [done|lia..]|]. apply wp_ret. apply Hmain.
Qed.

(** *** Sending *)

Lemma wp_remote_close_ok r rm w Q :
  wf [] w -> w_remotes w !! r = Some rm -> (forall w', wf [] w' -> Q tt w') ->
  wp (usbmux_remote_close r) Q w.
Proof.
  intros Hw Hr HQ.
  eapply usbmux_remote_close_wf; [done..|apply not_elem_of_nil|apply not_elem_of_nil|].
  intros Hw'. by apply HQ.
Qed.

Lemma wf_remote_update L w r rm rm' :
  wf L w -> w_remotes w !! r = Some rm -> remote_ok rm' ->
  r_client rm' = r_client rm -> r_state rm' = r_state rm -> same_place rm rm' ->
  wf L (put_remote r rm' w).
Proof.
  intros Hw Hr Hok Hc Hst Hpl. eapply wf_put_remote; [done..|].
  intros cl. unfold pair_ok. by rewrite Hst.
Qed.

(** What is left of a remote after its socket took the first [n] bytes. *)
Definition remote_sent (rm : remote_mux) (n : Z) (rm' : remote_mux) : Prop :=
  exists ob, buf_ok ob /\ data ob = drop (Z.to_nat n) (data (r_ob rm)) /\
    r_ob rm' = ob /\ r_ib rm' = r_ib rm /\ r_client rm' = r_client rm /\ r_fd rm' = r_fd rm /\
    r_state rm' = (if (n =? size (r_ob rm)) && bool_decide (r_state rm = REMOTE_CONNECTING2)
                   then REMOTE_CONNECTED else r_state rm).

Lemma wf_remote_open L w r rm ev :
  wf L w -> w_remotes w !! r = Some rm -> r_state rm = REMOTE_CONNECTING2 ->
  wf L (put_remote r (set_r_events ev (set_r_state REMOTE_CONNECTED rm)) w).
Proof.
  intros Hw Hr Hst. eapply wf_put_remote; [done|done| |done|done|].
  - pose proof (wf_remote _ _ Hw r rm Hr) as []. split; try done. simpl. intros _.
    apply rok_connected. rewrite Hst. set_solver.
  - intros cl. apply pair_ok_early; by rewrite Hst.
Qed.

Lemma wp_remote_process_send r rm w Q :
  wf [] w -> w_remotes w !! r = Some rm ->
  (forall w', size (r_ob rm) = 0 -> wf [] w' ->
     w' = put_remote r (set_r_events (clear_bit (r_events rm) POLLOUT) rm) w -> Q tt w') ->
  (forall w', 0 < size (r_ob rm) -> sys_send (r_fd rm) <= 0 -> wf [] w' ->
     w' = remote_closed r rm w -> Q tt w') ->
  (forall w' rm' n, 0 < n <= size (r_ob rm) /\ n = Z.min (sys_send (r_fd rm)) (size (r_ob rm)) ->
     remote_sent rm n rm' -> wf [] w' ->
     w' = put_remote r rm'
       (set_w_trace (EvSend (r_fd rm) (take (Z.to_nat n) (data (r_ob rm))) :: w_trace w) w) ->
     Q tt w') ->
  wp (remote_process_send r) Q w.
Proof.
  intros Hw Hr HQ0 HQ1 HQ2. pose proof (wf_remote _ _ Hw r rm Hr) as Hok.
  pose proof (rok_ob _ Hok) as Hob. pose proof (data_length _ Hob) as Hdl.
  pose proof (ok_size _ Hob). pose proof (ok_cap _ Hob).
  unfold remote_process_send. wp_go. destruct (Z.eqb_spec (size (r_ob rm)) 0) as [E0|E0].
  { wp_go. apply HQ0; [done| |done]. eapply wf_remote_update; [done..| |done|done|done].
    by apply remote_ok_events. }
  wp_go. eapply wp_lift; [apply iobuf_read_data; [done|lia..]|]. wp_go.
  rewrite drop_0, take_ge by lia. apply wp_send.
  - intros n Hn ->. rewrite (proj2 (Z.leb_le _ _)) by done.
    eapply usbmux_remote_close_wf; [done..|apply not_elem_of_nil|apply not_elem_of_nil|].
    intros Hw'. apply HQ1; [lia|done|done|done].
  - intros n Hn. rewrite (proj2 (Z.leb_gt _ _)) by lia. rewrite Hdl in Hn.
    destruct (iobuf_consume_ok (r_ob rm) n Hob) as (ob & Hcons & Hok' & Hc' & Hs' & Hd'); [lia|].
    wp_go. unfold BUF_MAX in *. rewrite u32_small by lia.
    set (w1 := set_w_trace _ w). assert (wf [] w1) as Hw1 by by apply wf_log.
    set (rm1 := set_r_last_active _ _).
    assert (remote_ok rm1) as Hrm1 by (destruct Hok; by split).
    destruct (Z.eqb_spec n (size (r_ob rm))) as [En|En].
    + wp_go. rewrite put_remote_twice. set (rm2 := set_r_events _ rm1).
      assert (wf [] (put_remote r rm2 w1)) as Hw2.
      { eapply wf_remote_update; [done|done| |done..]. by apply remote_ok_events. }
      apply wp_when; intros E; [wp_go|].
      * eapply (HQ2 _ _ n); [lia| | |by rewrite put_remote_twice].
        -- exists ob. rewrite E, (proj2 (Z.eqb_eq _ _)) by done. split_and!; done.
        -- eapply wf_remote_open; [done|apply put_remote_lookup|].
           by apply bool_decide_eq_true_1 in E.
      * eapply (HQ2 _ rm2 n); [lia| |done|done].
        exists ob. rewrite E, andb_false_r. split_and!; done.
    + wp_go. eapply (HQ2 _ rm1 n); [lia| | |done].
      * exists ob. rewrite (proj2 (Z.eqb_neq _ _)) by done. split_and!; done.
      * by eapply wf_remote_update.
  - intros E. rewrite E in Hdl. simpl in Hdl. lia.
Qed.

(** *** Receiving *)

Lemma wp_mark_dead_ok r rm w Q :
  wf [] w -> w_remotes w !! r = Some rm -> (forall w', wf [] w' -> Q tt w') ->
  wp (usbmux_remote_mark_dead r) Q w.
Proof. intros Hw Hr HQ. eapply wp_usbmux_remote_mark_dead; [done..|]. intros. by apply HQ. Qed.

Lemma wf_received L w r rm ib t :
  wf L w -> w_remotes w !! r = Some rm -> buf_ok ib -> capacity ib = capacity (r_ib rm) ->
  wf L (put_remote r (set_r_ib ib (set_r_last_active t rm)) w).
Proof.
  intros Hw Hr Hib Hcap. eapply wf_remote_update; [done..| |done|done|done].
  destruct (wf_remote _ _ Hw r rm Hr). split; try done. simpl. by rewrite Hcap.
Qed.

Lemma wp_remote_complete r rm stream rest w Q :
  wf [] w -> w_remotes w !! r = Some rm -> complete rm ->
  stream = data (r_ib rm) ++ rest -> answer_ok (r_state rm) (message_in stream) ->
  (forall w', wf [] w' -> Q tt w') ->
  wp (_ ← remote_handle_command_result r;
      write_remote r (fun r => set_r_last_command 0 (set_r_ib (set_size 0 (r_ib r)) r))) Q w.
Proof.
  intros Hw Hr Hcomp -> Hans HQ. pose proof (rok_ib _ (wf_remote _ _ Hw r rm Hr)) as Hib.
  pose proof (data_length _ Hib) as Hdl. pose proof Hcomp as [? ?].
  rewrite message_in_app in Hans by lia.
  wp_go. eapply wp_handle_result; [done..|]. intros n w' [Hw' [rm' Hr']].
  wp_go. apply HQ. eapply wf_remote_update; [done..| |done|done|done].
  destruct (wf_remote _ _ Hw' r rm' Hr'). split; try done. by apply buf_ok_reset.
Qed.

(** The second half of [remote_process_recv]. *)
Definition remote_after_header (r : ptr) (fd : Z) (ib : iobuf) (did : bool) : M unit :=
  raw ← lift (iobuf_read 0 HEADER_SIZE ib);
  let hdr := decode_header raw in
  if capacity ib <? h_length hdr then usbmux_remote_mark_dead r
  else if h_length hdr <? HEADER_SIZE then usbmux_remote_mark_dead r
  else
    complete ← (if size ib <? h_length hdr then
        if did then mret false
        else
          x ← recv_into fd ib (u32 (h_length hdr - size ib));
          match x with
          | None => _ ← usbmux_remote_mark_dead r; mret false
          | Some ib' =>
              _ ← write_remote r (fun r => set_r_ib ib' (set_r_last_active sys_now r));
              mret (negb (size ib' <? h_length hdr))
          end
      else mret true);
    if complete : bool then
      _ ← remote_handle_command_result r;
      write_remote r (fun r => set_r_last_command 0 (set_r_ib (set_size 0 (r_ib r)) r))
    else mret tt.

Lemma wp_remote_after_header r rm did stream rest w Q :
  wf [] w -> w_remotes w !! r = Some rm -> 16 <= size (r_ib rm) ->
  stream = data (r_ib rm) ++ rest -> answer_ok (r_state rm) (message_in stream) ->
  (did = false -> default [] (sys_recv (r_fd rm)) = rest) -> (forall w', wf [] w' -> Q tt w') ->
  wp (remote_after_header r (r_fd rm) (r_ib rm) did) Q w.
Proof.
  intros Hw Hr H16 Hst Hans Hrest HQ. unfold remote_after_header.
  pose proof (wf_remote _ _ Hw r rm Hr) as Hok. pose proof (rok_ib _ Hok) as Hib.
  pose proof (rok_cap _ Hok) as Hcap.
  pose proof (data_length _ Hib) as Hdl. pose proof (ok_size _ Hib). pose proof (ok_cap _ Hib).
  apply wp_bind. eapply wp_lift; [by apply iobuf_read_data; (done || unfold HEADER_SIZE; lia)|].
  cbv beta zeta. rewrite drop_0, decode_header_take by (unfold HEADER_SIZE; lia).
  set (hdr := decode_header (data (r_ib rm))). unfold BUF_MAX, HEADER_SIZE in *.
  destruct (Z.ltb_spec (capacity (r_ib rm)) (h_length hdr)); [by eapply wp_mark_dead_ok|].
  destruct (Z.ltb_spec (h_length hdr) 16); [by eapply wp_mark_dead_ok|].
  apply wp_bind. destruct (Z.ltb_spec (size (r_ib rm)) (h_length hdr)).
  - destruct did; [wp_go; by apply HQ|]. rewrite u32_small by lia. apply wp_bind.
    apply recv_into_input; [by split; [|apply Hcap]|lia|lia| |].
    + wp_go. by eapply wp_mark_dead_ok; [..|intros; wp_go; apply HQ].
    + intros ib' bs rest' [Hib' _] Hc' Hs' Hbs Hrv Hd'. wp_go.
      set (rm' := set_r_ib _ _). set (w2 := put_remote r rm' w).
      assert (wf [] w2) as Hw2 by by apply wf_received.
      destruct (Z.ltb_spec (size ib') (h_length hdr)); simpl; [wp_go; by apply HQ|].
      eapply (wp_remote_complete _ rm' stream rest'); [done|apply put_remote_lookup| | |done|done].
      * unfold complete. cbn [r_ib set_r_ib rm']. rewrite Hd', decode_header_app by lia.
        fold hdr. lia.
      * cbn [r_ib set_r_ib rm']. rewrite Hd', <- app_assoc, <- Hrv, Hrest by done. exact Hst.
  - apply wp_ret. cbv beta iota.
    eapply (wp_remote_complete _ rm stream rest); [done|done| |done|done|done].
    unfold complete. fold hdr. lia.
Qed.

Lemma wp_remote_process_recv r rm w Q :
  wf [] w -> w_remotes w !! r = Some rm ->
  answer_ok (r_state rm) (message_in (data (r_ib rm) ++ default [] (sys_recv (r_fd rm)))) ->
  (forall w', wf [] w' -> Q tt w') -> wp (remote_process_recv r) Q w.
Proof.
  intros Hw Hr Hans HQ. pose proof (wf_remote _ _ Hw r rm Hr) as Hok.
  pose proof (rok_ib _ Hok) as Hib. pose proof (rok_cap _ Hok) as Hcap.
  set (stream := data (r_ib rm) ++ _) in *. pose proof (ok_size _ Hib) as Hsz.
  assert (HEADER_SIZE = 16) as EH by done. unfold remote_process_recv. wp_go.
  destruct (Z.ltb_spec (size (r_ib rm)) HEADER_SIZE) as [Hlt|Hge].
  - apply wp_bind. apply recv_into_input; [by split; [|apply Hcap]|lia|lia| |].
    + wp_go. by eapply wp_mark_dead_ok; [..|intros; wp_go; apply HQ].
    + intros ib' bs rest [Hib' _] Hc' Hs' Hbs Hrv Hd'. wp_go.
      set (rm' := set_r_ib ib' rm).
      assert (wf [] (put_remote r rm' w)) as Hw2 by by apply wf_set_r_ib.
      destruct (Z.ltb_spec (size ib') HEADER_SIZE) as [|H16]; [wp_go; by apply HQ|].
      apply wp_ret. cbv beta iota.
      change (wp (remote_after_header r (r_fd rm') (r_ib rm') true) Q (put_remote r rm' w)).
      eapply (wp_remote_after_header _ _ true stream rest);
        [done|apply put_remote_lookup|exact H16| |done|done|done].
      cbn [r_ib set_r_ib rm']. unfold stream. by rewrite Hd', Hrv, app_assoc.
  - apply wp_ret. cbv beta iota.
    change (wp (remote_after_header r (r_fd rm) (r_ib rm) false) Q w).
    by eapply (wp_remote_after_header _ _ false stream).
Qed.

(** *** Poll events *)

(** The remote the loop picks is a live one of the descriptor, and disposing of
    the dead did not touch it. *)
Definition picked (fd : Z) (w w' : world) (o : option ptr) : Prop :=
  match o with
  | None => True
  | Some r => exists rm, w_remotes w' !! r = Some rm /\ w_remotes w !! r = Some rm /\
                r_fd rm = fd /\ r_state rm <> REMOTE_DEAD
  end.

(** The dead are gone and the others are as they were, but for those whose
    descriptor is reported invalid. *)
Record reaped (fd events : Z) (w w' : world) : Prop := {
  rp_sub p rm : w_remotes w' !! p = Some rm -> w_remotes w !! p = Some rm /\ r_state rm <> REMOTE_DEAD;
  rp_kept p rm : w_remotes w !! p = Some rm -> r_state rm <> REMOTE_DEAD ->
    (events = POLLNVAL -> r_fd rm <> fd) -> w_remotes w' !! p = Some rm }.

(** Half way through the list: what was passed is alive. *)
Record reaping (fd events : Z) (w : world) (i : nat) (w' : world) : Prop := {
  ri_wf : wf [remote_list_mutex] w';
  ri_length : length (remote_slots w') = length (remote_slots w);
  ri_sub p rm : w_remotes w' !! p = Some rm -> w_remotes w !! p = Some rm;
  ri_kept p rm : w_remotes w !! p = Some rm -> r_state rm <> REMOTE_DEAD ->
    (events = POLLNVAL -> r_fd rm <> fd) -> w_remotes w' !! p = Some rm;
  ri_seen j p rm : (j < i)%nat -> remote_slots w' !! j = Some (Some p) ->
    w_remotes w' !! p = Some rm -> r_state rm <> REMOTE_DEAD }.

Lemma reaping_next fd events w i w' :
  reaping fd events w i w' ->
  (forall p rm, remote_slots w' !! i = Some (Some p) -> w_remotes w' !! p = Some rm ->
     r_state rm <> REMOTE_DEAD) -> reaping fd events w (i + 1) w'.
Proof.
  intros [] Hi. split; [done..|]. intros j p rm Hj Hs Hp.
  destruct (decide (j = i)) as [->|]; [by eapply Hi|]. apply (ri_seen0 j p); [lia|done..].
Qed.

(** Disposing of the remote of a slot. *)
Lemma wp_reap fd events w i w1 p rm (o : option ptr) (Q : option ptr -> world -> Prop) :
  reaping fd events w i w1 -> remote_slots w1 !! i = Some (Some p) -> w_remotes w1 !! p = Some rm ->
  (r_state rm <> REMOTE_DEAD -> events = POLLNVAL /\ r_fd rm = fd) ->
  (forall w2, reaping fd events w (i + 1) w2 -> w_remotes w2 = delete p (w_remotes w1) ->
     length (remote_slots w2) = length (remote_slots w1) -> Q o w2) ->
  wp (_ ← usbmux_remote_dispose p; mret o) Q w1.
Proof.
  intros [Hw Hlen Hsub Hkept Hseen] E Hp Hwhy HQ. wp_go. eapply wp_dispose; [done|done|set_solver|].
  intros w2 [Hw2 Er El _ _ _ _ _]. wp_go.
  assert (remote_slots w2 = <[i := None]> (remote_slots w1)) as Hslots.
  { apply list_eq. intros k. unfold remote_slots in *. rewrite El.
    destruct (decide (k < length (slots (remote_list w1)))%nat) as [Hk|Hk].
    - pose proof (list_nodup _ _ (wf_rlist _ _ Hw)) as Hnd.
      rewrite slots_remove_lookup by done. destruct (decide (k = i)) as [->|Hne].
      + rewrite list_lookup_insert_eq by done. by rewrite decide_True.
      + rewrite list_lookup_insert_ne by done. case_decide as Ek; [|done].
        destruct Hne. symmetry. by eapply (NoDup_omap_id_lookup (slots (remote_list w1)) p).
    - rewrite !lookup_ge_None_2; [done|rewrite length_insert; lia|]. rewrite length_slots_remove. lia. }
  apply HQ; [|done|by rewrite Hslots, length_insert]. split; [done|by rewrite Hslots, length_insert|..].
  - rewrite Er. intros q y [_ Hq]%lookup_delete_Some. by apply Hsub.
  - intros q y Hq Hl Hinv. rewrite Er, lookup_delete_ne; [by apply Hkept|]. intros <-.
    apply Hsub in Hp. assert (y = rm) as -> by congruence. destruct (Hwhy Hl). by apply Hinv.
  - intros j q y Hj Hs Hq. rewrite Er in Hq. apply lookup_delete_Some in Hq as [_ Hq].
    rewrite Hslots in Hs. destruct (decide (j = i)) as [->|].
    + rewrite list_lookup_insert_eq in Hs; [done|]. by eapply lookup_lt_Some.
    + rewrite list_lookup_insert_ne in Hs by done. apply (Hseen j q); [lia|done..].
Qed.

Lemma wp_find_and_reap fd events w :
  wf [remote_list_mutex] w ->
  wp (find_and_reap fd events) (fun o w' => wf [remote_list_mutex] w' /\ picked fd w w' o /\
    reaped fd events w w') w.
Proof.
  intros Hw. unfold find_and_reap.
  apply (wp_foreach_acc _ _ (fun i o w' => reaping fd events w i w' /\ picked fd w w' o)
    _ (length (remote_slots w))); [done| | |].
  - split; [|done]. split; [done..|]. intros. lia.
  - intros i o w1 (Hrp & Ho) Hlen Hi.
    destruct (remote_slots w1 !! i) as [[p|]|] eqn:E.
    2,3: split; [apply reaping_next; [done|intros ??; congruence]|done].
    destruct (wf_remote_slot _ _ p (ri_wf _ _ _ _ _ Hrp)) as [rm Hp];
      [by eapply list_elem_of_lookup_2|]. wp_go.
    case_bool_decide as Hst; [|destruct (Z.eqb_spec (r_fd rm) fd) as [Hfd|]].
    + eapply wp_reap; [done|done|done|done|]. intros w2 Hrp2 Hd Hl. split; [|by rewrite Hl].
      split; [done|]. destruct o as [r|]; [|done]. destruct Ho as (x & Hx & Hx0 & Hxfd & Hxst).
      exists x. rewrite Hd, lookup_delete_ne; [done|]. intros ->. congruence.
    + destruct (Z.eqb_spec events POLLNVAL) as [Hev|].
      * eapply wp_reap; [done|done|done|done|]. intros w2 Hrp2 Hd Hl. by rewrite Hl.
      * wp_go. split; [|done]. split.
        -- apply reaping_next; [done|]. intros q y Hq Hy. congruence.
        -- exists rm. split_and!; [done|by apply (ri_sub _ _ _ _ _ Hrp)|done|done].
    + wp_go. split; [|done]. split; [|done]. apply reaping_next; [done|]. intros q y Hq Hy. congruence.
  - intros o w1 ([Hw1 Hlen Hsub Hkept Hseen] & Ho). split; [done|]. split; [done|]. split; [|done].
    intros p rm Hp. split; [by apply Hsub|].
    assert (p ∈ elems (remote_list w1)) as Hin by (apply (wf_rlist _ _ Hw1); by eexists).
    apply elem_of_omap_id, list_elem_of_lookup in Hin as [j Hj].
    eapply (Hseen j p); [|exact Hj|exact Hp]. rewrite <- Hlen. by eapply lookup_lt_Some.
Qed.

(** A connected client, or one about to be, may be asked for more events. *)
Definition asked (ev : Z) (cl cl' : mux_client) : Prop :=
  cl' = cl \/
  (c_state cl = CLIENT_CONNECTED /\ cl' = set_c_events (Z.lor (c_events cl) ev)
     (set_c_devents (Z.lor (c_devents cl) ev) cl)) \/
  (c_state cl = CLIENT_CONNECTING2 /\ cl' = set_c_devents (Z.lor (c_devents cl) ev) cl).

Lemma wp_client_or_events c cl ev w Q :
  wf [] w -> w_clients w !! c = Some cl ->
  (forall n cl', asked ev cl cl' -> wf [] (put_client c cl' w) -> Q n (put_client c cl' w)) ->
  wp (client_or_events c ev) Q w.
Proof.
  intros Hw Hc HQ. unfold client_or_events. wp_go.
  assert (forall ev', wf [] (put_client c (set_c_devents ev' cl) w)) as Hdev.
  { intros ev'. eapply wf_put_client; [done|done| |done|].
    - exact (wf_client _ _ Hw c cl Hc).
    - intros rm. by apply pair_ok_state. }
  case_bool_decide as Hst.
  { wp_go. rewrite <- (put_client_id c cl w) by done. apply HQ; [by left|].
    by rewrite put_client_id. }
  wp_go. apply wp_when; intros E; [wp_go|wp_go].
  - rewrite put_client_twice. apply bool_decide_eq_true_1 in E. apply HQ; [right; left; done|].
    rewrite <- (put_client_twice c _ (set_c_devents (Z.lor (c_devents cl) ev) cl)).
    apply (wf_set_c_events _ _ _ (set_c_devents (Z.lor (c_devents cl) ev) cl)); [apply Hdev|].
    apply put_client_lookup.
  - apply bool_decide_eq_false_1 in E. apply HQ; [|apply Hdev]. right; right. split; [|done].
    destruct (c_state cl); try done; destruct Hst; done.
Qed.

Lemma wp_receive_for_client r rm w Q :
  wf [] w -> w_remotes w !! r = Some rm -> r_state rm = REMOTE_CONNECTED ->
  (0 < size (r_ib rm) -> size (r_ib rm) = capacity (r_ib rm) -> Q tt w) ->
  (forall w', sys_recv (r_fd rm) = None -> wf [] w' -> w' = remote_closed r rm w -> Q tt w') ->
  (sys_recv (r_fd rm) = Some [] ->
     wf [] (put_remote r (set_r_events (clear_bit (r_events rm) POLLIN) rm) w) ->
     Q tt (put_remote r (set_r_events (clear_bit (r_events rm) POLLIN) rm) w)) ->
  (forall w' c cl cl' ib bs rest, sys_recv (r_fd rm) = Some (bs ++ rest) -> bs <> [] ->
     zlen bs <= capacity (r_ib rm) - size (r_ib rm) -> data ib = data (r_ib rm) ++ bs ->
     r_client rm = Some c -> w_clients w !! c = Some cl -> asked POLLOUT cl cl' -> wf [] w' ->
     w' = put_client c cl' (put_remote r (set_r_ib ib (set_r_last_active sys_now rm)) w) ->
     Q tt w') ->
  wp (receive_for_client r) Q w.
Proof.
  intros Hw Hr Hst HQ0 HQ1 HQ2 HQ3. pose proof (wf_remote _ _ Hw r rm Hr) as Hok.
  pose proof (rok_ib _ Hok) as Hib. pose proof (rok_cap _ Hok) as Hcap.
  pose proof (ok_size _ Hib). pose proof (ok_cap _ Hib). unfold BUF_MAX, HEADER_SIZE in *.
  unfold receive_for_client. wp_go.
  destruct (_ && _) eqn:E.
  { apply andb_true_iff in E as [?%Z.ltb_lt ?%Z.leb_le]. wp_go. apply HQ0; lia. }
  assert (0 < capacity (r_ib rm) - size (r_ib rm)) as Hroom.
  { apply andb_false_iff in E as [?%Z.ltb_ge|?%Z.leb_gt]; lia. }
  rewrite u32_small by lia. unfold recv.
  destruct (sys_recv (r_fd rm)) as [avail|] eqn:Er; csimpl.
  2: { eapply usbmux_remote_close_wf; [done..|apply not_elem_of_nil|apply not_elem_of_nil|].
       intros Hw'. by eapply HQ1. }
  destruct (take _ avail) as [|x bs] eqn:Et.
  { assert (avail = []) as ->.
    { destruct avail; [done|]. destruct (Z.to_nat _) eqn:En in Et; [lia|done]. }
    wp_go. apply HQ2; [done|]. eapply wf_remote_update; [done..| |done|done|done].
    by apply remote_ok_events. }
  assert (zlen (x :: bs) <= capacity (r_ib rm) - size (r_ib rm)) as Hbs
    by (rewrite <- Et, length_take; lia).
  destruct (iobuf_append_ok (r_ib rm) (x :: bs) Hib) as (ib & Hwr & Hs' & Hc' & Hok' & Hd');
    [lia|].
  wp_go. rewrite Hs', u32_small by lia.
  destruct (r_client rm) as [c|] eqn:Ec.
  2: { by destruct (rok_connected _ Hok); [rewrite Hst; set_solver|]. }
  destruct (wf_r2c _ _ Hw r rm c Hr Ec) as (cl & Hc & _).
  eapply wp_nonnull; [done|]. wp_go.
  eapply wp_client_or_events; [by apply wf_received|exact Hc|].
  intros n cl' Hcl' Hw'. wp_go.
  eapply (HQ3 _ c cl cl' _ (x :: bs)); [by rewrite <- Et, take_drop|done..].
Qed.

(** The event may be handled for a live remote. *)
Definition remote_ready (events : Z) (rm : remote_mux) : Prop :=
  (r_state rm = REMOTE_CONNECTED -> has events POLLIN = false -> has events POLLOUT = true ->
     0 < size (r_ob rm) -> 0 < sys_send (r_fd rm)) /\
  (r_state rm <> REMOTE_CONNECTED -> has events POLLIN = true ->
     answer_ok (r_state rm) (message_in (data (r_ib rm) ++ default [] (sys_recv (r_fd rm))))).

(** The events the poll loop may deliver for a remote descriptor. *)
Definition remote_event_ok (fd events : Z) (w : world) : Prop :=
  forall r rm, w_remotes w !! r = Some rm -> r_fd rm = fd -> remote_ready events rm.

(** A connected remote that may be written to: the output goes out, and its
    client may send more. *)
Lemma wp_process_connected r rm w Q :
  wf [] w -> w_remotes w !! r = Some rm -> r_state rm = REMOTE_CONNECTED ->
  (0 < size (r_ob rm) -> 0 < sys_send (r_fd rm)) -> (forall w', wf [] w' -> Q tt w') ->
  wp (_ ← remote_process_send r;
      r' ← read_remote r;
      client ← nonnull (r_client r');
      _ ← client_or_events client POLLIN;
      mret tt) Q w.
Proof.
  intros Hw Hr Hst Hsend HQ.
  assert (forall w' rm', wf [] w' -> w_remotes w' !! r = Some rm' ->
    r_state rm' = REMOTE_CONNECTED ->
    wp (r' ← read_remote r; client ← nonnull (r_client r');
        _ ← client_or_events client POLLIN; mret tt) Q w') as Htail.
  { intros w' rm' Hw' Hr' Hst'. wp_go. pose proof (wf_remote _ _ Hw' r rm' Hr') as Hok.
    destruct (r_client rm') as [c|] eqn:Ec.
    2: { by destruct (rok_connected _ Hok); [rewrite Hst'; set_solver|]. }
    destruct (wf_r2c _ _ Hw' r rm' c Hr' Ec) as (cl & Hc & _).
    eapply wp_nonnull; [done|]. wp_go. eapply wp_client_or_events; [done|exact Hc|].
    intros n cl' _ Hw''. wp_go. by apply HQ. }
  apply wp_bind. eapply wp_remote_process_send; [done..| | |].
  - intros w' _ Hw' ->. eapply Htail; [done|apply put_remote_lookup|done].
  - intros w' H1 H2. specialize (Hsend H1). lia.
  - intros w' rm' n _ (ob & _ & _ & _ & _ & _ & _ & Hs) Hw' ->.
    eapply Htail; [done|apply put_remote_lookup|]. rewrite Hs. by case_match.
Qed.

Lemma process_remote_wf events r rm w :
  wf [] w -> w_remotes w !! r = Some rm -> remote_ready events rm ->
  wp (process_remote events r) (fun _ w' => wf [] w') w.
Proof.
  intros Hw Hr [Hsend Hans]. unfold process_remote. wp_go. case_bool_decide as Hc.
  - destruct (has events POLLIN) eqn:Ein.
    { eapply wp_receive_for_client; done. }
    destruct (has events POLLOUT) eqn:Eout; [|by eapply wp_remote_close_ok].
    eapply wp_process_connected; [exact Hw|exact Hr|done|by apply Hsend|done].
  - destruct (has events POLLIN) eqn:Ein.
    + case_bool_decide as Hc2.
      * wp_go. by apply wf_remote_open.
      * eapply wp_remote_process_recv; [exact Hw|exact Hr|by apply Hans|done].
    + destruct (has events POLLOUT); [|by wp_go].
      eapply wp_remote_process_send; try done.
Qed.

(** The remote that is found is a live one of the descriptor. *)
Lemma wp_find_remote_locked fd events w :
  wf [] w ->
  wp (find_remote fd events) (fun o w' => wf [] w' /\ picked fd w w' o /\ reaped fd events w w') w.
Proof.
  intros Hw. pose proof (wf_locks _ _ Hw) as HL. unfold find_remote. wp_go.
  apply wp_lock; [rewrite HL; apply not_elem_of_nil|]. wp_go.
  wp_use (apply wp_find_and_reap, wf_lock; [apply not_elem_of_nil|done]).
  intros o w1 (Hw1 & Ho & [Hsub Hkept]). wp_go.
  split; [apply wf_unlock; [apply not_elem_of_nil|done]|]. split; [by destruct o|by split].
Qed.

Lemma usbmux_remote_process_wf fd events w :
  wf [] w -> remote_event_ok fd events w ->
  wp (usbmux_remote_process fd events) (fun _ w' => wf [] w') w.
Proof.
  intros Hw Hev. apply wp_bind. wp_use (by apply wp_find_remote_locked).
  intros [r|] w1 (Hw1 & Ho & _); [|by wp_go]. destruct Ho as (rm & Hr1 & Hr0 & <- & Hst).
  by eapply process_remote_wf, Hev.
Qed.
End remote_process_facts.
