(* ===== verification/Daemon.v ===== *)
(** usbfluxd/main.c: the main loop, and the daemon as a transition system.

    [main_loop] is written over the list of what successive calls of [ppoll]
    give; it ends with a signal, as the C loop does, or with the list. Every
    handler call has an [Env] of its own. *)

From S2P Require Import Prelude Exec Mem Utils Proto CStr RemoteId Plist World.
From S2P Require Import Socket Client Remote Teardown Command RemoteProcess Discovery.

Section daemon.
Context `{PL : PlistLib}.

(** The list handed to [ppoll]: the listening socket, then the clients, then the
    remotes. *)
Definition gather (EN : Env) (listenfd : Z) (pollfds : fdlist) : M fdlist :=
  l ← demand OutOfBounds (fdlist_add (fdlist_reset pollfds) FD_LISTEN listenfd POLLIN);
  l ← client_get_fds l;
  usbmux_remote_get_fds l.

(** The body of the loop over the descriptors. *)
Definition dispatch_one (EN : Env) (listenfd : Z) (owner : fdowner) (fd revents : Z) : M Z :=
  if revents =? 0 then mret 0
  else
    match owner with
    | FD_LISTEN => client_accept listenfd
    | FD_CLIENT => _ ← client_process fd revents; mret 0
    | FD_REMOTE => _ ← usbmux_remote_process fd revents; mret 0
    | _ => mret 0
    end.

(** [envs] gives the environment of each call. A cell of the list that was never
    written is a fault. *)
Fixpoint dispatch (listenfd : Z) (l : list (option fdowner * option pollfd))
    (revents : list Z) (envs : nat -> Env) (i : nat) : M Z :=
  match l, revents with
  | (Some o, Some p) :: l', ev :: revents' =>
      res ← dispatch_one (envs i) listenfd o (pfd p) ev;
      if bool_decide (o = FD_LISTEN) && (res <? 0) then mret (-1)
      else dispatch listenfd l' revents' envs (S i)
  | [], _ => mret 0
  | _, _ => crash Uninitialised
  end.

(** The signals of [set_signal_handlers] are masked but during [ppoll]; the handler
    sets [should_exit]. *)
Definition SIGINT : Z := 2.
Definition SIGQUIT : Z := 3.
Definition SIGUSR1 : Z := 10.
Definition SIGUSR2 : Z := 12.
Definition SIGTERM : Z := 15.
Definition set_signal_handlers : list Z := [SIGINT; SIGQUIT; SIGTERM; SIGUSR1; SIGUSR2].
Definition handle_signal (sig : Z) (should_exit : bool) : bool := true.
Definition deliver (signals : list Z) (should_exit : bool) : bool :=
  foldl (fun e sig => if bool_decide (sig ∈ set_signal_handlers) then handle_signal sig e else e)
    should_exit signals.

(** What one call of [ppoll] gives, with the signals that arrive during it. *)
Record poll_result := {
  p_cnt : Z;
  p_eintr : bool;
  p_signals : list Z;
  p_revents : list Z;
  p_env : Env;
  p_envs : nat -> Env }.

Fixpoint main_loop (listenfd : Z) (polls : list poll_result) (should_exit : bool)
    (pollfds : fdlist) : M Z :=
  match polls with
  | [] => mret 0
  | p :: polls' =>
      if should_exit then mret 0
      else
        pollfds ← gather (p_env p) listenfd pollfds;
        let should_exit := deliver (p_signals p) should_exit in
        if p_cnt p =? -1 then
          if p_eintr p && should_exit then mret 0
          else main_loop listenfd polls' should_exit pollfds
        else if p_cnt p =? 0 then main_loop listenfd polls' should_exit pollfds
        else
          res ← dispatch listenfd (contents pollfds) (p_revents p) (p_envs p) 0;
          if res <? 0 then mret (-1) else main_loop listenfd polls' should_exit pollfds
  end.

(** The end of [main]: the client and the remote lists are emptied. *)
Definition shutdown (EN : Env) : M unit :=
  _ ← client_shutdown; usbmux_remote_shutdown.

(** The middle part of [main], with the listening socket open: the two lists, the
    instance named on the command line (whose failure is only logged), the loop,
    and the end. [notify_parent] between them does not touch this state. *)
Definition prepare (EN : Env) (no_mdns : bool) (remote_host : option string) (remote_port : Z)
    : M unit :=
  _ ← client_init;
  _ ← usbmux_remote_init no_mdns;
  match remote_host with
  | Some host => _ ← usbmux_remote_add_remote host remote_port; mret tt
  | None => mret tt
  end.
Definition serve (E0 E1 : Env) (listenfd : Z) (no_mdns : bool) (remote_host : option string)
    (remote_port : Z) (polls : list poll_result) : M Z :=
  _ ← prepare E0 no_mdns remote_host remote_port;
  res ← main_loop listenfd polls false fdlist_create;
  _ ← shutdown E1;
  mret res.

(** ** As a transition system

    The callbacks of the discovery thread are inputs like the others: they change
    the state under the mutexes, between two handlers of the main thread. *)

Inductive input :=
| InAccept (listenfd : Z)
| InGather (listenfd : Z) (pollfds : fdlist)
| InClient (fd revents : Z)
| InRemote (fd revents : Z)
| InMdns (cb : callback).

Definition run (EN : Env) (i : input) : M unit :=
  match i with
  | InAccept listenfd => _ ← client_accept listenfd; mret tt
  | InGather listenfd pollfds => _ ← gather EN listenfd pollfds; mret tt
  | InClient fd revents => client_process fd revents
  | InRemote fd revents => usbmux_remote_process fd revents
  | InMdns cb => run_callback cb
  end.

(** Several inputs after each other, each in an environment of its own. *)
Fixpoint script (l : list (Env * input)) : M unit :=
  match l with
  | [] => mret tt
  | (E, i) :: l' => _ ← run E i; script l'
  end.
End daemon.
