(* ===== verification/DaemonFacts.v ===== *)
(** The daemon as a whole: every reachable state satisfies the invariant, and
    every admissible input is handled without a fault. *)

From stdpp Require Import relations.
From S2P Require Import Prelude Exec Mem Utils Proto CStr RemoteId Plist World WorldFacts.
From S2P Require Import Socket Client Remote Teardown Command RemoteProcess Invariant.
From S2P Require Import ClientFacts TeardownFacts RemoteFacts CommandFacts RemoteProcessFacts.
From S2P Require Import Discovery Daemon.

Section daemon_facts.
Context `{PL : PlistLib} {PLaws : PlistLaws PL}.

(** *** The poll list *)

(** Growth doubles a full list, so its capacity stays within twice its length. *)
Lemma fdlist_add_capacity l o fd ev l' :
  fdlist_add l o fd ev = Some l' -> fdlist_ok l -> count l < 2 ^ 29 ->
  fl_capacity l < 2 ^ 30 -> fl_capacity l' < 2 ^ 30.
Proof.
  intros H [_ _ Hc _] Hn Hcap. unfold fdlist_add in H.
  destruct (Z.eqb_spec (count l) (fl_capacity l)) as [E|]; repeat case_match; simplify_eq; simpl;
    [|done]. unfold i32. rewrite Z.mod_small by lia. lia.
Qed.

Definition roomy (n : Z) (l : fdlist) : Prop :=
  fdlist_ok l /\ fl_capacity l < 2 ^ 30 /\ count l + n < 2 ^ 29.

Lemma roomy_add n l o fd ev :
  roomy (n + 1) l -> 0 <= n ->
  exists l', fdlist_add l o fd ev = Some l' /\ roomy n l' /\
    contents l' = contents l ++ [(Some o, Some (MkPollfd fd ev 0))].
Proof.
  intros (Hok & Hcap & Hn) H0.
  destruct (fdlist_add_ok l o fd ev Hok Hcap) as (l' & Hadd & Hok' & Hc & Hcont).
  exists l'. split; [done|]. split; [|done]. split; [done|]. split; [|lia].
  eapply fdlist_add_capacity; [done|done|lia|done].
Qed.

(** The entries the two gathering loops add: one per live object, in slot order. *)
Definition client_entry (w : world) (p : ptr) : option (option fdowner * option pollfd) :=
  (fun cl => (Some FD_CLIENT, Some (MkPollfd (c_fd cl) (c_events cl) 0))) <$> w_clients w !! p.
Definition remote_entry (w : world) (p : ptr) : option (option fdowner * option pollfd) :=
  (fun rm => (Some FD_REMOTE, Some (MkPollfd (r_fd rm) (r_events rm) 0))) <$> w_remotes w !! p.

Section one_environment.
Context `{EN : Env} {EL : EnvLaws EN}.

Lemma wp_client_get_fds l n w Q :
  wf [] w -> roomy (n + zlen (client_slots w)) l -> 0 <= n ->
  (forall l', roomy n l' ->
     contents l' = contents l ++ omap (client_entry w) (elems (client_list w)) -> Q l' w) ->
  wp (client_get_fds l) Q w.
Proof.
  intros Hw Hl Hn HQ. pose proof (wf_locks _ _ Hw) as HL. unfold client_get_fds. wp_go.
  apply wp_lock; [rewrite HL; apply not_elem_of_nil|]. wp_go.
  set (w1 := set_w_locks _ w).
  assert (wf [client_list_mutex] w1) as Hw1 by (apply wf_lock; [apply not_elem_of_nil|done]).
  apply (wp_foreach_acc _ _ (fun i l' w' => w' = w1 /\
    roomy (n + (zlen (client_slots w) - Z.of_nat i)) l' /\
    contents l' = contents l ++ omap (client_entry w) (omap id (take i (client_slots w))))
    _ (length (client_slots w))); [done| | |].
  - split; [done|]. split; [by rewrite Z.sub_0_r|]. by rewrite app_nil_r.
  - intros i l1 ? (-> & Hl1 & Hcont) _ Hi. change (client_slots w1) with (client_slots w).
    destruct (client_slots w !! i) as [o|] eqn:E; [|apply lookup_ge_None in E; lia].
    rewrite Nat.add_1_r, (take_S_r _ _ _ E), omap_id_app, omap_app.
    destruct o as [p|].
    2: { split; [done|]. split; [|by rewrite !app_nil_r].
         destruct Hl1 as (? & ? & ?). split_and!; [done|done|lia]. }
    destruct (wf_client_slot _ _ p Hw1) as [cl Hp]; [by eapply list_elem_of_lookup_2|]. wp_go.
    destruct (roomy_add (n + (zlen (client_slots w) - Z.of_nat (S i))) l1 FD_CLIENT (c_fd cl)
      (c_events cl)) as (l2 & Hadd & Hl2 & Hc2); [|lia|].
    { destruct Hl1 as (? & ? & ?). split_and!; [done|done|lia]. }
    eapply wp_demand; [exact Hadd|]. split; [|done]. split; [done|]. split; [done|].
    rewrite Hc2, Hcont, <- app_assoc. f_equal. f_equal.
    unfold client_entry. cbn. change (w_clients w !! p) with (w_clients w1 !! p). by rewrite Hp.
  - intros l1 ? (-> & Hl1 & Hcont). wp_go. subst w1. cbn [w_locks set_w_locks].
    erewrite relock by (done || apply not_elem_of_nil).
    rewrite take_ge in Hcont by done. apply HQ; [|exact Hcont].
    destruct Hl1 as (? & ? & ?). split_and!; [done|done|lia].
Qed.

(** Gathering stamps silent remotes and may start a thread to probe their host. *)
Record stamped (w w' : world) : Prop := {
  st_clients : w_clients w' = w_clients w;
  st_slots : remote_slots w' = remote_slots w;
  st_remotes p : match w_remotes w !! p, w_remotes w' !! p with
                 | Some rm, Some rm' => exists t, rm' = set_r_last_active t rm
                 | None, None => True
                 | _, _ => False
                 end }.

Lemma stamped_refl w : stamped w w.
Proof.
  split; [done|done|]. intros p. destruct (w_remotes w !! p) as [rm|]; [|done].
  exists (r_last_active rm). by destruct rm.
Qed.
Lemma stamped_put w w' p rm t tr :
  stamped w w' -> w_remotes w' !! p = Some rm ->
  stamped w (put_remote p (set_r_last_active t rm) (set_w_trace tr w')).
Proof.
  intros [Hc Hs Hr] Hp. split; [done|done|]. intros q. specialize (Hr q). simpl.
  destruct (decide (p = q)) as [->|]; [|by rewrite lookup_insert_ne].
  rewrite lookup_insert_eq. rewrite Hp in Hr. destruct (w_remotes w !! q); [|done].
  destruct Hr as [t' ->]. by exists t.
Qed.
Lemma stamped_entry w w' p : stamped w w' -> remote_entry w' p = remote_entry w p.
Proof.
  intros [_ _ Hr]. specialize (Hr p). unfold remote_entry.
  destruct (w_remotes w !! p), (w_remotes w' !! p); try done. by destruct Hr as [t ->].
Qed.

Lemma wf_stamp L w p rm t :
  wf L w -> w_remotes w !! p = Some rm -> wf L (put_remote p (set_r_last_active t rm) w).
Proof.
  intros Hw Hp. eapply wf_remote_update; [done..| |done|done|done].
  destruct (wf_remote _ _ Hw p rm Hp). by split.
Qed.

Lemma put_same_trace p rm w : put_remote p rm (set_w_trace (w_trace w) w) = put_remote p rm w.
Proof. done. Qed.

Lemma wp_check_silent p rm w w0 Q :
  wf [remote_list_mutex] w -> stamped w0 w -> w_remotes w !! p = Some rm ->
  (forall w', wf [remote_list_mutex] w' -> stamped w0 w' -> Q tt w') ->
  wp (check_silent p rm) Q w.
Proof.
  intros Hw Hst Hp HQ. unfold check_silent. cbv zeta. apply wp_when; intros _; [|by apply HQ].
  apply wp_bind. apply wp_when; intros _.
  - apply wp_when; intros _; [apply wp_log|]; (eapply wp_write_remote; [exact Hp|]); apply HQ.
    + apply wf_stamp; [by apply wf_log|done].
    + by apply stamped_put.
    + by apply wf_stamp.
    + rewrite <- put_same_trace. by apply stamped_put.
  - eapply wp_write_remote; [exact Hp|]. apply HQ; [by apply wf_stamp|].
    rewrite <- put_same_trace. by apply stamped_put.
Qed.

Lemma wp_remote_get_fds l n w Q :
  wf [] w -> roomy (n + zlen (remote_slots w)) l -> 0 <= n ->
  (forall l' w', roomy n l' -> wf [] w' -> w_clients w' = w_clients w ->
     contents l' = contents l ++ omap (remote_entry w) (elems (remote_list w)) -> Q l' w') ->
  wp (usbmux_remote_get_fds l) Q w.
Proof.
  intros Hw Hl Hn HQ. pose proof (wf_locks _ _ Hw) as HL. unfold usbmux_remote_get_fds. wp_go.
  apply wp_lock; [rewrite HL; apply not_elem_of_nil|]. wp_go.
  set (w1 := set_w_locks _ w).
  assert (wf [remote_list_mutex] w1) as Hw1 by (apply wf_lock; [apply not_elem_of_nil|done]).
  apply (wp_foreach_acc _ _ (fun i l' w' => wf [remote_list_mutex] w' /\ stamped w1 w' /\
    roomy (n + (zlen (remote_slots w) - Z.of_nat i)) l' /\
    contents l' = contents l ++ omap (remote_entry w) (omap id (take i (remote_slots w))))
    _ (length (remote_slots w))); [done| | |].
  - split_and!; [done|apply stamped_refl|by rewrite Z.sub_0_r|by rewrite app_nil_r].
  - intros i l1 w2 (Hw2 & Hst & Hl1 & Hcont) _ Hi. rewrite (st_slots _ _ Hst).
    change (remote_slots w1) with (remote_slots w).
    destruct (remote_slots w !! i) as [o|] eqn:E; [|apply lookup_ge_None in E; lia].
    rewrite Nat.add_1_r, (take_S_r _ _ _ E), omap_id_app, omap_app.
    destruct o as [p|].
    2: { split_and!; [done|done| |by rewrite !app_nil_r].
         destruct Hl1 as (? & ? & ?). split_and!; [done|done|lia]. }
    destruct (wf_remote_slot _ _ p Hw2) as [rm Hp].
    { rewrite (st_slots _ _ Hst). by eapply list_elem_of_lookup_2. }
    destruct (roomy_add (n + (zlen (remote_slots w) - Z.of_nat (S i))) l1 FD_REMOTE (r_fd rm)
      (r_events rm)) as (l2 & Hadd & Hl2 & Hc2); [|lia|].
    { destruct Hl1 as (? & ? & ?). split_and!; [done|done|lia]. }
    assert (contents l2 = contents l ++ omap (remote_entry w) (omap id (take i (remote_slots w)))
      ++ omap (remote_entry w) (omap id [Some p])) as Hc3.
    { rewrite Hc2, Hcont, <- app_assoc. do 2 f_equal. cbn.
      change (remote_entry w p) with (remote_entry w1 p). rewrite <- (stamped_entry _ _ p Hst).
      unfold remote_entry. by rewrite Hp. }
    wp_go. apply (wp_check_silent p rm w2 w1); [done..|]. intros w3 Hw3 Hst3.
    eapply wp_demand; [exact Hadd|]. split; [done|]. by rewrite (st_slots _ _ Hst3).
  - intros l1 w2 (Hw2 & Hst & Hl1 & Hcont). wp_go. rewrite take_ge in Hcont by done.
    apply HQ; [| |by destruct Hst|exact Hcont].
    + destruct Hl1 as (? & ? & ?). split_and!; [done|done|lia].
    + apply wf_unlock; [apply not_elem_of_nil|done].
Qed.

(** The list for [ppoll]: the listening socket, the clients, the remotes. *)
Definition poll_list (listenfd : Z) (w : world) : list (option fdowner * option pollfd) :=
  (Some FD_LISTEN, Some (MkPollfd listenfd POLLIN 0)) ::
  omap (client_entry w) (elems (client_list w)) ++ omap (remote_entry w) (elems (remote_list w)).

(** Fewer than 2^28 slots in all, far above the descriptor limit. *)
Definition gatherable (l : fdlist) (w : world) : Prop :=
  fdlist_ok l /\ fl_capacity l < 2 ^ 30 /\
  zlen (client_slots w) + zlen (remote_slots w) < 2 ^ 28.

Lemma wp_gather listenfd l w Q :
  wf [] w -> gatherable l w ->
  (forall l' w', fdlist_ok l' -> fl_capacity l' < 2 ^ 30 -> wf [] w' ->
     w_clients w' = w_clients w -> contents l' = poll_list listenfd w -> Q l' w') ->
  wp (gather EN listenfd l) Q w.
Proof.
  intros Hw (Hok & Hcap & Hslots) HQ. unfold gather.
  assert (roomy (zlen (client_slots w) + zlen (remote_slots w) + 1) (fdlist_reset l)) as Hr.
  { split_and!; [by apply fdlist_reset_ok|done|simpl; lia]. }
  destruct (roomy_add _ _ FD_LISTEN listenfd POLLIN Hr) as (l1 & Hadd & Hl1 & Hc1); [lia|].
  apply wp_bind. eapply wp_demand; [exact Hadd|]. apply wp_bind.
  apply (wp_client_get_fds l1 (zlen (remote_slots w))); [done| |lia|].
  { destruct Hl1 as (? & ? & ?). split_and!; [done|done|lia]. }
  intros l2 Hl2 Hc2. apply (wp_remote_get_fds l2 0); [done|by rewrite Z.add_0_l|lia|].
  intros l3 w' (? & ? & ?) Hw' Hcl Hc3. apply HQ; try done.
  rewrite Hc3, Hc2, Hc1. by rewrite <- app_assoc.
Qed.

(** *** One input *)

(** What the environment of an input must satisfy: the events delivered were
    asked for, and the messages are ones the daemon is prepared for. *)
Definition admissible (i : input) (w : world) : Prop :=
  match i with
  | InAccept _ => True
  | InGather _ pollfds => gatherable pollfds w
  | InClient fd revents => dns_up /\ client_event_ok fd revents w
  | InRemote fd revents => remote_event_ok fd revents w
  | InMdns _ => dns_up /\ prints (create_plist_message "Listen")
  end.

(** Discovery. *)
Lemma wp_added s h port w :
  wf [] w -> dns_up -> prints (create_plist_message "Listen") ->
  wp (_ ← remote_mux_service_add s h port; mret tt) (fun _ w' => wf [] w') w.
Proof.
  intros Hw Hdns Hpr. wp_go. apply (wp_service_add s h port w); try done; intros; wp_go; try done.
  by eapply ia_wf.
Qed.
Lemma wp_removed s w :
  wf [] w -> wp (_ ← remote_mux_service_remove (Some s) None 0; mret tt) (fun _ w' => wf [] w') w.
Proof. intros Hw. wp_go. apply wp_service_remove; [done|intros; by wp_go|by wp_go]. Qed.

Lemma run_callback_wf cb w :
  wf [] w -> dns_up -> prints (create_plist_message "Listen") ->
  wp (run_callback cb) (fun _ w' => wf [] w') w.
Proof.
  intros Hw Hdns Hpr. destruct cb as [ev s h port|ev s ok|fail|mok flags obj err]; simpl.
  - unfold service_resolve_cb. destruct ev; [|by wp_go; apply wf_log..].
    apply wp_bind. wp_use (by apply wp_added). intros _ w' Hw'. wp_go. by apply wf_log.
  - destruct ev; simpl; [wp_go; by apply wf_log| | |by wp_go..].
    + apply wp_when; intros _; [wp_go; by apply wf_log|done].
    + by apply wp_removed.
  - apply wp_when; intros _; [wp_go; by apply wf_log|done].
  - unfold cf_service_browse_cb. repeat case_match; first [by wp_go|by apply wp_removed|by apply wp_added].
Qed.

Lemma run_wf i w : wf [] w -> admissible i w -> wp (run EN i) (fun _ w' => wf [] w') w.
Proof.
  intros Hw Ha. destruct i as [fd|fd l|fd ev|fd ev|cb]; simpl in *.
  - wp_go. apply wp_client_accept; [done|intros; by wp_go|]. intros w' c Hw' **. by wp_go.
  - wp_go. eapply wp_gather; [done|done|]. intros l' w' _ _ Hw' _ _. by wp_go.
  - destruct Ha. by apply client_process_wf.
  - by apply usbmux_remote_process_wf.
  - destruct Ha. by apply run_callback_wf.
Qed.

(** *** Shutdown *)

Lemma wp_shutdown w Q :
  wf [] w ->
  (forall w', w_clients w' = ∅ -> w_remotes w' = ∅ -> w_locks w' = [] ->
     remote_device_list w' = None -> Q tt w') ->
  wp (shutdown EN) Q w.
Proof.
  intros Hw HQ. unfold shutdown. wp_go. apply wp_client_shutdown; [done|].
  intros w1 Hw1 Hemp. apply wp_remote_shutdown; [done|].
  intros w2 Hr Hl Hd _ [_ Hk]. apply HQ; try done. apply map_empty. intros c.
  destruct (w_clients w2 !! c) eqn:E; [|done]. destruct (Hk c) as [x Hx]; [by eexists|].
  by rewrite Hemp, lookup_empty in Hx.
Qed.
End one_environment.

(** *** Reachable states *)

(** A step handles one admissible input in some environment. *)
Inductive step : world -> world -> Prop :=
| step_run EN i w w' :
    EnvLaws EN -> admissible (EN := EN) i w -> run EN i w = Done tt w' -> step w w'.

(** The states after initialisation. *)
Inductive initial : world -> Prop :=
| initial_run EN no_mdns w :
    EnvLaws EN -> prints (create_plist_message "Listen") ->
    (_ ← client_init; usbmux_remote_init (EN := EN) no_mdns) world_init = Done tt w -> initial w.

Definition reachable (w : world) : Prop := exists w0, initial w0 /\ rtc step w0 w.

Lemma initial_wf w : initial w -> wf [] w.
Proof.
  intros [EN no_mdns w' EL Hpr Hrun].
  assert (wp (_ ← client_init; usbmux_remote_init no_mdns) (fun _ w => wf [] w) world_init) as H.
  { apply wp_init; [done|]. by intros. }
  unfold wp in H. by rewrite Hrun in H.
Qed.

Lemma step_wf w w' : wf [] w -> step w w' -> wf [] w'.
Proof.
  intros Hw Hs. revert Hw. destruct Hs as [EN i w w' EL Ha Hrun]. intros Hw.
  pose proof (run_wf i _ Hw Ha) as H.
  unfold wp in H. by rewrite Hrun in H.
Qed.

Lemma reachable_wf w : reachable w -> wf [] w.
Proof.
  intros (w0 & H0 & Hs). apply initial_wf in H0. revert H0.
  induction Hs as [|w1 w2 w3 H12 _ IH]; [done|]. intros H1. apply IH. by eapply step_wf.
Qed.

(** *** The main loop *)

Definition input_of (o : fdowner) (listenfd fd ev : Z) : option input :=
  if ev =? 0 then None
  else match o with
       | FD_LISTEN => Some (InAccept listenfd)
       | FD_CLIENT => Some (InClient fd ev)
       | FD_REMOTE => Some (InRemote fd ev)
       | _ => None
       end.

(** Every event of an iteration is admissible in the state it finds. *)
Fixpoint dispatch_ok (listenfd : Z) (l : list (option fdowner * option pollfd))
    (revents : list Z) (envs : nat -> Env) (i : nat) (w : world) : Prop :=
  match l, revents with
  | (Some o, Some p) :: l', ev :: revents' =>
      EnvLaws (envs i) /\
      match input_of o listenfd (pfd p) ev with
      | Some x => admissible (EN := envs i) x w
      | None => True
      end /\
      forall res w', dispatch_one (envs i) listenfd o (pfd p) ev w = Done res w' ->
        dispatch_ok listenfd l' revents' envs (S i) w'
  | [], _ => True
  | _, _ => False
  end.

Lemma dispatch_one_wf EN listenfd o fd ev w :
  EnvLaws EN -> wf [] w ->
  match input_of o listenfd fd ev with
  | Some x => admissible (EN := EN) x w
  | None => True
  end -> wp (dispatch_one EN listenfd o fd ev) (fun _ w' => wf [] w') w.
Proof.
  intros EL Hw Ha. unfold dispatch_one, input_of in *. destruct (ev =? 0); [by wp_go|].
  destruct o; try by wp_go.
  - apply wp_client_accept; [done|done|]. by intros.
  - destruct Ha. wp_go. wp_use (by apply client_process_wf). intros _ w' Hw'. by wp_go.
  - wp_go. wp_use (by apply usbmux_remote_process_wf). intros _ w' Hw'. by wp_go.
Qed.

Lemma dispatch_wf listenfd l revents envs i w :
  wf [] w -> dispatch_ok listenfd l revents envs i w ->
  wp (dispatch listenfd l revents envs i) (fun _ w' => wf [] w') w.
Proof.
  revert revents i w. induction l as [|[[o|] [p|]] l IH]; intros [|ev revents] i w Hw Hok;
    try done; cbn [dispatch dispatch_ok] in *; try by wp_go.
  destruct Hok as (EL & Ha & Hnext). wp_go.
  pose proof (dispatch_one_wf _ listenfd o (pfd p) ev w EL Hw Ha) as H.
  apply wp_run in H as (res & w' & Hrun & Hw'). apply wp_run. exists res, w'. split; [done|].
  destruct (_ && _); [by wp_go|]. apply IH; [done|by eapply Hnext].
Qed.

(** Every iteration of the loop is admissible. *)
Fixpoint loop_ok (listenfd : Z) (polls : list poll_result) (should_exit : bool) (l : fdlist)
    (w : world) : Prop :=
  match polls with
  | [] => True
  | p :: polls' =>
      should_exit = false ->
      EnvLaws (p_env p) /\ gatherable l w /\
      forall l' w', gather (p_env p) listenfd l w = Done l' w' ->
        (p_cnt p = -1 \/ p_cnt p = 0 ->
           loop_ok listenfd polls' (deliver (p_signals p) false) l' w') /\
        (p_cnt p <> -1 -> p_cnt p <> 0 ->
           dispatch_ok listenfd (contents l') (p_revents p) (p_envs p) 0 w' /\
           forall res w'', dispatch listenfd (contents l') (p_revents p) (p_envs p) 0 w' =
             Done res w'' -> loop_ok listenfd polls' (deliver (p_signals p) false) l' w'')
  end.

Lemma main_loop_wf listenfd polls e l w :
  wf [] w -> loop_ok listenfd polls e l w ->
  wp (main_loop listenfd polls e l) (fun res w' => wf [] w' /\ (res = 0 \/ res = -1)) w.
Proof.
  revert e l w. induction polls as [|p polls IH]; intros e l w Hw Hok; cbn [main_loop loop_ok] in *.
  { wp_go. auto. }
  destruct e; [by wp_go; auto|].
  destruct (Hok eq_refl) as (EL & Hg & Hnext). wp_go.
  assert (wp (gather (p_env p) listenfd l) (fun _ w' => wf [] w') w) as H.
  { eapply wp_gather; [done|done|]. by intros. }
  apply wp_run in H as (l' & w' & Hrun & Hw'). apply wp_run. exists l', w'. split; [done|].
  destruct (Hnext l' w' Hrun) as [Hidle Hdisp].
  destruct (Z.eqb_spec (p_cnt p) (-1)) as [E1|E1].
  { destruct (_ && _); [wp_go; auto|]. apply IH; auto. }
  destruct (Z.eqb_spec (p_cnt p) 0) as [E0|E0]; [apply IH; auto|].
  destruct (Hdisp E1 E0) as [Hd Hcont]. wp_go.
  pose proof (dispatch_wf _ _ _ _ _ _ Hw' Hd) as H.
  apply wp_run in H as (res & w'' & Hrun' & Hw''). apply wp_run. exists res, w''. split; [done|].
  destruct (res <? 0); [wp_go; auto|]. apply IH; [done|by eapply Hcont].
Qed.

(** [should_exit] after the signals of these calls. *)
Definition signalled (polls : list poll_result) (should_exit : bool) : bool :=
  foldl (fun e p => deliver (p_signals p) e) should_exit polls.

(** After a signal nothing more is polled. *)
Lemma main_loop_signal listenfd polls rest e l w :
  signalled polls e = true ->
  main_loop listenfd (polls ++ rest) e l w = main_loop listenfd polls e l w.
Proof.
  revert e l w. induction polls as [|p polls IH]; intros e l w He; cbn [app main_loop].
  { simpl in He. subst. by destruct rest. }
  destruct e; [done|]. unfold mbind, prog_bind.
  destruct (gather _ _ _ _) as [l' w'|]; [|done].
  repeat case_match; try done; by apply IH.
Qed.

(** *** A whole run *)

Lemma wp_prepare (EN : Env) (EL : EnvLaws EN) no_mdns remote_host remote_port Q :
  prints (create_plist_message "Listen") -> (is_Some remote_host -> dns_up (EN := EN)) ->
  (forall w, wf [] w -> w_clients w = ∅ -> Q tt w) ->
  wp (prepare EN no_mdns remote_host remote_port) Q world_init.
Proof.
  intros Hpr Hdns HQ. unfold prepare.
  change (wp (_ ← client_init; _ ← usbmux_remote_init no_mdns; ?k) Q world_init) with
    (wp (_ ← (_ ← client_init; usbmux_remote_init no_mdns); k) Q world_init).
  apply wp_bind. apply wp_init; [done|]. intros w Hw Hcl _ _.
  destruct remote_host as [host|]; [|wp_go; by apply HQ].
  unfold usbmux_remote_add_remote. wp_go. apply wp_service_add; try done; [by apply Hdns| | |].
  - intros _. wp_go. by apply HQ.
  - intros w' _ Hw' Hcl' _ _. wp_go. apply HQ; [done|by rewrite Hcl'].
  - intros w' _ _ [Hw' Hcl' _ _]. wp_go. apply HQ; [done|by rewrite Hcl'].
Qed.
End daemon_facts.
