(* ===== verification/Log.v ===== *)
(** usbfluxd/log.c: the format string built for each message.

    [usbfluxd_log] prepends a time stamp (or, for syslog, the level) to the
    caller's format and appends a newline, in a block of [20 + strlen(fmt)]
    bytes. The printing itself ([vsyslog], [vfprintf]) is output only. *)

From stdpp Require Import pretty.
From S2P Require Import Prelude Exec Mem Utils Proto.
Export Strings.

(** [enum loglevel] and the syslog priorities. *)
Definition LL_FATAL : Z := 0.
Definition LL_ERROR : Z := 1.
Definition LL_WARNING : Z := 2.
Definition LL_NOTICE : Z := 3.
Definition LL_INFO : Z := 4.
Definition LL_DEBUG : Z := 5.
Definition LL_SPEW : Z := 6.
Definition LL_FLOOD : Z := 7.
Definition LOG_CRIT : Z := 2.
Definition LOG_DEBUG : Z := 7.

(** The variables of the file, and whether the system log is open.
    [log_disable_syslog] closes it and leaves [log_syslog] set. *)
Record log_state := MkLog { log_level : Z; log_syslog : bool; syslog_open : bool }.
Definition log_enable_syslog (s : log_state) : log_state :=
  if log_syslog s then s else MkLog (log_level s) true true.
Definition log_disable_syslog (s : log_state) : log_state :=
  if log_syslog s then MkLog (log_level s) true false else s.

(** How [main] starts it: [verbose] is 1 plus the number of [-v]; in the background
    the level is two above it and the system log is used. *)
Definition start_logging (foreground : bool) (verbose : Z) (s : log_state) : log_state :=
  if foreground then MkLog (verbose + LL_NOTICE) (log_syslog s) (syslog_open s)
  else let s := log_enable_syslog s in MkLog (verbose + LL_WARNING) (log_syslog s) (syslog_open s).

Definition level_to_syslog_level (level : Z) : Z :=
  let result := level + LOG_CRIT in
  if LOG_DEBUG <? result then LOG_DEBUG else result.

Definition text (s : string) : list byte := string_bytes s.

(** [%d], and [%02d], [%03d] of numbers that fit. *)
Definition dec (n : Z) : list byte := text (pretty n).
Definition digit (n : Z) : byte := byte.of_Z (48 + n `mod` 10).
Definition dec2 (n : Z) : list byte := [digit (n `div` 10); digit n].
Definition dec3 (n : Z) : list byte := [digit (n `div` 100); digit (n `div` 10); digit n].

Record tm := MkTm { tm_hour : Z; tm_min : Z; tm_sec : Z }.

(** [strftime(fs, 10, "[%H:%M:%S", tp)]: nine characters and the NUL. *)
Definition strftime_text (tp : tm) : list byte :=
  text "[" ++ dec2 (tm_hour tp) ++ text ":" ++ dec2 (tm_min tp) ++ text ":" ++ dec2 (tm_sec tp).

(** [snprintf(b, n, ...)]: at most [n - 1] characters and a NUL. *)
Definition snprintf (b : block) (n : Z) (s : list byte) : block + fault :=
  block_write 0 (take (Z.to_nat (n - 1)) s ++ [NUL]) b.

(** The format handed to the output function, [None] when the message is below
    the log level. *)
Definition usbfluxd_log (log_level : Z) (log_syslog : bool) (tp : tm) (tv_usec : Z)
    (level : Z) (fmt : list byte) : option block + fault :=
  if log_level <? level then inl None
  else
    let fssize := u64 (20 + zlen fmt) in
    let fs := malloc fssize in
    let r :=
      if log_syslog then
        snprintf fs fssize (text "[" ++ dec level ++ text "] " ++ fmt ++ [Byte.x0a])
      else
        match block_write 0 (strftime_text tp ++ [NUL]) fs with
        | inl fs =>
            block_write 9
              (text "." ++ dec3 (Z.quot tv_usec 1000) ++ text "][" ++ dec level ++ text "] "
                 ++ fmt ++ [Byte.x0a; NUL]) fs
        | inr f => inr f
        end in
    match r with inl b => inl (Some b) | inr f => inr f end.

(** The line as a C string. *)
Definition log_line (log_syslog : bool) (tp : tm) (tv_usec level : Z) (fmt : list byte)
    : list byte :=
  if log_syslog then text "[" ++ dec level ++ text "] " ++ fmt ++ [Byte.x0a]
  else strftime_text tp ++ text "." ++ dec3 (Z.quot tv_usec 1000) ++ text "][" ++ dec level
         ++ text "] " ++ fmt ++ [Byte.x0a].

Lemma length_dec n : 0 <= n < 10 -> zlen (dec n) = 1.
Proof.
  intros Hn. pose proof (check_below (fun k => zlen (dec k) =? 1) 10 n
    ltac:(by vm_compute) Hn) as H. by apply Z.eqb_eq.
Qed.

(** The first write to a fresh block. *)
Lemma write_fresh src n :
  zlen src <= n -> exists b, block_write 0 src (malloc n) = inl b /\ alloc b = n /\ bytes b = src.
Proof.
  intros H. destruct (block_write_ok 0 src (malloc n)) as (b & Hw & Ha & Hb); [simpl; lia|done|].
  exists b. split; [done|]. split; [done|]. rewrite Hb.
  change (bytes (malloc n)) with (@nil byte). by rewrite take_nil, drop_nil, app_nil_r.
Qed.

Lemma log_fits log_level syslog tp usec level fmt :
  0 <= level < 10 -> level <= log_level -> zlen fmt < 2 ^ 32 ->
  exists b, usbfluxd_log log_level syslog tp usec level fmt = inl (Some b) /\
    bytes b = log_line syslog tp usec level fmt ++ [NUL] /\ alloc b = 20 + zlen fmt.
Proof.
  intros Hl Hle Hfmt. unfold usbfluxd_log, log_line.
  rewrite (proj2 (Z.ltb_ge _ _)) by lia. unfold u64. rewrite Z.mod_small by lia.
  pose proof (length_dec level Hl) as Hd. destruct syslog.
  - unfold snprintf.
    rewrite take_ge by (rewrite !length_app; cbn [length]; change (length (text "[")) with 1%nat;
      change (length (text "] ")) with 2%nat; lia).
    destruct (write_fresh ((text "[" ++ dec level ++ text "] " ++ fmt ++ [Byte.x0a]) ++ [NUL])
      (20 + zlen fmt)) as (b & -> & Ha & Hb).
    { rewrite !length_app. cbn [length malloc alloc]. change (length (text "[")) with 1%nat.
      change (length (text "] ")) with 2%nat. lia. }
    by exists b.
  - set (stamp := strftime_text tp). assert (length stamp = 9%nat) as Hs by done.
    destruct (write_fresh (stamp ++ [NUL]) (20 + zlen fmt)) as (b & -> & Ha & Hb).
    { rewrite length_app, Hs. simpl. lia. }
    set (tail := text "." ++ _). assert (zlen tail = 11 + zlen fmt) as Ht.
    { unfold tail. rewrite !length_app. cbn [length]. change (length (text ".")) with 1%nat.
      change (length (text "][")) with 2%nat. change (length (text "] ")) with 2%nat.
      change (length (dec3 (Z.quot usec 1000))) with 3%nat. lia. }
    destruct (block_write_ok 9 tail b) as (b' & -> & Ha' & Hb'').
    { rewrite Hb, length_app, Hs. simpl. lia. }
    { rewrite Ha, Ht. simpl. lia. }
    exists b'. split; [done|]. split; [|by rewrite Ha', Ha]. rewrite Hb'', Hb.
    rewrite drop_ge by (rewrite length_app, Hs; simpl; lia). rewrite app_nil_r.
    change (Z.to_nat 9) with 9%nat. rewrite <- Hs at 1. rewrite take_app_length.
    unfold tail. by rewrite <- !app_assoc.
Qed.
