(* ===== verification/Files.v ===== *)
(** usbfluxd/utils.c: reading and writing whole files, and property lists in them.

    A file is its contents. What the stdio calls make of it is an argument: an open
    stream is the result of [ftell] at its end and the bytes [fread] can deliver.
    The binary format of property lists is, like the XML format, libplist's. *)

From S2P Require Import Prelude Exec Mem Proto Plist.

(** What [fopen(filename, "rb")] and the calls on the stream give. *)
Record stream := MkStream { s_tell : Z; s_bytes : list byte }.

(** The stream of a regular file. *)
Definition stream_of (contents : list byte) : stream := MkStream (zlen contents) contents.

(** ** Buffers *)

(** The variable [buffer] points to: not written yet, or a block. *)
Inductive out_buffer := Unset | Block_at (b : block).

(** The test that should catch a failed [malloc] is on [buffer], the address of the
    caller's variable, and so is the [free] after a short read: it frees what
    [malloc] never returned. The results are the return value, [*buffer] and
    [*length]. *)
Definition buffer_read_from_filename (malloc_ok : Z -> bool) (f : option stream)
    : Z * out_buffer * Z + fault :=
  match f with
  | None => inl (0, Unset, 0)
  | Some s =>
      let size := u64 (s_tell s) in
      if size =? 0 then inl (0, Unset, 0)
      else
        let n := u64 (size + 1) in
        let got := take (Z.to_nat size) (s_bytes s) in
        if malloc_ok n then
          match block_write 0 got (malloc n) with
          | inr f => inr f
          | inl b => if zlen got =? size then inl (1, Block_at b, size) else inr BadFree
          end
        else if zlen got =? 0 then inr BadFree
        else inr NullDeref
  end.

(** The contents afterwards and the result; [room] is what can be written, [None]
    when the file cannot be opened. *)
Definition buffer_write_to_filename (old : option (list byte)) (room : option Z)
    (buffer : list byte) : option (list byte) * Z :=
  match room with
  | None => (old, 0)
  | Some k =>
      let written := Z.min k (zlen buffer) in
      (Some (take (Z.to_nat written) buffer), if written =? zlen buffer then 1 else 0)
  end.

(** ** Property lists *)

Inductive plist_format := PLIST_FORMAT_XML | PLIST_FORMAT_BINARY | FORMAT_OTHER.

Definition is_binary (buffer : list byte) (length : Z) : bool :=
  (8 <? length) && String.eqb (bytes_string (take 8 buffer)) "bplist00".

Section plist_files.
Context `{PL : PlistLib}.
(** [plist_from_bin] and [plist_to_bin]. *)
Context (plist_from_bin : list byte -> option plist) (plist_to_bin : plist -> option (list byte)).

(** [f] is [None] for a NULL file name. The result is 1 also when nothing could be
    parsed. *)
Definition plist_read_from_filename (malloc_ok : Z -> bool) (f : option (option stream))
    : Z * option plist + fault :=
  match f with
  | None => inl (0, None)
  | Some f =>
      match buffer_read_from_filename malloc_ok f with
      | inr e => inr e
      | inl (1, Block_at b, length) =>
          match block_read 0 length b with
          | inr e => inr e
          | inl text =>
              inl (1, if is_binary text length then plist_from_bin text else plist_from_xml text)
          end
      | inl _ => inl (0, None)
      end
  end.

(** A conversion that fails leaves [length] unset. *)
Definition plist_write_to_filename (p : option plist) (filename : bool) (format : plist_format)
    (old : option (list byte)) (room : option Z) : option (list byte) * Z + fault :=
  match p with
  | Some p =>
      if filename then
        match format with
        | FORMAT_OTHER => inl (old, 0)
        | _ =>
            match (match format with PLIST_FORMAT_XML => plist_to_xml p | _ => plist_to_bin p end) with
            | None => inr Uninitialised
            | Some text => inl (buffer_write_to_filename old room text)
            end
        end
      else inl (old, 0)
  | None => inl (old, 0)
  end.

(** *** Facts *)

Lemma read_regular malloc_ok contents :
  contents <> [] -> zlen contents < 2 ^ 63 -> malloc_ok (zlen contents + 1) = true ->
  exists b, buffer_read_from_filename malloc_ok (Some (stream_of contents)) =
      inl (1, Block_at b, zlen contents) /\ bytes b = contents /\ alloc b = zlen contents + 1.
Proof.
  intros Hne Hlen Hm. unfold buffer_read_from_filename. cbn [s_tell s_bytes stream_of].
  assert (zlen contents <> 0) as H0 by (by destruct contents).
  unfold u64. rewrite (Z.mod_small (zlen contents)) by lia.
  rewrite (proj2 (Z.eqb_neq _ _)) by done. rewrite Z.mod_small, Hm by lia.
  rewrite take_ge by lia.
  destruct (block_write_ok 0 contents (malloc (zlen contents + 1))) as (b & -> & Ha & Hb);
    [simpl; lia|simpl; lia|]. rewrite Z.eqb_refl. exists b. split; [done|]. split; [|done].
  rewrite Hb. simpl. by rewrite drop_nil, app_nil_r.
Qed.

(** The formats a text can be told apart by. *)
Definition text_of (format : plist_format) (p : plist) (text : list byte) : Prop :=
  match format with
  | PLIST_FORMAT_XML =>
      plist_to_xml p = Some text /\ plist_from_xml text = Some p /\ is_binary text (zlen text) = false
  | PLIST_FORMAT_BINARY =>
      plist_to_bin p = Some text /\ plist_from_bin text = Some p /\ is_binary text (zlen text) = true
  | FORMAT_OTHER => False
  end.


(** What can go wrong while a file is read does: a read that stops early frees
    an address that is none of [malloc]'s, without memory the bytes are written
    through NULL, and a file whose size is not known (a pipe: [ftell] gives -1)
    overruns an empty block. *)
Theorem file_errors_are_faults malloc_ok s :
  (0 < zlen (s_bytes s) < s_tell s -> s_tell s < 2 ^ 63 ->
     buffer_read_from_filename malloc_ok (Some s) =
       inr (if malloc_ok (s_tell s + 1) then BadFree else NullDeref)) /\
  (s_tell s = -1 -> malloc_ok 0 = true -> s_bytes s <> [] -> zlen (s_bytes s) < 2 ^ 63 ->
     buffer_read_from_filename malloc_ok (Some s) = inr OutOfBounds).
Proof.
  unfold buffer_read_from_filename, u64. split.
  - intros Hb Hs. rewrite (Z.mod_small (s_tell s)), Z.mod_small by lia.
    rewrite (proj2 (Z.eqb_neq _ _)) by lia. rewrite take_ge by lia. destruct (malloc_ok _).
    + destruct (block_write_ok 0 (s_bytes s) (malloc (s_tell s + 1))) as (b & -> & _); [simpl; lia..|].
      by rewrite (proj2 (Z.eqb_neq _ _)) by lia.
    + by rewrite (proj2 (Z.eqb_neq _ _)) by lia.
  - intros -> Hm Hne Hlen. change ((-1) `mod` 2 ^ 64) with (2 ^ 64 - 1).
    change ((2 ^ 64 - 1 + 1) `mod` 2 ^ 64) with 0. rewrite Hm.
    change (2 ^ 64 - 1 =? 0) with false. cbv iota. rewrite take_ge by lia.
    assert (0 < zlen (s_bytes s)) by (destruct (s_bytes s); [done|simpl; lia]).
    assert ((alloc (malloc 0) <? 0 + zlen (s_bytes s)) = true) as Hov
      by (apply Z.ltb_lt; cbn [alloc malloc]; lia).
    unfold block_write. by rewrite Hov.
Qed.
End plist_files.

(** *** At concrete files *)

Lemma file_errors_are_faults_witness :
  buffer_read_from_filename (fun _ => true) (Some (MkStream 10 [Byte.x61])) = inr BadFree /\
  buffer_read_from_filename (fun _ => true) (Some (MkStream (-1) [Byte.x61])) = inr OutOfBounds.
Proof.
  split.
  - exact (proj1 (file_errors_are_faults (fun _ => true) (MkStream 10 [Byte.x61])) ltac:(simpl; lia)
      ltac:(simpl; lia)).
  - exact (proj2 (file_errors_are_faults (fun _ => true) (MkStream (-1) [Byte.x61])) eq_refl eq_refl
      ltac:(done) ltac:(simpl; lia)).
Defined.
