(* ===== verification/Startup.v ===== *)
(** usbfluxd/main.c: command line options, and the dance with the socket files
    around a run of the daemon.

    usbfluxd takes the place of usbmuxd at /var/run/usbmuxd: the original socket
    is renamed at startup and renamed back at exit. The two paths are the state;
    [access], [unlink] and [rename] act on it with the rights of root. *)

From S2P Require Import Prelude Exec Proto CStr.

(** ** Options *)

(** The position of the first ':' splits host and port. *)
Fixpoint split_colon (l : list byte) : option (list byte * list byte) :=
  match l with
  | [] => None
  | c :: l' =>
      if byte.unsigned c =? 58 then Some ([], l')
      else match split_colon l' with
           | Some (a, b) => Some (c :: a, b)
           | None => None
           end
  end.

(** "host:port", the port defaulting to 5000: shared by usbfluxd and usbfluxctl
    before the port is narrowed. *)
Definition parse_remote (arg : string) : string * Z :=
  match split_colon (string_bytes arg) with
  | Some (host, port) => (bytes_string host, strtoul (bytes_string port) 10)
  | None => (arg, 5000)
  end.

Record options := MkOptions {
  verbose : Z;
  foreground : bool;
  opt_no_usbmuxd : bool;
  opt_no_mdns : bool;
  remote_host : option string;
  remote_port : Z }.
Definition default_options : options := MkOptions 1 false false false None 0.

(** What [getopt_long] returns, in order. *)
Inductive opt := OptHelp | OptForeground | OptVerbose | OptVersion | OptNoUsbmuxd | OptNoMdns
               | OptRemote (optarg : string) | OptUnknown.

(** [inr] is the status the process exits with. *)
Definition parse_opt (o : opt) (s : options) : options + Z :=
  match o with
  | OptHelp => inr 0
  | OptForeground =>
      inl (MkOptions (verbose s) true (opt_no_usbmuxd s) (opt_no_mdns s) (remote_host s)
             (remote_port s))
  | OptVerbose =>
      inl (MkOptions (verbose s + 1) (foreground s) (opt_no_usbmuxd s) (opt_no_mdns s)
             (remote_host s) (remote_port s))
  | OptVersion => inr 0
  | OptNoUsbmuxd =>
      inl (MkOptions (verbose s) (foreground s) true (opt_no_mdns s) (remote_host s)
             (remote_port s))
  | OptNoMdns =>
      inl (MkOptions (verbose s) (foreground s) (opt_no_usbmuxd s) true (remote_host s)
             (remote_port s))
  | OptRemote optarg =>
      let '(host, port) := parse_remote optarg in
      inl (MkOptions (verbose s) (foreground s) (opt_no_usbmuxd s) (opt_no_mdns s) (Some host)
             (u16 port))
  | OptUnknown => inr 2
  end.

Fixpoint parse_opts (l : list opt) (s : options) : options + Z :=
  match l with
  | [] => inl s
  | o :: l' => match parse_opt o s with inl s' => parse_opts l' s' | inr st => inr st end
  end.

(** What follows the last '/' of [argv[0]]. *)
Fixpoint after_slash (l : list byte) : option (list byte) :=
  match l with
  | [] => None
  | c :: l' =>
      match after_slash l' with
      | Some r => Some r
      | None => if byte.unsigned c =? 47 then Some l' else None
      end
  end.
Definition command_name (argv0 : string) : string :=
  match after_slash (string_bytes argv0) with
  | Some l => bytes_string l
  | None => argv0
  end.

Definition tab : string := String (Ascii.ascii_of_nat 9) EmptyString.
Definition print_usage (argv0 : string) : list string :=
  [ "Usage: " +:+ command_name argv0 +:+ " [OPTIONS]";
    "Redirects the standard usbmuxd socket to allow connections to local and";
    "remote usbmuxd instances so remote devices appear connected locally.";
    "";
    "  -h, --help" +:+ tab +:+ tab +:+ "Print this message.";
    "  -v, --verbose" +:+ tab +:+ tab +:+ "Be verbose (use twice or more to increase).";
    "  -f, --foreground" +:+ tab +:+ "Do not daemonize (implies one -v).";
    "  -r, --remote" +:+ tab +:+ tab +:+ "Connect to the specified remote usbmuxd, specified as host:port.";
    "  -n, --no-usbmuxd" +:+ tab +:+ "Run even if local usbmuxd is not available.";
    "  -m, --no-mdns" +:+ tab +:+ "Disable automatic detection via mDNS.";
    "  -V, --version" +:+ tab +:+ tab +:+ "Print version information and exit.";
    "" ]%string.

(** [PACKAGE_STRING] of configure.ac. *)
Definition PACKAGE_STRING : string := "usbfluxd 1.2.0".

(** What an option that ends the program prints, and whether to the standard error. *)
Definition opt_output (argv0 : string) (o : opt) : list string * bool :=
  match o with
  | OptHelp => (print_usage argv0, false)
  | OptVersion => ([PACKAGE_STRING], false)
  | OptUnknown => (print_usage argv0, true)
  | _ => ([], false)
  end.

(** ** Socket files *)

(** A socket file: who bound it, and whether a process listens on it. *)
Record sock := MkSock { s_owner : Z; s_usable : bool }.

(** [USBMUXD_SOCKET_FILE] and [USBMUXD_RENAMED_SOCKET]. *)
Record files := MkFiles { socket_file : option sock; renamed_file : option sock }.

(** [socket_connect_unix(path) >= 0]. *)
Definition connects (f : option sock) : bool :=
  match f with Some s => s_usable s | None => false end.
Definition present (f : option sock) : bool := bool_decide (f <> None).

(** What the checks of [main] decide: [None] is [goto terminate]. The flags are
    [renamed] and [opt_no_usbmuxd]. *)
Definition check_sockets (no_usbmuxd : bool) (f : files) : files * bool * option bool :=
  if present (renamed_file f) then
    let '(f, renamed) :=
      if connects (renamed_file f) then (f, true)
      else (MkFiles (socket_file f) None, false) in
    if present (socket_file f) then
      if connects (socket_file f) then (f, false, None) else (f, renamed, Some false)
    else (f, renamed, Some no_usbmuxd)
  else if present (socket_file f) then
    if connects (socket_file f) then (f, false, Some false)
    else if no_usbmuxd then (f, false, Some true) else (f, false, None)
  else if no_usbmuxd then (f, false, Some true) else (f, false, None).

(** [rename(USBMUXD_SOCKET_FILE, USBMUXD_RENAMED_SOCKET)] and back. *)
Definition rename_away (f : files) : option files :=
  match socket_file f with Some s => Some (MkFiles None (Some s)) | None => None end.
Definition rename_back (f : files) : option files :=
  match renamed_file f with Some s => Some (MkFiles (Some s) None) | None => None end.

(** Up to the creation of the listening socket; the boolean is [renamed], and
    [None] stands for [goto terminate] with the result 0. *)
Definition startup (no_usbmuxd : bool) (f : files) : files * bool * option unit :=
  match check_sockets no_usbmuxd f with
  | (f, renamed, None) => (f, renamed, None)
  | (f, renamed, Some no_usbmuxd) =>
      if negb renamed && negb no_usbmuxd then
        match rename_away f with
        | Some f => (f, true, Some tt)
        | None => (f, false, None)
        end
      else (f, renamed, Some tt)
  end.

(** ** Processes

    [daemonize] forks twice. The functions below are those of one process: the
    results of the forks say which. *)

(** The results of the calls of [daemonize]; [d_orphan] is [getppid() == 1], and
    [d_status] what the waiting parent reads from the pipe, [None] when that is
    no whole [int]. *)
Record daemonize_calls := MkCalls {
  d_orphan : bool;
  d_pipe : Z;
  d_fork : Z;
  d_status : option Z;
  d_setsid : Z;
  d_fork2 : Z;
  d_chdir : Z;
  d_stdin : bool;
  d_stdout : bool }.

(** [daemonize] returns, with [report_to_parent], or the process ends there. *)
Inductive daemonized := Daemonized (res : Z) (report_to_parent : bool) | Exited (status : Z).

Definition daemonize (c : daemonize_calls) : daemonized :=
  if d_orphan c then Daemonized 0 false
  else if d_pipe c <? 0 then Daemonized (d_pipe c) false
  else if d_fork c <? 0 then Daemonized (d_fork c) false
  else if 0 <? d_fork c then Exited (default 1 (d_status c))
  else if d_setsid c <? 0 then Daemonized (-1) true
  else if d_fork2 c <? 0 then Daemonized (d_fork2 c) true
  else if 0 <? d_fork2 c then Exited 0
  else if d_chdir c <? 0 then Daemonized (-2) true
  else if negb (d_stdin c) then Daemonized (-3) true
  else if negb (d_stdout c) then Daemonized (-3) true
  else Daemonized 0 true.

(** [notify_parent]: its result, and the [int] that went into the pipe. *)
Record notify_calls := MkNotify { n_write : Z; n_freopen : bool }.
Definition notify_parent (c : notify_calls) (status : Z) : Z * option Z :=
  if negb (n_write c =? 4) then (if 0 <=? n_write c then -2 else n_write c, None)
  else (if n_freopen c then 0 else -1, Some status).

(** The results of the calls a run makes after the checks: [daemonize] (none in the
    foreground), the four calls of [socket_create_unix], [notify_parent] before the
    main loop and at the end, and [main_loop]. *)
Record outcomes := MkOutcomes {
  o_daemonize : option daemonize_calls;
  o_unlink : bool; o_socket : bool; o_bind : bool; o_listen : bool;
  o_notify : notify_calls;
  o_notify_end : notify_calls;
  o_loop : Z }.

(** [socket_create_unix] of socket.c, as far as the path is concerned: [unlink]
    removes what is there, [bind] makes a socket file, [listen] makes it usable.
    The boolean is a result that is not negative. *)
Definition socket_create_unix (self : Z) (o : outcomes) (f : files) : files * bool :=
  if negb (o_unlink o) then (f, false)
  else
    let f := MkFiles None (renamed_file f) in
    if negb (o_socket o) then (f, false)
    else if negb (o_bind o) then (f, false)
    else (MkFiles (Some (MkSock self (o_listen o))) (renamed_file f), o_listen o).

(** How a process ends: the files, its status, and what it told the parent. *)
Record ended := MkEnded { e_files : files; e_status : Z; e_message : option Z }.

(** The end of [main], at the label [terminate], with [res]; [said] was written to
    the pipe before. *)
Definition terminate (o : outcomes) (renamed : bool) (res : Z) (report : bool) (said : option Z)
    (f : files) : ended :=
  let status := if res <? 0 then - res else 0 in
  MkEnded (if renamed then default f (rename_back f) else f) status
    (if report then snd (notify_parent (o_notify_end o) status) else said).

(** A whole run of [main] after the options, in one process. *)
Definition lifetime (self : Z) (root no_usbmuxd : bool) (o : outcomes) (f : files) : ended :=
  if negb root then terminate o false 0 false None f
  else
    match startup no_usbmuxd f with
    | (f, renamed, None) => terminate o renamed 0 false None f
    | (f, renamed, Some _) =>
        match (match o_daemonize o with Some c => daemonize c | None => Daemonized 0 false end) with
        | Exited status => MkEnded f status None
        | Daemonized res report =>
            if res <? 0 then terminate o renamed res report None f
            else
              let '(f, created) := socket_create_unix self o f in
              if negb created then terminate o renamed (-1) report None f
              else if report then
                let '(res, said) := notify_parent (o_notify o) 0 in
                if res <? 0 then terminate o renamed res false said f
                else terminate o renamed (o_loop o) false said f
              else terminate o renamed (o_loop o) false None f
        end
    end.

(** The process that goes on to be the daemon. *)
Definition goes_on (o : outcomes) : Prop :=
  match o_daemonize o with
  | Some c => d_orphan c = true \/ (d_fork c <= 0 /\ d_fork2 c <= 0)
  | None => True
  end.

(** *** Facts about [daemonize] *)

Lemma goes_on_daemonized o :
  goes_on o -> exists res report,
    match o_daemonize o with Some c => daemonize c | None => Daemonized 0 false end =
    Daemonized res report.
Proof.
  unfold goes_on, daemonize. destruct (o_daemonize o) as [c|]; [|eauto].
  intros H. repeat case_bool; eauto; zbool; destruct H as [H|H]; congruence || lia.
Qed.

(** *** Facts *)

Lemma split_colon_spec host rest :
  Forall (fun c => byte.unsigned c <> 58) host ->
  split_colon (host ++ Byte.x3a :: rest) = Some (host, rest).
Proof.
  induction 1 as [|c host Hc _ IH]; [done|]. cbn [split_colon app].
  rewrite (proj2 (Z.eqb_neq _ _)) by done. by rewrite IH.
Qed.
Lemma split_colon_none l :
  Forall (fun c => byte.unsigned c <> 58) l -> split_colon l = None.
Proof.
  induction 1 as [|c l Hc _ IH]; [done|]. cbn [split_colon].
  rewrite (proj2 (Z.eqb_neq _ _)) by done. by rewrite IH.
Qed.
Lemma bytes_string_bytes s : bytes_string (string_bytes s) = s.
Proof. apply String.string_of_list_byte_of_string. Qed.
Lemma string_bytes_string l : string_bytes (bytes_string l) = l.
Proof. apply String.list_byte_of_string_of_list_byte. Qed.
