(* ===== verification/Ctl.v ===== *)
(** tools/usbfluxctl.c: the control tool. One query is one connection to the
    daemon's socket: a request, then an answer read in as many pieces as the
    kernel delivers. *)

From stdpp Require Import pretty.
From S2P Require Import Prelude Exec Proto CStr Plist Startup.

Section ctl.
Context `{PL : PlistLib}.

(** ** Dictionary accessors *)

Definition plist_dict_get_bool_val (dict : plist) (key : string) : bool :=
  if bool_decide (plist_get_node_type dict <> PLIST_DICT) then false
  else match plist_dict_get_item dict key with
       | Some node =>
           if bool_decide (plist_get_node_type node <> PLIST_BOOLEAN) then false
           else default false (plist_get_bool_val node)
       | None => false
       end.

Definition plist_dict_get_uint_val (dict : plist) (key : string) : Z :=
  if bool_decide (plist_get_node_type dict <> PLIST_DICT) then 0
  else match plist_dict_get_item dict key with
       | Some node =>
           if bool_decide (plist_get_node_type node <> PLIST_UINT) then 0
           else default 0 (plist_get_uint_val node)
       | None => 0
       end.

Definition plist_dict_copy_string_val (dict : plist) (key : string) : option string :=
  if bool_decide (plist_get_node_type dict <> PLIST_DICT) then None
  else match plist_dict_get_item dict key with
       | Some node =>
           if bool_decide (plist_get_node_type node <> PLIST_STRING) then None
           else plist_get_string_val node
       | None => None
       end.

(** ** The connection *)

(** The results of the calls of [socket_connect_unix]; [u_nosigpipe] is that of
    [setsockopt], [None] where the option does not exist. *)
Record unix_calls := {
  u_stat : Z;
  u_is_socket : bool;
  u_socket : Z;
  u_nosigpipe : option Z;
  u_connect : Z }.

(** The descriptor, or -1; and the descriptors closed. *)
Definition socket_connect_unix (c : unix_calls) : Z * list Z :=
  if negb (u_stat c =? 0) then (-1, [])
  else if negb (u_is_socket c) then (-1, [])
  else if u_socket c <? 0 then (-1, [])
  else if bool_decide (u_nosigpipe c = Some (-1)) then (-1, [u_socket c])
  else if u_connect c <? 0 then (-1, [u_socket c])
  else (u_socket c, []).

(** ** The query *)

(** The loop that reads the payload; [rs] are the results of the [recv] calls,
    [None] an error. After the last of them the peer has closed: [recv] gives 0
    for ever, which the loop does not treat as an end. *)
Fixpoint receive (total : Z) (rs : list (option (list byte))) (acc : list byte)
    : list byte + fault :=
  if zlen acc <? total then
    match rs with
    | [] => inr Diverges
    | None :: _ => inl acc
    | Some bs :: rs' => receive total rs' (acc ++ take (Z.to_nat (total - zlen acc)) bs)
    end
  else inl acc.

(** What the connection does: how it opens, how much of the two sends is taken, the
    first 16 bytes read, and the reads that follow. *)
Record connection := {
  k_calls : unix_calls;
  k_send_header : Z;
  k_send_body : Z;
  k_header : list byte;
  k_reads : list (option (list byte)) }.

Definition query_header (req_len : Z) : usbmuxd_header := MkHeader (u32 (16 + req_len)) 1 8 0.

Definition usbfluxd_query (k : connection) (req_xml : list byte) : option plist + fault :=
  let req_len := zlen req_xml in
  if fst (socket_connect_unix (k_calls k)) <? 0 then inl None
  else if negb (k_send_header k =? HEADER_SIZE) then inl None
  else if k_send_body k <? req_len then inl None
  else if negb (zlen (k_header k) =? HEADER_SIZE) then inl None
  else
    let muxhdr := decode_header (k_header k) in
    if (h_version muxhdr =? 1) && (h_message muxhdr =? 8) && (h_tag muxhdr =? 0) then
      let total := u32 (h_length muxhdr - HEADER_SIZE) in
      match receive total (k_reads k) [] with
      | inr f => inr f
      | inl p => inl (if zlen p =? total then plist_from_xml p else None)
      end
    else inl None.

(** ** Commands *)

(** [snprintf(req_xml, 256, ...)] keeps 255 characters. *)
Definition request (message : string) (arg : string) : list byte :=
  let '(host, port) := parse_remote arg in
  take 255 (string_bytes
    ("<plist version=" +:+ bytes_string [Byte.x22] +:+ "1.0" +:+ bytes_string [Byte.x22] +:+
     "><dict><key>MessageType</key><string>" +:+ message +:+
     "</string><key>HostAddress</key><string>" +:+ host +:+
     "</string><key>PortNumber</key><integer>" +:+ pretty port +:+
     "</integer></dict></plist>")).

(** The result of an answer: [(int)val] of "Number", -1 without it. *)
Definition answer_result (pl : plist) : Z :=
  match plist_dict_get_item pl "Number" with
  | Some node => i32 (u64 (default 0 (plist_get_uint_val node)))
  | None => -1
  end.

Definition handle_request (message : string) (k : connection) (arg : string) : Z + fault :=
  match usbfluxd_query k (request message arg) with
  | inr f => inr f
  | inl None => inl (-1)
  | inl (Some pl) => inl (answer_result pl)
  end.
Definition handle_add : connection -> string -> Z + fault := handle_request "AddInstance".
Definition handle_del : connection -> string -> Z + fault := handle_request "RemoveInstance".

(** One line per instance, then one per device; the process result is -1 even
    when the list was printed. *)
Definition instance_line (key : string) (node : plist) : string :=
  let num := match plist_dict_get_item node "Devices" with
             | Some devices => zlen (plist_array_items devices)
             | None => 0
             end in
  (key +:+ ": " +:+
   (if plist_dict_get_bool_val node "IsUnix" then "Local"
    else
      default "(null)" (plist_dict_copy_string_val node "Host") +:+ ":" +:+ pretty (u16 (plist_dict_get_uint_val node "Port")))
   +:+ " (" +:+ pretty num +:+ ")")%string.

Definition device_lines (node : plist) : list string :=
  match plist_dict_get_item node "Devices" with
  | Some devices =>
      (fun d => (String (Ascii.ascii_of_nat 9) EmptyString +:+ default "(null)" (plist_get_string_val d))%string)
        <$> plist_array_items devices
  | None => []
  end.

Definition list_request : list byte :=
  string_bytes ("<plist version=" +:+ bytes_string [Byte.x22] +:+ "1.0" +:+
    bytes_string [Byte.x22] +:+
    "><dict><key>MessageType</key><string>Instances</string></dict></plist>").

(** [plist_to_xml] and [puts]: without a text the pointer stays NULL. *)
Definition print_xml (pl : plist) : list string + fault :=
  match plist_to_xml pl with
  | Some xml => inl [bytes_string xml]
  | None => inr NullDeref
  end.

(** What goes to the standard output, and the result. [arg] is [argv[2]]. *)
Definition handle_list (k : connection) (arg : option string) : list string * Z + fault :=
  match usbfluxd_query k list_request with
  | inr f => inr f
  | inl None => inl ([], -1)
  | inl (Some pl) =>
      if bool_decide (arg = Some "xml"%string) then
        match print_xml pl with inl out => inl (out, -1) | inr f => inr f end
      else
        let insts := match plist_dict_get_item pl "Instances" with
                     | Some i => plist_dict_items i
                     | None => []
                     end in
        inl (concat ((fun kv => instance_line kv.1 kv.2 :: device_lines kv.2) <$> insts), -1)
  end.

Definition listeners_request : list byte :=
  string_bytes ("<plist version=" +:+ bytes_string [Byte.x22] +:+ "1.0" +:+
    bytes_string [Byte.x22] +:+
    "><dict><key>MessageType</key><string>ListListeners</string></dict></plist>").

Definition handle_listeners (k : connection) : list string * Z + fault :=
  match usbfluxd_query k listeners_request with
  | inr f => inr f
  | inl (Some pl) => match print_xml pl with inl out => inl (out, 0) | inr f => inr f end
  | inl None => inl (["uh"%string], 0)
  end.

Definition print_usage (argv0 : string) : list string :=
  let cmd := command_name argv0 in
  ["usage: " +:+ cmd +:+ " add HOSTADDR[:PORT]"; "       " +:+ cmd +:+ " del HOSTADDR[:PORT]";
   "       " +:+ cmd +:+ " list [xml]"]%string.

(** [SUCCESS] is printed for the result 0, which only an answer gives. *)
Definition reported (r : Z + fault) : list string * Z + fault :=
  match r with
  | inl result => inl (if result =? 0 then ["SUCCESS"%string] else [], result)
  | inr f => inr f
  end.

Definition main (k : connection) (argv0 : string) (argv : list string) : list string * Z + fault :=
  match argv with
  | [] => inl (print_usage argv0, -1)
  | command :: args =>
      if bool_decide (command = "add"%string) then
        match args with
        | [] => inl (print_usage argv0, -1)
        | arg :: _ => reported (handle_add k arg)
        end
      else if bool_decide (command = "del"%string) then
        match args with
        | [] => inl (print_usage argv0, -1)
        | arg :: _ => reported (handle_del k arg)
        end
      else if bool_decide (command = "list"%string) then handle_list k (head args)
      else if bool_decide (command = "listeners"%string) then handle_listeners k
      else inl (print_usage argv0, -1)
  end.

(** *** Facts *)

(** The pieces that arrive before the total is reached are put together in
    order. *)
Lemma receive_all total chunks acc rest :
  zlen acc <= total -> zlen acc + zlen (concat chunks) >= total ->
  exists p, receive total ((Some <$> chunks) ++ rest) acc = inl p /\
    p = acc ++ take (Z.to_nat (total - zlen acc)) (concat chunks).
Proof.
  revert acc. induction chunks as [|c chunks IH]; intros acc Hle Hge.
  - simpl in Hge. exists acc. split.
    + destruct rest; simpl; by rewrite (proj2 (Z.ltb_ge _ _)) by lia.
    + simpl. by rewrite take_nil, app_nil_r.
  - cbn [fmap list_fmap app receive]. destruct (Z.ltb_spec (zlen acc) total) as [Hlt|].
    2: { exists acc. split; [done|]. replace (Z.to_nat (total - zlen acc)) with 0%nat by lia.
         by rewrite take_0, app_nil_r. }
    set (c' := take _ c). cbn [concat] in *. rewrite length_app in Hge.
    assert (zlen c' <= total - zlen acc) as Hc' by (unfold c'; rewrite length_take; lia).
    destruct (IH (acc ++ c')) as (p & -> & ->).
    { rewrite length_app. lia. }
    { rewrite length_app. unfold c'. rewrite length_take. lia. }
    eexists. split; [done|]. rewrite <- app_assoc, take_app, length_app. f_equal. f_equal.
    f_equal. unfold c'. rewrite length_take. lia.
Qed.

(** Early end of file: the loop never leaves. *)
Lemma receive_eof total chunks acc :
  zlen acc + zlen (concat chunks) < total -> receive total (Some <$> chunks) acc = inr Diverges.
Proof.
  revert acc. induction chunks as [|c chunks IH]; intros acc Hlt.
  - simpl in *. by rewrite (proj2 (Z.ltb_lt _ _)) by lia.
  - cbn [fmap list_fmap concat] in *. rewrite length_app in Hlt. cbn [receive].
    rewrite (proj2 (Z.ltb_lt _ _)) by lia. apply IH. rewrite length_app, length_take. lia.
Qed.
End ctl.
