(* ===== verification/DataTheorems.v ===== *)
(** Properties of the data structures and of the pure functions: utils.c, the
    identifiers, the packets and buffers, the log line, options and socket files,
    the control tool. *)

From S2P Require Import Prelude Exec Mem Utils Proto CStr RemoteId Plist World.
From S2P Require Import Socket Client Remote Teardown Command RemoteProcess.
From S2P Require Import WorldFacts Invariant ClientFacts.
From S2P Require Import Log Startup Ctl.

(** ** Identifiers *)

Lemma make_device_id_sum id dev :
  0 <= id < 256 -> make_device_id id dev = id * 2 ^ 24 + dev `mod` 2 ^ 24.
Proof.
  intros Hid. unfold make_device_id. rewrite land_low24.
  pose proof (Z.mod_pos_bound dev (2 ^ 24) ltac:(lia)).
  rewrite lor_shiftl_add by lia. apply u32_small. lia.
Qed.

Lemma top_of_sum id d : 0 <= d < 2 ^ 24 -> Z.shiftr (id * 2 ^ 24 + d) 24 = id.
Proof.
  intros. rewrite shiftr_top8, Z.div_add_l by lia. rewrite Z.div_small by lia. lia.
Qed.

(** C32. A device id announced by an instance leads back to it: the top byte of
    the id, which [usbmux_remote_connect] takes to choose the connection, is the
    identifier of the instance, and the low 24 bits, which it sends on, are those
    of the device's own id; the key under which the device is listed gives the
    same id back. *)
Theorem device_id_round_trip (id dev : Z) :
  0 <= id < 256 ->
  u8 (Z.shiftr (make_device_id id dev) 24) = id /\
  Z.land (make_device_id id dev) 0xFFFFFF = Z.land dev 0xFFFFFF /\
  key_device_id (format_devid (make_device_id id dev)) = make_device_id id dev.
Proof.
  intros Hid. rewrite make_device_id_sum by done.
  pose proof (Z.mod_pos_bound dev (2 ^ 24) ltac:(lia)) as Hd. split_and!.
  - rewrite top_of_sum by done. by apply u8_small.
  - rewrite !land_low24, Z.add_comm, Z_mod_plus_full. apply Z.mod_mod. lia.
  - unfold key_device_id. rewrite strtol_format by lia. apply u32_small. lia.
Qed.
Lemma device_id_round_trip_witness :
  0 <= 3 < 256 /\
  u8 (Z.shiftr (make_device_id 3 0x12345678) 24) = 3 /\
  Z.land (make_device_id 3 0x12345678) 0xFFFFFF = Z.land 0x12345678 0xFFFFFF /\
  key_device_id (format_devid (make_device_id 3 0x12345678)) = make_device_id 3 0x12345678.
Proof. split; [lia|]. apply (device_id_round_trip 3 0x12345678). lia. Defined.

(** Devices of two instances, or two devices of one, never share an id in
    the list of this daemon. *)
Theorem device_ids_distinct (id id' dev dev' : Z) :
  0 <= id < 256 -> 0 <= id' < 256 -> 0 <= dev < 2 ^ 24 -> 0 <= dev' < 2 ^ 24 ->
  format_devid (make_device_id id dev) = format_devid (make_device_id id' dev') ->
  id = id' /\ dev = dev'.
Proof.
  intros Hi Hi' Hd Hd' E.
  apply format_devid_inj in E; [|rewrite make_device_id_sum by done; rewrite Z.mod_small; lia..].
  rewrite !make_device_id_sum, !Z.mod_small in E by done.
  assert (id = id') as ->; [|lia].
  rewrite <- (top_of_sum id dev), <- (top_of_sum id' dev') by done. by rewrite E.
Qed.
Lemma device_ids_distinct_witness :
  format_devid (make_device_id 7 5) = format_devid (make_device_id 7 5) /\ 7 = 7 /\ 5 = 5.
Proof. split; [done|]. apply (device_ids_distinct 7 7 5 5); lia || done. Defined.

(** The identifier chosen for a new instance is the smallest of 1 to 255
    that is free, and 0 exactly when none is. *)
Theorem new_remote_id_smallest_free (m : list Z) :
  let i := get_new_remote_id m in
  (i = 0 /\ forall j, 1 <= j < 256 -> id_used m j = true) \/
  (1 <= i < 256 /\ id_used m i = false /\ forall j, 1 <= j < i -> id_used m j = true).
Proof. apply find_id_spec; lia. Qed.

(** Marking an identifier used or free changes that bit of the map and no
    other. *)
Theorem set_remote_id_used_exact (m : list Z) (i j : Z) (used : bool) :
  map_ok m -> 0 <= i < 256 -> 0 <= j < 256 ->
  map_ok (set_remote_id_used i used m) /\
  id_used (set_remote_id_used i used m) j = if i =? j then used else id_used m j.
Proof. intros Hm Hi Hj. split; [by apply set_ok|by apply id_used_set]. Qed.
Lemma set_remote_id_used_exact_witness :
  map_ok (set_remote_id_used 9 true remote_id_map_init) /\
  id_used (set_remote_id_used 9 true remote_id_map_init) 9 = if 9 =? 9 then true else
    id_used remote_id_map_init 9.
Proof.
  apply (set_remote_id_used_exact remote_id_map_init 9 9 true); [|lia|lia].
  split; [reflexivity|by apply Forall_replicate].
Defined.

(** ** Collections *)

(** A collection is a bag of pointers: adding puts the element in, removing
    takes one occurrence out or changes nothing when it is absent, the count is
    the size of the bag; and a slot that holds a pointer keeps it when another
    is added, which the loops over the collection rely on. *)
Theorem collection_is_a_bag (col : collection) (p : ptr) :
  col_ok col ->
  col_ok (collection_add col p) /\ elems (collection_add col p) ≡ₚ p :: elems col /\
  col_ok (collection_remove col p) /\
  (p ∈ elems col -> p :: elems (collection_remove col p) ≡ₚ elems col) /\
  (p ∉ elems col -> collection_remove col p = col) /\
  collection_count col = zlen (elems col) /\
  (forall i q, slots col !! i = Some (Some q) ->
     slots (collection_add col p) !! i = Some (Some q)).
Proof.
  intros Hok. split_and!.
  - by apply add_ok.
  - by apply elems_add.
  - by apply remove_ok.
  - by apply elems_remove.
  - apply remove_absent.
  - apply count_spec.
  - intros i q. by apply slots_add_stable.
Qed.
Lemma collection_is_a_bag_witness :
  col_ok collection_init /\ elems (collection_add collection_init 5%positive) ≡ₚ [5%positive].
Proof.
  split; [apply col_ok_init|].
  exact (proj1 (proj2 (collection_is_a_bag collection_init 5%positive col_ok_init))).
Defined.

(** ** Strings and clock *)

(** [string_concat] builds exactly the concatenation of its arguments with
    one terminating NUL, in a block of exactly that size, when the length does
    not reach 2^64 and memory is there. *)
Theorem string_concat_correct (malloc_ok : Z -> bool) (str : list byte) (args : list (list byte)) :
  let s := str ++ concat args in
  zlen s + 1 < 2 ^ 64 -> malloc_ok (zlen s + 1) = true ->
  exists b, string_concat malloc_ok (Some str) args = inl (Some b) /\
    bytes b = s ++ [NUL] /\ alloc b = zlen s + 1.
Proof.
  intros s Hlen Hm. unfold string_concat.
  assert (zlen s = zlen str + total args) as Hs by (unfold s, total; rewrite length_app; lia).
  rewrite concat_length_spec.
  2: { unfold u64. apply Z.mod_pos_bound. lia. }
  2: { unfold u64. rewrite Z.mod_small; unfold total in *; lia. }
  unfold u64. rewrite Z.mod_small by (unfold total in *; lia).
  replace (zlen str + 1 + total args) with (zlen s + 1) by lia. rewrite Hm.
  destruct (concat_copy_spec (str :: args) (malloc (zlen s + 1)) [] 0) as (b & -> & Ha & Hb).
  - by left.
  - done.
  - unfold total. cbn [concat alloc malloc]. fold s. lia.
  - done.
  - exists b. split; [done|]. split; [|by rewrite Ha]. rewrite Hb. cbn [concat app].
    done.
Qed.
Lemma string_concat_correct_witness :
  exists b, string_concat (fun n => n <? 100) (Some [Byte.x61]) [[Byte.x62]; [Byte.x63]]
              = inl (Some b) /\
    bytes b = [Byte.x61; Byte.x62; Byte.x63] ++ [NUL] /\ alloc b = 3 + 1.
Proof.
  apply (string_concat_correct (fun n => n <? 100) [Byte.x61] [[Byte.x62]; [Byte.x63]]);
    [vm_compute; done|reflexivity].
Defined.

(** The millisecond clock is the monotonic clock divided by a million, and
    does not run backwards when that clock does not. *)
Theorem mstime64_monotonic (ts ts' : Clock.timespec) (day day' : Clock.timeval) :
  Clock.timespec_ok ts -> Clock.timespec_ok ts' -> Clock.nanos ts <= Clock.nanos ts' ->
  Clock.mstime64 (Some ts) day = Clock.nanos ts `div` 1000000 /\
  Clock.mstime64 (Some ts) day <= Clock.mstime64 (Some ts') day'.
Proof.
  intros H H' Hle. rewrite !Clock.mstime64_spec by done. split; [done|].
  apply Z.div_le_mono; lia.
Qed.
Lemma mstime64_monotonic_witness :
  Clock.mstime64 (Some (Clock.MkTimespec 5 999999999)) (Clock.MkTimeval 0 0) = 5999 /\
  Clock.mstime64 (Some (Clock.MkTimespec 5 999999999)) (Clock.MkTimeval 0 0) <=
  Clock.mstime64 (Some (Clock.MkTimespec 6 0)) (Clock.MkTimeval 0 0).
Proof.
  apply (mstime64_monotonic (Clock.MkTimespec 5 999999999) (Clock.MkTimespec 6 0));
    unfold Clock.timespec_ok, Clock.nanos; simpl; lia.
Defined.

(** ** Packets and buffers *)

(** Reading back an encoded header gives the same header, whatever follows
    it, and re-encoding the header read from any sixteen bytes gives them back. *)
Theorem header_round_trip (h : usbmuxd_header) (rest l : list byte) :
  header_ok h -> length l = 16%nat ->
  decode_header (encode_header h ++ rest) = h /\ encode_header (decode_header l) = l.
Proof.
  intros Hh Hl. split; [by apply decode_encode_app|].
  unfold encode_header, decode_header, le, le_at. cbn [h_length h_version h_message h_tag].
  assert (forall k, (k + 4 <= 16)%nat -> le_split 4 (le_combine (take 4 (drop k l))) =
    take 4 (drop k l)) as Hs.
  { intros k Hk. rewrite <- (split_le_combine (take 4 (drop k l))) at 2.
    rewrite length_take, length_drop. f_equal. lia. }
  rewrite !Hs by lia. do 16 (destruct l as [|? l]; [done|]). by destruct l.
Qed.
Lemma header_round_trip_witness :
  decode_header (encode_header (MkHeader 20 1 MESSAGE_RESULT 7) ++ [Byte.x00])
    = MkHeader 20 1 MESSAGE_RESULT 7 /\
  encode_header (decode_header (replicate 16 Byte.x41)) = replicate 16 Byte.x41.
Proof.
  apply (header_round_trip (MkHeader 20 1 MESSAGE_RESULT 7)); [|reflexivity].
  unfold header_ok. simpl. unfold MESSAGE_RESULT. lia.
Defined.

(** C33. Growing an output buffer: the contents are kept, the packet fits, the
    32 bit size computations do not wrap while blocks stay below 2 GiB, and the
    only failure is that of [realloc]. *)
Theorem buffer_growth_safe (realloc_ok : Z -> bool) (b : iobuf) (len : Z) :
  buf_ok b -> 0 <= len < 2 ^ 30 + 2 ^ 20 -> (forall n, realloc_ok n = true -> n < BUF_MAX) ->
  match iobuf_reserve realloc_ok len b with
  | Some b' => buf_ok b' /\ size b' = size b /\ data b' = data b /\
      size b + len <= capacity b' /\ capacity b <= capacity b' <= capacity b + len + 4096
  | None => exists n, realloc_ok n = false /\ n <= capacity b + len + 4096
  end.
Proof. apply iobuf_reserve_ok. Qed.
Lemma buffer_growth_safe_witness :
  match iobuf_reserve (fun n => n <? BUF_MAX) 70000 (iobuf_new REPLY_BUF_SIZE) with
  | Some b' => buf_ok b' /\ size b' = 0 /\ data b' = [] /\ 0 + 70000 <= capacity b' /\
      REPLY_BUF_SIZE <= capacity b' <= REPLY_BUF_SIZE + 70000 + 4096
  | None => exists n, (n <? BUF_MAX) = false /\ n <= REPLY_BUF_SIZE + 70000 + 4096
  end.
Proof.
  apply (buffer_growth_safe (fun n => n <? BUF_MAX) (iobuf_new REPLY_BUF_SIZE) 70000).
  - by apply buf_ok_new.
  - lia.
  - intros n Hn. by apply Z.ltb_lt.
Defined.

(** A buffer is a queue of bytes: what is appended comes after what is
    there, and consuming what a socket took leaves exactly the rest, with no
    access outside the block. *)
Theorem buffer_is_a_queue (b : iobuf) (src : list byte) (n : Z) :
  buf_ok b -> size b + zlen src <= capacity b -> 0 <= n <= size b + zlen src ->
  exists b1 b2, iobuf_write (size b) src b = inl b1 /\
    data (set_size (size b + zlen src) b1) = data b ++ src /\
    iobuf_consume n (set_size (size b + zlen src) b1) = inl b2 /\
    buf_ok b2 /\ size b2 = size b + zlen src - n /\
    data b2 = drop (Z.to_nat n) (data b ++ src).
Proof.
  intros Hok Hfit Hn.
  destruct (iobuf_append_ok b src Hok Hfit) as (b1 & Hw & _ & Hc & Hok1 & Hd1).
  destruct (iobuf_consume_ok _ n Hok1) as (b2 & Hcons & Hok2 & _ & Hs2 & Hd2); [done|].
  exists b1, b2. split_and!; try done. by rewrite Hd2, Hd1.
Qed.
Lemma buffer_is_a_queue_witness :
  exists b1 b2, iobuf_write 0 [Byte.x61; Byte.x62] (iobuf_new 16) = inl b1 /\
    data (set_size (0 + 2) b1) = [] ++ [Byte.x61; Byte.x62] /\
    iobuf_consume 1 (set_size (0 + 2) b1) = inl b2 /\
    buf_ok b2 /\ size b2 = 0 + 2 - 1 /\
    data b2 = drop (Z.to_nat 1) ([] ++ [Byte.x61; Byte.x62]).
Proof.
  apply (buffer_is_a_queue (iobuf_new 16) [Byte.x61; Byte.x62] 1); [|simpl; lia..].
  by apply buf_ok_new.
Defined.

(** ** Log lines *)

(** The block of [20 + strlen(fmt)] bytes holds the whole line and its NUL
    for every level of [enum loglevel], for both kinds of output, and exactly
    the line is written to it. *)
Theorem log_line_fits (log_level level tv_usec : Z) (syslog : bool) (tp : tm) (fmt : list byte) :
  LL_FATAL <= level <= LL_FLOOD -> level <= log_level -> zlen fmt < 2 ^ 32 ->
  exists b, usbfluxd_log log_level syslog tp tv_usec level fmt = inl (Some b) /\
    bytes b = log_line syslog tp tv_usec level fmt ++ [NUL] /\ alloc b = 20 + zlen fmt.
Proof.
  intros [H0 H1] Hl Hf. unfold LL_FATAL, LL_FLOOD in *. apply log_fits; [lia|done|done].
Qed.
Lemma log_line_fits_witness :
  exists b, usbfluxd_log LL_INFO false (MkTm 23 59 7) 45000 LL_INFO [Byte.x68] = inl (Some b) /\
    bytes b = string_bytes "[23:59:07.045][4] h" ++ [Byte.x0a] ++ [NUL] /\ alloc b = 21.
Proof.
  apply (log_line_fits LL_INFO LL_INFO 45000 false (MkTm 23 59 7) [Byte.x68]);
    [vm_compute; split; done|reflexivity|vm_compute; done].
Defined.

(** ** Startup *)

(** A remote given as "host:port" is split at the first colon and the port
    narrowed to 16 bits; without a colon the port is 5000. *)
Theorem remote_option_parsed (host port : string) (s : options) :
  Forall (fun c => byte.unsigned c <> 58) (string_bytes host) ->
  parse_opts [OptRemote (host +:+ ":" +:+ port)] s =
    inl (MkOptions (verbose s) (foreground s) (opt_no_usbmuxd s) (opt_no_mdns s) (Some host)
           (u16 (strtoul port 10))) /\
  parse_opts [OptRemote host] s =
    inl (MkOptions (verbose s) (foreground s) (opt_no_usbmuxd s) (opt_no_mdns s) (Some host)
           5000).
Proof.
  intros Hh. cbn [parse_opts parse_opt]. unfold parse_remote.
  assert (string_bytes (host +:+ ":" +:+ port) = string_bytes host ++ Byte.x3a :: string_bytes port)
    as ->.
  { clear. unfold string_bytes, String.list_byte_of_string.
    induction host as [|c host IH]; [done|]. simpl in *. by rewrite IH. }
  rewrite split_colon_spec, split_colon_none by done.
  by rewrite !bytes_string_bytes.
Qed.
Lemma remote_option_parsed_witness :
  parse_opts [OptRemote "mac.local:5001"] default_options =
    inl (MkOptions 1 false false false (Some "mac.local"%string) 5001) /\
  parse_opts [OptRemote "mac.local"] default_options =
    inl (MkOptions 1 false false false (Some "mac.local"%string) 5000).
Proof.
  apply (remote_option_parsed "mac.local" "5001" default_options).
  repeat constructor; vm_compute; done.
Defined.

(** C35. A run of the daemon as root gives the socket of usbmuxd back, however it
    ends: when usbmuxd listens on its own path, or on the renamed path that a run
    which did not end properly left, its socket file is at the original path
    afterwards; when it listens on both, nothing is touched. Without root rights
    nothing is touched either. *)
Theorem socket_file_restored (self : Z) (no_usbmuxd : bool) (o : outcomes) (f : files) :
  goes_on o ->
  let after := e_files (lifetime self true no_usbmuxd o f) in
  (connects (socket_file f) = true -> connects (renamed_file f) = false ->
     socket_file after = socket_file f /\ renamed_file after = None) /\
  (connects (socket_file f) = false -> connects (renamed_file f) = true ->
     socket_file after = renamed_file f /\ renamed_file after = None) /\
  (connects (socket_file f) = true -> connects (renamed_file f) = true -> after = f) /\
  e_files (lifetime self false no_usbmuxd o f) = f.
Proof.
  intros (res & report & Hd)%goes_on_daemonized.
  unfold lifetime, startup, check_sockets, terminate. rewrite Hd. unfold socket_create_unix.
  destruct (notify_parent (o_notify o) 0) as [n said], (o_unlink o), (o_socket o), (o_bind o), (o_listen o);
    destruct f as [[[a []]|] [[b []]|]], no_usbmuxd, (res <? 0), report; cbn; try destruct (n <? 0);
    cbn; split_and!; intros; done.
Qed.

(** The calls of a daemon that detaches without trouble, and serves. *)
Definition detached : daemonize_calls := MkCalls false 0 0 None 1 0 0 true true.
Definition smooth : outcomes :=
  MkOutcomes (Some detached) true true true true (MkNotify 4 true) (MkNotify 4 true) 0.
Lemma socket_file_restored_witness :
  let f := MkFiles (Some (MkSock 7 true)) None in
  socket_file (e_files (lifetime 1 true false smooth f)) = Some (MkSock 7 true).
Proof.
  apply (socket_file_restored 1 false smooth (MkFiles (Some (MkSock 7 true)) None));
    [right; simpl; lia|reflexivity|reflexivity].
Defined.

(** A startup that is refused leaves status 0 behind, like a clean exit:
    the parent or the init system is not told that no daemon runs. *)
Theorem refused_startup_exits_zero (self : Z) (root no_usbmuxd : bool) (o : outcomes) (f : files) :
  root = false \/ snd (startup no_usbmuxd f) = None ->
  e_status (lifetime self root no_usbmuxd o f) = 0.
Proof.
  unfold lifetime. destruct root; [|done]. intros [H|H]; [done|].
  by destruct (startup no_usbmuxd f) as [[f' r] [[]|]].
Qed.
Lemma refused_startup_exits_zero_witness :
  snd (startup false (MkFiles None None)) = None /\
  e_status (lifetime 1 true false smooth (MkFiles None None)) = 0.
Proof.
  split; [done|]. apply (refused_startup_exits_zero 1 true false). right. reflexivity.
Defined.

(** What the command that started a daemon in the background exits with: its
    [daemonize] ends there, with what it reads from the pipe. *)
Definition command_status (message : option Z) : daemonized :=
  daemonize (MkCalls false 0 1 message 0 0 0 true true).

(** The command that starts the daemon in the background exits with status 0
    exactly when the daemon could detach and listens on its socket (and the pipe
    took the message); when it could not, the command exits with an error. *)
Theorem command_reports_startup (self : Z) (no_usbmuxd : bool) (o : outcomes) (c : daemonize_calls)
    (f f1 : files) (renamed : bool) :
  o_daemonize o = Some c -> d_orphan c = false -> 0 <= d_pipe c -> d_fork c = 0 -> d_fork2 c <= 0 ->
  startup no_usbmuxd f = (f1, renamed, Some tt) ->
  exists status, command_status (e_message (lifetime self true no_usbmuxd o f)) = Exited status /\
    (status = 0 <->
       daemonize c = Daemonized 0 true /\ n_write (o_notify o) = 4 /\
       exists f2, socket_create_unix self o f1 = (f2, true) /\
         socket_file f2 = Some (MkSock self true)).
Proof.
  intros Hc Ho Hp H1 H2 Hs.
  assert (exists res, daemonize c = Daemonized res true /\ (res < 0 \/ res = 0)) as (res & Hd & Hres).
  { unfold daemonize. rewrite Ho, H1. repeat case_bool; zbool; try lia; eexists; (split; [done|]); lia. }
  unfold lifetime. rewrite Hs, Hc, Hd. cbn [negb].
  unfold command_status, daemonize. simpl. eexists. split; [done|].
  unfold terminate, socket_create_unix, notify_parent.
  destruct (Z.ltb_spec res 0) as [Hr|Hr].
  { cbn [e_message]. destruct (n_write (o_notify_end o) =? 4); simpl;
      (split; [intros; lia|intros (E & _); injection E; lia]). }
  assert (res = 0) as -> by lia.
  destruct (o_unlink o), (o_socket o), (o_bind o), (o_listen o); cbn [negb].
  all: try (cbn -[Z.eqb]; destruct (n_write (o_notify_end o) =? 4); simpl;
    (split; [intros; lia|intros (_ & _ & f2 & E & _); done])).
  cbn [Z.ltb Z.compare].
  destruct (Z.eqb_spec (n_write (o_notify o)) 4) as [Hn|Hn]; cbn [negb].
  - destruct (n_freopen (o_notify o)); simpl; (split; [|done]); intros _; split; try done;
      (split; [done|]); by eexists.
  - destruct (Z.leb_spec 0 (n_write (o_notify o))) as [E|E]; cbn [snd].
    + simpl. split; [done|]. intros (_ & ? & _). done.
    + rewrite (proj2 (Z.ltb_lt _ _)) by lia. simpl. split; [done|]. intros (_ & ? & _). done.
Qed.
Lemma command_reports_startup_witness :
  exists status, command_status (e_message (lifetime 1 true false smooth
    (MkFiles (Some (MkSock 7 true)) None))) = Exited status /\ status = 0.
Proof.
  destruct (command_reports_startup 1 false smooth detached (MkFiles (Some (MkSock 7 true)) None)
    (MkFiles None (Some (MkSock 7 true))) true eq_refl eq_refl ltac:(simpl; lia) eq_refl ltac:(simpl; lia)
    eq_refl) as (status & H1 & H2).
  exists status. split; [exact H1|]. apply H2. split; [reflexivity|]. split; [reflexivity|].
  eexists. split; reflexivity.
Defined.

(** ** The control tool *)

(** What a connection does that takes the whole request and then delivers an
    answer of [total] bytes under a property list header, in pieces. *)
Definition answers (k : connection) (req : list byte) (total : Z) (chunks : list (list byte)) : Prop :=
  0 <= fst (socket_connect_unix (k_calls k)) /\ k_send_header k = 16 /\ zlen req <= k_send_body k /\
  k_header k = encode_header (MkHeader (16 + total) 1 MESSAGE_PLIST 0) /\
  k_reads k = Some <$> chunks.

Lemma usbfluxd_query_answered `{PL : PlistLib} k req total chunks :
  answers k req total chunks -> 0 <= total < 2 ^ 31 ->
  usbfluxd_query k req =
    match receive total (Some <$> chunks) [] with
    | inr f => inr f
    | inl p => inl (if zlen p =? total then plist_from_xml p else None)
    end.
Proof.
  intros (Ho & Hsh & Hsb & Hh & Hr) Hp. unfold usbfluxd_query.
  rewrite (proj2 (Z.ltb_ge _ _)) by done. rewrite Hsh, Hh, length_encode_header. cbn [negb]. change (16 =? HEADER_SIZE) with true.
  change (Z.of_nat 16 =? HEADER_SIZE) with true. cbn [negb].
  rewrite (proj2 (Z.ltb_ge _ _)) by lia.
  rewrite <- (app_nil_r (encode_header _)), decode_encode_app.
  2: { unfold header_ok, MESSAGE_PLIST. simpl. lia. }
  cbn [h_version h_message h_tag h_length]. change (_ && _) with true. cbn iota.
  unfold HEADER_SIZE. replace (16 + total - 16) with total by lia.
  by rewrite u32_small, Hr by lia.
Qed.

(** The pieces are put together in order. *)
Lemma query_of_pieces `{PL : PlistLib} k req payload chunks :
  answers k req (zlen payload) chunks -> zlen payload < 2 ^ 31 -> concat chunks = payload ->
  usbfluxd_query k req = inl (plist_from_xml payload).
Proof.
  intros Ha Hp Hc. rewrite (usbfluxd_query_answered k req (zlen payload) chunks) by (done || lia).
  destruct (receive_all (zlen payload) chunks [] []) as (p & Hp' & ->);
    [simpl; lia|simpl; by rewrite Hc; lia|].
  rewrite app_nil_r in Hp'. rewrite Hp'. cbn [app length].
  rewrite Z.sub_0_r, Hc, take_ge by lia. by rewrite Z.eqb_refl.
Qed.

Definition demo_connection (body : Z) (total : Z) (chunks : list (list byte)) : connection :=
  {| k_calls := {| u_stat := 0; u_is_socket := true; u_socket := 3; u_nosigpipe := None; u_connect := 0 |};
     k_send_header := 16; k_send_body := body;
     k_header := encode_header (MkHeader (16 + total) 1 MESSAGE_PLIST 0);
     k_reads := Some <$> chunks |}.

(** When the daemon closes the connection before the announced length, the
    query never ends: the end of file is taken for an empty piece. *)
Theorem query_hangs_on_eof `{PL : PlistLib} (k : connection) (req : list byte) (total : Z)
    (chunks : list (list byte)) :
  answers k req total chunks -> 0 <= total < 2 ^ 31 -> zlen (concat chunks) < total ->
  usbfluxd_query k req = inr Diverges.
Proof.
  intros Ha Hp Hc. rewrite (usbfluxd_query_answered k req total chunks) by done.
  by rewrite receive_eof by (simpl; lia).
Qed.
Lemma query_hangs_on_eof_witness :
  usbfluxd_query (PL := ModelPlist.lib)
    (demo_connection 4 9 [[Byte.x04]]) [] = inr Diverges.
Proof.
  apply (query_hangs_on_eof (PL := ModelPlist.lib) _ [] 9 [[Byte.x04]]);
    [repeat split; simpl; lia|lia|vm_compute; done].
Defined.
