(* ===== verification/Demo.v ===== *)
(** A small concrete state at which the theorems that have hypotheses are
    applied: one idle client, one listening client, one client connected through
    a remote, and the listening remote of instance 1. *)

From S2P Require Import Prelude Exec Mem Utils Proto CStr RemoteId Plist World WorldFacts.
From S2P Require Import Socket Client Remote Teardown Command RemoteProcess Invariant.
From S2P Require Import ClientFacts TeardownFacts RemoteFacts CommandFacts RemoteProcessFacts.

#[export] Existing Instance ModelPlist.lib.
#[export] Existing Instance ModelPlist.laws.

(** Descriptor 7 is the next socket; every other call succeeds. [recv_fd] and
    [send_fd] say what the descriptors give and take. *)
Definition demo_env (recv_fd : Z -> option (list byte)) (send_fd : Z -> Z) : Env := {|
  sys_now := 0;
  sys_realloc := fun n => n <? BUF_MAX;
  sys_recv := recv_fd;
  sys_send := send_fd;
  sys_accept := fun _ => 9;
  sys_stat := fun _ => Some true;
  sys_socket := 7;
  sys_connect_unix := fun _ _ => true;
  sys_gethostbyname := fun _ => Some (Some 0x7f000001);
  sys_reuseaddr := fun _ => true;
  sys_connect := fun _ _ _ => CONNECTED;
  sys_select := fun _ _ => 1;
  sys_so_error := fun _ => 0;
  sys_getfl := fun _ => 0;
  sys_setfl := fun _ => 0;
  sys_thread := true |}.

#[export] Instance demo_env_laws r s : EnvLaws (demo_env r s).
Proof. split; [done|intros n; simpl; apply Z.ltb_lt..]. Qed.
Lemma demo_dns r s : dns_up (EN := demo_env r s).
Proof. intros h. by eexists. Qed.

(** The usual environment: nothing to read, everything can be written. *)
Definition quiet : Env := demo_env (fun _ => Some []) (fun _ => 2 ^ 20).
#[export] Instance quiet_laws : EnvLaws quiet.
Proof. apply demo_env_laws. Qed.

Definition device_one : plist :=
  plist_dict_set_item
    (plist_dict_set_item plist_new_dict "DeviceID" (plist_new_uint 0x01000005))
    "Properties" (plist_dict_set_item plist_new_dict "SerialNumber" (plist_new_string "udid-1")).

Definition demo_devices : plist :=
  plist_dict_set_item plist_new_dict (format_devid 0x01000005) device_one.

Definition world0 : world :=
  MkWorld ∅ ∅ 1 collection_init collection_init 3 (Some demo_devices)
    remote_id_map_init [] [].

Lemma wf_world0 : wf [] world0.
Proof.
  split; try done.
  - split; [apply col_ok_init|apply NoDup_nil_2|]. intros p. cbn [w_clients world0].
    rewrite lookup_empty. split; [intros H; by apply elem_of_nil in H|by intros []].
  - split; [apply col_ok_init|apply NoDup_nil_2|]. intros p. cbn [w_remotes world0].
    rewrite lookup_empty. split; [intros H; by apply elem_of_nil in H|by intros []].
  - exists demo_devices. split; [done|]. done.
  - split; [done|]. by apply Forall_replicate.
Qed.

(** The objects: client 1 idle, client 2 listening, client 3 connected through
    remote 4, and remote 5 the listener. *)
Definition idle_client : mux_client := client_fresh 11 0.
Definition listening_client : mux_client :=
  set_c_proto_version 1 (set_c_state CLIENT_LISTEN (client_fresh 12 1)).
Definition connected_client : mux_client :=
  MkClient 13 (iobuf_drop (iobuf_new REPLY_BUF_SIZE)) (iobuf_drop (iobuf_new CMD_BUF_SIZE)) POLLIN 0
    5 0x01000005 CLIENT_CONNECTED 1 (Some 4%positive) 0 0 2 None.
Definition connected_remote : remote_mux :=
  MkRemote 14 (iobuf_new REPLY_BUF_SIZE) (iobuf_new (REPLY_BUF_SIZE * 8)) POLLIN 0 REMOTE_CONNECTED
    0 1 false None false (Some "mac.local"%string) 5000 (Some 3%positive) 0.
Definition listening_remote : remote_mux :=
  MkRemote 15 (iobuf_new REPLY_BUF_SIZE) (iobuf_new (REPLY_BUF_SIZE * 8)) POLLIN 0 REMOTE_LISTEN 0 1
    true (Some "mac.local"%string) false (Some "mac.local"%string) 5000 None 0.

Definition add_client (cl : mux_client) (w : world) : world :=
  set_w_next (Pos.succ (w_next w))
    (set_client_list (collection_add (client_list w) (w_next w)) (put_client (w_next w) cl w)).

(** With an idle client in the place of the connected one. *)
Definition world3 : world :=
  add_client (client_fresh 13 2) (add_client listening_client (add_client idle_client world0)).
Definition world4 : world :=
  linked 3 (client_fresh 13 2) (set_r_client (Some 3%positive) (set_r_host (Some "mac.local"%string)
    (set_r_id 1 (remote_fresh (EN := quiet) 14)))) world3.
Definition demo_world : world :=
  joined listening_remote (set_remote_id_used 1 true remote_id_map_init)
    (put_remote 4 connected_remote (put_client 3 connected_client world4)).

Lemma wf_world3 : wf [] world3.
Proof.
  assert (forall fd n, client_ok (client_fresh fd n)) as Hfresh.
  { intros. split; [by apply buf_ok_new|]. split; [by apply buf_ok_new|done]. }
  apply wf_add_client; [|apply Hfresh|done]. apply wf_add_client; [|exact (Hfresh 12 1)|done].
  apply wf_add_client; [apply wf_world0|apply Hfresh|done].
Qed.

Lemma fresh_ok fd : remote_ok (remote_fresh (EN := quiet) fd).
Proof. apply (is_conn_ok (EN := quiet) false None 0). by exists fd. Qed.
Lemma wf_demo : wf [] demo_world.
Proof.
  assert (wf [] world4) as H4.
  { apply (wf_linked (EN := quiet)); [apply wf_world3|done|done| |done|done]. destruct (fresh_ok 14). by split. }
  set (w := put_remote 4 connected_remote (put_client 3 connected_client world4)).
  assert (wf [] (joined listening_remote
    (set_remote_id_used (r_id listening_remote) true (remote_id_map w)) w)) as H; [|exact H].
  apply wf_add_listener; [subst w|destruct (fresh_ok 15); split; try assumption; [done| |done|done]|done|].
  2: { intros H. cbn in H. set_solver. }
  2: { intros _. by vm_compute. }
  eapply wf_put_pair; [exact H4|reflexivity|reflexivity|reflexivity|reflexivity| |reflexivity| |
    reflexivity|done|].
  - done.
  - destruct (fresh_ok 14). split; try assumption; done.
  - intros _. simpl. set_solver.
Qed.
