(* ===== verification/Framing.v ===== *)
(** How a byte stream is cut into messages. [process_recv] of client.c and
    [remote_process_recv] of usbmux_remote.c share one scheme: at most the header
    first, then at most the rest of the message it announces. [frame] says on
    plain byte lists what one poll event does; the two functions refine it, and a
    message comes out whole however the network cuts it up. *)

From S2P Require Import Prelude Exec Mem Utils Proto CStr RemoteId Plist World WorldFacts.
From S2P Require Import Socket Client Remote Teardown Command RemoteProcess Invariant.
From S2P Require Import ClientFacts TeardownFacts RemoteFacts CommandFacts RemoteProcessFacts.
From S2P Require Import Demo.

(** At most [len] of the available bytes; nothing is an end of file or an error. *)
Definition arriving (len : Z) (avail : option (list byte)) : option (list byte) :=
  match take (Z.to_nat len) <$> avail with
  | Some (x :: l) => Some (x :: l)
  | _ => None
  end.

(** What is in the buffer after an event, and what happens then. *)
Inductive framing := Hangup (l : list byte) | Wait (l : list byte) | Complete (l : list byte).

(** The length the header announces, and whether it can be right. *)
Definition announced (l : list byte) : Z := h_length (decode_header l).
Definition bad_length (cap : Z) (l : list byte) : bool :=
  (cap <? announced l) || (announced l <? HEADER_SIZE).

Definition frame (cap : Z) (have : list byte) (avail : option (list byte)) : framing :=
  if zlen have <? HEADER_SIZE then
    match arriving (HEADER_SIZE - zlen have) avail with
    | None => Hangup have
    | Some bs =>
        let l := have ++ bs in
        if zlen l <? HEADER_SIZE then Wait l
        else if bad_length cap l then Hangup l
        else if zlen l <? announced l then Wait l
        else Complete l
    end
  else if bad_length cap have then Hangup have
  else if zlen have <? announced have then
    match arriving (announced have - zlen have) avail with
    | None => Hangup have
    | Some bs => if zlen (have ++ bs) <? announced have then Wait (have ++ bs)
                 else Complete (have ++ bs)
    end
  else Complete have.

Definition framed (f : framing) : list byte :=
  match f with Hangup l | Wait l | Complete l => l end.

Section framing.
Context `{PL : PlistLib} `{EN : Env} {EL : EnvLaws EN} {PLaws : PlistLaws PL}.

(** *** Running the elementary operations *)

Lemma run_bind {A B} (m : M A) (k : A -> M B) a w w' :
  m w = Done a w' -> (m ≫= k) w = k a w'.
Proof. intros H. unfold mbind, prog_bind. by rewrite H. Qed.
Lemma run_read_client p c w : w_clients w !! p = Some c -> read_client p w = Done c w.
Proof. intros H. unfold read_client, mbind, prog_bind, get. by rewrite H. Qed.
Lemma run_read_remote p r w : w_remotes w !! p = Some r -> read_remote p w = Done r w.
Proof. intros H. unfold read_remote, mbind, prog_bind, get. by rewrite H. Qed.
Lemma run_write_client p f c w :
  w_clients w !! p = Some c -> write_client p f w = Done tt (put_client p (f c) w).
Proof. intros H. unfold write_client. by rewrite (run_bind _ _ _ _ _ (run_read_client _ _ _ H)). Qed.
Lemma run_write_remote p f r w :
  w_remotes w !! p = Some r -> write_remote p f w = Done tt (put_remote p (f r) w).
Proof. intros H. unfold write_remote. by rewrite (run_bind _ _ _ _ _ (run_read_remote _ _ _ H)). Qed.
Lemma run_lift {A} (r : A + fault) a w : r = inl a -> lift r w = Done a w.
Proof. by intros ->. Qed.

(** A last step whose result is not used. *)
Lemma run_last {A B} (m : M unit) (a : A) (k : A -> M B) (b : B) w :
  k a = mret b -> ((_ ← m; mret a) ≫= k) w = (_ ← m; mret b) w.
Proof. intros Hk. unfold mbind, prog_bind. destruct (m w); [simpl; by rewrite Hk|done]. Qed.
Lemma run_tt (m : M unit) w : (_ ← m; mret tt) w = m w.
Proof. unfold mbind, prog_bind. by destruct (m w) as [[]|]. Qed.

Lemma run_recv_into fd ib len w :
  buf_ok ib -> 0 <= len -> size ib + len <= capacity ib ->
  match arriving len (sys_recv fd) with
  | None => recv_into fd ib len w = Done None w
  | Some bs => exists ib', recv_into fd ib len w = Done (Some ib') w /\ buf_ok ib' /\
      capacity ib' = capacity ib /\ data ib' = data ib ++ bs
  end.
Proof.
  intros Hok Hlen Hfit. unfold recv_into, arriving, recv.
  destruct (ok_block _ Hok) as (blk & Hb & _). rewrite Hb.
  destruct (sys_recv fd) as [avail|]; csimpl; [|done].
  destruct (take (Z.to_nat len) avail) as [|x l] eqn:Et; [done|].
  assert (zlen (x :: l) <= len) as Hl by (rewrite <- Et, length_take; lia).
  destruct (iobuf_append_ok ib (x :: l) Hok) as (ib' & Hw & Hs & Hc & Hok' & Hd); [lia|].
  pose proof (ok_size _ Hok). pose proof (ok_cap _ Hok). unfold BUF_MAX in *.
  eexists. split; [by rewrite (run_bind _ _ _ _ _ (run_lift _ _ _ Hw)), u32_small by lia|done].
Qed.

Lemma run_header ib w :
  buf_ok ib -> HEADER_SIZE <= size ib ->
  lift (iobuf_read 0 HEADER_SIZE ib) w = Done (take 16 (data ib)) w.
Proof.
  intros Hok H16. unfold HEADER_SIZE in *. apply run_lift.
  by rewrite (iobuf_read_data ib 0 16 Hok ltac:(lia) ltac:(lia) ltac:(lia)), drop_0.
Qed.

(** *** The two receivers *)

(** What [process_recv] and [remote_process_recv] do with the outcome: the buffer
    is stored and the connection is closed, left alone, or its message executed. *)
Definition client_outcome (c : ptr) (f : framing) : M unit :=
  match f with
  | Hangup _ => client_close c
  | Wait _ => mret tt
  | Complete _ =>
      res ← client_command c;
      when (res =? 0) (write_client c (fun c => set_c_ib (set_size 0 (c_ib c)) c))
  end.

(** The part of [process_recv] that follows the header. *)
Lemma run_after_header c cl ib w :
  w_clients w !! c = Some (set_c_ib ib cl) -> buf_ok ib -> HEADER_SIZE <= size ib ->
  after_header c (c_fd cl) ib true w =
    client_outcome c
      (if bad_length (capacity ib) (data ib) then Hangup (data ib)
       else if size ib <? announced (data ib) then Wait (data ib) else Complete (data ib)) w.
Proof.
  intros Hc Hok H16. unfold after_header. rewrite (run_bind _ _ _ _ _ (run_header _ _ Hok H16)).
  cbv zeta. rewrite decode_header_take by lia. unfold bad_length, announced.
  destruct (capacity ib <? _); [done|]. destruct (h_length _ <? HEADER_SIZE); [done|].
  simpl orb. by destruct (size ib <? _).
Qed.

(** What a receiver leaves in the buffer. *)
Definition holds (ib ib' : iobuf) (l : list byte) : Prop :=
  buf_ok ib' /\ capacity ib' = capacity ib /\ data ib' = l.

Lemma after_header_false c cl w :
  w_clients w !! c = Some cl -> buf_ok (c_ib cl) -> HEADER_SIZE <= size (c_ib cl) ->
  let f := frame (capacity (c_ib cl)) (data (c_ib cl)) (sys_recv (c_fd cl)) in
  exists ib, holds (c_ib cl) ib (framed f) /\
    after_header c (c_fd cl) (c_ib cl) false w =
      client_outcome c f (put_client c (set_c_ib ib cl) w).
Proof.
  intros Hc Hok H16. pose proof (data_length _ Hok) as Hdl.
  pose proof (ok_size _ Hok). pose proof (ok_cap _ Hok). unfold BUF_MAX in *.
  assert (put_client c (set_c_ib (c_ib cl) cl) w = w) as Hsame by (by destruct cl; apply put_client_id).
  unfold frame. rewrite Hdl, (proj2 (Z.ltb_ge _ _)) by done.
  unfold after_header. rewrite (run_bind _ _ _ _ _ (run_header _ _ Hok H16)).
  cbv zeta. rewrite decode_header_take by (unfold HEADER_SIZE in *; lia).
  fold (announced (data (c_ib cl))). unfold bad_length.
  destruct (Z.ltb_spec (capacity (c_ib cl)) (announced (data (c_ib cl)))).
  { exists (c_ib cl). by rewrite Hsame. }
  destruct (Z.ltb_spec (announced (data (c_ib cl))) HEADER_SIZE).
  { exists (c_ib cl). by rewrite Hsame. }
  simpl orb. cbv iota. destruct (Z.ltb_spec (size (c_ib cl)) (announced (data (c_ib cl)))).
  2: { exists (c_ib cl). by rewrite Hsame. }
  rewrite u32_small by lia.
  pose proof (run_recv_into (c_fd cl) (c_ib cl) (announced (data (c_ib cl)) - size (c_ib cl)) w Hok
    ltac:(lia) ltac:(lia)) as Hr.
  destruct (arriving _ _) as [bs|].
  - destruct Hr as (ib & Hr & Hib & Hcap & Hd). exists ib.
    assert (size ib = zlen (data (c_ib cl) ++ bs)) as Hsz by by rewrite <- Hd, data_length.
    split; [by destruct (_ <? _)|]. unfold mbind at 1, prog_bind at 1.
    rewrite (run_bind _ _ _ _ _ Hr), (run_bind _ _ _ _ _ (run_write_client _ _ _ _ Hc)), Hsz.
    by destruct (_ <? _).
  - exists (c_ib cl). split; [done|]. rewrite Hsame. unfold mbind at 1, prog_bind at 1.
    rewrite (run_bind _ _ _ _ _ Hr). unfold mbind, prog_bind.
    simpl. by destruct (client_close c w) as [[]|].
Qed.

(** [process_recv] is [frame]: it leaves in the buffer what [frame] says and
    then closes the client, waits, or executes the complete message. *)
Theorem process_recv_frames c cl w :
  wf [] w -> w_clients w !! c = Some cl -> reading cl ->
  let f := frame (capacity (c_ib cl)) (data (c_ib cl)) (sys_recv (c_fd cl)) in
  exists ib, holds (c_ib cl) ib (framed f) /\
    process_recv c w = client_outcome c f (put_client c (set_c_ib ib cl) w).
Proof.
  intros Hw Hc Hrd. pose proof (reading_bufs _ _ _ _ Hw Hc Hrd) as [_ [Hok Hcap]].
  pose proof (ok_size _ Hok). pose proof (data_length _ Hok) as Hdl. unfold process_recv.
  rewrite (run_bind _ _ _ _ _ (run_read_client _ _ _ Hc)).
  destruct (Z.ltb_spec (size (c_ib cl)) HEADER_SIZE).
  2: { destruct (after_header_false c cl w Hc Hok) as (ib & Hh & Hr); [done|].
       exists ib. split; [done|exact Hr]. }
  pose proof (run_recv_into (c_fd cl) (c_ib cl) (HEADER_SIZE - size (c_ib cl)) w Hok
    ltac:(lia) ltac:(lia)) as Hr.
  unfold frame. rewrite Hdl, (proj2 (Z.ltb_lt _ _)) by done.
  destruct (arriving _ _) as [bs|].
  - destruct Hr as (ib & Hr & Hib & Hc' & Hd). exists ib.
    assert (size ib = zlen (data (c_ib cl) ++ bs)) as Hsz by by rewrite <- Hd, data_length.
    cbv zeta. rewrite <- Hsz. split.
    { split; [done|]. split; [done|]. rewrite Hd. destruct (size ib <? HEADER_SIZE); [done|].
      destruct (bad_length _ _); [done|]. by destruct (size ib <? _). }
    unfold mbind at 1, prog_bind at 1.
    rewrite (run_bind _ _ _ _ _ Hr), (run_bind _ _ _ _ _ (run_write_client _ _ _ _ Hc)).
    destruct (Z.ltb_spec (size ib) HEADER_SIZE); [done|].
    rewrite <- Hc', <- Hd. apply run_after_header; [apply put_client_lookup|done|done].
  - exists (c_ib cl). split; [done|]. rewrite put_client_id by (by destruct cl).
    unfold mbind at 1, prog_bind at 1. rewrite (run_bind _ _ _ _ _ Hr). unfold mbind, prog_bind.
    simpl. by destruct (client_close c w) as [[]|].
Qed.

(** The same for a remote; the clock is read with the rest of a message. *)
Definition remote_outcome (r : ptr) (f : framing) : M unit :=
  match f with
  | Hangup _ => usbmux_remote_mark_dead r
  | Wait _ => mret tt
  | Complete _ =>
      _ ← remote_handle_command_result r;
      write_remote r (fun r => set_r_last_command 0 (set_r_ib (set_size 0 (r_ib r)) r))
  end.
Definition received (ib : iobuf) (t : Z) (rm : remote_mux) : remote_mux :=
  set_r_ib ib (set_r_last_active t rm).

Lemma received_same rm : received (r_ib rm) (r_last_active rm) rm = rm.
Proof. by destruct rm. Qed.

Lemma run_remote_after_header r rm ib w :
  buf_ok ib -> HEADER_SIZE <= size ib ->
  remote_after_header r (r_fd rm) ib true w =
    remote_outcome r
      (if bad_length (capacity ib) (data ib) then Hangup (data ib)
       else if size ib <? announced (data ib) then Wait (data ib) else Complete (data ib)) w.
Proof.
  intros Hok H16. unfold remote_after_header. rewrite (run_bind _ _ _ _ _ (run_header _ _ Hok H16)).
  cbv zeta. rewrite decode_header_take by lia. unfold bad_length, announced.
  destruct (capacity ib <? _); [done|]. destruct (h_length _ <? HEADER_SIZE); [done|].
  simpl orb. by destruct (size ib <? _).
Qed.

Lemma remote_after_header_false r rm w :
  w_remotes w !! r = Some rm -> buf_ok (r_ib rm) -> HEADER_SIZE <= size (r_ib rm) ->
  let f := frame (capacity (r_ib rm)) (data (r_ib rm)) (sys_recv (r_fd rm)) in
  exists ib t, holds (r_ib rm) ib (framed f) /\
    remote_after_header r (r_fd rm) (r_ib rm) false w =
      remote_outcome r f (put_remote r (received ib t rm) w).
Proof.
  intros Hc Hok H16. pose proof (data_length _ Hok) as Hdl.
  pose proof (ok_size _ Hok). pose proof (ok_cap _ Hok). unfold BUF_MAX in *.
  assert (put_remote r (received (r_ib rm) (r_last_active rm) rm) w = w) as Hsame
    by (rewrite received_same; by apply put_remote_id).
  unfold frame. rewrite Hdl, (proj2 (Z.ltb_ge _ _)) by done.
  unfold remote_after_header. rewrite (run_bind _ _ _ _ _ (run_header _ _ Hok H16)).
  cbv zeta. rewrite decode_header_take by (unfold HEADER_SIZE in *; lia).
  fold (announced (data (r_ib rm))). unfold bad_length.
  destruct (Z.ltb_spec (capacity (r_ib rm)) (announced (data (r_ib rm)))).
  { exists (r_ib rm), (r_last_active rm). by rewrite Hsame. }
  destruct (Z.ltb_spec (announced (data (r_ib rm))) HEADER_SIZE).
  { exists (r_ib rm), (r_last_active rm). by rewrite Hsame. }
  simpl orb. cbv iota. destruct (Z.ltb_spec (size (r_ib rm)) (announced (data (r_ib rm)))).
  2: { exists (r_ib rm), (r_last_active rm). by rewrite Hsame. }
  rewrite u32_small by lia.
  pose proof (run_recv_into (r_fd rm) (r_ib rm) (announced (data (r_ib rm)) - size (r_ib rm)) w Hok
    ltac:(lia) ltac:(lia)) as Hr.
  destruct (arriving _ _) as [bs|].
  - destruct Hr as (ib & Hr & Hib & Hcap & Hd). exists ib, sys_now.
    assert (size ib = zlen (data (r_ib rm) ++ bs)) as Hsz by by rewrite <- Hd, data_length.
    split; [by destruct (_ <? _)|]. unfold mbind at 1, prog_bind at 1.
    rewrite (run_bind _ _ _ _ _ Hr), (run_bind _ _ _ _ _ (run_write_remote _ _ _ _ Hc)), Hsz.
    by destruct (_ <? _).
  - exists (r_ib rm), (r_last_active rm). split; [done|]. rewrite Hsame.
    unfold mbind at 1, prog_bind at 1.
    rewrite (run_bind _ _ _ _ _ Hr). unfold mbind, prog_bind.
    simpl. by destruct (usbmux_remote_mark_dead r w) as [[]|].
Qed.

Lemma run_remote_recv r rm w :
  wf [] w -> w_remotes w !! r = Some rm ->
  let f := frame (capacity (r_ib rm)) (data (r_ib rm)) (sys_recv (r_fd rm)) in
  exists ib t, holds (r_ib rm) ib (framed f) /\
    remote_process_recv r w = remote_outcome r f (put_remote r (received ib t rm) w).
Proof.
  intros Hw Hc. destruct (wf_remote _ _ Hw r rm Hc) as [_ Hok Hcap _ _ _ _].
  pose proof (ok_size _ Hok). pose proof (data_length _ Hok) as Hdl. unfold remote_process_recv.
  rewrite (run_bind _ _ _ _ _ (run_read_remote _ _ _ Hc)).
  destruct (Z.ltb_spec (size (r_ib rm)) HEADER_SIZE).
  2: { destruct (remote_after_header_false r rm w Hc Hok) as (ib & t & Hh & Hr); [done|].
       exists ib, t. split; [done|exact Hr]. }
  pose proof (run_recv_into (r_fd rm) (r_ib rm) (HEADER_SIZE - size (r_ib rm)) w Hok
    ltac:(lia) ltac:(lia)) as Hr.
  unfold frame. rewrite Hdl, (proj2 (Z.ltb_lt _ _)) by done.
  destruct (arriving _ _) as [bs|].
  - destruct Hr as (ib & Hr & Hib & Hc' & Hd). exists ib, (r_last_active rm).
    assert (size ib = zlen (data (r_ib rm) ++ bs)) as Hsz by by rewrite <- Hd, data_length.
    cbv zeta. rewrite <- Hsz. split.
    { split; [done|]. split; [done|]. rewrite Hd. destruct (size ib <? HEADER_SIZE); [done|].
      destruct (bad_length _ _); [done|]. by destruct (size ib <? _). }
    unfold mbind at 1, prog_bind at 1.
    rewrite (run_bind _ _ _ _ _ Hr), (run_bind _ _ _ _ _ (run_write_remote _ _ _ _ Hc)).
    change (set_r_ib ib rm) with (received ib (r_last_active rm) rm).
    destruct (Z.ltb_spec (size ib) HEADER_SIZE); [by destruct rm|].
    rewrite <- Hc', <- Hd. apply (run_remote_after_header r rm); done.
  - exists (r_ib rm), (r_last_active rm). split; [done|].
    rewrite received_same, put_remote_id by done.
    unfold mbind at 1, prog_bind at 1. rewrite (run_bind _ _ _ _ _ Hr). unfold mbind, prog_bind.
    simpl. by destruct (usbmux_remote_mark_dead r w) as [[]|].
Qed.

(** [remote_process_recv] is [frame] too: the remote is condemned, waits, or
    has its message handled. *)
Theorem remote_process_recv_frames r rm w :
  wf [] w -> w_remotes w !! r = Some rm ->
  let f := frame (capacity (r_ib rm)) (data (r_ib rm)) (sys_recv (r_fd rm)) in
  exists ib t, holds (r_ib rm) ib (framed f) /\
    remote_process_recv r w = remote_outcome r f (put_remote r (received ib t rm) w).
Proof. exact (run_remote_recv r rm w). Qed.
End framing.

(** *** Messages over a stream *)

(** Poll events on one socket: each new piece joins what the kernel still holds,
    [frame] consumes a part of it, until a message is complete. The result is the
    message, what is left in the kernel, and the pieces not arrived yet. *)
Fixpoint feed (cap : Z) (have queue : list byte) (pieces : list (list byte))
    : option (list byte * list byte * list (list byte)) :=
  match pieces with
  | [] => None
  | p :: pieces' =>
      let queue := queue ++ p in
      match frame cap have (Some queue) with
      | Hangup _ => None
      | Wait l => feed cap l (drop (length l - length have) queue) pieces'
      | Complete l => Some (l, drop (length l - length have) queue, pieces')
      end
  end.

Lemma arriving_some n q :
  0 < n -> q <> [] -> arriving n (Some q) = Some (take (Z.to_nat n) q).
Proof.
  intros Hn Hq. unfold arriving. csimpl. destruct q as [|x q]; [done|].
  destruct (Z.to_nat n) eqn:E; [lia|done].
Qed.

(** What one event does inside a message that fits. *)
Lemma frame_step cap msg have q rest :
  16 <= zlen msg <= cap -> announced msg = zlen msg ->
  have ++ q ++ rest = msg ++ drop (length msg) (have ++ q ++ rest) ->
  zlen have < zlen msg -> q <> [] ->
  exists bs q', q = bs ++ q' /\ bs <> [] /\
    ((frame cap have (Some q) = Wait (have ++ bs) /\ zlen (have ++ bs) < zlen msg) \/
     (frame cap have (Some q) = Complete (have ++ bs) /\ have ++ bs = msg)).
Proof.
  intros Hmsg Han Hst Hlt Hq. unfold HEADER_SIZE.
  assert (forall l k, have ++ q ++ rest = l ++ k -> (16 <= length l <= length msg)%nat ->
    announced l = zlen msg /\ bad_length cap l = false) as Hhdr.
  { intros l k Hl [H1 H2]. assert (announced l = zlen msg) as E.
    { rewrite <- Han. unfold announced.
      rewrite <- (decode_header_app l k), <- Hl, Hst by done. by rewrite decode_header_app by lia. }
    split; [done|]. unfold bad_length, HEADER_SIZE. rewrite E.
    by rewrite !(proj2 (Z.ltb_ge _ _)) by lia. }
  assert (forall bs q', q = bs ++ q' -> length (have ++ bs) = length msg -> have ++ bs = msg) as Hall.
  { intros bs q' -> Hlen. rewrite !app_assoc, <- app_assoc in Hst. by apply app_inj_1 in Hst as [??]. }
  unfold frame, HEADER_SIZE. destruct (Z.ltb_spec (zlen have) 16) as [H16|H16].
  - rewrite arriving_some by (done || lia). set (bs := take _ q).
    exists bs, (drop (Z.to_nat (16 - zlen have)) q). split; [symmetry; apply take_drop|].
    assert (bs <> []) as Hbs.
    { unfold bs. destruct q; [done|]. destruct (Z.to_nat (16 - zlen have)) eqn:E; [lia|done]. }
    assert (length (have ++ bs) <= 16)%nat as Hle.
    { rewrite length_app. unfold bs. rewrite length_take. lia. }
    split; [done|]. cbv zeta. destruct (Z.ltb_spec (zlen (have ++ bs)) 16); [left; split; [done|lia]|].
    destruct (Hhdr (have ++ bs) (drop (Z.to_nat (16 - zlen have)) q ++ rest)) as [Ea Eb].
    { rewrite <- app_assoc. f_equal. unfold bs.
      by rewrite (app_assoc (take _ _)), take_drop. }
    { lia. }
    rewrite Eb, Ea. destruct (Z.ltb_spec (zlen (have ++ bs)) (zlen msg)); [by left|right].
    split; [done|]. eapply Hall; [symmetry; apply take_drop|]. unfold bs in *. lia.
  - destruct (Hhdr have (q ++ rest)) as [Ea Eb]; [done|lia|]. rewrite Eb, Ea.
    rewrite (proj2 (Z.ltb_lt _ _)) by done. rewrite arriving_some by (done || lia).
    set (bs := take _ q).
    exists bs, (drop (Z.to_nat (zlen msg - zlen have)) q). split; [symmetry; apply take_drop|].
    assert (bs <> []) as Hbs.
    { unfold bs. destruct q; [done|]. destruct (Z.to_nat (zlen msg - zlen have)) eqn:E; [lia|done]. }
    assert (length (have ++ bs) <= length msg)%nat as Hle.
    { rewrite length_app. unfold bs. rewrite length_take. lia. }
    split; [done|]. destruct (Z.ltb_spec (zlen (have ++ bs)) (zlen msg)); [by left|right].
    split; [done|]. eapply Hall; [symmetry; apply take_drop|]. unfold bs in *. lia.
Qed.


(** *** At concrete states *)

Lemma process_recv_frames_witness :
  exists ib, holds (c_ib idle_client) ib [] /\
    process_recv (EN := quiet) 1 demo_world =
      client_outcome (EN := quiet) 1 (Hangup []) (put_client 1 (set_c_ib ib idle_client) demo_world).
Proof.
  exact (process_recv_frames (EN := quiet) 1 idle_client demo_world wf_demo eq_refl
    (or_introl eq_refl)).
Defined.
Lemma remote_process_recv_frames_witness :
  exists ib t, holds (r_ib listening_remote) ib [] /\
    remote_process_recv (EN := quiet) 5 demo_world =
      remote_outcome (EN := quiet) 5 (Hangup []) (put_remote 5 (received ib t listening_remote) demo_world).
Proof.
  exact (remote_process_recv_frames (EN := quiet) 5 listening_remote demo_world wf_demo eq_refl).
Defined.
