(* ===== verification/ClientTheorems.v ===== *)
(** Properties of client connections: what is queued, what is sent, the states a
    connection goes through, and the forwarding between a client and its remote. *)

From S2P Require Import Prelude Exec Mem Utils Proto CStr RemoteId Plist World WorldFacts.
From S2P Require Import Socket Client Remote Teardown Command RemoteProcess Invariant.
From S2P Require Import ClientFacts TeardownFacts RemoteFacts CommandFacts RemoteProcessFacts.
From S2P Require Import Demo.

Section client_theorems.
Context `{PL : PlistLib} `{EN : Env} {EL : EnvLaws EN} {PLaws : PlistLaws PL}.

(** Output was queued: the packet follows what was buffered, and the client is
    polled for writing. *)
Definition output_queued (pkt : list byte) (cl cl' : mux_client) : Prop :=
  buf_ok (c_ob cl') /\ data (c_ob cl') = data (c_ob cl) ++ pkt /\
  has (c_events cl') POLLOUT = true /\
  cl' = set_c_events (c_events cl') (set_c_ob (c_ob cl') cl).

(** A packet is queued and the result is its length, or there is no packet or no memory
    for it: then nothing changes and the result is negative. *)
Definition tells (pkt : option (list byte)) (n : Z) (cl cl' : mux_client) : Prop :=
  (n < 0 /\ cl' = cl /\ (pkt = None \/ exists bs k, pkt = Some bs /\
     sys_realloc k = false /\ k <= capacity (c_ob cl) + zlen bs + 4096)) \/
  (exists bs, pkt = Some bs /\ n = zlen bs /\ output_queued bs cl cl').

Lemma queues_tells p cl pkt n w w' :
  w_clients w !! p = Some cl -> queues p cl pkt n w w' ->
  exists cl', tells (Some pkt) n cl cl' /\ w' = put_client p cl' w.
Proof.
  intros Hp [(-> & -> & k & Hk & Hle)|(-> & ob & Hok & Hd & _ & ->)].
  - exists cl. split; [left; split_and!; [lia|done|right; by exists pkt, k]|by rewrite put_client_id].
  - eexists. split; [|done]. right. exists pkt. split; [done|]. split; [done|].
    split; [done|]. split; [done|]. split; [|done]. by apply has_lor_r.
Qed.

Lemma tells_fields pkt n cl cl' :
  tells pkt n cl cl' -> c_state cl' = c_state cl /\ c_remote cl' = c_remote cl /\ c_fd cl' = c_fd cl.
Proof. by intros [(_ & -> & _)|(bs & _ & _ & _ & _ & _ & ->)]. Qed.

Lemma tells_nothing pkt n cl cl' : tells pkt n cl cl' -> n < 0 -> cl' = cl.
Proof. intros [(_ & -> & _)|(bs & _ & -> & _)] Hn; [done|]. pose proof (zlen_nonneg bs). lia. Qed.

(** The packets of a client, in the encoding its protocol version asks for. *)
Definition plist_packet (version tag : Z) (d : plist) : option (list byte) :=
  packet version MESSAGE_PLIST tag <$> plist_to_xml d.
Definition result_packet (cl : mux_client) (tag result : Z) : option (list byte) :=
  if c_proto_version cl =? 1 then plist_packet 1 tag (result_dict result)
  else Some (packet (c_proto_version cl) MESSAGE_RESULT tag (le 4 result)).
Definition add_packet (dev : plist) (cl : mux_client) : option (list byte) :=
  if c_proto_version cl =? 1 then plist_packet 1 0 dev
  else Some (packet (c_proto_version cl) MESSAGE_DEVICE_ADD 0
               (encode_device_record (device_record dev))).
Definition remove_packet (id : Z) (cl : mux_client) : option (list byte) :=
  if c_proto_version cl =? 1 then plist_packet 1 0 (detached_dict id)
  else Some (packet (c_proto_version cl) MESSAGE_DEVICE_REMOVE 0 (le 4 id)).

Lemma wp_tell_plist p tag d cl w :
  w_clients w !! p = Some cl -> buf_ok (c_ob cl) -> c_proto_version cl = 1 ->
  wp (send_plist_pkt p tag d) (fun n w' => exists cl', tells (plist_packet 1 tag d) n cl cl' /\
    w' = put_client p cl' w) w.
Proof.
  intros Hp Hob Hv. wp_use (by eapply wp_send_plist_pkt). intros n w' Hq.
  unfold plist_packet. destruct (plist_to_xml d) as [xml|]; cbn.
  - rewrite Hv in Hq. by eapply queues_tells.
  - destruct Hq as [-> ->]. exists cl. split; [left; split; [lia|auto]|by rewrite put_client_id].
Qed.

Lemma wp_tell_pkt p tag msg payload cl w :
  w_clients w !! p = Some cl -> buf_ok (c_ob cl) -> small payload ->
  wp (send_pkt p tag msg payload) (fun n w' => exists cl',
    tells (Some (packet (c_proto_version cl) msg tag payload)) n cl cl' /\
    w' = put_client p cl' w) w.
Proof.
  intros Hp Hob Hs. wp_use (by eapply wp_send_pkt). intros n w' Hq. by eapply queues_tells.
Qed.

(** [send_pkt] appends exactly one packet to the client's output: a header
    with the total length, the client's protocol version, the message and the
    tag, then the payload; and asks for [POLLOUT]. When memory is exhausted it
    returns -1 and changes nothing. *)
Theorem packet_queued_exactly p tag msg payload cl w :
  w_clients w !! p = Some cl -> buf_ok (c_ob cl) -> small payload ->
  exists n w' cl', send_pkt p tag msg payload w = Done n w' /\ w' = put_client p cl' w /\
    tells (Some (encode_header
                   (MkHeader (16 + zlen payload) (c_proto_version cl) msg tag) ++ payload))
      n cl cl'.
Proof.
  intros Hp Hob Hs. pose proof (wp_tell_pkt p tag msg payload cl w Hp Hob Hs) as H.
  apply wp_run in H as (n & w' & Hrun & cl' & Ht & ->). eauto 6.
Qed.

(** *** Broadcasts *)

Lemma wp_tell_remove p id cl w :
  w_clients w !! p = Some cl -> buf_ok (c_ob cl) ->
  wp (notify_device_remove p id) (fun n w' => exists cl', tells (remove_packet id cl) n cl cl' /\
    w' = put_client p cl' w) w.
Proof.
  intros Hp Hob. unfold notify_device_remove, remove_packet. wp_go.
  destruct (Z.eqb_spec (c_proto_version cl) 1).
  - by apply wp_tell_plist.
  - apply wp_tell_pkt; [done|done|by apply small_le; lia].
Qed.

Lemma wp_tell_add p dev cl w :
  w_clients w !! p = Some cl -> buf_ok (c_ob cl) ->
  wp (notify_device_add p dev) (fun n w' => exists cl', tells (add_packet dev cl) n cl cl' /\
    w' = put_client p cl' w) w.
Proof.
  intros Hp Hob. unfold notify_device_add, add_packet. wp_go.
  destruct (Z.eqb_spec (c_proto_version cl) 1).
  - by apply wp_tell_plist.
  - apply wp_tell_pkt; [done|done|]. unfold small. rewrite length_device_record. lia.
Qed.

(** What a broadcast does to each client. *)
Definition broadcast (pkt : mux_client -> option (list byte)) (cl cl' : mux_client) : Prop :=
  if bool_decide (c_state cl = CLIENT_LISTEN)
  then exists n, tells (pkt cl) n cl cl' else cl' = cl.

(** After the first [i] slots: the clients in them have been told. *)
Definition told_upto (pkt : mux_client -> option (list byte)) (w : world) (i : nat) (w' : world)
    : Prop :=
  forall p cl, w_clients w !! p = Some cl -> exists cl', w_clients w' !! p = Some cl' /\
    if decide (p ∈ omap id (take i (client_slots w))) then broadcast pkt cl cl' else cl' = cl.

Lemma told_skip pkt w i w' :
  (i < length (client_slots w))%nat -> client_slots w !! i = Some None ->
  told_upto pkt w i w' -> told_upto pkt w (i + 1) w'.
Proof.
  intros Hi E H p cl Hp. rewrite Nat.add_1_r, (take_S_r _ _ _ E), omap_id_app. simpl.
  rewrite app_nil_r. by apply H.
Qed.

Lemma told_next pkt w i p cl w' cl' :
  NoDup (elems (client_list w)) -> client_slots w !! i = Some (Some p) ->
  w_clients w !! p = Some cl -> told_upto pkt w i w' ->
  w_clients w' !! p = Some cl /\
  (broadcast pkt cl cl' -> told_upto pkt w (i + 1) (put_client p cl' w')).
Proof.
  intros Hnd E Hp H.
  assert (p ∉ omap id (take i (client_slots w))) as Hnot.
  { unfold elems in Hnd. fold (client_slots w) in Hnd.
    rewrite <- (take_drop_middle _ _ _ E), omap_id_app in Hnd. csimpl in Hnd.
    apply NoDup_app in Hnd as (_ & Hd & _). intros Hin. apply (Hd p Hin). left. }
  split.
  { destruct (H p cl Hp) as (x & Hx & Hd). rewrite decide_False in Hd by done. congruence. }
  intros Hb q x Hq. rewrite Nat.add_1_r, (take_S_r _ _ _ E), omap_id_app.
  change (omap id [Some p]) with [p].
  destruct (decide (p = q)) as [->|Hne].
  - exists cl'. rewrite put_client_lookup. split; [done|].
    rewrite decide_True by set_solver. by simplify_eq.
  - rewrite put_client_lookup_ne by done. destruct (H q x Hq) as (x' & Hx' & Hbx).
    exists x'. split; [done|]. case_decide as D1; case_decide as D2; try done; set_solver.
Qed.

Lemma wp_broadcast L notify pkt w :
  wf L w -> client_list_mutex ∉ L ->
  (forall p cl w', w_clients w' !! p = Some cl -> buf_ok (c_ob cl) ->
     wp (notify p) (fun n w'' => exists cl', tells (pkt cl) n cl cl' /\
       w'' = put_client p cl' w') w') ->
  wp (client_broadcast notify) (fun _ w' =>
    w' = set_w_clients (w_clients w') w /\
    forall p cl, w_clients w !! p = Some cl ->
      exists cl', w_clients w' !! p = Some cl' /\ broadcast pkt cl cl') w.
Proof.
  intros Hw HnL Hn. pose proof (wf_locks _ _ Hw) as HL. unfold client_broadcast. wp_go.
  apply wp_lock; [by rewrite HL|]. set (w1 := set_w_locks _ w). wp_go.
  assert (wf (client_list_mutex :: L) w1) as Hw1 by by apply wf_lock.
  pose proof (list_nodup _ _ (wf_clist _ _ Hw)) as Hnd.
  apply (wp_foreach _ _ (fun i w' => w' = set_w_clients (w_clients w') w1 /\ told_upto pkt w i w')
    _ (length (client_slots w1))); [done| | |].
  - split; [done|]. intros p cl Hp. by exists cl.
  - intros i w2 (Hw2 & Hall) _ Hi.
    assert (client_slots w2 = client_slots w) as Hsl by by rewrite Hw2.
    rewrite Hsl. destruct (client_slots w !! i) as [[p|]|] eqn:E.
    2: { split; [done|]. by apply told_skip. }
    2: { apply lookup_ge_None in E. change (client_slots w1) with (client_slots w) in Hi. lia. }
    destruct (wf_client_slot _ _ p Hw1) as [cl Hp]; [by eapply list_elem_of_lookup_2|].
    destruct (told_next pkt w i p cl w2 cl Hnd E Hp Hall) as [Hp2 Hsame]. wp_go.
    apply wp_when; intros Hst.
    + wp_go. wp_use (apply (Hn p cl w2); [done|]).
      { apply bool_decide_eq_true_1 in Hst. by eapply (listen_ob_ok (client_list_mutex :: L) w1). }
      intros n w3 (cl3 & Ht & ->). wp_go.
      destruct (told_next pkt w i p cl w2 cl3 Hnd E Hp Hall) as [_ Hnext].
      split; [|by change (length (client_slots w2) = length (client_slots w1)); rewrite Hsl].
      split; [by rewrite Hw2|]. apply Hnext. unfold broadcast. rewrite Hst. by exists n.
    + split; [|by rewrite Hsl]. split; [done|]. rewrite put_client_id in Hsame by done. apply Hsame.
      unfold broadcast. by rewrite Hst.
  - intros w2 (Hw2 & Hall). wp_go. rewrite Hw2. cbn [w_locks set_w_clients set_w_locks w1].
    rewrite HL, filter_mutex by done. split; [simpl; rewrite <- HL; by destruct w|].
    intros p cl Hp. destruct (Hall p cl Hp) as (cl' & Hcl' & Hb). exists cl'. split; [done|].
    rewrite decide_True in Hb; [done|]. rewrite take_ge by done.
    apply (wf_clist _ _ Hw). by eexists.
Qed.

(** C30. A device that comes or goes is announced to every listening client, once,
    in the encoding of its protocol, whatever the state of the others; no other
    client and nothing else in the daemon changes. *)
Theorem broadcasts_reach_listeners dev id w :
  wf [] w ->
  (exists w', client_device_add dev w = Done tt w' /\ w' = set_w_clients (w_clients w') w /\
     forall p cl, w_clients w !! p = Some cl ->
       exists cl', w_clients w' !! p = Some cl' /\ broadcast (add_packet dev) cl cl') /\
  (exists w', client_device_remove id w = Done tt w' /\ w' = set_w_clients (w_clients w') w /\
     forall p cl, w_clients w !! p = Some cl ->
       exists cl', w_clients w' !! p = Some cl' /\ broadcast (remove_packet id) cl cl').
Proof.
  intros Hw. split.
  - assert (wp (client_device_add dev) _ w) as H
      by (apply (wp_broadcast [] _ (add_packet dev)); [done|apply not_elem_of_nil|intros; by apply wp_tell_add]).
    apply wp_run in H as ([] & w' & Hrun & H1 & H2). eauto.
  - assert (wp (client_device_remove id) _ w) as H
      by (apply (wp_broadcast [] _ (remove_packet id)); [done|apply not_elem_of_nil|intros; by apply wp_tell_remove]).
    apply wp_run in H as ([] & w' & Hrun & H1 & H2). eauto.
Qed.

(** *** The connect handshake *)

Lemma wp_tell_result p tag result cl w :
  w_clients w !! p = Some cl -> buf_ok (c_ob cl) ->
  wp (send_result p tag result) (fun n w' => exists cl', tells (result_packet cl tag result) n cl cl' /\
    w' = put_client p cl' w) w.
Proof.
  intros Hp Hob. unfold send_result, result_packet. wp_go.
  destruct (Z.eqb_spec (c_proto_version cl) 1).
  - by apply wp_tell_plist.
  - apply wp_tell_pkt; [done|done|by apply small_le; lia].
Qed.

(** The client after an answer to its connect request could be queued. *)
Definition after_answer (result : Z) (cl : mux_client) : mux_client :=
  if result =? RESULT_OK
  then set_c_ib (iobuf_drop (c_ib cl)) (set_c_events POLLOUT (set_c_state CLIENT_CONNECTING2 cl))
  else set_c_state CLIENT_COMMAND cl.

(** What [client_notify_connect] does to a client that waits for its connection. *)
Definition connect_told (result n : Z) (cl cl' : mux_client) : Prop :=
  exists k cl1, tells (result_packet cl (c_connect_tag cl) result) k cl cl1 /\
    n = (if k <? 0 then -1 else 0) /\ cl' = (if k <? 0 then cl else after_answer result cl1).

Lemma wp_connect_answer p result cl w :
  w_clients w !! p = Some cl -> buf_ok (c_ob cl) -> c_state cl = CLIENT_CONNECTING1 ->
  wp (client_notify_connect p result) (fun n w' => exists cl',
    connect_told result n cl cl' /\ w' = put_client p cl' w) w.
Proof.
  intros Hp Hob Hst. unfold client_notify_connect, after_answer. wp_go. rewrite Hst. simpl. wp_go.
  wp_use (by apply wp_tell_result). intros n w1 (cl1 & Ht & ->).
  destruct (Z.ltb_spec n 0) as [Hn|Hn]; [|destruct (Z.eqb_spec result RESULT_OK)]; wp_go.
  - exists cl. split; [exists n, cl1; by rewrite (proj2 (Z.ltb_lt _ _) Hn)|].
    by rewrite (tells_nothing _ _ _ _ Ht Hn).
  - exists (after_answer result cl1). rewrite put_client_twice. split.
    + exists n, cl1. by rewrite (proj2 (Z.ltb_ge _ _) Hn).
    + unfold after_answer. by rewrite (proj2 (Z.eqb_eq _ _)).
  - exists (after_answer result cl1). rewrite put_client_twice. split.
    + exists n, cl1. by rewrite (proj2 (Z.ltb_ge _ _) Hn).
    + unfold after_answer. by rewrite (proj2 (Z.eqb_neq _ _)).
Qed.

(** [client_notify_connect] tells a client that waits for its connection the
    result, under the tag of its request: on success the client gives up its
    command buffer and, polled for writing only, goes to [CONNECTING2]; on refusal
    it takes commands again. Without memory for the answer, or in any other
    state, it returns -1 and nothing changes. *)
Theorem connect_answer p result cl w :
  w_clients w !! p = Some cl -> buf_ok (c_ob cl) ->
  if decide (c_state cl = CLIENT_CONNECTING1)
  then exists n cl', connect_told result n cl cl' /\
    client_notify_connect p result w = Done n (put_client p cl' w)
  else client_notify_connect p result w = Done (-1) w.
Proof.
  intros Hp Hob. case_decide as Hst.
  - pose proof (wp_connect_answer p result cl w Hp Hob Hst) as H.
    apply wp_run in H as (n & w' & Hrun & cl' & Ht & ->). by exists n, cl'.
  - assert (wp (client_notify_connect p result) (fun m w' => m = -1 /\ w' = w) w) as H.
    { unfold client_notify_connect. wp_go. case_bool_decide; [done|].
      by rewrite bool_decide_eq_true_2. }
    by apply wp_run in H as (m & w' & Hrun & -> & ->).
Qed.

(** *** Output and forwarding *)

(** Descriptor [fd] took [bs]. *)
Definition sent (fd : Z) (bs : list byte) (w : world) : world :=
  set_w_trace (EvSend fd bs :: w_trace w) w.

(** [process_send] writes the buffered output in order: the socket takes a
    prefix, exactly that prefix leaves the buffer, and polling for output ends
    with the last byte; a client whose "connected" answer is out is opened then.
    With nothing to send only [POLLOUT] is dropped; a failed write closes the
    client. *)
Theorem client_output_in_order c cl w :
  wf [] w -> w_clients w !! c = Some cl -> c_state cl <> CLIENT_CONNECTED ->
  exists w', process_send c w = Done tt w' /\
    ((size (c_ob cl) = 0 /\ w' = put_client c (set_c_events (clear_bit (c_events cl) POLLOUT) cl) w) \/
     (0 < size (c_ob cl) /\ sys_send (c_fd cl) <= 0 /\ w' = client_closed c cl w) \/
     (exists n cl', 0 < n <= size (c_ob cl) /\ client_sent cl n cl' /\
        w' = put_client c cl' (sent (c_fd cl) (take (Z.to_nat n) (data (c_ob cl))) w))).
Proof.
  intros Hw Hc Hst. apply wp_run_tt, (wp_process_send c cl w); [done|done|done|by left|by eauto|].
  intros w' cl' n [Hn _] Hs _ ->. right; right. eauto.
Qed.

(** Upstream, [forward_to_remote] loses, reorders and invents nothing: what is
    read from a connected client is appended to the output of its remote, never
    more than there is room for; the client then waits until the remote has sent
    it. With a full buffer nothing is read; an end of file closes both ends. *)
Theorem upstream_lossless c cl r rm w :
  wf [] w -> w_clients w !! c = Some cl -> c_state cl = CLIENT_CONNECTED ->
  c_remote cl = Some r -> w_remotes w !! r = Some rm ->
  exists w', forward_to_remote c w = Done tt w' /\
    ((size (r_ob rm) = capacity (r_ob rm) /\ w' = w) \/
     (size (r_ob rm) < capacity (r_ob rm) /\ default [] (sys_recv (c_fd cl)) = [] /\
        w' = client_closed c cl w) \/
     (exists bs rest ob, sys_recv (c_fd cl) = Some (bs ++ rest) /\ bs <> [] /\
        zlen bs <= capacity (r_ob rm) - size (r_ob rm) /\
        buf_ok ob /\ data ob = data (r_ob rm) ++ bs /\
        w' = put_client c (set_c_events (clear_bit (c_events cl) POLLIN) cl)
               (put_remote r (with_output ob rm) w))).
Proof.
  intros Hw Hc Hst Hr Hrm. apply wp_run_tt, (wp_forward_to_remote c cl r rm w);
    [done|done|done|done|done|by left| |].
  - intros w' Hlt Hrecv _ ->. right; left. split; [done|]. split; [|done].
    by destruct Hrecv as [->| ->].
  - intros w' bs rest ob H1 H2 H3 H4 H5 _ ->. right; right. by exists bs, rest, ob.
Qed.

(** Downstream, bytes from the instance are appended to the input buffer of
    the remote, no more than it has room for, and the client is asked to take
    them; when the buffer is full nothing is read. An end of file only stops the
    polling for input, a failed read closes both ends. *)
Theorem downstream_received r rm w :
  wf [] w -> w_remotes w !! r = Some rm -> r_state rm = REMOTE_CONNECTED ->
  exists w', receive_for_client r w = Done tt w' /\
    ((0 < size (r_ib rm) /\ size (r_ib rm) = capacity (r_ib rm) /\ w' = w) \/
     (sys_recv (r_fd rm) = None /\ w' = remote_closed r rm w) \/
     (sys_recv (r_fd rm) = Some [] /\
        w' = put_remote r (set_r_events (clear_bit (r_events rm) POLLIN) rm) w) \/
     (exists c cl cl' ib bs rest, sys_recv (r_fd rm) = Some (bs ++ rest) /\ bs <> [] /\
        zlen bs <= capacity (r_ib rm) - size (r_ib rm) /\ data ib = data (r_ib rm) ++ bs /\
        r_client rm = Some c /\ w_clients w !! c = Some cl /\ asked POLLOUT cl cl' /\
        w' = put_client c cl' (put_remote r (set_r_ib ib (set_r_last_active sys_now rm)) w))).
Proof.
  intros Hw Hr Hst. apply wp_run_tt, (wp_receive_for_client r rm w); [done|done|done|by left| | |].
  - intros w' H _ ->. right; left. done.
  - intros H _. right; right; left. done.
  - intros w' c cl cl' ib bs rest H1 H2 H3 H4 H5 H6 H7 _ ->. right; right; right.
    by exists c, cl, cl', ib, bs, rest.
Qed.

(** [forward_to_client] passes what the remote received on in order: the
    client's socket takes a prefix and exactly that prefix leaves the buffer; with
    the last byte the client is polled for input instead of output. A failed write
    closes both ends. *)
Theorem downstream_delivered c cl r rm w :
  wf [] w -> w_clients w !! c = Some cl -> c_state cl = CLIENT_CONNECTED ->
  c_remote cl = Some r -> w_remotes w !! r = Some rm ->
  exists w', forward_to_client c w = Done tt w' /\
    ((size (r_ib rm) = 0 /\ w' = w) \/
     (0 < size (r_ib rm) /\ sys_send (c_fd cl) <= 0 /\ w' = client_closed c cl w) \/
     (exists n ib, 0 < n <= size (r_ib rm) /\ buf_ok ib /\
        data ib = drop (Z.to_nat n) (data (r_ib rm)) /\
        w' = (if n =? size (r_ib rm)
              then put_client c (set_c_events (Z.lor (clear_bit (c_events cl) POLLOUT) POLLIN) cl)
              else id)
             (put_remote r (set_r_ib ib rm)
                (sent (c_fd cl) (take (Z.to_nat n) (data (r_ib rm))) w)))).
Proof.
  intros Hw Hc Hst Hr Hrm. apply wp_run_tt, (wp_forward_to_client c cl r rm w);
    [done|done|done|done|done|by left|by eauto|].
  intros w' n ib H1 H2 H3 _ ->. right; right. by exists n, ib.
Qed.

(** [remote_process_send] writes the buffered output of a remote in order, as
    [process_send] does for clients; a remote that was connecting is open with its
    last byte, and a failed write closes both ends. *)
Theorem remote_output_in_order r rm w :
  wf [] w -> w_remotes w !! r = Some rm ->
  exists w', remote_process_send r w = Done tt w' /\
    ((size (r_ob rm) = 0 /\ w' = put_remote r (set_r_events (clear_bit (r_events rm) POLLOUT) rm) w) \/
     (0 < size (r_ob rm) /\ sys_send (r_fd rm) <= 0 /\ w' = remote_closed r rm w) \/
     (exists n rm', 0 < n <= size (r_ob rm) /\ remote_sent rm n rm' /\
        w' = put_remote r rm' (sent (r_fd rm) (take (Z.to_nat n) (data (r_ob rm))) w))).
Proof.
  intros Hw Hr. apply wp_run_tt, (wp_remote_process_send r rm w); [done|done| | |].
  - intros w' H _ ->. by left.
  - intros w' H H' _ ->. right; left. done.
  - intros w' rm' n [H1 _] H2 _ ->. right; right. by exists n, rm'.
Qed.

(** *** Closing *)

(** C24. Closing a client closes its remote too: both descriptors are closed, both
    objects are gone from the heap and from the lists, every other object is as
    it was, and the invariant holds again. *)
Theorem client_close_frees_both c cl w :
  wf [] w -> w_clients w !! c = Some cl ->
  exists w', client_close c w = Done tt w' /\ wf [] w' /\
    w_clients w' = delete c (w_clients w) /\
    w_remotes w' = match c_remote cl with Some r => delete r (w_remotes w) | None => w_remotes w end /\
    w_trace w' = match c_remote cl with
                 | Some r => (fun rm => EvClose (r_fd rm)) <$> option_list (w_remotes w !! r)
                 | None => []
                 end ++ EvClose (c_fd cl) :: w_trace w /\
    remote_device_list w' = remote_device_list w.
Proof.
  intros Hw Hc. apply wp_run_tt, (client_close_wf [] c cl); [done|done| | |].
  - apply not_elem_of_nil.
  - intros _. apply not_elem_of_nil.
  - intros Hw'. split; [done|]. unfold client_closed. destruct (c_remote cl) as [r|] eqn:Hr; [|done].
    destruct (wf_c2r _ _ Hw c cl r Hc Hr) as (rm & Hrm & _). by rewrite Hrm.
Qed.
End client_theorems.

(** *** At concrete states *)

Lemma packet_queued_exactly_witness :
  exists n w', send_pkt (EN := quiet) 1 7 MESSAGE_RESULT (le 4 0) demo_world = Done n w'.
Proof.
  destruct (packet_queued_exactly (EN := quiet) 1 7 MESSAGE_RESULT (le 4 0) idle_client demo_world
    eq_refl (buf_ok_new REPLY_BUF_SIZE ltac:(done)) (small_le 4 0 ltac:(lia)))
    as (n & w' & _ & H & _). by exists n, w'.
Defined.
Lemma broadcasts_reach_listeners_witness :
  exists w' cl', client_device_add (EN := quiet) device_one demo_world = Done tt w' /\
    w_clients w' !! 2%positive = Some cl' /\
    exists n, tells (EN := quiet) (add_packet device_one listening_client) n listening_client cl'.
Proof.
  destruct (broadcasts_reach_listeners (EN := quiet) device_one 5 demo_world wf_demo)
    as [(w' & Hrun & _ & Hall) _].
  destruct (Hall 2%positive listening_client eq_refl) as (cl' & Hcl' & Hb). by exists w', cl'.
Defined.
Lemma connect_answer_witness :
  client_notify_connect (EN := quiet) 1 RESULT_OK demo_world = Done (-1) demo_world.
Proof.
  exact (connect_answer (EN := quiet) 1 RESULT_OK idle_client demo_world eq_refl
    (buf_ok_new REPLY_BUF_SIZE ltac:(done))).
Defined.
Lemma client_output_in_order_witness :
  exists w', process_send (EN := quiet) 2 demo_world = Done tt w'.
Proof.
  destruct (client_output_in_order (EN := quiet) 2 listening_client demo_world wf_demo eq_refl)
    as (w' & H & _); [done|]. by exists w'.
Defined.
Lemma upstream_lossless_witness :
  exists w', forward_to_remote (EN := quiet) 3 demo_world = Done tt w'.
Proof.
  destruct (upstream_lossless (EN := quiet) 3 connected_client 4 connected_remote demo_world wf_demo
    eq_refl eq_refl eq_refl eq_refl) as (w' & H & _). by exists w'.
Defined.
Lemma downstream_received_witness :
  exists w', receive_for_client (EN := quiet) 4 demo_world = Done tt w'.
Proof.
  destruct (downstream_received (EN := quiet) 4 connected_remote demo_world wf_demo eq_refl eq_refl)
    as (w' & H & _). by exists w'.
Defined.
Lemma downstream_delivered_witness :
  exists w', forward_to_client (EN := quiet) 3 demo_world = Done tt w'.
Proof.
  destruct (downstream_delivered (EN := quiet) 3 connected_client 4 connected_remote demo_world
    wf_demo eq_refl eq_refl eq_refl eq_refl) as (w' & H & _). by exists w'.
Defined.
Lemma remote_output_in_order_witness :
  exists w', remote_process_send (EN := quiet) 5 demo_world = Done tt w'.
Proof.
  destruct (remote_output_in_order (EN := quiet) 5 listening_remote demo_world wf_demo eq_refl)
    as (w' & H & _). by exists w'.
Defined.
Lemma client_close_frees_both_witness :
  exists w', client_close 3 demo_world = Done tt w' /\ w_remotes w' = delete 4%positive (w_remotes demo_world).
Proof.
  destruct (client_close_frees_both (PL := ModelPlist.lib) 3 connected_client demo_world wf_demo eq_refl)
    as (w' & H & _ & _ & Hr & _). by exists w'.
Defined.
