(* ===== verification/RequestTheorems.v ===== *)
(** Properties of the requests of clients: the two encodings of a request mean the
    same, and what is kept of a client's description of itself is well typed. *)

From S2P Require Import Prelude Exec Mem Utils Proto CStr RemoteId Plist World WorldFacts.
From S2P Require Import Socket Client Remote Teardown Command RemoteProcess Invariant.
From S2P Require Import ClientFacts TeardownFacts RemoteFacts CommandFacts RemoteProcessFacts.
From S2P Require Import Demo Framing.

Section request_theorems.
Context `{PL : PlistLib} `{EN : Env} {PLaws : PlistLaws PL}.

(** *** Binary and property list requests *)

(** A complete request of [kind] in the buffer of a client that waits for
    commands; [n] bytes of it are looked at. *)
Record request_in (cl : mux_client) (kind n : Z) : Prop := {
  ri_state : c_state cl = CLIENT_COMMAND;
  ri_buf : buf_ok (c_ib cl);
  ri_size : 16 <= n <= size (c_ib cl);
  ri_version : h_version (decode_header (data (c_ib cl))) = 0 \/
               h_version (decode_header (data (c_ib cl))) = 1;
  ri_kind : h_message (decode_header (data (c_ib cl))) = kind }.

(** [client_command] after the checks that all messages go through. *)
Lemma run_request c cl kind n w :
  w_clients w !! c = Some cl -> request_in cl kind n -> kind <> MESSAGE_PLIST ->
  client_command c w =
    (let tag := h_tag (decode_header (data (c_ib cl))) in
     if kind =? MESSAGE_LISTEN then listen_request c tag
     else if kind =? MESSAGE_CONNECT then binary_connect c tag (c_ib cl)
     else reply c tag RESULT_BADCOMMAND) w.
Proof.
  intros Hc [Hst Hok Hn Hv Hm] Hne. pose proof (data_length _ Hok).
  unfold client_command. rewrite (run_bind _ _ _ _ _ (run_read_client _ _ _ Hc)).
  rewrite (run_bind _ _ _ _ _ (run_header _ _ Hok ltac:(unfold HEADER_SIZE; lia))). cbv zeta.
  rewrite decode_header_take by lia. rewrite bool_decide_eq_false_2 by (intros Hn'; by apply Hn').
  assert ((negb (h_version (decode_header (data (c_ib cl))) =? 0) &&
    negb (h_version (decode_header (data (c_ib cl))) =? 1)) = false) as ->
    by (by destruct Hv as [->| ->]).
  rewrite Hm. by rewrite (proj2 (Z.eqb_neq _ _)).
Qed.

(** The property list for a binary connect request has what was asked. *)
Lemma connect_dict_device ch :
  0 <= ch_device_id ch < 2 ^ 32 ->
  exists node, plist_dict_get_item (connect_dict ch) "DeviceID" = Some node /\
    u32 (default 0 (plist_get_uint_val node)) = ch_device_id ch.
Proof.
  intros Hd. exists (plist_new_uint (ch_device_id ch)). unfold connect_dict. split.
  - rewrite get_set_ne by (auto with usbflux; done). apply get_set_eq. auto with usbflux.
  - rewrite uint_val by lia. by apply u32_small.
Qed.
Lemma connect_dict_port ch :
  exists node, plist_dict_get_item (connect_dict ch) "PortNumber" = Some node.
Proof. eexists. apply get_set_eq. auto with usbflux. Qed.


(** *** What clients say of themselves *)

(** The items of a dictionary satisfy [P]. *)
Definition items_are (P : string -> plist -> Prop) (d : plist) : Prop :=
  is_dict d /\ forall k node, plist_dict_get_item d k = Some node -> P k node.

Lemma items_new P : items_are P plist_new_dict.
Proof. split; [apply new_dict_type|]. intros k node. by rewrite get_new_dict. Qed.
Lemma items_set (P : string -> plist -> Prop) d k v :
  items_are P d -> P k v -> items_are P (plist_dict_set_item d k v).
Proof.
  intros [Hd H] Hv. split; [by apply set_item_type|]. intros k' node. destruct (decide (k = k')) as [->|].
  - rewrite get_set_eq by done. by intros [= <-].
  - rewrite get_set_ne by done. apply H.
Qed.

Definition INFO_STRINGS : list string := ["BundleID"; "ClientVersionString"; "ProgName"]%string.

(** An item of the stored information, and the item [given] it was taken from. *)
Definition info_item (dict : plist) (k : string) (node : plist) : Prop :=
  exists given, plist_dict_get_item dict k = Some given /\
    ((k ∈ INFO_STRINGS /\ plist_get_node_type given = PLIST_STRING /\
        node = plist_new_string (default EmptyString (plist_get_string_val given))) \/
     (k = "kLibUSBMuxVersion"%string /\ plist_get_node_type given = PLIST_UINT /\
        node = plist_new_uint (default 0 (plist_get_uint_val given)))).

Lemma copy_string_item_are dict key info :
  key ∈ INFO_STRINGS -> items_are (info_item dict) info ->
  items_are (info_item dict) (copy_string_item dict key info).
Proof.
  intros Hk Hi. unfold copy_string_item. destruct (plist_dict_get_item dict key) as [n|] eqn:E; [|done].
  case_bool_decide; [|done]. apply items_set; [done|]. exists n. split; [done|]. by left.
Qed.

Lemma client_info_items dict : items_are (info_item dict) (client_info dict).
Proof.
  assert (items_are (info_item dict) (copy_string_item dict "ProgName"
    (copy_string_item dict "ClientVersionString" (copy_string_item dict "BundleID" plist_new_dict)))) as H.
  { repeat (apply copy_string_item_are; [unfold INFO_STRINGS; set_solver|]). apply items_new. }
  unfold client_info. destruct (plist_dict_get_item dict "kLibUSBMuxVersion") as [n|] eqn:E; [|done].
  case_bool_decide; [|done]. apply items_set; [done|]. exists n. split; [done|]. by right.
Qed.

(** The types of the items of a listener entry. *)
Definition listener_type (key : string) : plist_type :=
  if String.eqb key "Blacklisted" then PLIST_BOOLEAN
  else if String.eqb key "ConnType" then PLIST_UINT
  else if String.eqb key "kLibUSBMuxVersion" then PLIST_UINT
  else PLIST_STRING.
Definition typed (key : string) (node : plist) : Prop :=
  plist_get_node_type node = listener_type key.

Lemma info_typed info key node :
  info = None \/ (exists dict, info = Some (client_info dict)) ->
  match info with Some i => plist_dict_get_item i key | None => None end = Some node ->
  typed key node.
Proof.
  intros [->|[dict ->]] Hg; [done|]. destruct (client_info_items dict) as [_ H].
  destruct (H key node Hg) as (given & _ & [(Hk & _ & ->)|(-> & _ & ->)]); unfold typed.
  - rewrite string_type. unfold INFO_STRINGS in Hk. repeat (apply elem_of_cons in Hk as [->|Hk]; [done|]).
    by apply elem_of_nil in Hk.
  - by rewrite uint_type.
Qed.

(** C31. Whatever types a client uses in the description of itself, what is kept of
    it has the documented types and the values of the request, and the entries of
    "ListenerList" built from it are dictionaries whose items all have their
    documented types. *)
Theorem listener_list_typed dict number lc :
  c_info lc = None \/ (exists dict, c_info lc = Some (client_info dict)) ->
  items_are (info_item dict) (client_info dict) /\ items_are typed (listener_entry number lc).
Proof.
  intros Hi. split; [apply client_info_items|]. unfold listener_entry.
  repeat (apply items_set; [|unfold typed; by rewrite ?string_type, ?uint_type, ?bool_type]).
  assert (items_are typed (plist_dict_set_item plist_new_dict "Blacklisted" (plist_new_bool false))) as H.
  { apply items_set; [apply items_new|]. apply bool_type. }
  destruct (match c_info lc with Some i => plist_dict_get_item i "BundleID" | None => None end)
    as [n|] eqn:E; [|done].
  apply items_set; [done|]. by eapply info_typed.
Qed.
End request_theorems.

(** *** At concrete inputs *)

(** Client 1 with the binary request to connect to port 62078 of device 0x01000005. *)
Definition connect_bytes : list byte :=
  encode_header (MkHeader 24 0 MESSAGE_CONNECT 9) ++ le 4 0x01000005 ++ le 2 0x7ef2 ++ le 2 0.
Definition binary_client : mux_client :=
  set_c_ib (IOBuf (Some (Block connect_bytes CMD_BUF_SIZE)) 24 CMD_BUF_SIZE) idle_client.
Lemma binary_request : request_in binary_client MESSAGE_CONNECT 22.
Proof.
  split; [done| |done|by left; vm_compute|by vm_compute].
  split; [|done|done]. eexists. split; [reflexivity|]. done.
Qed.

(** A program whose version is a string and whose name is a number. *)
Definition odd_description : plist :=
  plist_dict_set_item (plist_dict_set_item plist_new_dict "ProgName" (plist_new_uint 7))
    "kLibUSBMuxVersion" (plist_new_string "3").
Lemma listener_list_typed_witness :
  items_are typed (listener_entry 4 (set_c_info (Some (client_info odd_description)) idle_client)).
Proof.
  apply (listener_list_typed odd_description). right. by exists odd_description.
Defined.

