(* ===== verification/RemoteTheorems.v ===== *)
(** Properties of the connections to usbmuxd instances: where a request goes,
    which instances exist, which devices are listed, how an instance is condemned
    and disposed of, and how answers come back to clients. *)

From S2P Require Import Prelude Exec Mem Utils Proto CStr RemoteId Plist World WorldFacts.
From S2P Require Import Socket Client Remote Teardown Command RemoteProcess Invariant.
From S2P Require Import ClientFacts TeardownFacts RemoteFacts CommandFacts RemoteProcessFacts.
From S2P Require Import Demo Framing ClientTheorems.

Section remote_theorems.
Context `{PL : PlistLib} `{EN : Env} {EL : EnvLaws EN} {PLaws : PlistLaws PL}.

(** *** Requests *)

(** The packet with the request: the device number of the instance in the place
    of the device id, whose upper byte names the instance. *)
Definition connect_packet (device_id : Z) (req : plist) : list byte :=
  default [] (packet 1 MESSAGE_PLIST 0 <$> plist_to_xml (plist_dict_set_item req "DeviceID"
    (plist_new_uint (Z.land device_id 0xFFFFFF)))).

(** C15. A connect request goes to the instance the device id names: the local
    socket for 0, else the host of the listener with that identifier. The client
    is linked to one new connection that carries the identifier, waits for the
    answer, and has exactly the request queued, with the device id of the
    instance. When no connection could be made nothing is left behind but closed
    descriptors. *)
Theorem connect_follows_route device_id req c cl w :
  dns_up -> wf [] w -> w_clients w !! c = Some cl -> c_remote cl = None ->
  exists n w', usbmux_remote_connect device_id req c w = Done n w' /\
    ((n = -1 /\ only_closes w w') \/
     (n = 0 /\ let id := u8 (Z.shiftr device_id 24) in
      requested id id c cl REMOTE_CONNECTING1 (-1) (connect_packet device_id req) w w')).
Proof.
  intros Hdns Hw Hc Hcr. apply wp_run_val, (wp_usbmux_remote_connect device_id req c cl w); try done.
  - by left.
  - intros w' xml Hreq ->. right. split; [done|]. unfold connect_packet.
    by destruct (plist_to_xml _).
Qed.

(** A record request: refused with nothing but closed descriptors left, or on its
    way to the instance of the device. *)
Definition record_request (rid : string) (tag cmd : Z) (d : plist) (c : ptr) (cl : mux_client)
    (w : world) (n : Z) (w' : world) : Prop :=
  (n = -1 /\ only_closes w w') \/
  (n = 0 /\ exists xml, plist_to_xml d = Some xml /\
     requested (record_instance rid w) 0 c cl REMOTE_COMMAND cmd (packet 1 MESSAGE_PLIST tag xml) w w').

(** C26. Reading, saving or deleting a pair record asks the instance that has the
    device with the record's UDID, the local one when no listed device has it: the
    client is linked to one new connection, which has exactly the request queued
    under the client's tag and remembers what was asked. *)
Theorem record_requests_follow_device rid req tag c cl w :
  dns_up -> wf [] w -> w_clients w !! c = Some cl -> c_remote cl = None ->
  prints (record_message "ReadPairRecord" rid) -> prints req ->
  prints (record_message "DeletePairRecord" rid) ->
  (exists n w', usbmux_remote_read_pair_record (Some rid) tag c w = Done n w' /\
     record_request rid tag REMOTE_CMD_READ_PAIR_RECORD (record_message "ReadPairRecord" rid)
       c cl w n w') /\
  (exists n w', usbmux_remote_save_pair_record (Some rid) req tag c w = Done n w' /\
     record_request rid tag REMOTE_CMD_SAVE_PAIR_RECORD req c cl w n w') /\
  (exists n w', usbmux_remote_delete_pair_record (Some rid) tag c w = Done n w' /\
     record_request rid tag REMOTE_CMD_DELETE_PAIR_RECORD (record_message "DeletePairRecord" rid)
       c cl w n w').
Proof.
  intros Hdns Hw Hc Hcr [x1 H1]%not_eq_None_Some [x2 H2]%not_eq_None_Some [x3 H3]%not_eq_None_Some.
  split_and!; apply wp_run_val.
  - apply (wp_read_pair_record rid x1 tag c cl); try done; [by left|]. intros. right. eauto.
  - apply (wp_save_pair_record rid req x2 tag c cl); try done; [by left|]. intros. right. eauto.
  - apply (wp_delete_pair_record rid x3 tag c cl); try done; [by left|]. intros. right. eauto.
Qed.

(** *** Instances *)


(** The listener a removal means: of the service, or at the host and port. *)
Definition is_named (s h : option string) (port : Z) (rm : remote_mux) : bool :=
  negb (r_is_unix rm) && r_is_listener rm &&
  ((bool_decide (s <> None) && bool_decide (r_service_name rm = s)) ||
   (bool_decide (h <> None) && bool_decide (r_host rm = h) && (r_port rm =? port))).

Lemma names_instance_is s h port rm w :
  remote_ok rm -> names_instance s h port rm w = Done (is_named s h port rm) w.
Proof.
  intros Hok. unfold names_instance, is_named.
  destruct (r_is_unix rm) eqn:Eu, (r_is_listener rm) eqn:El; simpl; try done.
  destruct (rok_listener _ Hok El Eu) as [Hs Hh].
  destruct (r_service_name rm) as [n|]; [|done]. destruct (r_host rm) as [m|]; [|done].
  unfold mbind, prog_bind, mret, prog_ret. cbn.
  destruct s as [s|], h as [h|]; cbn; rewrite <- ?eqb_some.
  all: try (destruct (String.eqb n s); [done|]); cbn; rewrite ?eqb_some; done.
Qed.

(** Condemning a remote condemns every connection of its instance and no
    other: either a live connection of another instance is left, and is asked for
    output so that the next poll returns at once, or no live one is left and all
    are disposed of on the spot. Clients without a remote survive. *)
Theorem instance_condemned L r rm w :
  wf L w -> w_remotes w !! r = Some rm -> client_list_mutex ∉ L ->
  exists w', remote_mark_dead r w = Done tt w' /\ mark_dead_post L (r_id rm) w w'.
Proof. intros Hw Hr HL. by apply wp_run_tt, (wp_mark_dead L r rm). Qed.

(** The first slots are not the listener sought. *)
Lemma wp_find_named s h port L w :
  wf L w ->
  wp (foreach_break remote_slots (fun p =>
        r ← read_remote p; b ← names_instance s h port r;
        mret (if b : bool then Some p else None)))
     (fun o w' => w' = w /\ match o with
        | Some p => exists rm, w_remotes w !! p = Some rm /\ is_named s h port rm = true
        | None => forall p rm, w_remotes w !! p = Some rm -> is_named s h port rm = false
        end) w.
Proof.
  intros Hw. apply (wp_foreach_break _ _ (fun i w' => w' = w /\
    forall p rm, p ∈ omap id (take i (remote_slots w)) -> w_remotes w !! p = Some rm ->
      is_named s h port rm = false) _ (length (remote_slots w))); [done| | |].
  - split; [done|]. intros p rm Hp. by apply elem_of_nil in Hp.
  - intros i w' (-> & Hno) _ Hi. destruct (remote_slots w !! i) as [[p|]|] eqn:E.
    3: { apply lookup_ge_None in E. lia. }
    2: { split; [done|]. intros p rm. rewrite Nat.add_1_r, (take_S_r _ _ _ E), omap_id_app. simpl.
         rewrite app_nil_r. apply Hno. }
    destruct (wf_remote_slot _ _ p Hw) as [rm Hp]; [by eapply list_elem_of_lookup_2|]. wp_go.
    apply wp_run. exists (is_named s h port rm), w.
    split; [apply names_instance_is; by eapply wf_remote|].
    destruct (is_named s h port rm) eqn:En; wp_go; [eauto|]. split; [|done]. split; [done|].
    intros q x. rewrite Nat.add_1_r, (take_S_r _ _ _ E), omap_id_app. change (omap id [Some p]) with [p].
    rewrite elem_of_app, list_elem_of_singleton. intros [Hq| ->] Hx; [by eapply Hno|congruence].
  - intros w' (-> & Hno). split; [done|]. intros p rm Hp. eapply Hno; [|exact Hp].
    rewrite take_ge by done. apply (wf_rlist _ _ Hw). by eexists.
Qed.

Lemma remove_outcomes s h port w :
  wf [] w ->
  exists n w', remote_mux_service_remove s h port w = Done n w' /\ wf [] w' /\
    ((n = -1 /\ w' = w /\
        forall p rm, w_remotes w !! p = Some rm -> is_named s h port rm = false) \/
     (n = 0 /\ exists p rm w1, w_remotes w !! p = Some rm /\ is_named s h port rm = true /\
        mark_dead_post [remote_list_mutex] (r_id rm) (set_w_locks [remote_list_mutex] w) w1 /\
        w' = set_w_locks [] w1)).
Proof.
  intros Hw. apply wp_run_val. pose proof (wf_locks _ _ Hw) as HL.
  unfold remote_mux_service_remove. wp_go. apply wp_lock; [rewrite HL; apply not_elem_of_nil|].
  rewrite HL. set (w1 := set_w_locks _ w). wp_go.
  assert (wf [remote_list_mutex] w1) as Hw1.
  { unfold w1. rewrite <- HL at 2. apply wf_lock; [apply not_elem_of_nil|done]. }
  wp_use (by eapply (wp_find_named s h port)). intros [p|] w2 [-> Hfound]; wp_go.
  - destruct Hfound as (rm & Hp & Hn). eapply (wp_mark_dead _ p rm); [done|done|set_solver|].
    intros w2 Hpost. wp_go. pose proof (mark_dead_wf _ _ _ _ Hpost) as Hw2. split.
    { apply wf_unlock; [apply not_elem_of_nil|done]. }
    right. split; [done|]. exists p, rm, w2. split_and!; [done|done|done|].
    by rewrite (wf_locks _ _ Hw2).
  - assert (set_w_locks (filter (fun m' => m' <> remote_list_mutex) (w_locks w1)) w1 = w) as ->.
    { change (w_locks w1) with [remote_list_mutex].
      rewrite filter_mutex by apply not_elem_of_nil. unfold w1. rewrite <- HL. by destruct w. }
    split; [done|]. by left.
Qed.

(** C21. [remote_mux_service_remove] returns -1, with nothing changed, exactly
    when no listener is meant; otherwise it condemns the instance of one that
    is. *)
Theorem remove_instance_outcomes s h port w :
  wf [] w ->
  exists n w', remote_mux_service_remove s h port w = Done n w' /\ wf [] w' /\
    ((n = -1 /\ w' = w /\
        forall p rm, w_remotes w !! p = Some rm -> is_named s h port rm = false) \/
     (n = 0 /\ exists p rm w1, w_remotes w !! p = Some rm /\ is_named s h port rm = true /\
        mark_dead_post [remote_list_mutex] (r_id rm) (set_w_locks [remote_list_mutex] w) w1 /\
        w' = set_w_locks [] w1)).
Proof. apply remove_outcomes. Qed.

Lemma mark_dead_all L id w w' :
  mark_dead_post L id w w' ->
  (forall p rm, w_remotes w' !! p = Some rm -> r_id rm = id -> r_state rm = REMOTE_DEAD) /\
  (w_remotes w' = ∅ \/ exists p rm, w_remotes w' !! p = Some rm /\ r_state rm <> REMOTE_DEAD /\
     has (r_events rm) POLLOUT = true).
Proof.
  intros [p rm w1 Hc Hdead Hp Hid Hst -> _|_ Hemp _ _].
  - split.
    + intros q x Hx Hq. simpl in Hx. apply lookup_insert_Some in Hx as [[<- <-]|[_ Hx]]; [done|by eapply Hdead].
    + right. exists p. eexists. rewrite put_remote_lookup. split; [done|]. split; [done|].
      by apply has_lor_r.
  - split; [|by left]. intros p rm. by rewrite Hemp, lookup_empty.
Qed.


(** C20. Disposing of a remote withdraws exactly the devices of its instance, and
    gives its identifier back exactly when it is the listener of a host; the
    remote and its client are gone, other clients have at most more output
    queued. *)
Theorem dispose_withdraws L r rm w :
  wf L w -> w_remotes w !! r = Some rm -> client_list_mutex ∉ L ->
  exists w', usbmux_remote_dispose r w = Done tt w' /\ dispose_post L r rm w w'.
Proof. intros Hw Hr HL. by apply wp_run_tt, (wp_dispose L r rm). Qed.

(** *** Announcements of devices *)

(** The announcement of device [dev] with the message type [type]. *)
Definition announcement (msg : plist) (type : string) (dev : Z) : Prop :=
  (exists n, plist_dict_get_item msg "MessageType" = Some n /\ plist_get_string_val n = Some type) /\
  (exists n, plist_dict_get_item msg "DeviceID" = Some n /\ plist_get_uint_val n = Some dev).

(** The device list is changed by [f] and every listening client is told. *)
Definition list_changed (f : plist -> plist) (pkt : mux_client -> option (list byte))
    (w w' : world) : Prop :=
  w' = set_w_clients (w_clients w') (set_remote_device_list (f <$> remote_device_list w) w) /\
  forall p cl, w_clients w !! p = Some cl ->
    exists cl', w_clients w' !! p = Some cl' /\ broadcast pkt cl cl'.

Lemma wp_list_change f notify pkt w :
  wf [] w -> (forall d, is_dict d -> is_dict (f d)) ->
  (forall p cl w', w_clients w' !! p = Some cl -> buf_ok (c_ob cl) ->
     wp (notify p) (fun n w'' => exists cl', tells (pkt cl) n cl cl' /\
       w'' = put_client p cl' w') w') ->
  wp (_ ← lock remote_list_mutex; _ ← update_device_list f; _ ← client_broadcast notify;
      unlock remote_list_mutex) (fun _ w' => list_changed f pkt w w') w.
Proof.
  intros Hw Hf Hn. pose proof (wf_locks _ _ Hw) as HL.
  wp_go. apply wp_lock; [rewrite HL; apply not_elem_of_nil|].
  unfold update_device_list. wp_go. set (w1 := set_w_locks _ w).
  assert (wf [remote_list_mutex] w1) as Hw1 by (apply wf_lock; [apply not_elem_of_nil|done]).
  pose proof (wf_devices_update _ _ Hw1 Hf) as Hw2.
  wp_use (eapply (wp_broadcast [remote_list_mutex] _ pkt); [exact Hw2|set_solver|exact Hn]).
  intros _ w3 (Hw3 & Hall). wp_go. split.
  - rewrite Hw3. simpl. rewrite HL, filter_mutex by apply not_elem_of_nil.
    rewrite <- HL. by destruct w.
  - exact Hall.
Qed.

Lemma run_device_event id hdr ib msg type dev w :
  h_message hdr = MESSAGE_PLIST -> announcement msg type dev ->
  device_event id hdr ib (Some msg) w =
    Done (if bool_decide (type = "Attached"%string) then MESSAGE_DEVICE_ADD
          else if bool_decide (type = "Detached"%string) then MESSAGE_DEVICE_REMOVE else 0,
          make_device_id id (u32 dev)) w.
Proof.
  intros Hh ((n & Hn & Hs) & (m & Hm & Hu)). unfold device_event. rewrite Hh. simpl.
  rewrite Hn, Hm, Hs, Hu. simpl. repeat case_bool_decide; try done; congruence.
Qed.

(** C19. An instance that announces a device has it listed under the identifier the
    daemon makes from its own and the device's number, with that identifier
    written into the announcement and its properties; one that withdraws a device
    has that entry removed. Every listening client is told the same identifier,
    and nothing else changes. *)
Theorem announcements_update_list r rm hdr msg dev w :
  wf [] w -> w_remotes w !! r = Some rm -> h_message hdr = MESSAGE_PLIST ->
  let devid := make_device_id (r_id rm) (u32 dev) in
  (announcement msg "Attached" dev ->
     exists w', handle_listen_message r hdr (r_ib rm) (Some msg) w = Done tt w' /\
       list_changed
         (fun d => plist_dict_set_item d (format_devid devid) (rewrite_device_id msg devid))
         (add_packet (rewrite_device_id msg devid)) w w') /\
  (announcement msg "Detached" dev ->
     exists w', handle_listen_message r hdr (r_ib rm) (Some msg) w = Done tt w' /\
       list_changed (fun d => plist_dict_remove_item d (format_devid devid))
         (remove_packet devid) w w').
Proof.
  intros Hw Hr Hh devid. split; intros Ha; apply wp_run_tt; unfold handle_listen_message; wp_go.
  - apply wp_run. do 2 eexists. split; [by apply (run_device_event _ _ _ msg "Attached" dev)|].
    rewrite bool_decide_eq_true_2 by done. change (MESSAGE_DEVICE_ADD =? MESSAGE_DEVICE_ADD) with true.
    cbv iota. apply wp_bind, wp_ret. apply wp_list_change; [done|auto with usbflux|].
    intros. by apply wp_tell_add.
  - apply wp_run. do 2 eexists. split; [by apply (run_device_event _ _ _ msg "Detached" dev)|].
    change (bool_decide _) with false at 1. cbv iota.
    rewrite bool_decide_eq_true_2 by done.
    change (MESSAGE_DEVICE_REMOVE =? MESSAGE_DEVICE_ADD) with false.
    change (MESSAGE_DEVICE_REMOVE =? MESSAGE_DEVICE_REMOVE) with true.
    cbv iota. apply wp_list_change; [done|auto with usbflux|]. intros. by apply wp_tell_remove.
Qed.
(** *** Answers *)

(** The property list a message carries, and the result it reports: the word of a
    binary result, the number of a "Result" list, 0xbaad for anything else. *)
Definition message_plist (msg : list byte) : option plist :=
  if h_message (decode_header msg) =? MESSAGE_PLIST then plist_from_xml (drop 16 msg) else None.
Definition plist_result (d : plist) : Z :=
  match plist_dict_get_item d "MessageType" with
  | Some n =>
      if bool_decide (plist_get_string_val n = Some "Result"%string) then
        match plist_dict_get_item d "Number" with
        | Some v => u32 (default 0xfeed (plist_get_uint_val v))
        | None => 0xbaad
        end
      else 0xbaad
  | None => 0xbaad
  end.
Definition result_in (msg : list byte) : Z :=
  if h_message (decode_header msg) =? MESSAGE_RESULT then le_at 16 4 msg
  else match message_plist msg with Some d => plist_result d | None => 0xbaad end.

(** A complete message of a version the daemon speaks, at the front of the input. *)
Record has_message (rm : remote_mux) (msg : list byte) : Prop := {
  hm_complete : complete rm;
  hm_front : msg = message_in (data (r_ib rm));
  hm_version : h_version (decode_header msg) = 0 \/ h_version (decode_header msg) = 1;
  hm_result : h_message (decode_header msg) = MESSAGE_RESULT -> 20 <= zlen msg }.

Lemma message_facts rm msg :
  buf_ok (r_ib rm) -> has_message rm msg ->
  decode_header msg = decode_header (data (r_ib rm)) /\ zlen msg = h_length (decode_header msg) /\
  16 <= zlen msg <= size (r_ib rm) /\ msg = take (length msg) (data (r_ib rm)).
Proof.
  intros Hib [Hc -> _ _]. destruct (message_length _ Hib Hc) as [Hl Hdec].
  rewrite Hdec. destruct Hc as [? ?].
  split; [done|]. split; [done|]. split; [lia|].
  unfold message_in at 1. f_equal. lia.
Qed.

Lemma run_message_result rm msg w :
  buf_ok (r_ib rm) -> has_message rm msg ->
  message_get_result (decode_header msg) (r_ib rm) (message_plist msg) w = Done (result_in msg) w.
Proof.
  intros Hib Hm. destruct (message_facts _ _ Hib Hm) as (Hd & Hl & Hle & Ht).
  destruct Hm as [_ _ _ Hr]. unfold message_get_result, result_in.
  destruct (Z.eqb_spec (h_message (decode_header msg)) MESSAGE_RESULT) as [E|].
  - specialize (Hr E). unfold mbind, prog_bind, mret, prog_ret, HEADER_SIZE.
    rewrite iobuf_read_data by (done || lia). unfold prog_bind. simpl.
    assert (le_at 16 4 msg = le_at 0 4 (take (Z.to_nat 4) (drop (Z.to_nat 16) (data (r_ib rm))))) as <-;
      [|done].
    rewrite Ht. unfold le_at. rewrite drop_0, skipn_firstn_comm, !firstn_firstn. do 2 f_equal. lia.
  - destruct (message_plist msg) as [d|]; [|done]. cbv zeta. unfold plist_result.
    destruct (plist_dict_get_item d "MessageType") as [nd|]; [|done].
    case_bool_decide; [|done]. by destruct (plist_dict_get_item d "Number").
Qed.

Lemma run_handle_result r rm msg w :
  wf [] w -> w_remotes w !! r = Some rm -> has_message rm msg ->
  remote_handle_command_result r w = (_ ← by_state r rm (decode_header msg) (zlen msg - 16) (message_plist msg); mret 0) w.
Proof.
  intros Hw Hr Hm. pose proof (rok_ib _ (wf_remote _ _ Hw r rm Hr)) as Hib.
  destruct (message_facts _ _ Hib Hm) as (Hd & Hl & Hle & Ht).
  pose proof (ok_size _ Hib). pose proof (ok_cap _ Hib). unfold BUF_MAX in *.
  unfold remote_handle_command_result. rewrite (run_bind _ _ _ _ _ (run_read_remote _ _ _ Hr)).
  rewrite (run_bind _ _ _ _ _ (run_header _ _ Hib ltac:(unfold HEADER_SIZE; lia))). cbv zeta.
  rewrite decode_header_take, <- Hd by lia.
  assert ((negb (h_version (decode_header msg) =? 0) && negb (h_version (decode_header msg) =? 1))
    = false) as -> by (destruct Hm as [_ _ [->| ->] _]; done).
  unfold HEADER_SIZE. rewrite <- Hl, !u32_small by lia. unfold message_plist.
  destruct (h_message (decode_header msg) =? MESSAGE_PLIST); [|done].
  unfold mbind at 1, prog_bind at 1.
  erewrite run_bind; [|apply run_lift, iobuf_read_data; [done|lia..]].
  replace (take (Z.to_nat (zlen msg - 16)) _) with (drop 16 msg); [done|].
  rewrite Ht at 1. rewrite skipn_firstn_comm. f_equal. lia.
Qed.
Definition forget (rm : remote_mux) : remote_mux := set_r_last_command (-1) rm.

(** The answer to the daemon's own listen request: a listener whose request
    was accepted (result 0) listens from then on; on any other answer it stays as
    it is. Either way no answer is expected any more. *)
Theorem answer_to_listen r rm msg w :
  wf [] w -> w_remotes w !! r = Some rm -> has_message rm msg ->
  r_state rm = REMOTE_COMMAND -> r_last_command rm = REMOTE_CMD_LISTEN ->
  remote_handle_command_result r w =
    Done 0 (put_remote r (forget (if result_in msg =? 0 then set_r_state REMOTE_LISTEN rm else rm)) w).
Proof.
  intros Hw Hr Hm Hst Hcmd. pose proof (rok_ib _ (wf_remote _ _ Hw r rm Hr)) as Hib.
  rewrite (run_handle_result r rm msg w Hw Hr Hm). unfold by_state. rewrite Hst, Hcmd.
  change (REMOTE_CMD_LISTEN =? REMOTE_CMD_LISTEN) with true. cbv iota.
  unfold mbind at 1, prog_bind at 1. unfold mbind at 1, prog_bind at 1.
  rewrite (run_bind _ _ _ _ _ (run_message_result _ _ w Hib Hm)). unfold forget.
  destruct (result_in msg =? 0); unfold when.
  - rewrite (run_write_remote _ _ _ _ Hr). erewrite run_write_remote by apply put_remote_lookup.
    unfold mret, prog_ret. by rewrite put_remote_twice.
  - unfold mret at 1, prog_ret at 1. by rewrite (run_write_remote _ _ _ _ Hr).
Qed.

Lemma run_answer_connect r rm c cl msg w :
  wf [] w -> w_remotes w !! r = Some rm -> has_message rm msg ->
  r_state rm = REMOTE_CONNECTING1 -> r_client rm = Some c -> w_clients w !! c = Some cl ->
  c_state cl = CLIENT_CONNECTING1 ->
  exists n cl', connect_told (result_in msg) n cl cl' /\
    remote_handle_command_result r w =
      Done 0 (put_remote r (if result_in msg =? 0 then answered rm else rm) (put_client c cl' w)).
Proof.
  intros Hw Hr Hm Hst Hrc Hc Hcst. pose proof (rok_ib _ (wf_remote _ _ Hw r rm Hr)) as Hib.
  pose proof (wf_client _ _ Hw c cl Hc) as Hcok. unfold client_ok in Hcok. rewrite Hcst in Hcok.
  destruct Hcok as [Hob _].
  pose proof (wp_connect_answer c (result_in msg) cl w Hc Hob Hcst) as H.
  apply wp_run in H as (n & w1 & Hrun & cl' & Ht & ->). exists n, cl'. split; [done|].
  rewrite (run_handle_result r rm msg w Hw Hr Hm). unfold by_state. rewrite Hst, Hrc.
  unfold mbind at 1, prog_bind at 1.
  rewrite (run_bind _ _ _ _ _ (run_message_result _ _ w Hib Hm)).
  erewrite (run_bind (nonnull (Some c))) by done. rewrite (run_bind _ _ _ _ _ Hrun).
  assert (w_remotes (put_client c cl' w) !! r = Some rm) as Hr' by done.
  destruct (result_in msg =? 0); unfold when.
  - by rewrite (run_write_remote _ _ _ _ Hr').
  - unfold mret, prog_ret. by rewrite put_remote_id.
Qed.

(** C16. The answer to a connect request reaches both ends together: the client is
    told the result and moves on as [client_notify_connect] has it, and exactly on
    success the remote is open and polled both ways. *)
Theorem answer_to_connect r rm c cl msg w :
  wf [] w -> w_remotes w !! r = Some rm -> has_message rm msg ->
  r_state rm = REMOTE_CONNECTING1 -> r_client rm = Some c -> w_clients w !! c = Some cl ->
  c_state cl = CLIENT_CONNECTING1 ->
  exists n cl', connect_told (result_in msg) n cl cl' /\
    remote_handle_command_result r w =
      Done 0 (put_remote r (if result_in msg =? 0 then answered rm else rm) (put_client c cl' w)).
Proof. exact (run_answer_connect r rm c cl msg w). Qed.

(** A message passed on as two packets of raw bytes, the header and the payload:
    if there was memory for both, exactly the message was queued. *)
Definition passed_on (msg : list byte) (cl cl' : mux_client) : Prop :=
  exists n k cl1, tells (Some (take 16 msg)) n cl cl1 /\
    (if 16 <? zlen msg then tells (Some (drop 16 msg)) k cl1 cl' else cl' = cl1 /\ k = 0) /\
    (0 <= n -> 0 <= k -> data (c_ob cl') = data (c_ob cl) ++ msg).
Lemma tells_ob_ok pkt n cl cl' : tells pkt n cl cl' -> buf_ok (c_ob cl) -> buf_ok (c_ob cl').
Proof. by intros [(_ & -> & _)|(bs & _ & _ & ? & _)]. Qed.
Lemma tells_data bs n cl cl' :
  tells (Some bs) n cl cl' -> 0 <= n -> data (c_ob cl') = data (c_ob cl) ++ bs.
Proof. intros [(? & _)|(x & Hx & _ & _ & ? & _)] Hn; [lia|]. by simplify_eq. Qed.

Lemma wp_tell_raw p bs cl w :
  w_clients w !! p = Some cl -> buf_ok (c_ob cl) -> small bs ->
  wp (send_pkt_raw p bs) (fun n w' => exists cl', tells (Some bs) n cl cl' /\
    w' = put_client p cl' w) w.
Proof.
  intros Hp Hob Hs. wp_use (by eapply wp_send_pkt_raw). intros n w' Hq. by eapply queues_tells.
Qed.

Lemma wp_pass_on c msg cl w :
  w_clients w !! c = Some cl -> buf_ok (c_ob cl) -> 16 <= zlen msg -> small msg ->
  wp (client_send_packet_data c (take 16 msg) (drop 16 msg))
    (fun _ w' => exists cl', passed_on msg cl cl' /\ w' = put_client c cl' w) w.
Proof.
  intros Hc Hob Hl Hs. unfold small in *. unfold client_send_packet_data. wp_go.
  wp_use (eapply wp_tell_raw; [done|done|unfold small; rewrite length_take; lia]).
  intros n w1 (cl1 & Ht1 & ->). rewrite length_drop.
  destruct (Z.ltb_spec 16 (zlen msg)).
  - rewrite (proj2 (Z.ltb_lt _ _)) by lia.
    wp_use (eapply wp_tell_raw; [apply put_client_lookup|by eapply tells_ob_ok|];
      unfold small; rewrite length_drop; lia).
    intros k w2 (cl2 & Ht2 & ->). exists cl2. rewrite put_client_twice. split; [|done].
    exists n, k, cl1. rewrite (proj2 (Z.ltb_lt _ _)) by lia. split_and!; [done|done|].
    intros Hn Hk. rewrite (tells_data _ _ _ _ Ht2 Hk), (tells_data _ _ _ _ Ht1 Hn).
    by rewrite <- app_assoc, take_drop.
  - rewrite (proj2 (Z.ltb_ge _ _)) by lia. wp_go. exists cl1. split; [|done].
    exists n, 0, cl1. rewrite (proj2 (Z.ltb_ge _ _)) by lia. split_and!; [done|done|done|].
    intros Hn _. rewrite (tells_data _ _ _ _ Ht1 Hn). by rewrite take_ge by lia.
Qed.

(** C27. The answer to a request made for a client goes to that client byte for
    byte, header and all, so it carries the tag of the client's own request; the
    remote then expects no further answer. *)
Theorem answer_to_request r rm c cl msg w :
  wf [] w -> w_remotes w !! r = Some rm -> has_message rm msg ->
  r_state rm = REMOTE_COMMAND -> is_request_command (r_last_command rm) = true ->
  r_client rm = Some c -> w_clients w !! c = Some cl ->
  exists w' cl', remote_handle_command_result r w = Done 0 w' /\ passed_on msg cl cl' /\
    w' = put_remote r (forget rm) (put_client c cl' w).
Proof.
  intros Hw Hr Hm Hst Hcmd Hrc Hc. pose proof (wf_remote _ _ Hw r rm Hr) as Hok.
  pose proof (rok_ib _ Hok) as Hib. pose proof (ok_size _ Hib). pose proof (rok_cap _ Hok).
  destruct (message_facts _ _ Hib Hm) as (Hd & Hl & Hle & Ht).
  destruct (early_client_ob _ _ r rm c Hw Hr Hrc) as (cl0 & Hcl & _ & Hob & _);
    [rewrite Hst; done..|]. assert (cl0 = cl) as -> by congruence.
  rewrite (run_handle_result r rm msg w Hw Hr Hm). unfold by_state. rewrite Hst, Hcmd.
  destruct (Z.eqb_spec (r_last_command rm) REMOTE_CMD_LISTEN) as [E|_];
    [by rewrite E in Hcmd|].
  pose proof (wp_pass_on c msg cl w Hc Hob ltac:(lia)) as Hpass.
  apply wp_run in Hpass as (m & w1 & Hrun & cl' & Hp & ->); [|unfold small; lia].
  exists (put_remote r (forget rm) (put_client c cl' w)), cl'. split; [|done].
  assert (forward_answer r (r_ib rm) (zlen msg - 16) w = Done tt (put_client c cl' w)) as Hf.
  { unfold forward_answer. rewrite (run_bind _ _ _ _ _ (run_read_remote _ _ _ Hr)), Hrc.
    erewrite (run_bind (nonnull (Some c))) by done.
    rewrite (run_bind _ _ _ _ _ (run_header _ _ Hib ltac:(unfold HEADER_SIZE; lia))).
    erewrite run_bind; [|apply run_lift, iobuf_read_data; [done|unfold HEADER_SIZE; lia..]].
    replace (take 16 (data (r_ib rm))) with (take 16 msg).
    2: { rewrite Ht at 1. rewrite firstn_firstn. f_equal. lia. }
    replace (take _ (drop _ (data (r_ib rm)))) with (drop 16 msg).
    2: { rewrite Ht at 1. rewrite skipn_firstn_comm. f_equal. lia. }
    by rewrite (run_bind _ _ _ _ _ Hrun). }
  unfold mbind at 1, prog_bind at 1. rewrite (run_bind _ _ _ _ _ Hf).
  assert (w_remotes (put_client c cl' w) !! r = Some rm) as Hr' by done.
  by rewrite (run_write_remote _ _ _ _ Hr').
Qed.
(** *** Listening *)

(** The first [n] of the devices have been announced, in order; there was no
    packet or no memory for the next one, if any. *)
Record announced_to (devs : list plist) (n : Z) (cl cl' : mux_client) : Prop := {
  an_range : 0 <= n <= zlen devs;
  an_output : exists pkts, Forall2 (fun d pkt => add_packet d cl = Some pkt)
    (take (Z.to_nat n) devs) pkts /\ data (c_ob cl') = data (c_ob cl) ++ concat pkts;
  an_stop d : devs !! Z.to_nat n = Some d ->
    add_packet d cl = None \/ exists k, sys_realloc k = false;
  an_rest : cl' = set_c_events (c_events cl') (set_c_ob (c_ob cl') cl) }.

Lemma announced_none devs cl :
  (forall d, devs !! 0%nat = Some d -> add_packet d cl = None \/ exists k, sys_realloc k = false) ->
  announced_to devs 0 cl cl.
Proof.
  intros H. split; [lia| |done|by destruct cl].
  exists []. split; [constructor|]. by rewrite app_nil_r.
Qed.

Lemma announced_cons d devs n k pkt cl cl1 cl' :
  add_packet d cl = Some pkt -> tells (Some pkt) k cl cl1 -> 0 <= k ->
  announced_to devs n cl1 cl' -> announced_to (d :: devs) (n + 1) cl cl'.
Proof.
  intros Hp Ht Hk [H1 (pkts & H2 & H3) H4 H5]. pose proof (tells_data _ _ _ _ Ht Hk) as Hd.
  assert (c_proto_version cl1 = c_proto_version cl) as Hv.
  { by destruct Ht as [(_ & -> & _)|(x & _ & _ & _ & _ & _ & ->)]. }
  assert (forall x, add_packet x cl1 = add_packet x cl) as Ha by (intros x; unfold add_packet; by rewrite Hv).
  replace (Z.to_nat (n + 1)) with (S (Z.to_nat n)) in * by lia. split.
  - simpl. lia.
  - exists (pkt :: pkts). replace (Z.to_nat (n + 1)) with (S (Z.to_nat n)) by lia. simpl. split.
    + constructor; [done|]. eapply Forall2_impl; [exact H2|]. intros x y. cbv beta. by rewrite Ha.
    + by rewrite H3, Hd, <- app_assoc.
  - intros x. replace (Z.to_nat (n + 1)) with (S (Z.to_nat n)) by lia. simpl. rewrite <- Ha. apply H4.
  - destruct Ht as [(? & _)|(x & _ & _ & _ & _ & _ & Ho)]; [lia|]. rewrite H5, Ho at 1. done.
Qed.

Lemma wp_announce_all c devs count cl w :
  w_clients w !! c = Some cl -> buf_ok (c_ob cl) ->
  wp (announce c devs count) (fun n w' => exists cl', announced_to devs (n - count) cl cl' /\
    w' = put_client c cl' w) w.
Proof.
  revert count cl w. induction devs as [|d devs IH]; intros count cl w Hc Hob; cbn [announce].
  { wp_go. exists cl. rewrite Z.sub_diag. split; [by apply announced_none|by rewrite put_client_id]. }
  wp_go. wp_use (by eapply wp_tell_add). intros k w1 (cl1 & Ht & ->).
  destruct (Z.ltb_spec k 0) as [Hk|Hk].
  - wp_go. exists cl1. rewrite Z.sub_diag. split; [|done]. rewrite (tells_nothing _ _ _ _ Ht Hk).
    apply announced_none. intros x [= <-].
    destruct Ht as [(_ & _ & [?|(bs & j & _ & ? & _)])|(bs & _ & -> & _)]; [by left|right; eauto|].
    pose proof (zlen_nonneg bs). lia.
  - wp_use (apply IH; [apply put_client_lookup|by eapply tells_ob_ok]).
    intros n w' (cl' & Ha & ->). exists cl'. rewrite put_client_twice. split; [|done].
    replace (n - count) with (n - (count + 1) + 1) by lia.
    destruct (add_packet d cl) as [pkt|] eqn:Hp.
    + by eapply announced_cons.
    + destruct Ht as [(? & _)|(x & ? & _)]; [lia|done].
Qed.

End remote_theorems.

(** *** At concrete states *)

(** Remote 4 with the answer "0" in its input, for client 3. *)
Definition answer_message : list byte :=
  encode_header (MkHeader 20 0 MESSAGE_RESULT 9) ++ le 4 0.
Definition loaded (bs : list byte) : iobuf := IOBuf (Some (Block bs 524288)) (zlen bs) 524288.
Definition answering_remote (st : remote_state) (cmd : Z) : remote_mux :=
  MkRemote 14 (iobuf_new REPLY_BUF_SIZE) (loaded answer_message) POLLIN 0 st cmd
    1 false None false (Some "mac.local"%string) 5000 (Some 3%positive) 0.
Definition waiting_client (st : client_state) : mux_client :=
  set_c_state st (set_c_remote (Some 4%positive) (client_fresh 13 2)).
Definition answer_world (st : remote_state) (cmd : Z) (cst : client_state) : world :=
  put_remote 4 (answering_remote st cmd) (put_client 3 (waiting_client cst) world4).

Lemma wf_answer_world st cmd cst :
  cst = CLIENT_COMMAND \/ cst = CLIENT_CONNECTING1 -> wf [] (answer_world st cmd cst).
Proof.
  intros Hcst. assert (wf [] world4) as H4.
  { apply (wf_linked (EN := quiet)); [apply wf_world3|done|done| |done|done]. destruct (fresh_ok 14). by split. }
  eapply wf_put_pair; [exact H4|reflexivity|reflexivity|reflexivity|reflexivity| |reflexivity| |
    reflexivity|done|].
  - assert (buf_ok (iobuf_new REPLY_BUF_SIZE)) as H1 by by apply buf_ok_new.
    assert (input_ok (iobuf_new CMD_BUF_SIZE)) as H2 by (split; [by apply buf_ok_new|done]).
    destruct Hcst as [->| ->]; [exact (conj H1 H2)|split; [exact H1|by split]].
  - destruct (fresh_ok 14). split; try assumption; try done.
    split; [|done|done]. eexists. split; [reflexivity|]. done.
  - intros H. destruct Hcst as [->| ->]; simpl in H; set_solver.
Qed.
Lemma answer_message_there st cmd : has_message (answering_remote st cmd) answer_message.
Proof. split; [by split; vm_compute|by vm_compute|by left|by vm_compute]. Qed.
Lemma connect_follows_route_witness :
  exists n w', usbmux_remote_connect (EN := quiet) 0x01000005 device_one 1 demo_world = Done n w'.
Proof.
  destruct (connect_follows_route (EN := quiet) 0x01000005 device_one 1 idle_client demo_world
    (demo_dns _ _) wf_demo eq_refl eq_refl) as (n & w' & H & _). by exists n, w'.
Defined.
Lemma record_requests_follow_device_witness :
  exists n w', usbmux_remote_read_pair_record (EN := quiet) (Some "udid-1"%string) 7 1 demo_world = Done n w' /\
    record_request "udid-1" 7 REMOTE_CMD_READ_PAIR_RECORD (record_message "ReadPairRecord" "udid-1")
      1 idle_client demo_world n w'.
Proof.
  refine (proj1 (record_requests_follow_device (EN := quiet) "udid-1" device_one 7 1 idle_client
    demo_world (demo_dns _ _) wf_demo eq_refl eq_refl _ _ _)); intros H; vm_compute in H; discriminate.
Defined.
Lemma instance_condemned_witness :
  exists w', remote_mark_dead (EN := quiet) 5 demo_world = Done tt w' /\
    mark_dead_post [] 1 demo_world w'.
Proof.
  exact (instance_condemned (EN := quiet) [] 5 listening_remote demo_world wf_demo eq_refl
    (not_elem_of_nil _)).
Defined.
Lemma remove_instance_outcomes_witness :
  exists n w', remote_mux_service_remove (EN := quiet) None (Some "mac.local"%string) 5000 demo_world =
    Done n w'.
Proof.
  destruct (remove_instance_outcomes (EN := quiet) None (Some "mac.local"%string) 5000 demo_world wf_demo)
    as (n & w' & H & _). by exists n, w'.
Defined.
Lemma dispose_withdraws_witness :
  exists w', usbmux_remote_dispose (EN := quiet) 5 demo_world = Done tt w' /\
    dispose_post [] 5 listening_remote demo_world w'.
Proof.
  exact (dispose_withdraws (EN := quiet) [] 5 listening_remote demo_world wf_demo eq_refl
    (not_elem_of_nil _)).
Defined.

Definition demo_announcement (type : string) : plist :=
  plist_dict_set_item (plist_dict_set_item plist_new_dict "MessageType" (plist_new_string type))
    "DeviceID" (plist_new_uint 6).
Lemma announcements_update_list_witness :
  exists w', handle_listen_message (EN := quiet) 5 (MkHeader 16 1 MESSAGE_PLIST 0) (r_ib listening_remote)
      (Some (demo_announcement "Attached")) demo_world = Done tt w' /\
    list_changed (EN := quiet)
      (fun d => plist_dict_set_item d (format_devid 0x01000006)
                  (rewrite_device_id (demo_announcement "Attached") 0x01000006))
      (add_packet (rewrite_device_id (demo_announcement "Attached") 0x01000006)) demo_world w'.
Proof.
  refine (proj1 (announcements_update_list (EN := quiet) 5 listening_remote
    (MkHeader 16 1 MESSAGE_PLIST 0) (demo_announcement "Attached") 6 demo_world wf_demo eq_refl eq_refl) _).
  split; eexists; split; reflexivity.
Defined.
Lemma answer_to_listen_witness :
  exists w', remote_handle_command_result (EN := quiet) 4
    (answer_world REMOTE_COMMAND REMOTE_CMD_LISTEN CLIENT_COMMAND) = Done 0 w'.
Proof.
  eexists. apply (answer_to_listen (EN := quiet) 4 (answering_remote REMOTE_COMMAND REMOTE_CMD_LISTEN)
    answer_message); [apply wf_answer_world; by left|reflexivity|apply answer_message_there| |];
    reflexivity.
Defined.
Lemma answer_to_connect_witness :
  exists n cl', connect_told (EN := quiet) 0 n (waiting_client CLIENT_CONNECTING1) cl' /\
    remote_handle_command_result (EN := quiet) 4
      (answer_world REMOTE_CONNECTING1 (-1) CLIENT_CONNECTING1) =
    Done 0 (put_remote 4 (answered (answering_remote REMOTE_CONNECTING1 (-1)))
      (put_client 3 cl' (answer_world REMOTE_CONNECTING1 (-1) CLIENT_CONNECTING1))).
Proof.
  apply (answer_to_connect (EN := quiet) 4 (answering_remote REMOTE_CONNECTING1 (-1)) 3
    (waiting_client CLIENT_CONNECTING1) answer_message); try reflexivity;
    [apply wf_answer_world; by right|apply answer_message_there].
Defined.
Lemma answer_to_request_witness :
  exists w' cl', remote_handle_command_result (EN := quiet) 4
      (answer_world REMOTE_COMMAND REMOTE_CMD_READ_BUID CLIENT_COMMAND) = Done 0 w' /\
    passed_on (EN := quiet) answer_message (waiting_client CLIENT_COMMAND) cl' /\
    w' = put_remote 4 (forget (answering_remote REMOTE_COMMAND REMOTE_CMD_READ_BUID))
      (put_client 3 cl' (answer_world REMOTE_COMMAND REMOTE_CMD_READ_BUID CLIENT_COMMAND)).
Proof.
  apply (answer_to_request (EN := quiet)); try reflexivity;
    [apply wf_answer_world; by left|apply answer_message_there].
Defined.
