(* ===== verification/DaemonTheorems.v ===== *)
(** Properties of the daemon as a whole: no reachable state and no admissible
    input leads to a fault, what the main loop polls, startup and shutdown; and the
    inputs outside of that, at which the program does go wrong. *)

From S2P Require Import Prelude Exec Mem Utils Proto CStr RemoteId Plist World WorldFacts.
From S2P Require Import Socket Client Remote Teardown Command RemoteProcess Invariant.
From S2P Require Import ClientFacts TeardownFacts RemoteFacts CommandFacts RemoteProcessFacts.
From S2P Require Import Daemon DaemonFacts Demo Framing.

Section daemon_theorems.
Context `{PL : PlistLib} {PLaws : PlistLaws PL}.

(** C1. In every state the daemon can reach, every admissible input (a poll event
    that was asked for, with a message the daemon is prepared for) is handled to
    the end: no freed or NULL pointer is used, no buffer overrun, no mutex taken
    twice, no loop without end; and the next state is reachable again. *)
Theorem daemon_never_faults EN (EL : EnvLaws EN) i w :
  reachable w -> admissible (EN := EN) i w ->
  exists w', run EN i w = Done tt w' /\ reachable w'.
Proof.
  intros Hr Ha. pose proof (reachable_wf w Hr) as Hw.
  pose proof (run_wf i w Hw Ha) as H. apply wp_run_tt in H as (w' & Hrun & _).
  exists w'. split; [done|]. destruct Hr as (w0 & H0 & Hs). exists w0. split; [done|].
  eapply rtc_r; [exact Hs|]. by econstructor.
Qed.

(** C2. Reachable states are consistent: between two inputs no mutex is held; the
    lists hold exactly the live clients and remotes, each once; a client and a
    remote that refer to each other do so mutually, to live objects; a client
    told that its connection is open has a remote that is open or condemned. *)
Theorem reachable_consistent w :
  reachable w ->
  w_locks w = [] /\
  (NoDup (elems (client_list w)) /\ forall p, p ∈ elems (client_list w) <-> is_Some (w_clients w !! p)) /\
  (NoDup (elems (remote_list w)) /\ forall p, p ∈ elems (remote_list w) <-> is_Some (w_remotes w !! p)) /\
  (forall c cl r, w_clients w !! c = Some cl -> c_remote cl = Some r ->
     exists rm, w_remotes w !! r = Some rm /\ r_client rm = Some c /\
       (c_state cl ∈ [CLIENT_CONNECTING2; CLIENT_CONNECTED] ->
          r_state rm ∈ [REMOTE_CONNECTED; REMOTE_DEAD])) /\
  (forall r rm c, w_remotes w !! r = Some rm -> r_client rm = Some c ->
     exists cl, w_clients w !! c = Some cl /\ c_remote cl = Some r) /\
  (forall r rm, w_remotes w !! r = Some rm -> 0 <= r_id rm < 256).
Proof.
  intros Hr%reachable_wf. destruct Hr as [Hl [_ H1 H2] [_ H3 H4] _ _ H5 H6 H7 _ _ _].
  split_and!; try done. intros r rm Hrm. by destruct (H5 r rm Hrm).
Qed.

(** The instances the daemon is connected to. *)
Definition instances (w : world) : gmap positive remote_mux :=
  filter (fun kv => host_listener kv.2) (w_remotes w).

Lemma instance_ids w :
  wf [] w ->
  NoDup ((fun kv => r_id kv.2) <$> map_to_list (instances w)) /\
  forall i, i ∈ ((fun kv => r_id kv.2) <$> map_to_list (instances w)) -> 1 <= i < 256.
Proof.
  intros Hw. pose proof (wf_places _ _ Hw) as Hpl.
  assert (forall p rm, (p, rm) ∈ map_to_list (instances w) ->
    w_remotes w !! p = Some rm /\ host_listener rm) as Hin.
  { intros p rm Hp%elem_of_map_to_list. by apply map_lookup_filter_Some in Hp. }
  split.
  - apply NoDup_fmap_2_strong; [|apply NoDup_map_to_list].
    intros [p rm] [q rm'] [Hp Hl]%Hin [Hq Hl']%Hin E. simpl in E.
    assert (p = q) as -> by (by eapply (pl_distinct _ _ Hpl)). congruence.
  - intros i ([p rm] & -> & [Hp Hl]%Hin)%list_elem_of_fmap. simpl.
    destruct (pl_used _ _ Hpl p rm Hp Hl). pose proof (rok_id _ (wf_remote _ _ Hw p rm Hp)). lia.
Qed.

(** C13. In reachable states every instance owns an identifier: it is one of 1 to
    255 and marked used, no other instance has it, and so there are never more
    than 255 instances; a device id leads to one instance only. *)
Theorem instances_own_their_ids w :
  reachable w ->
  (forall p rm, w_remotes w !! p = Some rm -> host_listener rm ->
     1 <= r_id rm < 256 /\ id_used (remote_id_map w) (r_id rm) = true) /\
  (forall p q rm rm', w_remotes w !! p = Some rm -> w_remotes w !! q = Some rm' ->
     host_listener rm -> host_listener rm' -> r_id rm = r_id rm' -> p = q) /\
  zlen (map_to_list (instances w)) <= 255.
Proof.
  intros Hw%reachable_wf. pose proof (wf_places _ _ Hw) as [Hu Hd]. split_and!; [|exact Hd|].
  - intros p rm Hp Hl. destruct (Hu p rm Hp Hl). pose proof (rok_id _ (wf_remote _ _ Hw p rm Hp)).
    split; [lia|done].
  - destruct (instance_ids w Hw) as [Hnd Hr].
    assert ((fun kv => r_id kv.2) <$> map_to_list (instances w) ⊆+ seqZ 1 255) as Hsub.
    { apply NoDup_submseteq; [done|]. intros i Hi%Hr. apply elem_of_seqZ. lia. }
    apply submseteq_length in Hsub. rewrite length_fmap in Hsub.
    change (length (seqZ 1 255)) with 255%nat in Hsub. lia.
Qed.

(** The main loop runs without a fault for any number of poll results, and
    ends with 0 or -1, as long as every event is admissible in the state it
    finds and the lists stay below 2^28 slots. *)
Theorem main_loop_safe listenfd polls l w :
  wf [] w -> loop_ok listenfd polls false l w ->
  exists res w', main_loop listenfd polls false l w = Done res w' /\ wf [] w' /\ (res = 0 \/ res = -1).
Proof. intros Hw Hok. by apply wp_run_val, main_loop_wf. Qed.

(** C12. A whole run of the daemon between the creation of its socket and its exit,
    with or without a local usbmuxd, mDNS and an instance on the command line: it
    ends with the result of the loop, 0 or -1, however many poll results there
    are, and leaves nothing behind: no client, no instance, no device list, no
    mutex held. A signal ends it, whatever would come afterwards. *)
Theorem daemon_run_clean E0 (L0 : EnvLaws E0) E1 (L1 : EnvLaws E1) listenfd no_mdns
    remote_host remote_port polls :
  prints (create_plist_message "Listen") -> (is_Some remote_host -> dns_up (EN := E0)) ->
  (forall w, prepare E0 no_mdns remote_host remote_port world_init = Done tt w ->
     loop_ok listenfd polls false fdlist_create w) ->
  exists res w',
    serve E0 E1 listenfd no_mdns remote_host remote_port polls world_init = Done res w' /\
    (res = 0 \/ res = -1) /\ w_clients w' = ∅ /\ w_remotes w' = ∅ /\ w_locks w' = [] /\
    remote_device_list w' = None /\
    (signalled polls false = true -> forall rest,
       serve E0 E1 listenfd no_mdns remote_host remote_port (polls ++ rest) world_init = Done res w').
Proof.
  intros Hpr Hdns Hok.
  assert (wp (serve E0 E1 listenfd no_mdns remote_host remote_port polls) (fun res w' =>
    (res = 0 \/ res = -1) /\ w_clients w' = ∅ /\ w_remotes w' = ∅ /\ w_locks w' = [] /\
    remote_device_list w' = None) world_init) as H.
  2: { apply wp_run in H as (res & w' & Hrun & H1 & H2 & H3 & H4 & H5).
       exists res, w'. split_and!; try done. intros Hs rest. rewrite <- Hrun.
       unfold serve, mbind, prog_bind. destruct (prepare _ _ _ _ _) as [[] w|]; [|done].
       by rewrite main_loop_signal. }
  unfold serve. apply wp_bind.
  assert (wp (prepare E0 no_mdns remote_host remote_port) (fun _ w => wf [] w) world_init) as Hp
    by by apply wp_prepare.
  apply wp_run_tt in Hp as (w & Hrun & Hw). apply wp_run. exists tt, w. split; [done|].
  apply wp_bind. wp_use (by apply main_loop_wf; [|by apply Hok]). intros res w1 [Hw1 Hres].
  apply wp_bind. apply wp_shutdown; [done|]. intros w2 H1 H2 H3 H4. by wp_go.
Qed.

Section one_environment.
Context `{EN : Env} {EL : EnvLaws EN}.

(** What is polled is exactly the listening socket for input, then every
    client and every remote with the events it asks for, in list order. *)
Theorem polls_every_descriptor listenfd l w :
  wf [] w -> gatherable l w ->
  exists l' w', gather EN listenfd l w = Done l' w' /\ contents l' = poll_list listenfd w /\
    w_clients w' = w_clients w.
Proof. intros Hw Hg. by apply wp_run_val, (wp_gather listenfd l). Qed.

(** Initialisation succeeds with or without a local usbmuxd: the state is
    reachable, without clients, and the only remote there may be is the listener
    on the local socket, under identifier 0; all other identifiers are free. *)
Theorem initialisation_consistent no_mdns :
  prints (create_plist_message "Listen") ->
  exists w, (_ ← client_init; usbmux_remote_init no_mdns) world_init = Done tt w /\ reachable w /\
    w_clients w = ∅ /\
    (forall p rm, w_remotes w !! p = Some rm ->
       r_is_unix rm = true /\ r_is_listener rm = true /\ r_id rm = 0) /\
    (forall i, 1 <= i < 256 -> id_used (remote_id_map w) i = false).
Proof.
  intros Hp.
  assert (wp (_ ← client_init; usbmux_remote_init no_mdns) (fun _ w => w_clients w = ∅ /\
    (forall p rm, w_remotes w !! p = Some rm ->
       r_is_unix rm = true /\ r_is_listener rm = true /\ r_id rm = 0) /\
    (forall i, 1 <= i < 256 -> id_used (remote_id_map w) i = false)) world_init) as H
    by by apply wp_init.
  apply wp_run_tt in H as (w & Hrun & H). exists w. split; [done|]. split; [|done].
  exists w. split; [by econstructor|constructor].
Qed.

(** Shutdown from a consistent state frees everything: no client and no
    remote is left, the device list is gone, and no mutex is held. *)
Theorem shutdown_frees_everything w :
  wf [] w ->
  exists w', shutdown EN w = Done tt w' /\ w_clients w' = ∅ /\ w_remotes w' = ∅ /\
    w_locks w' = [] /\ remote_device_list w' = None.
Proof. intros Hw. by apply wp_run_tt, wp_shutdown. Qed.

(** A new connection becomes one idle client with the next number, and the
    result of [client_accept] is its descriptor; a failed [accept] changes
    nothing. *)
Theorem accept_adds_one_client fd w :
  wf [] w ->
  exists w', client_accept fd w = Done (sys_accept fd) w' /\
    (if sys_accept fd <? 0 then w' = w
     else wf [] w' /\ w_remotes w' = w_remotes w /\ client_number w' = u32 (client_number w + 1) /\
       exists c, w_clients w !! c = None /\
         w_clients w' = <[c := client_fresh (sys_accept fd) (client_number w)]> (w_clients w)).
Proof.
  intros Hw.
  assert (wp (client_accept fd) (fun n w' => n = sys_accept fd /\
    (if sys_accept fd <? 0 then w' = w
     else wf [] w' /\ w_remotes w' = w_remotes w /\ client_number w' = u32 (client_number w + 1) /\
       exists c, w_clients w !! c = None /\
         w_clients w' = <[c := client_fresh (sys_accept fd) (client_number w)]> (w_clients w))) w) as H.
  { apply wp_client_accept; [done| |].
    - intros H. by rewrite (proj2 (Z.ltb_lt _ _) H).
    - intros w' c H1 H2 H3 H4 H5 H6. rewrite (proj2 (Z.ltb_ge _ _)) by lia. eauto 10. }
  apply wp_run in H as (n & w' & Hrun & -> & H). eauto.
Qed.
End one_environment.
End daemon_theorems.

(** *** What happens outside of the admissible inputs *)

Section findings.
Context `{PL : PlistLib} {PLaws : PlistLaws PL} `{EN : Env} {EL : EnvLaws EN}.

(** A host name that does not resolve leaves the lookup mutex taken: that
    attempt fails, and every later connection to a host blocks for ever. *)
Theorem unknown_host_deadlocks host port timeout w :
  gethostbyname_mutex ∉ w_locks w -> ~ resolves host ->
  exists w', socket_connect_timeout (Some host) port timeout w = Done (-1) w' /\
    forall host' port' timeout',
      socket_connect_timeout (Some host') port' timeout' w' = Crash SelfDeadlock.
Proof.
  intros Hl Hr. exists (set_w_locks (gethostbyname_mutex :: w_locks w) w). split.
  - unfold socket_connect_timeout, lock, mbind, prog_bind, get, modify.
    rewrite bool_decide_eq_false_2 by done.
    destruct (sys_gethostbyname host) as [[a|]|] eqn:E; [|done|done].
    exfalso. apply Hr. by exists a.
  - intros host' port' timeout'. unfold socket_connect_timeout, lock, mbind, prog_bind, get.
    rewrite bool_decide_eq_true_2; [done|]. simpl. set_solver.
Qed.

(** The receiver when the message is complete already: nothing is read. *)
Lemma run_complete c cl w :
  w_clients w !! c = Some cl -> buf_ok (c_ib cl) ->
  16 <= announced (data (c_ib cl)) <= size (c_ib cl) ->
  process_recv c w = client_outcome c (Complete (data (c_ib cl))) w.
Proof.
  intros Hc Hok Hl. pose proof (ok_size _ Hok). unfold process_recv.
  rewrite (run_bind _ _ _ _ _ (run_read_client _ _ _ Hc)).
  rewrite (proj2 (Z.ltb_ge _ _)) by (unfold HEADER_SIZE; lia).
  unfold mbind at 1, prog_bind at 1. unfold mret at 1, prog_ret at 1. cbv beta iota.
  rewrite (run_bind _ _ _ _ _ (run_header _ _ Hok ltac:(unfold HEADER_SIZE; lia))). cbv zeta.
  rewrite decode_header_take by (pose proof (data_length _ Hok); lia).
  fold (announced (data (c_ib cl))). unfold HEADER_SIZE. rewrite !(proj2 (Z.ltb_ge _ _)) by lia. done.
Qed.

(** A complete message of a waiting client whose property list does not parse. *)
Record malformed (cl : mux_client) : Prop := {
  mf_state : c_state cl = CLIENT_COMMAND;
  mf_buf : buf_ok (c_ib cl);
  mf_length : 16 <= announced (data (c_ib cl)) <= size (c_ib cl);
  mf_version : h_version (decode_header (data (c_ib cl))) = 0 \/
               h_version (decode_header (data (c_ib cl))) = 1;
  mf_message : h_message (decode_header (data (c_ib cl))) = MESSAGE_PLIST;
  mf_parse : plist_from_xml (drop 16 (message_in (data (c_ib cl)))) = None }.

Lemma run_malformed_command c cl w :
  w_clients w !! c = Some cl -> malformed cl ->
  client_command c w = Done (-1) (put_client c (set_c_proto_version 1 cl) w).
Proof.
  intros Hc [Hst Hok Hl Hv Hm Hx]. unfold announced in *. pose proof (ok_size _ Hok).
  pose proof (ok_cap _ Hok). unfold BUF_MAX in *. pose proof (data_length _ Hok).
  unfold client_command. rewrite (run_bind _ _ _ _ _ (run_read_client _ _ _ Hc)).
  rewrite (run_bind _ _ _ _ _ (run_header _ _ Hok ltac:(unfold HEADER_SIZE; lia))). cbv zeta.
  rewrite decode_header_take by lia. rewrite bool_decide_eq_false_2 by (intros Hn; by apply Hn).
  assert ((negb (h_version (decode_header (data (c_ib cl))) =? 0) &&
    negb (h_version (decode_header (data (c_ib cl))) =? 1)) = false) as ->
    by (by destruct Hv as [->| ->]).
  rewrite Hm. change (MESSAGE_PLIST =? MESSAGE_PLIST) with true. cbv iota. unfold plist_request.
  rewrite (run_bind _ _ _ _ _ (run_write_client _ _ _ _ Hc)).
  unfold HEADER_SIZE. rewrite u32_small by lia.
  erewrite run_bind; [|apply run_lift, iobuf_read_data; [done|lia..]].
  replace (take _ (drop _ (data (c_ib cl)))) with (drop 16 (message_in (data (c_ib cl)))).
  2: { unfold message_in. rewrite skipn_firstn_comm. f_equal. lia. }
  by rewrite Hx.
Qed.

Lemma run_malformed c cl w :
  w_clients w !! c = Some cl -> malformed cl ->
  process_recv c w = Done tt (put_client c (set_c_proto_version 1 cl) w).
Proof.
  intros Hc Hm. rewrite (run_complete c cl w Hc (mf_buf _ Hm) (mf_length _ Hm)).
  unfold client_outcome. by rewrite (run_bind _ _ _ _ _ (run_malformed_command c cl w Hc Hm)).
Qed.

(** A property list that does not parse stays in the buffer of the client: the
    message is executed again at every poll event and nothing more is ever read
    from the client. *)
Theorem malformed_plist_stays c cl w :
  w_clients w !! c = Some cl -> malformed cl ->
  let w' := put_client c (set_c_proto_version 1 cl) w in
  process_recv c w = Done tt w' /\ process_recv c w' = Done tt w'.
Proof.
  intros Hc Hm w'. split; [by apply run_malformed|].
  rewrite (run_malformed c (set_c_proto_version 1 cl) w'); [|apply put_client_lookup|].
  - unfold w'. by rewrite put_client_twice.
  - by destruct Hm.
Qed.
End findings.

(** *** At concrete states *)

(** The environment of [demo_env] with another socket for the next connection. *)
Definition on_socket (fd : Z) (E : Env) : Env := {|
  sys_now := @sys_now E; sys_realloc := @sys_realloc E; sys_recv := @sys_recv E;
  sys_send := @sys_send E; sys_accept := @sys_accept E; sys_stat := @sys_stat E;
  sys_socket := fd;
  sys_connect_unix := @sys_connect_unix E; sys_gethostbyname := @sys_gethostbyname E;
  sys_reuseaddr := @sys_reuseaddr E; sys_connect := @sys_connect E; sys_select := @sys_select E;
  sys_so_error := @sys_so_error E; sys_getfl := @sys_getfl E; sys_setfl := @sys_setfl E;
  sys_thread := @sys_thread E |}.

(** Some descriptor has data to read, the others nothing. *)
Definition arrives (fd : Z) (bs : list byte) : Env :=
  demo_env (fun fd' => Some (if fd' =? fd then bs else [])) (fun _ => 2 ^ 20).

(** Remote 4, connected, with output for its instance. *)
Definition pending : iobuf := IOBuf (Some (Block [Byte.x2a] REPLY_BUF_SIZE)) 1 REPLY_BUF_SIZE.
Definition pending_world : world := put_remote 4 (set_r_ob pending connected_remote) demo_world.

Lemma wf_pending : wf [] pending_world.
Proof.
  eapply wf_remote_update; [apply wf_demo|reflexivity| |reflexivity|reflexivity|done].
  destruct (fresh_ok 14). split; try assumption; try done.
  split; [|done|done]. eexists. split; [reflexivity|]. done.
Qed.


(** A client that asks for the BUID twice before it gets an answer, and hangs up;
    then the answer to the first request arrives. *)
Definition buid_request (tag : Z) : list byte :=
  packet 1 MESSAGE_PLIST tag (default [] (plist_to_xml (create_plist_message "ReadBUID"))).
Definition impatient_client : list (Env * input) :=
  [ (arrives 11 (buid_request 7), InClient 11 POLLIN);
    (on_socket 21 (arrives 11 (drop 16 (buid_request 7))), InClient 11 POLLIN);
    (arrives 11 (buid_request 8), InClient 11 POLLIN);
    (on_socket 22 (arrives 11 (drop 16 (buid_request 8))), InClient 11 POLLIN);
    (quiet, InClient 11 POLLIN);
    (arrives 21 (encode_header (MkHeader 16 1 MESSAGE_RESULT 7)), InRemote 21 POLLIN) ].


Lemma listen_prints : prints (create_plist_message "Listen").
Proof. intros H. vm_compute in H. discriminate. Qed.

(** A state the daemon reaches. *)
Lemma some_reachable : exists w, reachable w.
Proof.
  assert (wp (_ ← client_init; usbmux_remote_init (EN := quiet) true) (fun _ _ => True) world_init) as H
    by (apply wp_init; [exact listen_prints|done]).
  apply wp_run_tt in H as (w & Hrun & _). exists w, w. split; [|constructor].
  by apply (initial_run quiet true w _ listen_prints).
Qed.

Lemma daemon_never_faults_witness :
  exists w w', run quiet (InAccept 3) w = Done tt w' /\ reachable w'.
Proof.
  destruct some_reachable as [w Hr].
  destruct (daemon_never_faults quiet _ (InAccept 3) w Hr I) as (w' & H). by exists w, w'.
Defined.
Lemma reachable_consistent_witness : exists w, reachable w /\ w_locks w = [].
Proof.
  destruct some_reachable as [w Hr]. destruct (reachable_consistent w Hr) as [Hl _]. by exists w.
Defined.

Lemma instances_own_their_ids_witness :
  exists w, reachable w /\ zlen (map_to_list (instances w)) <= 255.
Proof.
  destruct some_reachable as [w Hr]. exists w. split; [exact Hr|].
  exact (proj2 (proj2 (instances_own_their_ids w Hr))).
Defined.

Lemma demo_gatherable : gatherable fdlist_create demo_world.
Proof. split; [exact (proj1 fdlist_create_ok)|]. by vm_compute. Qed.
Definition one_timeout : list poll_result :=
  [{| p_cnt := 0; p_eintr := false; p_signals := []; p_revents := []; p_env := quiet;
      p_envs := fun _ => quiet |}].
Lemma main_loop_safe_witness :
  exists res w', main_loop 3 one_timeout false fdlist_create demo_world = Done res w'.
Proof.
  destruct (main_loop_safe 3 one_timeout fdlist_create demo_world wf_demo) as (res & w' & H & _).
  { intros _. split; [apply quiet_laws|]. split; [exact demo_gatherable|]. intros l' w' _. by split. }
  exists res, w'. exact H.
Defined.

(** One connection is accepted while the signal to end arrives. *)
Definition one_accept : list poll_result :=
  [{| p_cnt := 1; p_eintr := false; p_signals := [SIGTERM]; p_revents := POLLIN :: replicate 100 0;
      p_env := quiet; p_envs := fun _ => quiet |}].
Lemma dispatch_ok_idle listenfd l n i w :
  Forall (fun e => is_Some e.1 /\ is_Some e.2) l -> (length l <= n)%nat ->
  dispatch_ok listenfd l (replicate n 0) (fun _ => quiet) i w.
Proof.
  intros Hl. revert n i w. induction Hl as [|[o p] l [[o' Ho] [p' Hp]] _ IH]; intros [|n] i w Hn;
    simpl in *; subst; try done; [lia|].
  split; [apply quiet_laws|]. split; [done|]. intros res w' _. apply IH. lia.
Qed.
Lemma poll_list_full listenfd w :
  Forall (fun e : option fdowner * option pollfd => is_Some e.1 /\ is_Some e.2) (poll_list listenfd w).
Proof.
  constructor; [by split|]. apply Forall_app. split; apply Forall_forall.
  - intros e (p & _ & He)%list_elem_of_omap. unfold client_entry in He.
    destruct (w_clients w !! p); simplify_eq/=. by split.
  - intros e (p & _ & He)%list_elem_of_omap. unfold remote_entry in He.
    destruct (w_remotes w !! p); simplify_eq/=. by split.
Qed.
Definition started (f : world -> Z) : Z :=
  match prepare quiet true (Some "mac.local"%string) 5000 world_init with
  | Done _ w => f w
  | Crash _ => 0
  end.
Lemma started_bound (f : world -> Z) n w :
  prepare quiet true (Some "mac.local"%string) 5000 world_init = Done tt w ->
  started f < n -> f w < n.
Proof. unfold started. by intros ->. Qed.
Lemma daemon_run_clean_witness :
  exists res w', w_clients w' = ∅ /\ w_remotes w' = ∅ /\
    serve quiet quiet 3 true (Some "mac.local"%string) 5000 (one_accept ++ one_timeout) world_init =
      Done res w'.
Proof.
  destruct (daemon_run_clean quiet _ quiet _ 3 true (Some "mac.local"%string) 5000 one_accept)
    as (res & w' & _ & _ & H2 & H3 & _ & _ & H1).
  - exact listen_prints.
  - intros _. apply demo_dns.
  - intros w Hrun.
    assert (wf [] w) as Hw.
    { pose proof (wp_prepare quiet _ true (Some "mac.local"%string) 5000 (fun _ w => wf [] w)) as Hp.
      unfold wp in Hp. rewrite Hrun in Hp. apply Hp; [exact listen_prints|intros _; apply demo_dns|done]. }
    assert (gatherable fdlist_create w) as Hg.
    { split; [exact (proj1 fdlist_create_ok)|]. split; [by vm_compute|].
      apply (started_bound (fun w => zlen (client_slots w) + zlen (remote_slots w)) (2 ^ 28) w Hrun).
      by vm_compute. }
    intros _. split; [apply quiet_laws|]. split; [exact Hg|]. intros l w1 Hgather. split; [by intros [?|?]|].
    intros _ _. split; [|done]. cbn [p_env] in Hgather.
    assert (contents l = poll_list 3 w) as ->.
    { pose proof (wp_gather (EN := quiet) 3 fdlist_create w (fun l' _ => contents l' = poll_list 3 w) Hw Hg) as H.
      unfold wp in H. rewrite Hgather in H. by apply H. }
    pose proof (poll_list_full 3 w) as Hfull. unfold poll_list in *.
    set (rest := _ ++ _) in *. cbn [dispatch_ok p_revents p_envs]. split; [apply quiet_laws|]. split; [done|].
    intros res w2 _. apply dispatch_ok_idle; [by inversion Hfull|].
    apply (started_bound (fun w => zlen (tail (poll_list 3 w))) 100) in Hrun.
    { change (zlen rest < 100) in Hrun. lia. }
    by vm_compute.
  - exists res, w'. split; [exact H2|]. split; [exact H3|]. exact (H1 eq_refl one_timeout).
Defined.
Lemma polls_every_descriptor_witness :
  exists l' w', gather quiet 3 fdlist_create demo_world = Done l' w' /\
    contents l' = poll_list 3 demo_world.
Proof.
  destruct (polls_every_descriptor (EN := quiet) 3 fdlist_create demo_world wf_demo demo_gatherable)
    as (l' & w' & H1 & H2 & _). exists l', w'. split; [exact H1|exact H2].
Defined.
Lemma initialisation_consistent_witness :
  exists w, (_ ← client_init; usbmux_remote_init (EN := quiet) true) world_init = Done tt w.
Proof.
  destruct (initialisation_consistent (EN := quiet) true listen_prints) as (w & H & _).
  exists w. exact H.
Defined.
Lemma shutdown_frees_everything_witness :
  exists w', shutdown quiet demo_world = Done tt w' /\ w_clients w' = ∅.
Proof.
  destruct (shutdown_frees_everything (EN := quiet) demo_world wf_demo) as (w' & H1 & H2 & _).
  exists w'. split; [exact H1|exact H2].
Defined.
Lemma accept_adds_one_client_witness :
  exists w', client_accept (EN := quiet) 3 demo_world = Done 9 w'.
Proof.
  destruct (accept_adds_one_client (EN := quiet) 3 demo_world wf_demo) as (w' & H & _).
  exists w'. exact H.
Defined.

Definition no_dns : Env := {|
  sys_now := 0; sys_realloc := @sys_realloc quiet; sys_recv := @sys_recv quiet;
  sys_send := @sys_send quiet; sys_accept := @sys_accept quiet; sys_stat := @sys_stat quiet;
  sys_socket := 7; sys_connect_unix := @sys_connect_unix quiet;
  sys_gethostbyname := fun _ => None;
  sys_reuseaddr := @sys_reuseaddr quiet; sys_connect := @sys_connect quiet;
  sys_select := @sys_select quiet; sys_so_error := @sys_so_error quiet;
  sys_getfl := @sys_getfl quiet; sys_setfl := @sys_setfl quiet; sys_thread := @sys_thread quiet |}.
#[export] Instance no_dns_laws : EnvLaws no_dns.
Proof. split; [done|intros n; simpl; apply Z.ltb_lt..]. Qed.
Lemma unknown_host_deadlocks_witness :
  exists w', socket_connect_timeout (EN := no_dns) (Some "nowhere"%string) 5000 (Some 5) demo_world =
      Done (-1) w' /\
    forall host' port' timeout',
      socket_connect_timeout (EN := no_dns) (Some host') port' timeout' w' = Crash SelfDeadlock.
Proof.
  apply (unknown_host_deadlocks (EN := no_dns)); [apply not_elem_of_nil|]. by intros [a H].
Defined.

(** Client 1 with a property list message that holds none. *)
Definition empty_plist : iobuf :=
  IOBuf (Some (Block (encode_header (MkHeader 16 1 MESSAGE_PLIST 3)) CMD_BUF_SIZE)) 16 CMD_BUF_SIZE.
Definition confused_client : mux_client := set_c_ib empty_plist idle_client.
Lemma confused_is_malformed : malformed confused_client.
Proof.
  split; [done| |by vm_compute|by right|done|by vm_compute].
  split; [|done|done]. eexists. split; [reflexivity|]. done.
Qed.
Lemma malformed_plist_stays_witness :
  let w := put_client 1 confused_client demo_world in
  let w' := put_client 1 (set_c_proto_version 1 confused_client) w in
  process_recv (EN := quiet) 1 w = Done tt w' /\ process_recv (EN := quiet) 1 w' = Done tt w'.
Proof.
  exact (malformed_plist_stays (EN := quiet) 1 confused_client (put_client 1 confused_client demo_world)
    (put_client_lookup _ _ _) confused_is_malformed).
Defined.
