(* ===== verification/DiscoveryTheorems.v ===== *)
(** Properties of the discovery of instances: what appears on the network is added,
    what goes is condemned, and the thread gives back what it takes. *)

From S2P Require Import Prelude Exec Mem Utils Proto CStr RemoteId Plist World WorldFacts.
From S2P Require Import Socket Client Remote Teardown Command RemoteProcess Invariant.
From S2P Require Import ClientFacts TeardownFacts RemoteFacts CommandFacts RemoteProcessFacts.
From S2P Require Import Discovery Daemon DaemonFacts Demo RemoteTheorems.

Section discovery_theorems.
Context `{PL : PlistLib} {PLaws : PlistLaws PL} `{EN : Env} {EL : EnvLaws EN}.

(** The only listener of a service just added is the new one. *)
Lemma named_is_new s h port id w w1 p rm p0 rm0 :
  ~ has_instance s h port w -> w_remotes w1 = <[p := rm]> (w_remotes w) ->
  w_remotes w1 !! p0 = Some rm0 -> is_named (Some s) None id rm0 = true -> rm0 = rm.
Proof.
  intros Hno E Hp0 Hn. rewrite E in Hp0. apply lookup_insert_Some in Hp0 as [[_ <-]|[_ Hp0]]; [done|].
  destruct Hno. exists p0, rm0. split; [done|]. unfold is_named, is_instance in *.
  destruct (negb (r_is_unix rm0) && r_is_listener rm0); simpl in *; [|done].
  rewrite orb_false_r in Hn. by rewrite Hn.
Qed.


(** The thread frees exactly the objects of Avahi it made, last one first, whichever
    of them could not be made, and whatever callbacks ran: each step of the loop is
    an input the daemon is proved safe for. *)
Theorem thread_frees_what_it_made s cbs w :
  wf [] w ->
  Forall (fun p => EnvLaws p.1 /\ dns_up (EN := p.1)) cbs -> prints (create_plist_message "Listen") ->
  exists w', mdns_monitor_thread s cbs w = Done (avahi_made s) w' /\ wf [] w'.
Proof.
  intros Hw Hcbs Hpr.
  assert (forall w, wf [] w -> wp (simple_poll_loop cbs) (fun _ w' => wf [] w') w) as Hloop.
  { clear w Hw. induction Hcbs as [|[E cb] cbs [HE Hd] _ IH]; intros w Hw; simpl; [by wp_go|].
    apply wp_bind. wp_use (by apply run_callback_wf). intros _ w1 Hw1.
    destruct (quits cb); [by wp_go|by apply IH]. }
  assert (wp (mdns_monitor_thread s cbs) (fun l w' => l = avahi_made s /\ wf [] w') w) as H.
  { unfold mdns_monitor_thread. destruct s as [[] [] []]; simpl; wp_go; try done.
    wp_use (by apply Hloop). intros _ w' Hw'. by wp_go. }
  apply wp_run in H as (l & w' & Hrun & -> & Hw'). by exists w'.
Qed.
End discovery_theorems.

(** *** At concrete states *)

Lemma demo_no_instance : ~ has_instance "desk" "desk.local" 5000 demo_world.
Proof.
  intros (q & rm & Hq & Hi).
  assert (map_Forall (fun _ rm => is_instance "desk" "desk.local" 5000 rm = false) (w_remotes demo_world))
    as H by (apply (bool_decide_unpack _); by vm_compute).
  specialize (H q rm Hq). simpl in H. congruence.
Qed.
Lemma thread_frees_what_it_made_witness :
  exists w', mdns_monitor_thread {| as_poll := true; as_client := true; as_browser := false |}
    [(quiet, CbClient true)] demo_world = Done [AvahiClient; AvahiPoll] w'.
Proof.
  destruct (thread_frees_what_it_made {| as_poll := true; as_client := true; as_browser := false |}
    [(quiet, CbClient true)] demo_world wf_demo) as (w' & H & _).
  - constructor; [|constructor]. split; [exact quiet_laws|exact (demo_dns _ _)].
  - intros H. vm_compute in H. discriminate.
  - exists w'. exact H.
Defined.
