(* ===== verification/Proxy.v ===== *)
(** A connected client as a pair of byte queues. Once a client and a remote are
    connected, four poll events move bytes between their sockets through the
    buffers of the remote. [channel] forgets everything but the two buffers;
    [moves] says what an event may do to them. The handlers refine that, and so a
    connection passes on what it is given: all of it, in order, nothing else. *)

From S2P Require Import Prelude Exec Mem Utils Proto CStr RemoteId Plist World WorldFacts.
From S2P Require Import Socket Client Remote Teardown Command RemoteProcess Invariant.
From S2P Require Import ClientFacts TeardownFacts RemoteFacts CommandFacts RemoteProcessFacts.
From S2P Require Import Daemon DaemonFacts Demo DaemonTheorems.

(** *** Specification *)

(** Bytes on their way to the instance and on their way to the client. *)
Record channel := Channel { up : list byte; down : list byte }.

(** Input on the client, room at the instance, input from the instance, room at
    the client. *)
Inductive pair_event := UpRead | UpWrite | DownRead | DownWrite.

(** Bytes enter a queue at its end and leave it at its front. *)
Inductive moves : pair_event -> list byte -> channel -> channel -> Prop :=
| moves_up_in bs u d : moves UpRead bs (Channel u d) (Channel (u ++ bs) d)
| moves_up_out bs u d : moves UpWrite bs (Channel (bs ++ u) d) (Channel u d)
| moves_down_in bs u d : moves DownRead bs (Channel u d) (Channel u (d ++ bs))
| moves_down_out bs u d : moves DownWrite bs (Channel u (bs ++ d)) (Channel u d).

#[export] Instance pair_event_eq_dec : EqDecision pair_event.
Proof. solve_decision. Defined.

Lemma moves_none e ch : moves e [] ch ch.
Proof.
  destruct ch as [u d], e; [|apply (moves_up_out [])| |apply (moves_down_out [])].
  - rewrite <- (app_nil_r u) at 2. constructor.
  - rewrite <- (app_nil_r d) at 2. constructor.
Qed.

(** The bytes handed to a descriptor so far; the trace has the newest first. *)
Fixpoint sent_on (fd : Z) (tr : list event) : list byte :=
  match tr with
  | [] => []
  | EvSend fd' bs :: tr' => sent_on fd tr' ++ if fd' =? fd then bs else []
  | _ :: tr' => sent_on fd tr'
  end.

(** A call of [send] that took something is logged. *)
Definition log_sent (fd : Z) (bs : list byte) (tr : list event) : list event :=
  match bs with [] => tr | _ => EvSend fd bs :: tr end.

Lemma sent_on_log fd fd' bs tr :
  sent_on fd (log_sent fd' bs tr) = sent_on fd tr ++ if fd' =? fd then bs else [].
Proof. destruct bs; [|done]. simpl. by rewrite Tauto.if_same, app_nil_r. Qed.

Section pair.
Context `{PL : PlistLib}.

(** Client [c] on [fc], in state [cs], and remote [r] on [fr], in state [rs], are
    linked; nobody else uses these descriptors and no instance is condemned. *)
Record paired (fc fr : Z) (c r : ptr) (cs : client_state) (rs : remote_state) (cl : mux_client)
    (rm : remote_mux) (w : world) : Prop := {
  px_wf : wf [] w;
  px_client : w_clients w !! c = Some cl;
  px_remote : w_remotes w !! r = Some rm;
  px_cstate : c_state cl = cs;
  px_rstate : r_state rm = rs;
  px_c2r : c_remote cl = Some r;
  px_r2c : r_client rm = Some c;
  px_cfd : c_fd cl = fc;
  px_rfd : r_fd rm = fr;
  px_only_c p x : w_clients w !! p = Some x -> c_fd x = fc -> p = c;
  px_only_r p x : w_remotes w !! p = Some x -> r_fd x = fr -> p = r;
  px_alive p x : w_remotes w !! p = Some x -> r_state x <> REMOTE_DEAD }.
End pair.

(** The client is connected through the remote. *)
Abbreviation proxied fc fr c r := (paired fc fr c r CLIENT_CONNECTED REMOTE_CONNECTED).

Section proxy.
Context `{PL : PlistLib} {PLaws : PlistLaws PL}.
Context (fc fr : Z) (c r : ptr).

Definition channel_of (rm : remote_mux) : channel := Channel (data (r_ob rm)) (data (r_ib rm)).

(** The poll event as an input of the daemon. *)
Definition input_of_event (e : pair_event) : input :=
  match e with
  | UpRead => InClient fc POLLIN
  | UpWrite => InRemote fr POLLOUT
  | DownRead => InRemote fr POLLIN
  | DownWrite => InClient fc POLLOUT
  end.

(** When the event ends the connection. *)
Definition hangs_up (EN : Env) (e : pair_event) : Prop :=
  match e with
  | UpRead => default [] (sys_recv fc) = []
  | UpWrite => False
  | DownRead => sys_recv fr = None
  | DownWrite => sys_send fc <= 0
  end.

(** What the event does at the sockets, with [bs] the bytes that moved. *)
Definition io (EN : Env) (e : pair_event) (bs : list byte) (tr tr' : list event) : Prop :=
  match e with
  | UpRead => bs `prefix_of` default [] (sys_recv fc) /\ tr' = tr
  | UpWrite => tr' = log_sent fr bs tr
  | DownRead => bs `prefix_of` default [] (sys_recv fr) /\ tr' = tr
  | DownWrite => tr' = log_sent fc bs tr
  end.

(** A write moves something when there is something. *)
Definition progress (e : pair_event) (bs : list byte) (ch : channel) : Prop :=
  match e with
  | UpWrite => up ch <> [] -> bs <> []
  | DownWrite => down ch <> [] -> bs <> []
  | _ => True
  end.

(** Nothing but the pair changes. *)
Record untouched (w w' : world) : Prop := {
  un_clients p : p <> c -> w_clients w' !! p = w_clients w !! p;
  un_remotes p : p <> r -> w_remotes w' !! p = w_remotes w !! p;
  un_devices : remote_device_list w' = remote_device_list w;
  un_ids : remote_id_map w' = remote_id_map w;
  un_next : w_next w' = w_next w }.

#[export] Instance untouched_preorder : PreOrder untouched.
Proof.
  split; [by intros w|]. intros w1 w2 w3 [A1 A2 A3 A4 A5] [B1 B2 B3 B4 B5].
  split; intros; rewrite ?B1, ?B2 by done; rewrite ?A1, ?A2 by done; congruence.
Qed.
Lemma untouched_put w w' :
  (exists cl, w_clients w' = <[c := cl]> (w_clients w)) \/ w_clients w' = w_clients w ->
  (exists rm, w_remotes w' = <[r := rm]> (w_remotes w)) \/ w_remotes w' = w_remotes w ->
  remote_device_list w' = remote_device_list w -> remote_id_map w' = remote_id_map w ->
  w_next w' = w_next w -> untouched w w'.
Proof.
  intros Hc Hr ???. split; try done; intros p Hp.
  - destruct Hc as [[cl ->]| ->]; [by rewrite lookup_insert_ne|done].
  - destruct Hr as [[rm ->]| ->]; [by rewrite lookup_insert_ne|done].
Qed.

Inductive served (EN : Env) (e : pair_event) (rm : remote_mux) (w w' : world) : Prop :=
| served_moved cl' rm' bs :
    proxied fc fr c r cl' rm' w' -> moves e bs (channel_of rm) (channel_of rm') ->
    io EN e bs (w_trace w) (w_trace w') -> progress e bs (channel_of rm) -> untouched w w' ->
    served EN e rm w w'
| served_closed :
    hangs_up EN e -> wf [] w' -> w_clients w' = delete c (w_clients w) ->
    w_remotes w' = delete r (w_remotes w) -> untouched w w' -> served EN e rm w w'.

(** *** Refinement *)

Lemma paired_update cs rs cl rm w cs' rs' cl' rm' w' :
  paired fc fr c r cs rs cl rm w -> wf [] w' -> c_state cl' = cs' -> r_state rm' = rs' ->
  w_clients w' = <[c := cl']> (w_clients w) -> w_remotes w' = <[r := rm']> (w_remotes w) ->
  c_remote cl' = c_remote cl -> c_fd cl' = c_fd cl ->
  r_client rm' = r_client rm -> r_fd rm' = r_fd rm -> rs' <> REMOTE_DEAD ->
  paired fc fr c r cs' rs' cl' rm' w'.
Proof.
  intros [Hw Hc Hr Hcs Hrs Hcr Hrc Hcf Hrf Hoc Hor Hal] Hw' Es Et Ec Er E1 E2 E3 E4 E5.
  split; rewrite ?Ec, ?Er, ?lookup_insert_eq; try congruence.
  - intros p x [[<- _]|[_ Hx]]%lookup_insert_Some; [done|]. eauto.
  - intros p x [[<- _]|[_ Hx]]%lookup_insert_Some; [done|]. eauto.
  - intros p x [[<- <-]|[_ Hx]]%lookup_insert_Some; [congruence|]. eauto.
Qed.
Lemma proxied_update cl rm w cl' rm' w' :
  proxied fc fr c r cl rm w -> wf [] w' ->
  w_clients w' = <[c := cl']> (w_clients w) -> w_remotes w' = <[r := rm']> (w_remotes w) ->
  c_state cl' = c_state cl -> c_remote cl' = c_remote cl -> c_fd cl' = c_fd cl ->
  r_state rm' = r_state rm -> r_client rm' = r_client rm -> r_fd rm' = r_fd rm ->
  proxied fc fr c r cl' rm' w'.
Proof.
  intros Hp Hw' Ec Er E1 E2 E3 E4 E5 E6. pose proof Hp as [].
  eapply paired_update; try done; congruence.
Qed.

(** The pair closes together, whichever side it starts from. *)
Lemma proxied_closed cl rm w :
  proxied fc fr c r cl rm w ->
  remote_closed r rm w = client_closed c cl w /\
  w_clients (client_closed c cl w) = delete c (w_clients w) /\
  w_remotes (client_closed c cl w) = delete r (w_remotes w) /\ untouched w (client_closed c cl w).
Proof.
  intros []. unfold remote_closed, client_closed. rewrite px_r2c0, px_client0, px_c2r0, px_remote0.
  split_and!; try done. split; try done; intros p Hp; by apply lookup_delete_ne.
Qed.

Lemma wp_find_paired `{EN : Env} cs rs cl rm w Q :
  paired fc fr c r cs rs cl rm w -> Q (Some c) w -> wp (find_client fc) Q w.
Proof.
  intros Hp HQ. wp_use (apply wp_find_client, Hp). intros o w' [-> Ho].
  destruct o as [p|].
  - destruct Ho as (x & Hx & Hfd). by rewrite (px_only_c _ _ _ _ _ _ _ _ _ Hp p x Hx Hfd).
  - by destruct (Ho c cl (px_client _ _ _ _ _ _ _ _ _ Hp) (px_cfd _ _ _ _ _ _ _ _ _ Hp)).
Qed.

(** With nobody condemned the reaping loop only looks the descriptor up. *)
Lemma wp_find_remote `{EN : Env} rm w L Q events :
  wf L w -> w_remotes w !! r = Some rm -> r_fd rm = fr -> events <> POLLNVAL ->
  (forall p x, w_remotes w !! p = Some x -> r_fd x = fr -> p = r) ->
  (forall p x, w_remotes w !! p = Some x -> r_state x <> REMOTE_DEAD) ->
  Q (Some r) w -> wp (find_and_reap fr events) Q w.
Proof.
  intros Hw Hr Hfd Hev Honly Halive HQ. unfold find_and_reap.
  apply (wp_foreach_acc _ _ (fun i o w' => w' = w /\
    o = if decide (r ∈ omap id (take i (remote_slots w))) then Some r else None)
    _ (length (remote_slots w))); [done| | |].
  - split; [done|]. rewrite decide_False; [done|]. simpl. apply not_elem_of_nil.
  - intros i o ? [-> ->] _ Hi. destruct (remote_slots w !! i) as [s|] eqn:E;
      [|apply lookup_ge_None in E; lia].
    rewrite Nat.add_1_r, (take_S_r _ _ _ E), omap_id_app. destruct s as [p|].
    2: { split; [done|]. by rewrite app_nil_r. }
    destruct (wf_remote_slot _ _ p Hw) as [x Hx]; [by eapply list_elem_of_lookup_2|]. wp_go.
    rewrite bool_decide_eq_false_2 by by eapply Halive.
    change (omap id [Some p]) with [p].
    destruct (Z.eqb_spec (r_fd x) fr) as [Hfx|Hfx].
    + rewrite (proj2 (Z.eqb_neq _ _)) by done. wp_go. split; [|done]. split; [done|].
      rewrite (Honly p x Hx Hfx). rewrite decide_True; [done|]. set_solver.
    + wp_go. split; [|done]. split; [done|].
      assert (r <> p) by (intros <-; congruence).
      case_decide as D1; case_decide as D2; try done; set_solver.
  - intros o ? [-> ->]. rewrite take_ge by done. rewrite decide_True; [done|].
    apply (wf_rlist _ _ Hw). by eexists.
Qed.

(** Events on the two descriptors reach the pair. *)
Lemma wp_on_client `{EN : Env} cs rs cl rm w events Q :
  paired fc fr c r cs rs cl rm w ->
  wp (if bool_decide (cs = CLIENT_CONNECTED) then
        if has events POLLIN then forward_to_remote c
        else if has events POLLOUT then forward_to_client c else mret tt
      else if has events POLLIN then process_recv c
      else if has events POLLOUT then process_send c else mret tt) Q w ->
  wp (client_process fc events) Q w.
Proof.
  intros Hp HQ. pose proof Hp as []. unfold client_process. wp_go.
  eapply wp_find_paired; [exact Hp|]. unfold process_client. wp_go. by rewrite px_cstate0.
Qed.
Lemma wp_on_remote `{EN : Env} cs rs cl rm w events Q :
  paired fc fr c r cs rs cl rm w -> events <> POLLNVAL ->
  wp (if bool_decide (rs = REMOTE_CONNECTED) then
        if has events POLLIN then receive_for_client r
        else if has events POLLOUT then
          _ ← remote_process_send r; r ← read_remote r; client ← nonnull (r_client r);
          _ ← client_or_events client POLLIN; mret tt
        else usbmux_remote_close r
      else if has events POLLIN then
        if bool_decide (rs = REMOTE_CONNECTING2) then
          write_remote r (fun r =>
            set_r_events (Z.lor (r_devents r) POLLIN) (set_r_state REMOTE_CONNECTED r))
        else remote_process_recv r
      else if has events POLLOUT then remote_process_send r
      else mret tt) Q w ->
  wp (usbmux_remote_process fr events) Q w.
Proof.
  intros Hp Hev HQ. pose proof Hp as []. pose proof (wf_locks _ _ px_wf0) as HL.
  unfold usbmux_remote_process, find_remote, process_remote. wp_go. apply wp_lock; [rewrite HL; apply not_elem_of_nil|]. wp_go.
  eapply (wp_find_remote rm); [by apply wf_lock; [apply not_elem_of_nil|]|done|done|done|done|done|].
  wp_go. cbn [w_locks set_w_locks]. erewrite relock by (done || apply not_elem_of_nil). wp_go.
  by rewrite px_rstate0.
Qed.

Section one_event.
Context `{EN : Env} {EL : EnvLaws EN}.

(** What the handlers of client.c do to the pair. *)
Lemma wp_up_read cl rm w :
  proxied fc fr c r cl rm w -> wp (forward_to_remote c) (fun _ w' => served EN UpRead rm w w') w.
Proof.
  intros Hp. pose proof (proxied_closed _ _ _ Hp) as (_ & Hdc & Hdr & Hdu). pose proof Hp as [].
  eapply wp_forward_to_remote; [done|done|done|done|done| | |].
  - intros _. apply (served_moved _ _ _ _ _ cl rm []); [done|apply moves_none| |done|done].
    split; [apply prefix_nil|done].
  - intros w' _ Hrecv Hw' ->. apply served_closed; try done. simpl. rewrite <- px_cfd0.
    by destruct Hrecv as [->| ->].
  - intros w' bs rest ob Hrecv _ _ _ Hd Hw' ->.
    eapply (served_moved _ _ _ _ _ _ (with_output ob rm) bs);
      [by eapply proxied_update| | |done|apply untouched_put; eauto].
    + unfold channel_of. simpl. rewrite Hd. constructor.
    + simpl. rewrite <- px_cfd0, Hrecv. split; [by exists rest|done].
Qed.

Lemma wp_down_write cl rm w :
  proxied fc fr c r cl rm w -> wp (forward_to_client c) (fun _ w' => served EN DownWrite rm w w') w.
Proof.
  intros Hp. pose proof (proxied_closed _ _ _ Hp) as (_ & Hdc & Hdr & Hdu). pose proof Hp as [].
  pose proof (data_length _ (rok_ib _ (wf_remote _ _ px_wf0 r rm px_remote0))) as Hl.
  eapply wp_forward_to_client; [done|done|done|done|done| | |].
  - intros Hz. apply (served_moved _ _ _ _ _ cl rm []); [done|apply moves_none|done| |done].
    intros Hne _. apply Hne. apply nil_length_inv. simpl. lia.
  - intros w' _ Hs Hw' ->. apply served_closed; try done. simpl. by rewrite <- px_cfd0.
  - intros w' n ib Hn _ Hd Hw' Ew. set (bs := take (Z.to_nat n) (data (r_ib rm))) in *.
    assert (bs <> []) as Hbs.
    { intros E. apply (f_equal length) in E. unfold bs in E. rewrite length_take in E.
      simpl in E. lia. }
    assert (exists cl', w_clients w' = <[c := cl']> (w_clients w) /\ c_state cl' = c_state cl /\
      c_remote cl' = c_remote cl /\ c_fd cl' = c_fd cl) as (cl' & Hcl & H1 & H2 & H3).
    { rewrite Ew. case_match; [by eexists|]. exists cl. split_and!; try done. simpl. by rewrite insert_id. }
    eapply (served_moved _ _ _ _ _ cl' (set_r_ib ib rm) bs);
      [eapply proxied_update; try done; rewrite Ew; by case_match| | |by intros _|].
    3: { apply untouched_put; [by eauto|left; exists (set_r_ib ib rm)|..]; rewrite Ew; by case_match. }
    + unfold channel_of. simpl. rewrite Hd. rewrite <- (take_drop (Z.to_nat n) (data (r_ib rm))) at 1.
      constructor.
    + simpl. rewrite Ew. unfold log_sent. rewrite px_cfd0. fold bs. destruct bs; [done|].
      by case_match.
Qed.

(** What the handlers of usbmux_remote.c do to the pair; the client may be asked
    for more on the way. *)
Lemma asked_same ev cl cl' :
  asked ev cl cl' -> c_state cl' = c_state cl /\ c_remote cl' = c_remote cl /\ c_fd cl' = c_fd cl.
Proof. by intros [->|[[_ ->]|[_ ->]]]. Qed.

Lemma wp_down_read cl rm w :
  proxied fc fr c r cl rm w -> wp (receive_for_client r) (fun _ w' => served EN DownRead rm w w') w.
Proof.
  intros Hp. pose proof (proxied_closed _ _ _ Hp) as (Ecl & Hdc & Hdr & Hdu). pose proof Hp as [].
  eapply wp_receive_for_client; [done|done|done| | | |].
  - intros _ _. apply (served_moved _ _ _ _ _ cl rm []); [done|apply moves_none| |done|done].
    split; [apply prefix_nil|done].
  - intros w' Hrecv Hw' ->. rewrite Ecl in *. apply served_closed; try done. simpl.
    by rewrite <- px_rfd0.
  - intros Hrecv Hw'.
    apply (served_moved _ _ _ _ _ cl (set_r_events (clear_bit (r_events rm) POLLIN) rm) []);
      [|apply moves_none|by split; [apply prefix_nil|]|done|apply untouched_put; eauto].
    eapply proxied_update; try done. simpl. by rewrite insert_id.
  - intros w' c' cl0 cl' ib bs rest Hrecv _ _ Hd Hc' Hcl0 Hask Hw' ->.
    assert (c' = c) as -> by congruence. assert (cl0 = cl) as -> by congruence.
    destruct (asked_same _ _ _ Hask) as (? & ? & ?).
    eapply (served_moved _ _ _ _ _ cl' (set_r_ib ib (set_r_last_active sys_now rm)) bs);
      [by eapply proxied_update| | |done|apply untouched_put; eauto].
    + unfold channel_of. simpl. rewrite Hd. constructor.
    + simpl. rewrite <- px_rfd0, Hrecv. split; [by exists rest|done].
Qed.

Lemma wp_up_write cl rm w :
  proxied fc fr c r cl rm w -> 0 < sys_send fr ->
  wp (_ ← remote_process_send r;
      r' ← read_remote r;
      client ← nonnull (r_client r');
      _ ← client_or_events client POLLIN;
      mret tt) (fun _ w' => served EN UpWrite rm w w') w.
Proof.
  intros Hp Hs. pose proof Hp as [].
  pose proof (data_length _ (rok_ob _ (wf_remote _ _ px_wf0 r rm px_remote0))) as Hl.
  assert (forall w1 rm' bs, proxied fc fr c r cl rm' w1 -> moves UpWrite bs (channel_of rm) (channel_of rm') ->
    io EN UpWrite bs (w_trace w) (w_trace w1) -> progress UpWrite bs (channel_of rm) ->
    untouched w w1 ->
    wp (r' ← read_remote r; client ← nonnull (r_client r');
        _ ← client_or_events client POLLIN; mret tt) (fun _ w' => served EN UpWrite rm w w') w1)
    as Htail.
  { intros w1 rm' bs Hp1 Hm Hio Hpr Hun. pose proof Hp1 as [].
    eapply wp_bind, wp_read_remote; [done|]. eapply wp_bind, wp_nonnull; [done|].
    eapply wp_bind, wp_client_or_events; [done|done|]. intros n cl' Hask Hw'. apply wp_ret.
    destruct (asked_same _ _ _ Hask) as (? & ? & ?).
    apply (served_moved _ _ _ _ _ cl' rm' bs); [|done..|].
    2: { etrans; [exact Hun|]. apply untouched_put; eauto. }
    eapply proxied_update; try done. simpl. by rewrite insert_id. }
  apply wp_bind. eapply wp_remote_process_send; [done|done| | |].
  - intros w' Hz Hw' ->. eapply (Htail _ (set_r_events (clear_bit (r_events rm) POLLOUT) rm) []);
      [|apply moves_none|done| |apply untouched_put; eauto].
    + eapply proxied_update; try done. simpl. by rewrite insert_id.
    + intros Hne. exfalso. apply Hne. apply nil_length_inv. simpl. lia.
  - intros w' _ H. rewrite px_rfd0 in H. lia.
  - intros w' rm' n Hn (ob & _ & Hd & Eob & Eib & Ec & Ef & Est) Hw' ->.
    set (bs := take (Z.to_nat n) (data (r_ob rm))) in *.
    assert (bs <> []) as Hbs.
    { intros E. apply (f_equal length) in E. unfold bs in E. rewrite length_take in E.
      simpl in E. lia. }
    rewrite px_rstate0, bool_decide_eq_false_2, andb_false_r in Est by done.
    eapply (Htail _ rm' bs); [| |simpl; rewrite px_rfd0; by destruct bs|by intros _|
      apply untouched_put; eauto].
    + eapply proxied_update; try done; try congruence. simpl. by rewrite insert_id.
    + unfold channel_of. rewrite Eob, Eib, Hd.
      rewrite <- (take_drop (Z.to_nat n) (data (r_ob rm))) at 1. constructor.
Qed.
End one_event.

Lemma event_served EN (EL : EnvLaws EN) e cl rm w :
  proxied fc fr c r cl rm w -> (e = UpWrite -> 0 < sys_send fr) ->
  exists w', run EN (input_of_event e) w = Done tt w' /\ served EN e rm w w'.
Proof.
  intros Hp Hs. apply wp_run_tt.
  destruct e; simpl; eapply wp_on_client || eapply wp_on_remote; try done.
  - by eapply wp_up_read.
  - eapply wp_up_write; [done|]. by apply Hs.
  - by eapply wp_down_read.
  - by eapply wp_down_write.
Qed.


(** *** Sequences of events *)

Definition steps (l : list (Env * pair_event)) : list (Env * input) :=
  (fun p => (p.1, input_of_event p.2)) <$> l.

(** Nobody hangs up, and the instance takes data when it says so. *)
Definition stays_open (l : list (Env * pair_event)) : Prop :=
  Forall (fun p => EnvLaws p.1 /\ ~ hangs_up p.1 p.2 /\
    (p.2 = UpWrite -> 0 < @sys_send p.1 fr)) l.

(** What was read from the client and from the instance: each time a prefix of
    what the descriptor had. *)
Inductive reads : list (Env * pair_event) -> list byte -> list byte -> Prop :=
| reads_nil : reads [] [] []
| reads_up E bs l a b :
    bs `prefix_of` default [] (@sys_recv E fc) -> reads l a b ->
    reads ((E, UpRead) :: l) (bs ++ a) b
| reads_down E bs l a b :
    bs `prefix_of` default [] (@sys_recv E fr) -> reads l a b ->
    reads ((E, DownRead) :: l) a (bs ++ b)
| reads_up_out E l a b : reads l a b -> reads ((E, UpWrite) :: l) a b
| reads_down_out E l a b : reads l a b -> reads ((E, DownWrite) :: l) a b.

(** Bytes are neither lost, made up nor reordered between [ch] and [ch'], with
    [a] and [b] read and [x] and [y] written in between. *)
Definition conserved (ch ch' : channel) (a b x y : list byte) : Prop :=
  up ch ++ a = x ++ up ch' /\ down ch ++ b = y ++ down ch'.

(** Events that write only, and how many there are for each side. *)
Definition writes (e : pair_event) (l : list (Env * pair_event)) : nat :=
  length (filter (fun p => p.2 = e) l).

Lemma conserved_trans ch ch1 ch2 a b x y a' b' x' y' :
  conserved ch ch1 a b x y -> conserved ch1 ch2 a' b' x' y' ->
  conserved ch ch2 (a ++ a') (b ++ b') (x ++ x') (y ++ y').
Proof.
  intros [H1 H2] [H3 H4]. unfold conserved. rewrite !app_assoc, H1, H2, <- !app_assoc, H3, H4. done.
Qed.

(** One event, in these terms. *)
Lemma moved_conserved EN e bs ch ch' tr tr' :
  fc <> fr -> moves e bs ch ch' -> io EN e bs tr tr' ->
  exists a b x y, conserved ch ch' a b x y /\
    sent_on fr tr' = sent_on fr tr ++ x /\ sent_on fc tr' = sent_on fc tr ++ y /\
    (forall l a' b', reads l a' b' -> reads ((EN, e) :: l) (a ++ a') (b ++ b')).
Proof.
  intros Hf Hm Hio.
  destruct Hm; simpl in Hio;
    [destruct Hio as [Hpre ->]; exists bs, [], [], []|exists [], [], bs, []|
     destruct Hio as [Hpre ->]; exists [], bs, [], []|exists [], [], [], bs];
    rewrite ?Hio, ?sent_on_log, ?Z.eqb_refl, ?(proj2 (Z.eqb_neq fr fc)), ?(proj2 (Z.eqb_neq fc fr))
      by congruence;
    (split; [by split; simpl; rewrite ?app_nil_r|]); rewrite ?app_nil_r;
    (split_and!; [done|done|intros; by constructor]).
Qed.

(** How far writing has come. *)
Definition drained (l : list (Env * pair_event)) (ch ch' : channel) : Prop :=
  (length (up ch') <= length (up ch) - writes UpWrite l)%nat /\
  (length (down ch') <= length (down ch) - writes DownWrite l)%nat.

Lemma drained_step EN e bs l ch ch1 ch2 :
  e = UpWrite \/ e = DownWrite -> moves e bs ch ch1 -> progress e bs ch -> drained l ch1 ch2 ->
  drained ((EN, e) :: l) ch ch2.
Proof.
  intros He Hm Hp [H1 H2]. unfold drained, writes in *. rewrite !filter_cons.
  destruct He as [-> | ->]; inversion Hm; subst; cbn [fst snd up down] in *;
    repeat case_decide; try done; simpl; rewrite ?length_app in *.
  - split; [|done]. destruct bs; simpl in *; [|lia]. destruct u; [simpl in *; lia|by destruct Hp].
  - split; [done|]. destruct bs; simpl in *; [|lia]. destruct d; [simpl in *; lia|by destruct Hp].
Qed.

Definition writing (l : list (Env * pair_event)) : Prop :=
  Forall (fun p => p.2 = UpWrite \/ p.2 = DownWrite) l.

Lemma serve_all l cl rm w :
  proxied fc fr c r cl rm w -> fc <> fr -> stays_open l ->
  exists w' cl' rm' a b x y, script (steps l) w = Done tt w' /\ proxied fc fr c r cl' rm' w' /\
    reads l a b /\ conserved (channel_of rm) (channel_of rm') a b x y /\
    sent_on fr (w_trace w') = sent_on fr (w_trace w) ++ x /\
    sent_on fc (w_trace w') = sent_on fc (w_trace w) ++ y /\
    (writing l -> drained l (channel_of rm) (channel_of rm')).
Proof.
  intros Hp Hf. revert cl rm w Hp. induction l as [|[E e] l IH]; intros cl rm w Hp Hl.
  { exists w, cl, rm, [], [], [], []. rewrite !app_nil_r. split_and!; try done; [constructor| |].
    - split; simpl; by rewrite !app_nil_r.
    - intros _. unfold drained, writes. rewrite !filter_nil, Nat.sub_0_r, Nat.sub_0_r. split; lia. }
  inversion Hl as [|? ? (HE & Hno & Hs) Hl']; subst. simpl in HE, Hno, Hs.
  destruct (event_served E HE e cl rm w Hp Hs) as (w1 & Hrun & [cl1 rm1 bs Hp1 Hm Hio Hpr _|]);
    [|done].
  destruct (moved_conserved E e bs _ _ _ _ Hf Hm Hio) as (a1 & b1 & x1 & y1 & Hc1 & Hr1 & Hd1 & Hreads).
  destruct (IH cl1 rm1 w1 Hp1 Hl') as (w2 & cl2 & rm2 & a & b & x & y & Hrun2 & Hp2 & Hreads2 & Hc2 &
    Hr2 & Hd2 & Hdr).
  exists w2, cl2, rm2, (a1 ++ a), (b1 ++ b), (x1 ++ x), (y1 ++ y). split_and!.
  - simpl. unfold mbind, prog_bind. by rewrite Hrun.
  - done.
  - by apply Hreads.
  - by eapply conserved_trans.
  - by rewrite Hr2, Hr1, app_assoc.
  - by rewrite Hd2, Hd1, app_assoc.
  - intros Hw. inversion Hw; subst. eapply drained_step; eauto.
Qed.


(** C18. What waits is delivered: once each side has been writable as often as
    there are bytes waiting for it, in whatever order, every byte has been handed
    to its socket and both buffers are empty. *)
Theorem proxy_drains l cl rm w :
  proxied fc fr c r cl rm w -> fc <> fr -> stays_open l -> writing l ->
  (length (data (r_ob rm)) <= writes UpWrite l)%nat ->
  (length (data (r_ib rm)) <= writes DownWrite l)%nat ->
  exists w' cl' rm', script (steps l) w = Done tt w' /\ proxied fc fr c r cl' rm' w' /\
    data (r_ob rm') = [] /\ data (r_ib rm') = [] /\
    sent_on fr (w_trace w') = sent_on fr (w_trace w) ++ data (r_ob rm) /\
    sent_on fc (w_trace w') = sent_on fc (w_trace w) ++ data (r_ib rm).
Proof.
  intros Hp Hf Hl Hw Hu Hd.
  destruct (serve_all l cl rm w Hp Hf Hl) as (w' & cl' & rm' & a & b & x & y & H1 & H2 & H3 & [H4 H5] &
    H6 & H7 & Hdr).
  destruct (Hdr Hw) as [Du Dd]. cbn [up down channel_of] in *.
  assert (data (r_ob rm') = []) as Eu by (apply nil_length_inv; lia).
  assert (data (r_ib rm') = []) as Ed by (apply nil_length_inv; lia).
  assert (a = [] /\ b = []) as [-> ->].
  { clear -H3 Hw. induction H3; [done|..]; inversion Hw as [|? ? He]; subst; simpl in *;
      try (by destruct He); by apply IHreads. }
  rewrite Eu, app_nil_r, app_nil_r in H4. rewrite Ed, app_nil_r, app_nil_r in H5. subst x y.
  by exists w', cl', rm'.
Qed.
End proxy.

(** *** At a concrete state *)

(** Remote 4 has one byte for its instance. *)
Lemma pending_proxied :
  proxied 13 14 3 4 connected_client (set_r_ob pending connected_remote) pending_world.
Proof.
  assert (map_Forall (fun p x => c_fd x = 13 -> p = 3%positive) (w_clients pending_world)) as Hc
    by (apply (bool_decide_unpack _); by vm_compute).
  assert (map_Forall (fun p x => r_fd x = 14 -> p = 4%positive) (w_remotes pending_world)) as Hr
    by (apply (bool_decide_unpack _); by vm_compute).
  assert (map_Forall (fun p x => r_state x <> REMOTE_DEAD) (w_remotes pending_world)) as Ha
    by (apply (bool_decide_unpack _); by vm_compute).
  split; try reflexivity; [exact wf_pending|exact Hc|exact Hr|exact Ha].
Qed.
Definition one_write : list (Env * pair_event) := [(quiet, UpWrite)].
Lemma one_write_open : stays_open 13 14 one_write.
Proof. constructor; [|constructor]. split; [exact quiet_laws|]. split; [intros []|done]. Qed.

Lemma proxy_drains_witness :
  exists w', script (steps 13 14 one_write) pending_world = Done tt w' /\
    sent_on 14 (w_trace w') = [Byte.x2a].
Proof.
  destruct (proxy_drains 13 14 3 4 one_write connected_client _ pending_world pending_proxied
    ltac:(done) one_write_open) as (w' & _ & _ & H & _ & _ & _ & Hs & _).
  - repeat constructor.
  - apply Nat.leb_le. vm_compute. reflexivity.
  - apply Nat.leb_le. vm_compute. reflexivity.
  - exists w'. split; [exact H|exact Hs].
Defined.
