(* ===== verification/Handshake.v ===== *)
(** How a connection comes about: the request goes out, the answer comes in, in
    pieces, and is passed on, and the two ends are a pair of byte queues from then
    on (Proxy.v). *)

From S2P Require Import Prelude Exec Mem Utils Proto CStr RemoteId Plist World WorldFacts.
From S2P Require Import Socket Client Remote Teardown Command RemoteProcess Invariant.
From S2P Require Import ClientFacts TeardownFacts RemoteFacts CommandFacts RemoteProcessFacts.
From S2P Require Import Daemon DaemonFacts Demo Framing ClientTheorems RemoteTheorems DaemonTheorems Proxy.

Section handshake.
Context `{PL : PlistLib} {PLaws : PlistLaws PL}.
Context (fc fr : Z) (c r : ptr).

(** The client waits for its connection: the request may not have left yet. *)
Abbreviation waiting := (paired fc fr c r CLIENT_CONNECTING1 REMOTE_CONNECTING1).

(** *** The steps *)

Lemma wp_request_sent EN (EL : EnvLaws EN) cl rm w Q :
  waiting cl rm w -> data (r_ob rm) <> [] -> zlen (data (r_ob rm)) <= sys_send fr ->
  (forall w' rm', waiting cl rm' w' -> data (r_ob rm') = [] -> r_ib rm' = r_ib rm ->
     w_trace w' = EvSend fr (data (r_ob rm)) :: w_trace w -> Q tt w') ->
  wp (run EN (InRemote fr POLLOUT)) Q w.
Proof.
  intros Hp Hne Hs HQ. pose proof Hp as []. pose proof (wf_remote _ _ px_wf r rm px_remote) as Hok.
  pose proof (data_length _ (rok_ob _ Hok)) as Hl.
  assert (0 < zlen (data (r_ob rm))) as Hpos by (destruct (data (r_ob rm)); [done|simpl; lia]).
  eapply wp_on_remote; [done|done|]. rewrite bool_decide_eq_false_2 by done. simpl.
  eapply wp_remote_process_send; [done|done|lia| |].
  - intros w' _ H. rewrite px_rfd in H. lia.
  - intros w' rm' n [_ Hn] (ob & _ & Hd & Eob & Eib & Ec & Ef & Est) Hw' ->.
    rewrite px_rfd in Hn. assert (n = size (r_ob rm)) as -> by lia. clear Hn.
    rewrite px_rstate, bool_decide_eq_false_2, andb_false_r in Est by done.
    rewrite drop_ge in Hd by lia.
    assert (take (Z.to_nat (size (r_ob rm))) (data (r_ob rm)) = data (r_ob rm)) as E
      by (apply take_ge; lia). rewrite E in *.
    apply (HQ _ rm'); [|by rewrite Eob|done|by rewrite px_rfd].
    eapply paired_update; try done; try congruence. simpl. by rewrite insert_id.
Qed.

(** The pair after more of the answer was read into the buffer. *)
Lemma waiting_received cl rm w ib t :
  waiting cl rm w -> buf_ok ib -> capacity ib = capacity (r_ib rm) ->
  waiting cl (received ib t rm) (put_remote r (received ib t rm) w).
Proof.
  intros Hp Hok Hcap. pose proof Hp as [].
  eapply paired_update; try done; [by apply wf_received|]. simpl. by rewrite insert_id.
Qed.

(** One event while the answer comes in: [frame] says how far it is. *)
Lemma wp_answer_read EN (EL : EnvLaws EN) cl rm w Q :
  waiting cl rm w ->
  (forall ib t, let f := frame (capacity (r_ib rm)) (data (r_ib rm)) (sys_recv fr) in
     let rm' := received ib t rm in
     holds (r_ib rm) ib (framed f) -> waiting cl rm' (put_remote r rm' w) ->
     wp (remote_outcome r f) Q (put_remote r rm' w)) ->
  wp (run EN (InRemote fr POLLIN)) Q w.
Proof.
  intros Hp HQ. pose proof Hp as [].
  eapply wp_on_remote; [done|done|]. rewrite !bool_decide_eq_false_2 by done. simpl.
  destruct (run_remote_recv r rm w px_wf px_remote) as (ib & t & Hh & Hrun).
  rewrite px_rfd in Hh, Hrun. unfold wp in *. rewrite Hrun. apply HQ; [done|].
  destruct Hh as (Hok & Hcap & _). by apply waiting_received.
Qed.

(** The environments of the events that bring the answer [msg] in: all but the last
    leave it incomplete. *)
Fixpoint assembles (cap : Z) (have : list byte) (envs : list Env) (msg : list byte) : Prop :=
  match envs with
  | [] => False
  | [E] => frame cap have (@sys_recv E fr) = Complete msg
  | E :: envs' =>
      exists l, frame cap have (@sys_recv E fr) = Wait l /\ assembles cap l envs' msg
  end.

(** An answer that grants the connection. *)
Record grants (msg : list byte) : Prop := {
  gr_length : 16 <= zlen msg /\ announced msg = zlen msg;
  gr_version : h_version (decode_header msg) = 0 \/ h_version (decode_header msg) = 1;
  gr_result : h_message (decode_header msg) = MESSAGE_RESULT -> 20 <= zlen msg;
  gr_ok : result_in msg = 0 }.

(** The client has been told, the remote is open. *)
Abbreviation told := (paired fc fr c r CLIENT_CONNECTING2 REMOTE_CONNECTED).

Lemma wp_answer_complete EN (EL : EnvLaws EN) cl rm w msg answer Q :
  waiting cl rm w -> data (r_ib rm) = msg -> grants msg ->
  result_packet cl (c_connect_tag cl) 0 = Some answer ->
  (forall k, k <= capacity (c_ob cl) + zlen answer + 4096 -> sys_realloc k = true) ->
  (forall w' cl' rm', told cl' rm' w' -> data (c_ob cl') = data (c_ob cl) ++ answer ->
     r_ob rm' = r_ob rm -> data (r_ib rm') = [] -> w_trace w' = w_trace w -> Q tt w') ->
  wp (_ ← remote_handle_command_result r;
      write_remote r (fun r => set_r_last_command 0 (set_r_ib (set_size 0 (r_ib r)) r))) Q w.
Proof.
  intros Hp Hd Hg Hpk Hmem HQ. pose proof Hp as []. pose proof Hg as [[H16 Han] Hv Hres Hz].
  pose proof (rok_ib _ (wf_remote _ _ px_wf r rm px_remote)) as Hib.
  pose proof (data_length _ Hib) as Hl.
  assert (has_message rm msg) as Hm.
  { split; [|by rewrite Hd; unfold message_in; rewrite take_ge by (unfold announced in Han; lia)|done|done].
    unfold complete. rewrite Hd. unfold announced in Han. rewrite Hd in Hl. lia. }
  destruct (run_answer_connect r rm c cl msg w px_wf px_remote Hm px_rstate px_r2c px_client px_cstate)
    as (n & cl' & (k & cl1 & Ht & _ & Hcl') & Hrun).
  rewrite Hz in Ht, Hcl', Hrun. rewrite Hpk in Ht.
  destruct Ht as [(_ & _ & [?|(bs & j & [= <-] & Hj & Hle)])|(bs & [= <-] & -> & Hq)];
    [done|by rewrite Hmem in Hj|].
  rewrite (proj2 (Z.ltb_ge _ _)) in Hcl' by lia. subst cl'.
  change (0 =? 0) with true in Hrun. cbv iota in Hrun.
  apply wp_bind, wp_run. do 2 eexists. split; [exact Hrun|].
  set (w1 := put_remote r _ _) in *.
  assert (wf [] w1) as Hw1.
  { apply (notified_wf 0 w c cl (after_answer 0 cl1) r rm (answered rm)); try done. right; left.
    split; [done|]. split; [done|]. exists cl1. split; [|done]. right.
    destruct Hq as (Hok1 & _ & _ & ->). split; [|done].
    pose proof (wf_client _ _ px_wf c cl px_client) as Hc. unfold client_ok in Hc.
    rewrite px_cstate in Hc. by destruct Hc. }
  assert (w_remotes w1 !! r = Some (answered rm)) as Hr1 by apply put_remote_lookup.
  eapply wp_write_remote; [exact Hr1|].
  destruct (tells_fields _ _ _ _ (or_intror (ex_intro _ answer (conj eq_refl (conj eq_refl Hq)))))
    as (E1 & E2 & E3).
  set (rm2 := set_r_last_command 0 _). apply (HQ _ (after_answer 0 cl1) rm2); [|exact (proj1 (proj2 Hq))|done|apply data_reset|done].
  eapply paired_update; [exact Hp| |done|done| | | |done|done|done|done]; try done.
  - eapply wf_remote_update; [done..| |done|done|done].
    destruct (wf_remote _ _ Hw1 r _ Hr1). split; try done. by apply buf_ok_reset.
  - simpl. by rewrite insert_insert_eq.
Qed.

(** All the events that bring it in; the last one finds memory for the answer. *)
Lemma wp_answer_reads envs msg answer cl rm w Q :
  waiting cl rm w -> Forall EnvLaws envs ->
  assembles (capacity (r_ib rm)) (data (r_ib rm)) envs msg -> grants msg ->
  result_packet cl (c_connect_tag cl) 0 = Some answer ->
  (forall E k, last envs = Some E -> k <= capacity (c_ob cl) + zlen answer + 4096 ->
     @sys_realloc E k = true) ->
  (forall w' cl' rm', told cl' rm' w' -> data (c_ob cl') = data (c_ob cl) ++ answer ->
     r_ob rm' = r_ob rm -> data (r_ib rm') = [] -> w_trace w' = w_trace w -> Q tt w') ->
  wp (script ((fun E => (E, InRemote fr POLLIN)) <$> envs)) Q w.
Proof.
  intros Hp HE Ha Hg Hpk Hmem HQ. revert rm w Hp Ha HQ.
  induction HE as [|E envs EL HE IH]; intros rm w Hp Ha HQ; [done|].
  cbn [fmap list_fmap script]. apply wp_bind. eapply wp_answer_read; [done|exact Hp|].
  intros ib t f rm' (Hok & Hcap & Hd) Hp'. destruct envs as [|E' envs].
  - simpl in Ha. subst f. rewrite Ha in *. simpl.
    eapply wp_answer_complete; [done|exact Hp'|exact Hd|done|exact Hpk| |].
    { intros k Hk. by apply (Hmem E). }
    intros w' cl' rm'' H1 H2 H3 H4 H5. apply wp_ret. by eapply HQ.
  - destruct Ha as (l & Hf & Ha). subst f. rewrite Hf in *. apply wp_ret.
    apply (IH ltac:(intros; by apply (Hmem E0)) rm' _ Hp').
    + change (r_ib rm') with ib. by rewrite Hcap, Hd.
    + intros w' cl' rm'' H1 H2 H3 H4 H5. by eapply HQ.
Qed.

(** The answer leaves: the client is connected. *)
Lemma wp_answer_sent EN (EL : EnvLaws EN) cl rm w Q :
  told cl rm w -> data (c_ob cl) <> [] -> zlen (data (c_ob cl)) <= sys_send fc ->
  (forall w' cl', proxied fc fr c r cl' rm w' ->
     w_trace w' = EvSend fc (data (c_ob cl)) :: w_trace w -> Q tt w') ->
  wp (run EN (InClient fc POLLOUT)) Q w.
Proof.
  intros Hp Hne Hs HQ. pose proof Hp as [].
  pose proof (wf_client _ _ px_wf c cl px_client) as Hc. unfold client_ok in Hc.
  rewrite px_cstate in Hc. destruct Hc as [Hob _]. pose proof (data_length _ Hob) as Hl.
  assert (0 < zlen (data (c_ob cl))) as Hpos by (destruct (data (c_ob cl)); [done|simpl; lia]).
  eapply wp_on_client; [exact Hp|]. rewrite bool_decide_eq_false_2 by done. simpl.
  eapply wp_process_send; [done|done|by rewrite px_cstate|lia| |].
  - intros w' _ H. rewrite px_cfd in H. lia.
  - intros w' cl' n [_ Hn] Hsent Hw' ->.
    rewrite px_cfd in Hn. assert (n = size (c_ob cl)) as -> by lia. clear Hn.
    assert (take (Z.to_nat (size (c_ob cl))) (data (c_ob cl)) = data (c_ob cl)) as E
      by (apply take_ge; lia). rewrite E in *.
    destruct Hsent as [ob Hlt _ _|cl' ob _ _ _ Hno|cl' ob _ _ ->]; [lia|done|].
    eapply HQ; [|simpl; by rewrite px_cfd].
    eapply paired_update; try done; [reflexivity|]. simpl. by rewrite insert_id.
Qed.

Lemma wp_script_app l1 l2 Q w :
  wp (script l1) (fun _ w' => wp (script l2) Q w') w -> wp (script (l1 ++ l2)) Q w.
Proof.
  revert w. induction l1 as [|[E i] l1 IH]; intros w H; [done|]. cbn [app script] in *.
  unfold wp in *. unfold mbind, prog_bind in *. destruct (run E i w); [|done]. by apply IH.
Qed.

Lemma result_packet_some cl tag n bs : result_packet cl tag n = Some bs -> bs <> [].
Proof.
  unfold result_packet, plist_packet, packet. intros H E. subst bs.
  destruct (_ =? 1); [|by simplify_eq].
  by destruct (plist_to_xml _); simplify_eq/=.
Qed.

(** Connected, with nothing on the way; [request] went to the instance and then
    [answer] to the client. *)
Definition established (request answer : list byte) (w w' : world) : Prop :=
  exists cl' rm', proxied fc fr c r cl' rm' w' /\ channel_of rm' = Channel [] [] /\
    w_trace w' = EvSend fc answer :: EvSend fr request :: w_trace w.

(** C14. A connection comes about: a client that waits for one, whose request still
    has to leave, is connected once its instance could be written to, its answer
    came in, however it was cut up, and granted the connection, and the client
    could be written to. The instance has then been sent exactly the request, the
    client exactly one positive answer under the tag of its request, and both
    directions start empty. *)
Theorem connection_established E0 (EL0 : EnvLaws E0) envs E2 (EL2 : EnvLaws E2) cl rm w msg answer :
  waiting cl rm w -> data (r_ob rm) <> [] -> zlen (data (r_ob rm)) <= @sys_send E0 fr ->
  data (r_ib rm) = [] -> data (c_ob cl) = [] ->
  Forall EnvLaws envs -> assembles (capacity (r_ib rm)) [] envs msg -> grants msg ->
  result_packet cl (c_connect_tag cl) 0 = Some answer ->
  (forall E k, last envs = Some E -> k <= capacity (c_ob cl) + zlen answer + 4096 ->
     @sys_realloc E k = true) ->
  zlen answer <= @sys_send E2 fc ->
  exists w',
    script ((E0, InRemote fr POLLOUT) :: ((fun E => (E, InRemote fr POLLIN)) <$> envs)
            ++ [(E2, InClient fc POLLOUT)]) w = Done tt w' /\
    established (data (r_ob rm)) answer w w'.
Proof.
  intros Hp Hne Hs Hib Hob HE Ha Hg Hpk Hmem Hs2.
  apply wp_run_tt, wp_bind. eapply wp_request_sent; [done|exact Hp|done|done|].
  intros w1 rm1 Hp1 Hd1 Hib1 Ht1. rewrite <- Hib, <- Hib1 in Ha.
  apply wp_script_app. eapply wp_answer_reads; [exact Hp1|done|exact Ha|done|exact Hpk|exact Hmem|].
  intros w2 cl2 rm2 Hp2 Hd2 Hob2 Hib2 Ht2. rewrite Hob in Hd2. cbn [app] in Hd2.
  cbn [script]. apply wp_bind.
  eapply wp_answer_sent; [done|exact Hp2| |by rewrite Hd2|].
  { rewrite Hd2. by eapply result_packet_some. }
  intros w3 cl3 Hp3 Ht3. apply wp_ret. exists cl3, rm2. split; [done|].
  unfold channel_of. by rewrite Hob2, Hd1, Hib2, Ht3, Hd2, Ht2, Ht1.
Qed.
End handshake.

(** *** At a concrete state *)

(** Client 3 waits for its connection through remote 4, which has one byte to
    send; the answer comes in three pieces. *)
Definition waiting_client : mux_client :=
  set_c_remote (Some 4%positive) (set_c_state CLIENT_CONNECTING1 (set_c_connect_tag 5 (client_fresh 13 2))).
Definition waiting_remote : remote_mux :=
  set_r_state REMOTE_CONNECTING1 (set_r_ob pending connected_remote).
Definition waiting_world : world :=
  put_remote 4 waiting_remote (put_client 3 waiting_client world4).

Lemma wf_world4 : wf [] world4.
Proof.
  apply (wf_linked (EN := quiet)); [apply wf_world3|done|done| |done|done].
  destruct (fresh_ok 14). by split.
Qed.
Lemma wf_waiting : wf [] waiting_world.
Proof.
  eapply wf_put_pair; [exact wf_world4|reflexivity|reflexivity|reflexivity|reflexivity| |reflexivity| |
    reflexivity|done|].
  - split; [by apply buf_ok_new|]. split; [by split; [apply buf_ok_new|]|done].
  - destruct (fresh_ok 14). split; try assumption; try done.
    split; [|done|done]. eexists. by split_and!.
  - intros H. simpl in H. set_solver.
Qed.
Lemma waiting_paired :
  paired 13 14 3 4 CLIENT_CONNECTING1 REMOTE_CONNECTING1 waiting_client waiting_remote waiting_world.
Proof.
  assert (map_Forall (fun p x => c_fd x = 13 -> p = 3%positive) (w_clients waiting_world)) as Hc
    by (apply (bool_decide_unpack _); by vm_compute).
  assert (map_Forall (fun p x => r_fd x = 14 -> p = 4%positive) (w_remotes waiting_world)) as Hr
    by (apply (bool_decide_unpack _); by vm_compute).
  assert (map_Forall (fun p x => r_state x <> REMOTE_DEAD) (w_remotes waiting_world)) as Ha
    by (apply (bool_decide_unpack _); by vm_compute).
  split; try reflexivity; [exact wf_waiting|exact Hc|exact Hr|exact Ha].
Qed.

Definition granted : list byte := encode_header (MkHeader 20 0 MESSAGE_RESULT 0) ++ le 4 0.
Definition arrives (bs : list byte) : Env := demo_env (fun _ => Some bs) (fun _ => 2 ^ 20).
Definition arrivals : list Env :=
  arrives <$> [take 5 granted; drop 5 (take 16 granted); drop 16 granted].

Lemma connection_established_witness :
  exists w', script ((quiet, InRemote 14 POLLOUT) :: ((fun E => (E, InRemote 14 POLLIN)) <$> arrivals)
      ++ [(quiet, InClient 13 POLLOUT)]) waiting_world = Done tt w' /\
    established 13 14 3 4 [Byte.x2a] (packet 0 MESSAGE_RESULT 5 (le 4 0)) waiting_world w'.
Proof.
  apply (connection_established 13 14 3 4 quiet _ arrivals quiet _ waiting_client waiting_remote
    waiting_world granted (packet 0 MESSAGE_RESULT 5 (le 4 0)) waiting_paired).
  - done.
  - vm_compute. done.
  - reflexivity.
  - reflexivity.
  - repeat constructor; apply demo_env_laws.
  - eexists. split; [vm_compute; reflexivity|]. eexists. split; vm_compute; reflexivity.
  - split; [by vm_compute|left; by vm_compute|by vm_compute|by vm_compute].
  - reflexivity.
  - intros E k HE Hk. assert (E = arrives (drop 16 granted)) as -> by (by injection HE as <-).
    apply Z.ltb_lt. eapply Z.le_lt_trans; [exact Hk|]. by vm_compute.
  - vm_compute. done.
Defined.
