(* ===== verification/Wlp.v ===== *)
(** Partial correctness, and computations that preserve a preorder on states.

    [wlp m Q s] says what holds if [m] returns from [s]; unlike [wp] of Exec.v it
    allows a fault. [preserves R m] says that [m] moves along the preorder [R],
    whatever the state it starts in; such facts compose through every construct
    of the program, so that only the operations that matter to [R] need a proof
    of their own. The database [preserves] collects them. *)

From S2P Require Import Prelude Exec Mem Utils Plist World Remote.

Definition wlp {S A} (m : prog S A) (Q : A -> S -> Prop) (s : S) : Prop :=
  match m s with
  | Done a s' => Q a s'
  | Crash _ => True
  end.

Section wlp_rules.
Context {S : Type}.
Implicit Types s : S.

Lemma wlp_done {A} (m : prog S A) Q s a s' : wlp m Q s -> m s = Done a s' -> Q a s'.
Proof. unfold wlp. intros H E. by rewrite E in H. Qed.
Lemma wlp_intro {A} (m : prog S A) (Q : A -> S -> Prop) s :
  (forall a s', m s = Done a s' -> Q a s') -> wlp m Q s.
Proof. unfold wlp. destruct (m s); eauto. Qed.
Lemma wlp_ret {A} (a : A) Q s : Q a s -> wlp (mret a) Q s.
Proof. done. Qed.
Lemma wlp_bind {A B} (m : prog S A) (k : A -> prog S B) Q s :
  wlp m (fun a => wlp (k a) Q) s -> wlp (m ≫= k) Q s.
Proof. unfold wlp, mbind, prog_bind. by destruct (m s). Qed.
Lemma wlp_get Q s : Q s s -> wlp get Q s.
Proof. done. Qed.
Lemma wlp_modify f Q s : Q tt (f s) -> wlp (modify f) Q s.
Proof. done. Qed.
Lemma wlp_demand {A} f (o : option A) Q s :
  (forall a, o = Some a -> Q a s) -> wlp (demand f o) Q s.
Proof. destruct o; [|done]. intros H. by apply H. Qed.
Lemma wlp_when (b : bool) m Q s :
  (b = true -> wlp m Q s) -> (b = false -> Q tt s) -> wlp (when b m) Q s.
Proof. destruct b; simpl; [auto|]. intros _ H. by apply H. Qed.
Lemma wlp_mono {A} (m : prog S A) (P Q : A -> S -> Prop) s :
  wlp m P s -> (forall a s', P a s' -> Q a s') -> wlp m Q s.
Proof. unfold wlp. destruct (m s); auto. Qed.

Lemma wlp_conj {A} (m : prog S A) (P Q : A -> S -> Prop) s :
  wlp m P s -> wlp m Q s -> wlp m (fun a s' => P a s' /\ Q a s') s.
Proof. unfold wlp. by destruct (m s). Qed.
Lemma wlp_skip {A B} (m : prog S A) (k : A -> prog S B) Q s :
  (forall a s', wlp (k a) Q s') -> wlp (m ≫= k) Q s.
Proof. intros H. unfold wlp, mbind, prog_bind. destruct (m s); [apply H|done]. Qed.

(** The loops: an invariant of the body is an invariant of the loop. *)
Lemma wlp_foreach_acc {A} col (body : A -> ptr -> prog S A) (I : A -> S -> Prop) a s :
  (forall a s p, I a s -> wlp (body a p) I s) -> I a s -> wlp (foreach_acc col body a) I s.
Proof.
  intros Hb HI. unfold foreach_acc. apply wlp_bind, wlp_get.
  generalize (length (col s)) as fuel, 0%nat as i. intros fuel. revert a s HI.
  induction fuel as [|fuel IH]; intros a s HI i; [done|].
  cbn [foreach_acc_from]. apply wlp_bind, wlp_get.
  destruct (col s !! i) as [[p|]|]; [|by apply IH|done].
  apply wlp_bind. eapply wlp_mono; [by apply Hb|]. intros a' s' HI'. by apply IH.
Qed.
Lemma wlp_foreach_break {R} col (body : ptr -> prog S (option R)) (I : S -> Prop)
    (Q : option R -> S -> Prop) s :
  (forall s p, I s -> wlp (body p) (fun r s' => match r with Some _ => Q r s' | None => I s' end) s) ->
  (forall s, I s -> Q None s) -> I s -> wlp (foreach_break col body) Q s.
Proof.
  intros Hb Hend HI. unfold foreach_break. apply wlp_bind, wlp_get.
  generalize (length (col s)) as fuel, 0%nat as i. intros fuel. revert s HI.
  induction fuel as [|fuel IH]; intros s HI i; [by apply wlp_ret, Hend|].
  cbn [foreach_from]. apply wlp_bind, wlp_get.
  destruct (col s !! i) as [[p|]|]; [|by apply IH|by apply wlp_ret, Hend].
  apply wlp_bind. eapply wlp_mono; [by apply Hb|]. intros [v|] s' H; [done|by apply IH].
Qed.
End wlp_rules.

(** Use what is known of the first computation, established by [t]. *)
Tactic Notation "wlp_use" tactic3(t) := eapply wlp_mono; [t|cbv beta].

(** ** Computations that preserve a preorder *)

Definition preserves {S A} (R : relation S) (m : prog S A) : Prop :=
  forall s, wlp m (fun _ => R s) s.

Section preserves_rules.
Context {S : Type} (R : relation S) `{!PreOrder R}.

(** A fact established on the way to [s] is used from the start. *)
Lemma wlp_preserves {A} (m : prog S A) s0 s : preserves R m -> R s0 s -> wlp m (fun _ => R s0) s.
Proof. intros Hm H0. eapply wlp_mono; [apply Hm|]. simpl. intros _ s' H. by etrans. Qed.

Lemma preserves_ret {A} (a : A) : preserves R (mret (M := prog S) a).
Proof. intros s. by apply wlp_ret. Qed.
Lemma preserves_bind {A B} (m : prog S A) (k : A -> prog S B) :
  preserves R m -> (forall a, preserves R (k a)) -> preserves R (m ≫= k).
Proof.
  intros Hm Hk s. apply wlp_bind. eapply wlp_mono; [apply Hm|]. intros a s' H. by apply wlp_preserves.
Qed.
Lemma preserves_get : preserves R get.
Proof. intros s. by apply wlp_get. Qed.
Lemma preserves_modify f : (forall s, R s (f s)) -> preserves R (modify f).
Proof. intros H s. by apply wlp_modify. Qed.
Lemma preserves_crash {A} f : preserves R (crash (A := A) f).
Proof. done. Qed.
Lemma preserves_demand {A} f (o : option A) : preserves R (demand f o).
Proof. destruct o; [apply preserves_ret|apply preserves_crash]. Qed.
Lemma preserves_when b m : preserves R m -> preserves R (when b m).
Proof. intros H. destruct b; [done|]. apply preserves_ret. Qed.
Lemma preserves_foreach_acc {A} col (body : A -> ptr -> prog S A) a :
  (forall a p, preserves R (body a p)) -> preserves R (foreach_acc col body a).
Proof.
  intros H s. apply (wlp_foreach_acc _ _ (fun _ => R s)); [|done]. intros a' s' p. by apply wlp_preserves.
Qed.
Lemma preserves_foreach col (body : ptr -> prog S unit) :
  (forall p, preserves R (body p)) -> preserves R (foreach col body).
Proof. intros H. by apply preserves_foreach_acc. Qed.
Lemma preserves_foreach_break {T} col (body : ptr -> prog S (option T)) :
  (forall p, preserves R (body p)) -> preserves R (foreach_break col body).
Proof.
  intros H s. apply (wlp_foreach_break _ _ (R s)); [|done|done].
  intros s' p H'. eapply wlp_mono; [by apply wlp_preserves|]. by intros [].
Qed.
End preserves_rules.

Lemma preserves_weaken {S A} (R R' : relation S) (m : prog S A) :
  (forall s s', R s s' -> R' s s') -> preserves R m -> preserves R' m.
Proof. intros H Hm s. eapply wlp_mono; [apply Hm|]. simpl. auto. Qed.

(** Operations on the world that only read it. *)
Section preserves_world.
Context `{PL : PlistLib} (R : relation world) `{!PreOrder R}.

Lemma preserves_read_client p : preserves R (read_client p).
Proof. apply preserves_bind; [done|by apply preserves_get|intros]. by apply preserves_demand. Qed.
Lemma preserves_read_remote p : preserves R (read_remote p).
Proof. apply preserves_bind; [done|by apply preserves_get|intros]. by apply preserves_demand. Qed.
Lemma preserves_nonnull o : preserves R (nonnull o).
Proof. by apply preserves_demand. Qed.
Lemma preserves_lift {A} (r : A + fault) : preserves R (lift r).
Proof. destruct r; [by apply preserves_ret|done]. Qed.
Lemma preserves_dict_foreach {C} l (f : string -> plist -> C -> M (Z * C)) c :
  (forall k v c, preserves R (f k v c)) -> preserves R (plist_dict_foreach l f c).
Proof.
  intros H. revert c. induction l as [|[k v] l IH]; intros c; [by apply preserves_ret|].
  apply preserves_bind; [done|apply H|]. intros [rc c']. case_match; [by apply preserves_ret|apply IH].
Qed.
Lemma preserves_recv_into `{EN : Env} fd ib len : preserves R (recv_into fd ib len).
Proof.
  unfold recv_into. repeat case_match; try by apply preserves_ret.
  apply preserves_bind; [done|apply preserves_lift|]. intros. by apply preserves_ret.
Qed.
End preserves_world.

Create HintDb preserves.

Ltac head_of m := match m with ?f _ => head_of f | _ => m end.

(** Follow the program, unfolding what the database does not know. *)
Ltac preserve_step :=
  match goal with
  | |- PreOrder _ => typeclasses eauto
  | |- preserves _ (mret _) => apply preserves_ret
  | |- preserves _ (_ ≫= _) => apply preserves_bind; [| |intros ?]
  | |- preserves _ get => apply preserves_get
  | |- preserves _ (crash _) => apply preserves_crash
  | |- preserves _ (demand _ _) => apply preserves_demand
  | |- preserves _ (nonnull _) => apply preserves_nonnull
  | |- preserves _ (lift _) => apply preserves_lift
  | |- preserves _ (when _ _) => apply preserves_when
  | |- preserves _ (read_client _) => apply preserves_read_client
  | |- preserves _ (read_remote _) => apply preserves_read_remote
  | |- preserves _ (foreach_acc _ _ _) => apply preserves_foreach_acc; [|intros ? ?]
  | |- preserves _ (foreach _ _) => apply preserves_foreach; [|intros ?]
  | |- preserves _ (foreach_break _ _) => apply preserves_foreach_break; [|intros ?]
  | |- preserves _ (plist_dict_foreach _ _ _) => apply preserves_dict_foreach; [|intros ? ? ?]
  | |- preserves _ (recv_into _ _ _) => apply preserves_recv_into
  | |- preserves _ (let x := _ in _) => cbv zeta
  | |- preserves _ (match ?x with _ => _ end) => destruct x
  | |- preserves _ ?m => let h := head_of m in unfold h
  end.
Ltac preserve := repeat first [solve [auto with preserves nocore] | preserve_step]; cbv beta.
