(* ===== verification/Protocol.v ===== *)
(** The protocol of the connections, as an abstract machine. Of the state it keeps
    the connections, each with its descriptor and its phase, and which descriptors
    were closed; a step opens a connection, moves one along its automaton, closes a
    descriptor or forgets a connection whose descriptor is closed. Every handler,
    run from any state, makes such steps and no others. *)

From S2P Require Import Prelude Exec Mem Utils Proto CStr RemoteId Plist World Socket.
From S2P Require Import Client Remote Teardown Command RemoteProcess Discovery Daemon Wlp.

(** ** Specification *)

(** The life of a client: it sends commands, until it listens or asks for a
    connection; the answer brings it back or takes it on. *)
Inductive client_step : client_state -> client_state -> Prop :=
| client_listens : client_step CLIENT_COMMAND CLIENT_LISTEN
| client_asks : client_step CLIENT_COMMAND CLIENT_CONNECTING1
| client_refused : client_step CLIENT_CONNECTING1 CLIENT_COMMAND
| client_granted : client_step CLIENT_CONNECTING1 CLIENT_CONNECTING2
| client_connected : client_step CLIENT_CONNECTING2 CLIENT_CONNECTED
| client_dies1 : client_step CLIENT_CONNECTING1 CLIENT_DEAD
| client_dies2 : client_step CLIENT_CONNECTING2 CLIENT_DEAD.

(** The life of a connection to an instance: a listener, or one that carries the
    request of a client; any of them can be condemned. *)
Inductive remote_step : remote_state -> remote_state -> Prop :=
| remote_listens : remote_step REMOTE_COMMAND REMOTE_LISTEN
| remote_asks : remote_step REMOTE_COMMAND REMOTE_CONNECTING1
| remote_connected : remote_step REMOTE_CONNECTING1 REMOTE_CONNECTED
| remote_drained : remote_step REMOTE_CONNECTING2 REMOTE_CONNECTED
| remote_condemned s : remote_step s REMOTE_DEAD.

(** Descriptor and phase of each connection. *)
Abbreviation pool S := (gmap positive (Z * S)).

(** One connection moves, or goes once its descriptor is closed. *)
Inductive pool_step {S} (step : S -> S -> Prop) (closed : list Z) : pool S -> pool S -> Prop :=
| pool_move m p fd s s' :
    m !! p = Some (fd, s) -> step s s' -> pool_step step closed m (<[p := (fd, s')]> m)
| pool_free m p fd s :
    m !! p = Some (fd, s) -> fd ∈ closed -> pool_step step closed m (delete p m).

Record sessions := Sessions {
  s_next : positive;
  s_clients : pool client_state;
  s_remotes : pool remote_state;
  s_closed : list Z }.

(** [opens] tells which descriptors a new connection may be given. *)
Inductive session_step (opens : Z -> Prop) : sessions -> sessions -> Prop :=
| step_accept n cs rs cl fd :
    opens fd -> session_step opens (Sessions n cs rs cl)
      (Sessions (Pos.succ n) (<[n := (fd, CLIENT_COMMAND)]> cs) rs cl)
| step_open n cs rs cl fd :
    opens fd -> session_step opens (Sessions n cs rs cl)
      (Sessions (Pos.succ n) cs (<[n := (fd, REMOTE_COMMAND)]> rs) cl)
| step_client n cs cs' rs cl :
    pool_step client_step cl cs cs' ->
    session_step opens (Sessions n cs rs cl) (Sessions n cs' rs cl)
| step_remote n cs rs rs' cl :
    pool_step remote_step cl rs rs' ->
    session_step opens (Sessions n cs rs cl) (Sessions n cs rs' cl)
| step_close n cs rs cl fd :
    session_step opens (Sessions n cs rs cl) (Sessions n cs rs (fd :: cl)).

(** Nothing lives where the next connection will be. *)
Record unborn (s : sessions) : Prop := {
  unborn_c p : (s_next s <= p)%positive -> s_clients s !! p = None;
  unborn_r p : (s_next s <= p)%positive -> s_remotes s !! p = None }.

(** What was there is still there, on the same descriptor, or its descriptor is
    among those just closed; its address is not used again. *)
Record kept {S} (n : positive) (now : list Z) (m m' : pool S) : Prop := {
  kept_or_closed p fd s : m !! p = Some (fd, s) ->
    (exists s', m' !! p = Some (fd, s')) \/ m' !! p = None /\ fd ∈ now;
  kept_gone p : (p < n)%positive -> m !! p = None -> m' !! p = None }.

(** ** Properties of the abstract machine *)

Section machine.
Context (opens : Z -> Prop).
Implicit Types s : sessions.

Lemma kept_refl {S} n (m : pool S) : kept n [] m m.
Proof. split; eauto. Qed.
Lemma kept_trans {S} n1 n2 l1 l2 (m1 m2 m3 : pool S) :
  (n1 <= n2)%positive -> (forall p, (n1 <= p)%positive -> m1 !! p = None) ->
  kept n1 l1 m1 m2 -> kept n2 l2 m2 m3 -> kept n1 (l2 ++ l1) m1 m3.
Proof.
  intros Hn Hun [A1 A2] [B1 B2]. split.
  - intros p fd s Hp. destruct (A1 p fd s Hp) as [[s' Hs']|[Hs' Hf]].
    + destruct (B1 p fd s' Hs') as [|[]]; [by left|right]. split; [done|]. by apply elem_of_app; left.
    + right. split; [|by apply elem_of_app; right]. apply B2; [|done].
      assert (p < n1)%positive; [|lia]. apply Pos.lt_nle. intros Hle. by rewrite Hun in Hp.
  - intros p Hp H. apply B2; [lia|]. by apply A2.
Qed.

Lemma pool_step_kept {S} (step : S -> S -> Prop) cl (m m' : pool S) :
  pool_step step cl m m' -> forall p, m !! p = None -> m' !! p = None.
Proof.
  destruct 1 as [m q fd s s' Hq _|m q fd s Hq _]; intros p Hp.
  - rewrite lookup_insert_ne; [done|]. congruence.
  - by rewrite lookup_delete_None; right.
Qed.

Lemma session_step_unborn s s' : session_step opens s s' -> unborn s -> unborn s'.
Proof.
  intros Hs [H1 H2]. destruct Hs as [n cs rs cl fd _|n cs rs cl fd _|n cs cs' rs cl Hp|n cs rs rs' cl Hp|];
    split; cbn in *; intros p Hle; try (rewrite lookup_insert_ne by lia);
    try (eapply pool_step_kept; [exact Hp|]); first [apply H1|apply H2]; lia.
Qed.
Lemma steps_unborn s s' : rtc (session_step opens) s s' -> unborn s -> unborn s'.
Proof. induction 1; eauto using session_step_unborn. Qed.
Lemma steps_next s s' : rtc (session_step opens) s s' -> (s_next s <= s_next s')%positive.
Proof. induction 1 as [|s1 s2 s3 Hs _ IH]; [lia|]. destruct Hs; cbn in *; lia. Qed.

(** The descriptor was closed on the way from [s] to [s']. *)
Definition closed_since (fd : Z) (s s' : sessions) : Prop :=
  exists now, s_closed s' = now ++ s_closed s /\ fd ∈ now.

Lemma steps_closed s s' : rtc (session_step opens) s s' -> exists now, s_closed s' = now ++ s_closed s.
Proof.
  induction 1 as [|s1 s2 s3 Hs _ [now Hn]]; [by exists []|]. destruct Hs; cbn in *; eauto.
  exists (now ++ [fd]). by rewrite <- app_assoc.
Qed.
Lemma closed_since_steps fd s s' s'' :
  closed_since fd s s' -> rtc (session_step opens) s' s'' -> closed_since fd s s''.
Proof.
  intros (now & E & Hf) [more Hm]%steps_closed. exists (more ++ now).
  rewrite Hm, E, app_assoc. split; [done|]. by apply elem_of_app; right.
Qed.

(** Steps that forget no connection but those closed on the way. *)
Record advanced (s s' : sessions) : Prop := {
  adv_steps : rtc (session_step opens) s s';
  adv_kept : exists now, s_closed s' = now ++ s_closed s /\
    kept (s_next s) now (s_clients s) (s_clients s') /\
    kept (s_next s) now (s_remotes s) (s_remotes s') }.
Definition advances (s s' : sessions) : Prop := unborn s -> advanced s s'.

#[export] Instance advances_preorder : PreOrder advances.
Proof.
  split.
  - intros s _. split; [done|]. exists []. eauto using kept_refl.
  - intros s1 s2 s3 A B Hu. destruct (A Hu) as [A1 (l1 & E1 & K1 & K1')].
    destruct (B (steps_unborn _ _ A1 Hu)) as [B1 (l2 & E2 & K2 & K2')].
    pose proof (steps_next _ _ A1). pose proof Hu as [Hc Hr].
    split; [by etrans|]. exists (l2 ++ l1). rewrite E2, E1, app_assoc. eauto using kept_trans.
Qed.

(** What is still there has its descriptor. *)
Lemma advanced_client s s' p fd x fd' x' :
  advanced s s' -> s_clients s !! p = Some (fd, x) -> s_clients s' !! p = Some (fd', x') -> fd' = fd.
Proof.
  intros [_ (now & _ & [K _] & _)] Hp Hp'. destruct (K p fd x Hp) as [[y Hy]|[Hy _]]; congruence.
Qed.
Lemma advanced_remote s s' p fd x fd' x' :
  advanced s s' -> s_remotes s !! p = Some (fd, x) -> s_remotes s' !! p = Some (fd', x') -> fd' = fd.
Proof.
  intros [_ (now & _ & _ & [K _])] Hp Hp'. destruct (K p fd x Hp) as [[y Hy]|[Hy _]]; congruence.
Qed.

Lemma kept_move {S} n (m : pool S) p fd (x y : S) :
  m !! p = Some (fd, x) -> kept n [] m (<[p := (fd, y)]> m).
Proof.
  intros Hp. split.
  - intros q fd' z Hq. left. destruct (decide (p = q)) as [->|].
    + rewrite lookup_insert_eq. eexists. by simplify_eq.
    + rewrite lookup_insert_ne by done. eauto.
  - intros q _ Hq. rewrite lookup_insert_ne; [done|]. congruence.
Qed.
Lemma kept_born {S} n (m : pool S) x :
  (forall p, (n <= p)%positive -> m !! p = None) -> kept n [] m (<[n := x]> m).
Proof.
  intros Hu. split.
  - intros q fd s Hq. left. rewrite lookup_insert_ne; [eauto|]. intros <-. by rewrite Hu in Hq.
  - intros q Hlt Hq. rewrite lookup_insert_ne; [done|lia].
Qed.
Lemma kept_more {S} n l (m : pool S) : kept n l m m.
Proof. split; eauto. Qed.
Lemma kept_delete {S} n l (m m' : pool S) p fd (x : S) :
  kept n l m m' -> m' !! p = Some (fd, x) -> fd ∈ l -> kept n l m (delete p m').
Proof.
  intros [A1 A2] Hp Hf. split.
  - intros q fd' z Hq. destruct (decide (p = q)) as [->|].
    + right. split; [by rewrite lookup_delete_eq|].
      destruct (A1 q fd' z Hq) as [[s' Hs']|[_ ?]]; [by simplify_eq|done].
    + rewrite lookup_delete_ne by done. eauto.
  - intros q Hlt Hq. apply lookup_delete_None. right. eauto.
Qed.

Lemma advances_accept n cs rs cl fd :
  opens fd -> advances (Sessions n cs rs cl)
    (Sessions (Pos.succ n) (<[n := (fd, CLIENT_COMMAND)]> cs) rs cl).
Proof.
  intros Ho [Hu _]. split; [by apply rtc_once; constructor|]. exists [].
  split; [done|]. split; [by apply kept_born|apply kept_refl].
Qed.
Lemma advances_open n cs rs cl fd :
  opens fd -> advances (Sessions n cs rs cl)
    (Sessions (Pos.succ n) cs (<[n := (fd, REMOTE_COMMAND)]> rs) cl).
Proof.
  intros Ho [_ Hu]. split; [by apply rtc_once; constructor|]. exists [].
  split; [done|]. split; [apply kept_refl|by apply kept_born].
Qed.
Lemma advances_close n cs rs cl fd :
  advances (Sessions n cs rs cl) (Sessions n cs rs (fd :: cl)).
Proof.
  intros _. split; [by apply rtc_once; constructor|]. exists [fd].
  split; [done|]. split; apply kept_more.
Qed.
Lemma advances_client n cs rs cl p fd x y :
  cs !! p = Some (fd, x) -> client_step x y ->
  advances (Sessions n cs rs cl) (Sessions n (<[p := (fd, y)]> cs) rs cl).
Proof.
  intros Hp Hs _. split; [apply rtc_once; constructor; by econstructor|]. exists [].
  split; [done|]. split; [by eapply kept_move|apply kept_refl].
Qed.
Lemma advances_remote n cs rs cl p fd x y :
  rs !! p = Some (fd, x) -> remote_step x y ->
  advances (Sessions n cs rs cl) (Sessions n cs (<[p := (fd, y)]> rs) cl).
Proof.
  intros Hp Hs _. split; [apply rtc_once; constructor; by econstructor|]. exists [].
  split; [done|]. split; [apply kept_refl|by eapply kept_move].
Qed.

(** Forgetting is justified by a [close] since the beginning. *)
Lemma advanced_free_client s0 n cs rs cl p fd x :
  advanced s0 (Sessions n cs rs cl) -> cs !! p = Some (fd, x) ->
  closed_since fd s0 (Sessions n cs rs cl) -> advanced s0 (Sessions n (delete p cs) rs cl).
Proof.
  intros [A1 (l' & El' & K & K')] Hp (l & El & Hf). cbn in *. split.
  - eapply rtc_r; [exact A1|]. constructor. eapply pool_free; [done|]. rewrite El.
    by apply elem_of_app; left.
  - assert (l' = l) as -> by (apply (app_inv_tail (s_closed s0)); congruence).
    exists l. split; [done|]. split; [by eapply kept_delete|done].
Qed.
Lemma advanced_free_remote s0 n cs rs cl p fd x :
  advanced s0 (Sessions n cs rs cl) -> rs !! p = Some (fd, x) ->
  closed_since fd s0 (Sessions n cs rs cl) -> advanced s0 (Sessions n cs (delete p rs) cl).
Proof.
  intros [A1 (l' & El' & K & K')] Hp (l & El & Hf). cbn in *. split.
  - eapply rtc_r; [exact A1|]. constructor. eapply pool_free; [done|]. rewrite El.
    by apply elem_of_app; left.
  - assert (l' = l) as -> by (apply (app_inv_tail (s_closed s0)); congruence).
    exists l. split; [done|]. split; [done|by eapply kept_delete].
Qed.
End machine.

(** More descriptors may be allowed. *)
Lemma session_step_weaken (opens opens' : Z -> Prop) s s' :
  (forall fd, opens fd -> opens' fd) -> session_step opens s s' -> session_step opens' s s'.
Proof. intros H []; constructor; auto. Qed.
Lemma advances_weaken (opens opens' : Z -> Prop) s s' :
  (forall fd, opens fd -> opens' fd) -> advances opens s s' -> advances opens' s s'.
Proof.
  intros H A Hu. destruct (A Hu) as [A1 A2]. split; [|done].
  eapply rtc_subrel; [|exact A1]. intros. by eapply session_step_weaken.
Qed.
