(* ===== verification/ProtocolFacts.v ===== *)
(** The state of the daemon as a state of the abstract machine of Protocol.v, and
    each operation as steps of that machine. *)

From S2P Require Import Prelude Exec Mem Utils Proto CStr RemoteId Plist World Socket.
From S2P Require Import Client Remote Teardown Command RemoteProcess Discovery Daemon Wlp Protocol.

(** The descriptors the system calls of a handler return. *)
Definition new_fd (EN : Env) (fd : Z) : Prop :=
  0 <= fd /\ (fd = sys_socket \/ exists listenfd, fd = sys_accept listenfd).

Section abstraction.
Context `{PL : PlistLib}.

Definition client_session (c : mux_client) : Z * client_state := (c_fd c, c_state c).
Definition remote_session (r : remote_mux) : Z * remote_state := (r_fd r, r_state r).
Definition closed_fd (e : event) : option Z :=
  match e with EvClose fd => Some fd | _ => None end.

Definition sessions_of (w : world) : sessions :=
  {| s_next := w_next w;
     s_clients := client_session <$> w_clients w;
     s_remotes := remote_session <$> w_remotes w;
     s_closed := omap closed_fd (w_trace w) |}.

Context `{EN : Env}.

Definition evolves (w w' : world) : Prop :=
  advances (new_fd EN) (sessions_of w) (sessions_of w').

#[export] Instance evolves_preorder : PreOrder evolves.
Proof. split; [intros w|intros w1 w2 w3]; unfold evolves; [done|by intros ->]. Qed.

(** Preorders that do not see what the machine does not see. *)
Class Coarse (R : relation world) : Prop := {
  coarse_preorder :: PreOrder R;
  coarse_still w w' : sessions_of w' = sessions_of w -> R w w' }.

#[export] Instance evolves_coarse : Coarse evolves.
Proof. split; [apply _|]. unfold evolves. by intros w w' ->. Qed.

(** The clients stay as they are. *)
Definition remotes_evolve (w w' : world) : Prop :=
  evolves w w' /\ s_clients (sessions_of w') = s_clients (sessions_of w).
#[export] Instance remotes_evolve_coarse : Coarse remotes_evolve.
Proof.
  split; [split|].
  - by intros w.
  - intros w1 w2 w3 [A1 A2] [B1 B2]. split; [by etrans|congruence].
  - intros w w' E. split; [by apply coarse_still|by rewrite E].
Qed.

(** The remotes stay as they are. *)
Definition clients_evolve (w w' : world) : Prop :=
  evolves w w' /\ s_remotes (sessions_of w') = s_remotes (sessions_of w).
#[export] Instance clients_evolve_coarse : Coarse clients_evolve.
Proof.
  split; [split|].
  - by intros w.
  - intros w1 w2 w3 [A1 A2] [B1 B2]. split; [by etrans|congruence].
  - intros w w' E. split; [by apply coarse_still|by rewrite E].
Qed.

(** Nothing the machine sees changes. *)
Definition still (w w' : world) : Prop := sessions_of w' = sessions_of w.
#[export] Instance still_coarse : Coarse still.
Proof. split; [|done]. split; [by intros w|]. unfold still. intros w1 w2 w3. congruence. Qed.

(** ** Elementary operations *)

Lemma client_at w p c :
  w_clients w !! p = Some c -> s_clients (sessions_of w) !! p = Some (c_fd c, c_state c).
Proof. intros H. cbn. by rewrite lookup_fmap, H. Qed.
Lemma remote_at w p r :
  w_remotes w !! p = Some r -> s_remotes (sessions_of w) !! p = Some (r_fd r, r_state r).
Proof. intros H. cbn. by rewrite lookup_fmap, H. Qed.

Lemma sessions_put_client p c w :
  sessions_of (put_client p c w) =
  let s := sessions_of w in
  Sessions (s_next s) (<[p := (c_fd c, c_state c)]> (s_clients s)) (s_remotes s) (s_closed s).
Proof. unfold sessions_of. cbn. by rewrite fmap_insert. Qed.
Lemma sessions_put_remote p r w :
  sessions_of (put_remote p r w) =
  let s := sessions_of w in
  Sessions (s_next s) (s_clients s) (<[p := (r_fd r, r_state r)]> (s_remotes s)) (s_closed s).
Proof. unfold sessions_of. cbn. by rewrite fmap_insert. Qed.

Lemma still_put_client p c c' w :
  w_clients w !! p = Some c -> c_fd c' = c_fd c -> c_state c' = c_state c ->
  sessions_of (put_client p c' w) = sessions_of w.
Proof.
  intros H%client_at E1 E2. rewrite sessions_put_client, E1, E2. cbv zeta. by rewrite insert_id.
Qed.
Lemma still_put_remote p r r' w :
  w_remotes w !! p = Some r -> r_fd r' = r_fd r -> r_state r' = r_state r ->
  sessions_of (put_remote p r' w) = sessions_of w.
Proof.
  intros H%remote_at E1 E2. rewrite sessions_put_remote, E1, E2. cbv zeta. by rewrite insert_id.
Qed.

Lemma wlp_read_client p Q w :
  (forall c, w_clients w !! p = Some c -> Q c w) -> wlp (read_client p) Q w.
Proof. intros H. apply wlp_bind, wlp_get, wlp_demand. auto. Qed.
Lemma wlp_read_remote p Q w :
  (forall r, w_remotes w !! p = Some r -> Q r w) -> wlp (read_remote p) Q w.
Proof. intros H. apply wlp_bind, wlp_get, wlp_demand. auto. Qed.
Lemma wlp_lift {A} (r : A + fault) Q w : (forall a, r = inl a -> Q a w) -> wlp (lift r) Q w.
Proof. destruct r as [a|f]; [|done]. intros H. by apply H. Qed.
Lemma wlp_write_client p f Q w :
  (forall c, w_clients w !! p = Some c -> Q tt (put_client p (f c) w)) ->
  wlp (write_client p f) Q w.
Proof. intros H. by apply wlp_bind, wlp_read_client. Qed.
Lemma wlp_write_remote p f Q w :
  (forall r, w_remotes w !! p = Some r -> Q tt (put_remote p (f r) w)) ->
  wlp (write_remote p f) Q w.
Proof. intros H. by apply wlp_bind, wlp_read_remote. Qed.

(** A client or a remote moves along its automaton. *)
Lemma evolves_put_client p c c' w :
  w_clients w !! p = Some c -> c_fd c' = c_fd c -> client_step (c_state c) (c_state c') ->
  clients_evolve w (put_client p c' w).
Proof.
  intros Hp E Hs. unfold clients_evolve, evolves. rewrite sessions_put_client, E. split; [|done].
  apply (advances_client _ _ _ _ _ p _ (c_state c)); [by apply client_at|done].
Qed.
Lemma evolves_put_remote p r r' w :
  w_remotes w !! p = Some r -> r_fd r' = r_fd r -> remote_step (r_state r) (r_state r') ->
  remotes_evolve w (put_remote p r' w).
Proof.
  intros Hp E Hs. unfold remotes_evolve, evolves. rewrite sessions_put_remote, E. split; [|done].
  apply (advances_remote _ _ _ _ _ p _ (r_state r)); [by apply remote_at|done].
Qed.
Lemma evolves_close fd w : remotes_evolve w (set_w_trace (EvClose fd :: w_trace w) w).
Proof. split; [|done]. apply advances_close. Qed.
End abstraction.

(** ** Operations that move no connection *)

Section still.
Context `{PL : PlistLib} (R : relation world) `{!Coarse R}.

Lemma preserves_lock m : preserves R (lock m).
Proof. unfold lock. preserve. apply preserves_modify. intros w. by apply coarse_still. Qed.
Lemma preserves_unlock m : preserves R (unlock m).
Proof. apply preserves_modify. intros w. by apply coarse_still. Qed.
Lemma preserves_log e : closed_fd e = None -> preserves R (log_event e).
Proof. intros H. apply preserves_modify. intros w. apply coarse_still. unfold sessions_of. cbn. by rewrite H. Qed.
Lemma preserves_modify_still f : (forall w, sessions_of (f w) = sessions_of w) -> preserves R (modify f).
Proof. intros H. apply preserves_modify. intros w. apply coarse_still, H. Qed.
Lemma preserves_write_client p f :
  (forall c, c_fd (f c) = c_fd c /\ c_state (f c) = c_state c) -> preserves R (write_client p f).
Proof.
  intros H w. apply wlp_write_client. intros c Hc. apply coarse_still.
  eapply still_put_client; [done|apply H..].
Qed.
Lemma preserves_write_remote p f :
  (forall r, r_fd (f r) = r_fd r /\ r_state (f r) = r_state r) -> preserves R (write_remote p f).
Proof.
  intros H w. apply wlp_write_remote. intros c Hc. apply coarse_still.
  eapply still_put_remote; [done|apply H..].
Qed.
End still.

#[export] Hint Extern 0 (Coarse _) => (apply _) : preserves.
#[export] Hint Resolve preserves_lock preserves_unlock : preserves.
#[export] Hint Extern 1 (preserves _ (log_event _)) => (apply preserves_log; solve [done | apply _]) : preserves.
#[export] Hint Extern 1 (preserves _ (modify _)) => (apply preserves_modify_still; solve [done | apply _]) : preserves.
#[export] Hint Extern 1 (preserves _ (write_client _ _)) => (apply preserves_write_client; solve [done | apply _]) : preserves.
#[export] Hint Extern 1 (preserves _ (write_remote _ _)) => (apply preserves_write_remote; solve [done | apply _]) : preserves.


(** The packets, the notifications and the lists, taken apart; loops over plists
    go by induction. *)
Section still_ops.
Context `{PL : PlistLib} `{EN : Env} (R : relation world) `{!Coarse R}.

Lemma preserves_send_pkt p tag msg payload : preserves R (send_pkt p tag msg payload).
Proof. preserve. Qed.
Lemma preserves_send_plist_pkt p tag d : preserves R (send_plist_pkt p tag d).
Proof. preserve. Qed.
Lemma preserves_send_result p tag result : preserves R (send_result p tag result).
Proof. preserve. Qed.
Lemma preserves_client_broadcast f :
  (forall p, preserves R (f p)) -> preserves R (client_broadcast f).
Proof. intros H. preserve. Qed.
Lemma preserves_announce p devs n : preserves R (announce p devs n).
Proof. revert n. induction devs as [|d devs IH]; intros n; cbn [announce]; preserve. Qed.
Lemma preserves_handle_listen_message p hdr ib msg : preserves R (handle_listen_message p hdr ib msg).
Proof. preserve. Qed.
End still_ops.
#[export] Hint Resolve preserves_send_pkt preserves_send_plist_pkt preserves_send_result preserves_client_broadcast
  preserves_announce preserves_handle_listen_message : preserves.

(** ** Connections to instances *)

(** Preorders that let remotes evolve. *)
Class RemoteSide `{PL : PlistLib} `{EN : Env} (R : relation world) : Prop := {
  remote_side_coarse :: Coarse R;
  remote_side w w' : remotes_evolve w w' -> R w w' }.

Section remotes.
Context `{PL : PlistLib} `{EN : Env}.

#[export] Instance remotes_evolve_side : RemoteSide remotes_evolve.
Proof. by split; [apply _|]. Qed.
#[export] Instance evolves_side : RemoteSide evolves.
Proof. split; [apply _|]. by intros w w' []. Qed.

Context (R : relation world) `{!RemoteSide R}.

Lemma preserves_side {A} (m : M A) : preserves remotes_evolve m -> preserves R m.
Proof. apply preserves_weaken. intros w w'. apply remote_side. Qed.

Lemma preserves_close fd : preserves R (close fd).
Proof. apply preserves_modify. intros w. apply remote_side, evolves_close. Qed.
Lemma preserves_opens (m : M (option ptr)) (Q : option ptr -> world -> Prop) :
  (forall w, wlp m (fun o w' => remotes_evolve w w' /\ Q o w') w) -> preserves R m.
Proof. intros H. apply preserves_side. intros w. wlp_use (apply H). by intros o w' []. Qed.
End remotes.
#[export] Hint Extern 0 (RemoteSide _) => (apply _) : preserves.
#[export] Hint Extern 1 (preserves _ (close _)) => (eapply preserves_close; apply _) : preserves.

Section new_remotes.
Context `{PL : PlistLib} `{EN : Env}.

(** A new connection is in COMMAND. *)
Definition opened (o : option ptr) (w : world) : Prop :=
  match o with
  | Some p => exists r, w_remotes w !! p = Some r /\ r_state r = REMOTE_COMMAND
  | None => True
  end.
Definition opens (m : M (option ptr)) : Prop :=
  forall w, wlp m (fun o w' => remotes_evolve w w' /\ opened o w') w.

Lemma opens_none (m : M unit) : preserves remotes_evolve m -> opens (_ ← m; mret None).
Proof. intros H w. apply wlp_bind. wlp_use (apply H). intros [] w' ?. by apply wlp_ret. Qed.
Lemma opens_after {A} (m : M A) k :
  preserves remotes_evolve m -> (forall a, opens (k a)) -> opens (m ≫= k).
Proof.
  intros Hm Hk w. apply wlp_bind. wlp_use (apply Hm). intros a w' H.
  wlp_use (apply Hk). intros o w'' []. split; [by etrans|done].
Qed.


(** A field of the new connection is set. *)
Lemma opens_set p f w w' :
  remotes_evolve w w' -> opened (Some p) w' ->
  (forall r, r_fd (f r) = r_fd r /\ r_state (f r) = r_state r) ->
  wlp (_ ← write_remote p f; mret (Some p)) (fun o w'' => remotes_evolve w w'' /\ opened o w'') w'.
Proof.
  intros H (r & Hr & Hs) Hf. apply wlp_bind, wlp_write_remote. intros r' Hr'. simplify_eq.
  destruct (Hf r) as [E1 E2]. apply wlp_ret. split.
  - etrans; [exact H|]. apply coarse_still. by eapply still_put_remote.
  - exists (f r). split; [apply lookup_insert_eq|congruence].
Qed.

(** The descriptor of a connection is the one [socket] gave. *)
Definition connects (m : M Z) : Prop :=
  forall w, wlp m (fun fd w' => remotes_evolve w w' /\ (0 <= fd -> new_fd EN fd)) w.
Lemma connects_intro m :
  preserves remotes_evolve m -> (forall w, wlp m (fun fd _ => 0 <= fd -> fd = sys_socket) w) ->
  connects m.
Proof.
  intros H1 H2 w. wlp_use (apply wlp_conj; [apply H1|apply H2]). intros fd w' [H H'].
  split; [done|]. split; [done|]. left. auto.
Qed.
Ltac returns := repeat first [case_match | apply wlp_ret; lia | apply wlp_skip; intros].
Lemma connects_unix path : connects (socket_connect_unix path).
Proof. apply connects_intro; [preserve|]. intros w. unfold socket_connect_unix. returns. Qed.
Lemma connects_timeout host port timeout : connects (socket_connect_timeout host port timeout).
Proof. apply connects_intro; [preserve|]. intros w. unfold socket_connect_timeout. returns. Qed.

Lemma opens_connected m k :
  connects m -> (forall fd, new_fd EN fd -> opens (k fd)) ->
  opens (fd ← m; if fd <? 0 then mret None else k fd).
Proof.
  intros Hm Hk w. apply wlp_bind. wlp_use (apply Hm). intros fd w' [H Hfd].
  destruct (Z.ltb_spec fd 0); [by apply wlp_ret|].
  wlp_use (by apply Hk, Hfd). intros o w'' []. split; [by etrans|done].
Qed.

Lemma opens_new_with_fd fd : new_fd EN fd -> opens (remote_mux_new_with_fd fd).
Proof.
  intros Hfd. unfold remote_mux_new_with_fd. do 2 (case_match; [apply opens_none; preserve|]).
  intros w. apply wlp_bind, wlp_bind, wlp_get, wlp_bind, wlp_modify, wlp_ret, wlp_ret. split.
  - split; [|done]. unfold evolves, sessions_of. cbn. rewrite fmap_insert. by apply advances_open.
  - exists (remote_fresh fd). split; [apply lookup_insert_eq|done].
Qed.
Lemma opens_new_with_unix_socket path : opens (remote_mux_new_with_unix_socket path).
Proof.
  apply opens_connected; [apply connects_unix|]. intros fd Hfd w.
  apply wlp_bind. wlp_use (by apply opens_new_with_fd). intros [p|] w' [Hw Ho]; [|done].
  by apply opens_set.
Qed.
Lemma opens_new_with_host host port : opens (remote_mux_new_with_host host port).
Proof.
  apply opens_connected; [apply connects_timeout|]. intros fd Hfd w.
  apply wlp_bind. wlp_use (by apply opens_new_with_fd). intros [p|] w' [Hw Ho]; [|done].
  apply wlp_bind, wlp_demand. intros h _. by apply opens_set.
Qed.
Lemma opens_connect_like id : opens (connect_like id).
Proof.
  intros w. apply wlp_bind.
  apply (wlp_foreach_break _ _ (remotes_evolve w)); [|by intros w'|done].
  intros w' p H'. apply wlp_bind, wlp_read_remote. intros r Hr. case_match; [|by apply wlp_ret].
  apply wlp_bind. wlp_use (apply opens_new_with_host). intros o w'' [H1 H2].
  apply wlp_ret, wlp_ret. split; [by etrans|by destruct o].
Qed.
Lemma opens_connect_for_record id : opens (connect_for_record id).
Proof.
  do 2 (apply opens_after; [preserve|intros ?]). cbv zeta. repeat case_match;
    auto using opens_new_with_unix_socket, opens_connect_like.
Qed.

Lemma opens_preserves R `{!RemoteSide R} m : opens m -> preserves R m.
Proof. intros H. by eapply preserves_opens. Qed.
End new_remotes.
Create HintDb opens.
#[export] Hint Resolve opens_new_with_unix_socket opens_new_with_host opens_connect_like
  opens_connect_for_record : opens.
#[export] Hint Extern 2 (preserves _ (remote_mux_new_with_unix_socket _)) =>
  (apply opens_preserves; solve [apply _ | auto with opens]) : preserves.
#[export] Hint Extern 2 (preserves _ (remote_mux_new_with_host _ _)) =>
  (apply opens_preserves; solve [apply _ | auto with opens]) : preserves.
#[export] Hint Extern 2 (preserves _ (connect_like _)) =>
  (apply opens_preserves; solve [apply _ | auto with opens]) : preserves.
#[export] Hint Extern 2 (preserves _ (connect_for_record _)) =>
  (apply opens_preserves; solve [apply _ | auto with opens]) : preserves.

Section requests.
Context `{PL : PlistLib} `{EN : Env}.

(** The new connection carries the request of a client. *)
Lemma preserves_usbmux_remote_connect id req c : preserves remotes_evolve (usbmux_remote_connect id req c).
Proof.
  unfold usbmux_remote_connect. cbv zeta. apply preserves_bind; [apply _|preserve|intros _].
  intros w. apply wlp_bind.
  eapply (wlp_mono _ (fun o w' => remotes_evolve w w' /\ opened o w')).
  { case_match; [apply opens_new_with_unix_socket|apply opens_connect_like]. }
  intros [p|] w' [H Ho]; cbv beta zeta.
  - apply wlp_bind, wlp_bind, wlp_write_remote. intros r Hr.
    destruct Ho as (r' & Hr' & Hs). simplify_eq.
    wlp_use (apply (wlp_preserves remotes_evolve _ w); [preserve|]).
    + etrans; [exact H|]. apply evolves_put_remote with (r := r'); [done..|]. rewrite Hs. constructor.
    + intros [] w'' Hw. apply (wlp_preserves remotes_evolve); [preserve|done].
  - apply wlp_bind, wlp_ret, (wlp_preserves remotes_evolve); [preserve|done].
Qed.
End requests.

(** ** Closing connections *)

Section teardown.
Context `{PL : PlistLib} `{EN : Env}.

Lemma evolves_steps w w' : evolves w w' -> unborn (sessions_of w) ->
  rtc (session_step (new_fd EN)) (sessions_of w) (sessions_of w').
Proof. intros H Hu. by destruct (H Hu). Qed.
Lemma evolves_closed fd w0 w1 w2 :
  unborn (sessions_of w0) -> evolves w0 w1 -> evolves w1 w2 ->
  closed_since fd (sessions_of w0) (sessions_of w1) ->
  closed_since fd (sessions_of w0) (sessions_of w2).
Proof.
  intros Hu H1 H2 Hc. eapply closed_since_steps; [exact Hc|]. apply evolves_steps; [done|].
  eapply steps_unborn, Hu. by apply evolves_steps.
Qed.

(** [free] after a [close] of the descriptor the object had at [w0]. *)
Lemma wlp_free_client p c w0 w1 w :
  w_clients w0 !! p = Some c -> evolves w0 w1 ->
  closed_since (c_fd c) (sessions_of w0) (sessions_of w1) -> evolves w1 w ->
  wlp (free_client p) (fun _ => evolves w0) w.
Proof.
  intros Hc H1 Hcl H2. apply wlp_bind, wlp_read_client. intros c' Hc'. apply wlp_modify.
  intros Hu. assert (evolves w0 w) as H by by etrans. specialize (H Hu).
  assert (c_fd c' = c_fd c) as E by (eapply advanced_client; [exact H|by apply client_at..]).
  unfold sessions_of. cbn. rewrite fmap_delete.
  eapply (advanced_free_client _ _ _ _ _ _ p); [exact H|by apply client_at|].
  rewrite E. by eapply evolves_closed.
Qed.
Lemma wlp_free_remote p r w0 w1 w :
  w_remotes w0 !! p = Some r -> evolves w0 w1 ->
  closed_since (r_fd r) (sessions_of w0) (sessions_of w1) -> evolves w1 w ->
  wlp (free_remote p) (fun _ => evolves w0) w.
Proof.
  intros Hc H1 Hcl H2. apply wlp_bind, wlp_read_remote. intros c' Hc'. apply wlp_modify.
  intros Hu. assert (evolves w0 w) as H by by etrans. specialize (H Hu).
  assert (r_fd c' = r_fd r) as E by (eapply advanced_remote; [exact H|by apply remote_at..]).
  unfold sessions_of. cbn. rewrite fmap_delete.
  eapply (advanced_free_remote _ _ _ _ _ _ p); [exact H|by apply remote_at|].
  rewrite E. by eapply evolves_closed.
Qed.

Lemma closed_since_log fd w w' :
  w_trace w' = w_trace w ->
  closed_since fd (sessions_of w) (sessions_of (set_w_trace (EvClose fd :: w_trace w') w')).
Proof. intros E. exists [fd]. cbn. rewrite E. split; [done|by apply list_elem_of_here]. Qed.
End teardown.

(** The next call preserves what [H] says of the state. *)
Ltac preserving H :=
  apply wlp_bind; wlp_use (apply (wlp_preserves evolves); [solve [preserve]|exact H]); clear H; intros ? ? H.

Section closing.
Context `{PL : PlistLib} `{EN : Env}.

Lemma preserves_remote_close p : preserves remotes_evolve (remote_close p).
Proof.
  intros w. apply wlp_bind, wlp_read_remote. intros r Hr.
  apply wlp_bind, wlp_modify, wlp_bind, wlp_modify, wlp_bind, wlp_read_remote. intros r' Hr'.
  cbn in Hr'. simplify_eq. apply wlp_modify. split; [|done]. intros Hu.
  unfold sessions_of. cbn. rewrite fmap_delete.
  eapply (advanced_free_remote _ _ _ _ _ _ p); [|by apply remote_at|].
  - by apply evolves_close.
  - exists [r_fd r]. split; [done|by apply list_elem_of_here].
Qed.
Hint Resolve preserves_remote_close : preserves.
Hint Extern 2 (preserves evolves (remote_close _)) => (apply preserves_side; solve [apply _|preserve]) : preserves.

Lemma preserves_client_close p : preserves evolves (client_close p).
Proof.
  intros w. apply wlp_bind, wlp_read_client. intros c Hc. apply wlp_bind.
  wlp_use (instantiate (1 := fun _ w' => evolves w w' /\ w_trace w' = w_trace w)).
  { apply wlp_when; [|done]. intros Hs%bool_decide_eq_true. apply wlp_write_client. intros c' Hc'.
    simplify_eq. split; [|done]. eapply evolves_put_client with (c := c); [done..|].
    destruct Hs as [-> | ->]; constructor. }
  intros [] w1 [H1 E1]. apply wlp_bind, wlp_modify. set (w2 := set_w_trace _ w1).
  assert (evolves w w2) as H2 by (etrans; [exact H1|apply evolves_close]).
  assert (closed_since (c_fd c) (sessions_of w) (sessions_of w2)) as Hcl by by apply closed_since_log.
  assert (evolves w2 w2) as H by done. revert H. generalize w2 at 2 3. intros w3 H.
  do 4 preserving H. by eapply wlp_free_client.
Qed.
End closing.
#[export] Hint Resolve preserves_client_close : preserves.
#[export] Hint Extern 2 (preserves _ (remote_close _)) =>
  (apply preserves_side; solve [apply _|apply preserves_remote_close]) : preserves.

Section condemning.
Context `{PL : PlistLib} `{EN : Env}.

Lemma preserves_usbmux_remote_dispose p : preserves evolves (usbmux_remote_dispose p).
Proof.
  intros w. apply wlp_bind, wlp_read_remote. intros r Hr.
  apply wlp_bind, wlp_modify. set (w1 := set_w_trace _ w).
  assert (evolves w w1) as H1 by apply evolves_close.
  assert (closed_since (r_fd r) (sessions_of w) (sessions_of w1)) as Hcl by by apply closed_since_log.
  assert (evolves w1 w1) as H by done. revert H. generalize w1 at 2 3. intros w2 H.
  do 5 preserving H. by eapply wlp_free_remote.
Qed.
Hint Resolve preserves_usbmux_remote_dispose : preserves.

Lemma preserves_condemn p : preserves evolves (write_remote p (set_r_state REMOTE_DEAD)).
Proof.
  intros w. apply wlp_write_remote. intros r Hr. apply remote_side.
  apply evolves_put_remote with (r := r); [done..|constructor].
Qed.
Hint Resolve preserves_condemn : preserves.

Lemma preserves_remote_mark_dead p : preserves evolves (remote_mark_dead p).
Proof. preserve. Qed.
Hint Resolve preserves_remote_mark_dead : preserves.
Lemma preserves_remote_mux_service_remove s h port : preserves evolves (remote_mux_service_remove s h port).
Proof. preserve. Qed.

(** Without a free identifier the new connection is closed at once. *)
Lemma preserves_remote_mux_service_add s h port : preserves evolves (remote_mux_service_add s h port).
Proof.
  unfold remote_mux_service_add. apply preserves_bind; [apply _|preserve|intros _].
  apply preserves_bind; [apply _|preserve|intros [q|]]; [preserve|].
  apply preserves_bind; [apply _|preserve|intros [q|]]; [|preserve].
  apply preserves_bind; [apply _|preserve|intros w0]. cbv zeta. case_match; [|preserve].
  apply preserves_bind; [apply _|preserve|intros _]. intros w. apply wlp_bind, wlp_read_remote. intros r Hr.
  apply wlp_bind, wlp_modify, wlp_bind. wlp_use (eapply wlp_free_remote; [exact Hr| | |done]).
  - apply evolves_close.
  - by apply closed_since_log.
  - intros _ w' Hw. by apply wlp_ret.
Qed.
End condemning.
#[export] Hint Resolve preserves_usbmux_remote_dispose preserves_remote_mark_dead
  preserves_remote_mux_service_remove preserves_remote_mux_service_add : preserves.

(** ** Commands *)

Section commands.
Context `{PL : PlistLib} `{EN : Env}.

(** The client is in the given state. *)
Definition client_in (p : ptr) (st : client_state) (w : world) : Prop :=
  forall c, w_clients w !! p = Some c -> c_state c = st.

Lemma client_in_same p st w w' :
  client_in p st w -> s_clients (sessions_of w') = s_clients (sessions_of w) -> client_in p st w'.
Proof.
  intros H E c Hc%client_at. rewrite E in Hc. cbn in Hc. rewrite lookup_fmap in Hc.
  destruct (w_clients w !! p) as [c'|] eqn:Hc'; [|done].
  injection Hc as _ <-. by apply H.
Qed.

(** A client that is in the right state moves. *)
Lemma wlp_client_moves p f st w :
  client_in p st w -> (forall c, c_fd (f c) = c_fd c /\ client_step st (c_state (f c))) ->
  wlp (write_client p f) (fun _ => clients_evolve w) w.
Proof.
  intros Hin Hf. apply wlp_write_client. intros c Hc. destruct (Hf c) as [E Hs].
  apply evolves_put_client with (c := c); [done..|]. by rewrite (Hin c Hc).
Qed.

Lemma start_listen_evolves p w :
  client_in p CLIENT_COMMAND w -> wlp (start_listen p) (fun _ => evolves w) w.
Proof.
  intros Hin. apply wlp_bind. wlp_use (apply (wlp_client_moves _ _ CLIENT_COMMAND); [done|]).
  { intros c. split; [done|constructor]. }
  intros [] w' [H _]. apply (wlp_preserves evolves); [preserve|done].
Qed.
Lemma connect_outcome_evolves p tag id res w :
  client_in p CLIENT_COMMAND w -> wlp (connect_outcome p tag id res) (fun _ => evolves w) w.
Proof.
  intros Hin. unfold connect_outcome. case_match; [apply (wlp_preserves evolves); [preserve|done]|].
  apply wlp_bind. wlp_use (apply (wlp_client_moves _ _ CLIENT_COMMAND); [done|]).
  { intros c. split; [done|constructor]. }
  intros [] w' [Hw _]. by apply wlp_ret.
Qed.

(** The client of a computation that leaves the clients alone is still in its state. *)
Lemma wlp_calm {A B} (m : M A) (k : A -> M B) p st w :
  client_in p st w -> preserves remotes_evolve m ->
  (forall a w', client_in p st w' -> wlp (k a) (fun _ => evolves w') w') ->
  wlp (m ≫= k) (fun _ => evolves w) w.
Proof.
  intros Hin Hm Hk. apply wlp_bind. wlp_use (apply Hm). intros a w' [H1 H2].
  wlp_use (eapply Hk, client_in_same; [exact Hin|exact H2]). intros _ w'' H. by etrans.
Qed.

Hint Resolve preserves_usbmux_remote_connect : preserves.
Ltac calm Hin := eapply wlp_calm; [exact Hin|solve [preserve]|clear Hin; intros ? ? Hin].
Ltac other := apply (wlp_preserves evolves); [solve [preserve]|reflexivity].

Lemma cmd_connect_evolves p tag dict w :
  client_in p CLIENT_COMMAND w -> wlp (cmd_connect p tag dict) (fun _ => evolves w) w.
Proof.
  intros Hin. unfold cmd_connect. do 2 (case_match; [|other]). cbv zeta. calm Hin.
  by apply connect_outcome_evolves.
Qed.
Lemma listen_request_evolves p tag w :
  client_in p CLIENT_COMMAND w -> wlp (listen_request p tag) (fun _ => evolves w) w.
Proof.
  intros Hin. unfold listen_request. calm Hin. case_match; [other|]. by apply start_listen_evolves.
Qed.
Lemma plist_command_evolves p tag dict msg w :
  client_in p CLIENT_COMMAND w -> wlp (plist_command p tag dict msg) (fun _ => evolves w) w.
Proof.
  intros Hin. unfold plist_command. cbv zeta. case_match; [by apply listen_request_evolves|].
  case_match; [by apply cmd_connect_evolves|]. other.
Qed.

Lemma preserves_client_command p : preserves evolves (client_command p).
Proof.
  intros w. apply wlp_bind, wlp_read_client. intros c Hc. apply wlp_bind.
  apply wlp_lift. intros raw _. cbv zeta. case_bool_decide as Hs; [other|].
  assert (client_in p CLIENT_COMMAND w) as Hin.
  { intros c' Hc'. simplify_eq. by destruct (decide (c_state c = CLIENT_COMMAND)). }
  case_match; [other|]. case_match.
  - unfold plist_request. do 2 calm Hin. do 2 (case_match; [|other]). case_match; [other|].
    case_match; [|other]. calm Hin. by apply plist_command_evolves.
  - case_match; [by apply listen_request_evolves|]. case_match; [|other].
    unfold binary_connect. do 2 calm Hin. by apply connect_outcome_evolves.
Qed.
Hint Resolve preserves_client_command : preserves.

(** ** Poll events *)

Lemma preserves_process_recv p : preserves evolves (process_recv p).
Proof. preserve. Qed.

(** The answer of a connection request has gone out. *)
Lemma preserves_process_send p : preserves evolves (process_send p).
Proof.
  intros w. apply wlp_bind, wlp_read_client. intros c Hc. case_match; [other|].
  assert (client_in p (c_state c) w) as Hin by (intros c' Hc'; by simplify_eq).
  do 2 calm Hin. case_match; [other|]. do 2 calm Hin. case_match; [|other]. calm Hin.
  apply wlp_when; [|done]. intros Hs%bool_decide_eq_true. rewrite Hs in Hin. do 2 calm Hin.
  wlp_use (apply (wlp_client_moves _ _ CLIENT_CONNECTING2); [done|]).
  { intros c'. split; [done|constructor]. }
  by intros _ ? [].
Qed.
Hint Resolve preserves_process_recv preserves_process_send : preserves.

Lemma preserves_client_process fd events : preserves evolves (client_process fd events).
Proof. preserve. Qed.
End commands.
#[export] Hint Resolve preserves_usbmux_remote_connect preserves_client_command preserves_process_recv
  preserves_process_send preserves_client_process : preserves.

(** ** Messages and events of instances *)

Section instances.
Context `{PL : PlistLib} `{EN : Env}.

Lemma preserves_client_notify_connect p result : preserves clients_evolve (client_notify_connect p result).
Proof.
  intros w. apply wlp_bind, wlp_read_client. intros c Hc.
  case_bool_decide; [by apply wlp_ret|]. case_bool_decide as Hs; [by apply wlp_ret|].
  assert (client_in p CLIENT_CONNECTING1 w) as Hin.
  { intros c' Hc'. simplify_eq. by destruct (decide (c_state c = CLIENT_CONNECTING1)). }
  apply wlp_bind. wlp_use (apply (preserves_send_result still)). intros res w1 H1.
  apply (client_in_same _ _ _ w1) in Hin; [|by rewrite H1].
  assert (clients_evolve w w1) as Hw1 by by apply coarse_still.
  case_match; [by apply wlp_ret|].
  case_match; apply wlp_bind;
    (wlp_use (apply (wlp_client_moves _ _ CLIENT_CONNECTING1); [done|intros ?; split; [done|cbn; constructor]]));
    intros _ w2 Hw2; apply wlp_ret; by etrans.
Qed.

(** The same for remotes as for clients. *)
Definition remote_in (p : ptr) (st : remote_state) (w : world) : Prop :=
  forall r, w_remotes w !! p = Some r -> r_state r = st.
Lemma remote_in_same p st w w' :
  remote_in p st w -> s_remotes (sessions_of w') = s_remotes (sessions_of w) -> remote_in p st w'.
Proof.
  intros H E c Hc%remote_at. rewrite E in Hc. cbn in Hc. rewrite lookup_fmap in Hc.
  destruct (w_remotes w !! p) as [c'|] eqn:Hc'; [|done].
  injection Hc as _ <-. by apply H.
Qed.
Lemma wlp_remote_moves p f st w :
  remote_in p st w -> (forall r, r_fd (f r) = r_fd r /\ remote_step st (r_state (f r))) ->
  wlp (write_remote p f) (fun _ => evolves w) w.
Proof.
  intros Hin Hf. apply wlp_write_remote. intros r Hr. destruct (Hf r) as [E Hs].
  apply evolves_put_remote with (r := r); [done..|]. by rewrite (Hin r Hr).
Qed.
Lemma wlp_remote_calm {A B} (m : M A) (k : A -> M B) p st w :
  remote_in p st w -> preserves clients_evolve m ->
  (forall a w', remote_in p st w' -> wlp (k a) (fun _ => evolves w') w') ->
  wlp (m ≫= k) (fun _ => evolves w) w.
Proof.
  intros Hin Hm Hk. apply wlp_bind. wlp_use (apply Hm). intros a w' [H1 H2].
  wlp_use (eapply Hk, remote_in_same; [exact Hin|exact H2]). intros _ w'' H. by etrans.
Qed.
Lemma wlp_then {A B} (m : M A) (k : A -> M B) w :
  wlp m (fun _ => evolves w) w -> (forall a, preserves evolves (k a)) ->
  wlp (m ≫= k) (fun _ => evolves w) w.
Proof.
  intros H Hk. apply wlp_bind. wlp_use (exact H). intros a w' H'. apply (wlp_preserves evolves); [apply Hk|done].
Qed.
Hint Resolve preserves_client_notify_connect : preserves.
Ltac rcalm Hin := eapply wlp_remote_calm; [exact Hin|solve [preserve]|clear Hin; intros ? ? Hin].
Ltac other := apply (wlp_preserves evolves); [solve [preserve]|reflexivity].
Ltac remote_to Hin :=
  eapply wlp_remote_moves; [exact Hin|intros ?; split; [reflexivity|cbn; constructor]].

Lemma preserves_remote_handle_command_result p : preserves evolves (remote_handle_command_result p).
Proof.
  intros w. apply wlp_bind, wlp_read_remote. intros r Hr.
  assert (remote_in p (r_state r) w) as Hin by (intros r' Hr'; by simplify_eq).
  rcalm Hin. cbv zeta. case_match; [other|]. rcalm Hin. apply wlp_then; [|intros ?; preserve].
  unfold by_state. destruct (r_state r); try other.
  - apply wlp_then; [|intros ?; preserve]. case_match; [|other]. rcalm Hin. apply wlp_when; [|done].
    intros _. remote_to Hin.
  - do 3 rcalm Hin. apply wlp_when; [|done]. intros _. remote_to Hin.
Qed.
Hint Resolve preserves_remote_handle_command_result : preserves.

Lemma preserves_usbmux_remote_close p : preserves evolves (usbmux_remote_close p).
Proof. preserve. Qed.
Lemma preserves_remote_process_recv p : preserves evolves (remote_process_recv p).
Proof. preserve. Qed.
Hint Resolve preserves_usbmux_remote_close preserves_remote_process_recv : preserves.

Lemma preserves_remote_process_send p : preserves evolves (remote_process_send p).
Proof.
  intros w. apply wlp_bind, wlp_read_remote. intros r Hr. case_match; [other|].
  assert (remote_in p (r_state r) w) as Hin by (intros r' Hr'; by simplify_eq).
  do 2 rcalm Hin. case_match; [other|]. do 2 rcalm Hin. case_match; [|other]. rcalm Hin.
  apply wlp_when; [|done]. intros Hs%bool_decide_eq_true. rewrite Hs in Hin. remote_to Hin.
Qed.
Hint Resolve preserves_remote_process_send : preserves.

Lemma preserves_process_remote events p : preserves evolves (process_remote events p).
Proof.
  intros w. apply wlp_bind, wlp_read_remote. intros r Hr. case_bool_decide; [other|].
  destruct (has events POLLIN); [|other]. case_bool_decide as Hs; [|other].
  eapply wlp_remote_moves with (st := REMOTE_CONNECTING2).
  - intros r' Hr'. by simplify_eq.
  - intros ?; split; [done|constructor].
Qed.
Hint Resolve preserves_process_remote : preserves.
Lemma preserves_usbmux_remote_process fd events : preserves evolves (usbmux_remote_process fd events).
Proof. preserve. Qed.
Hint Resolve preserves_usbmux_remote_process : preserves.

(** ** The daemon *)

Lemma preserves_client_accept fd : preserves evolves (client_accept fd).
Proof.
  unfold client_accept. cbv zeta. destruct (Z.ltb_spec (sys_accept fd) 0); [preserve|].
  apply preserves_bind; [apply _| |intros ?; preserve].
  intros w. apply wlp_bind, wlp_get, wlp_bind, wlp_modify, wlp_ret.
  unfold evolves, sessions_of. cbn. rewrite fmap_insert. apply advances_accept.
  split; [done|by right; exists fd].
Qed.
Hint Resolve preserves_client_accept : preserves.

Lemma preserves_run i : preserves evolves (run EN i).
Proof. preserve. Qed.
End instances.
#[export] Hint Resolve preserves_client_notify_connect preserves_remote_handle_command_result
  preserves_usbmux_remote_close preserves_remote_process_recv preserves_remote_process_send
  preserves_usbmux_remote_process preserves_client_accept preserves_run : preserves.
