(* ===== verification/ProtocolTheorems.v ===== *)
(** What the protocol of Protocol.v means for the daemon: every run is a run of the
    abstract machine, nothing is forgotten before its descriptor is closed, and
    every connection goes through the phases of its automaton. *)

From S2P Require Import Prelude Exec Mem Utils Proto CStr RemoteId Plist World WorldFacts Socket.
From S2P Require Import Client Remote Teardown Command RemoteProcess Discovery Invariant Daemon.
From S2P Require Import Demo Wlp Protocol ProtocolFacts.

(** ** Phases of one connection *)

(** Between two states: the same descriptor, and a path in the automaton; a
    connection that is new sits at a new address and comes from the start. *)
Definition follows {S} (step : S -> S -> Prop) (start : S) (n : positive) (m m' : pool S) : Prop :=
  forall p, match m !! p, m' !! p with
            | Some (fd, x), Some (fd', y) => fd' = fd /\ rtc step x y
            | None, Some (_, y) => (n <= p)%positive /\ rtc step start y
            | _, None => True
            end.

Section follows.
Context {S : Type} (step : S -> S -> Prop) (start : S).
Implicit Types m : pool S.

Lemma follows_refl n m : follows step start n m m.
Proof. intros p. by destruct (m !! p) as [[]|]. Qed.
Lemma follows_trans n1 n2 m1 m2 m3 :
  (n1 <= n2)%positive -> (forall p, (n1 <= p)%positive -> m1 !! p = None) ->
  follows step start n1 m1 m2 -> follows step start n2 m2 m3 -> follows step start n1 m1 m3.
Proof.
  intros Hn Hu A B p. specialize (A p). specialize (B p). specialize (Hu p).
  destruct (m1 !! p) as [[f1 x1]|], (m2 !! p) as [[f2 x2]|], (m3 !! p) as [[f3 x3]|]; try done.
  - destruct A as [-> A], B as [-> B]. split; [done|by etrans].
  - destruct B as [B _]. discriminate Hu. lia.
  - destruct A as [A A'], B as [_ B]. split; [done|by etrans].
  - destruct B. split; [lia|done].
Qed.
Lemma follows_step n cl m m' : pool_step step cl m m' -> follows step start n m m'.
Proof.
  destruct 1 as [m q fd x y Hq Hs|m q fd x Hq _]; intros p.
  - destruct (decide (q = p)) as [<-|].
    + rewrite Hq, lookup_insert_eq. split; [done|by apply rtc_once].
    + rewrite lookup_insert_ne by done. apply follows_refl.
  - destruct (decide (q = p)) as [<-|].
    + by rewrite Hq, lookup_delete_eq.
    + rewrite lookup_delete_ne by done. apply follows_refl.
Qed.
Lemma follows_born n m fd :
  (forall p, (n <= p)%positive -> m !! p = None) -> follows step start n m (<[n := (fd, start)]> m).
Proof.
  intros Hu p. destruct (decide (n = p)) as [<-|].
  - rewrite lookup_insert_eq, Hu by lia. split; [lia|done].
  - rewrite lookup_insert_ne by done. apply follows_refl.
Qed.
End follows.

Lemma steps_follow opens s s' :
  rtc (session_step opens) s s' -> unborn s ->
  follows client_step CLIENT_COMMAND (s_next s) (s_clients s) (s_clients s') /\
  follows remote_step REMOTE_COMMAND (s_next s) (s_remotes s) (s_remotes s').
Proof.
  induction 1 as [s|s1 s2 s3 H1 _ IH]; intros Hu; [split; apply follows_refl|].
  pose proof (steps_next _ _ _ (rtc_once _ _ H1)) as Hn.
  destruct (IH (session_step_unborn _ _ _ H1 Hu)) as [IHc IHr]. destruct Hu as [Hc Hr].
  split; (eapply follows_trans; [exact Hn|done| |by first [exact IHc|exact IHr]]);
    destruct H1; cbn in *; first [by apply follows_born|by eapply follows_step|apply follows_refl].
Qed.

(** A phase without a way out, and one that is never entered. *)
Lemma client_final x y : x = CLIENT_LISTEN \/ x = CLIENT_CONNECTED -> rtc client_step x y -> y = x.
Proof. intros Hx H. destruct H as [|? ? ? Hs]; [done|]. destruct Hx as [-> | ->]; inversion Hs. Qed.
Lemma remote_skips x y : x <> REMOTE_CONNECTING2 -> rtc remote_step x y -> y <> REMOTE_CONNECTING2.
Proof. intros Hx H. revert Hx. induction H as [|? ? ? Hs _ IH]; [done|]. intros. apply IH. by inversion Hs. Qed.

(** ** The daemon *)

Section daemon.
Context `{PL : PlistLib}.

(** Inputs in several environments may open any descriptor. *)
Definition any_fd (fd : Z) : Prop := True.
Definition evolves_any (w w' : world) : Prop := advances any_fd (sessions_of w) (sessions_of w').
#[export] Instance evolves_any_coarse : Coarse evolves_any.
Proof.
  split; [split; [intros w|intros w1 w2 w3]; unfold evolves_any; [done|by intros ->]|].
  unfold evolves_any. by intros w w' ->.
Qed.
Lemma preserves_any `{EN : Env} {A} (m : M A) : preserves evolves m -> preserves evolves_any m.
Proof. apply preserves_weaken. intros w w'. by apply advances_weaken. Qed.

Lemma preserves_script l : preserves evolves_any (script l).
Proof.
  induction l as [|[E i] l IH]; cbn [script]; [preserve|].
  apply preserves_bind; [apply _|apply preserves_any; preserve|done].
Qed.

Lemma wf_unborn L w : wf L w -> unborn (sessions_of w).
Proof.
  intros Hw. split; cbn; intros p Hp; rewrite lookup_fmap; destruct (wf_fresh _ _ Hw p Hp) as [H1 H2];
    by rewrite ?H1, ?H2.
Qed.

(** What [script] does, seen by the machine. *)
Lemma script_advances l w w' :
  unborn (sessions_of w) -> script l w = Done tt w' -> advanced any_fd (sessions_of w) (sessions_of w').
Proof. intros Hu H. by apply (wlp_done _ _ _ _ _ (preserves_script l w) H). Qed.

Lemma preserves_dispatch fd l revents envs i : preserves evolves_any (dispatch fd l revents envs i).
Proof.
  revert revents i. induction l as [|[[o|] [p|]] l IH]; intros [|ev revents] i; cbn [dispatch];
    try apply preserves_crash; try (by apply preserves_ret; apply _).
  apply preserves_bind; [apply _|apply (preserves_any (EN := envs i)); preserve|].
  intros res. case_match; [preserve|apply IH].
Qed.
Hint Resolve preserves_dispatch : preserves.
Lemma preserves_gather E fd l : preserves evolves_any (gather E fd l).
Proof. apply (preserves_any (EN := E)). preserve. Qed.
Hint Resolve preserves_gather : preserves.
Lemma preserves_main_loop fd polls b fds : preserves evolves_any (main_loop fd polls b fds).
Proof. revert b fds. induction polls as [|p polls IH]; intros b fds; cbn [main_loop]; preserve. Qed.
Hint Resolve preserves_main_loop : preserves.
Lemma preserves_prepare E b host port : preserves evolves_any (prepare E b host port).
Proof. apply (preserves_any (EN := E)). preserve. Qed.
Lemma preserves_shutdown E : preserves evolves_any (shutdown E).
Proof. apply (preserves_any (EN := E)). preserve. Qed.
Hint Resolve preserves_prepare preserves_shutdown : preserves.
Lemma preserves_serve E0 E1 fd b host port polls :
  preserves evolves_any (serve E0 E1 fd b host port polls).
Proof. preserve. Qed.

Lemma session_client s p w :
  s = sessions_of w -> s_clients s !! p = client_session <$> w_clients w !! p.
Proof. intros ->. apply lookup_fmap. Qed.
Lemma session_remote s p w :
  s = sessions_of w -> s_remotes s !! p = remote_session <$> w_remotes w !! p.
Proof. intros ->. apply lookup_fmap. Qed.


(** C10. In whatever order events and discovery callbacks come, a client that listens
    or is connected stays so, on its descriptor, until that descriptor is closed;
    one that appears is new and has come from the COMMAND state along the automaton;
    and no connection to an instance ever reaches the state REMOTE_CONNECTING2. *)
Theorem connections_never_regress l w w' :
  unborn (sessions_of w) -> script l w = Done tt w' ->
  (forall p c, w_clients w !! p = Some c ->
     c_state c = CLIENT_LISTEN \/ c_state c = CLIENT_CONNECTED ->
     match w_clients w' !! p with
     | Some c' => c_fd c' = c_fd c /\ c_state c' = c_state c
     | None => closed_since (c_fd c) (sessions_of w) (sessions_of w')
     end) /\
  (forall p c', w_clients w !! p = None -> w_clients w' !! p = Some c' ->
     (w_next w <= p)%positive /\ rtc client_step CLIENT_COMMAND (c_state c')) /\
  ((forall p r, w_remotes w !! p = Some r -> r_state r <> REMOTE_CONNECTING2) ->
   forall p r, w_remotes w' !! p = Some r -> r_state r <> REMOTE_CONNECTING2).
Proof.
  intros Hu H. destruct (script_advances _ _ _ Hu H) as [A (now & En & [K _] & _)].
  destruct (steps_follow _ _ _ A Hu) as [Fc Fr]. split_and!.
  - intros p c Hc Hs. specialize (Fc p). specialize (K p (c_fd c) (c_state c) (client_at _ _ _ Hc)).
    rewrite !(session_client _ p _ eq_refl), Hc in Fc. rewrite (session_client _ p w' eq_refl) in K.
    destruct (w_clients w' !! p) as [c'|]; cbn in Fc.
    + destruct Fc as [E F]. split; [done|]. by eapply client_final.
    + exists now. split; [done|]. by destruct K as [[? ?]|[_ ?]].
  - intros p c' Hc Hc'. specialize (Fc p). rewrite !(session_client _ p _ eq_refl), Hc, Hc' in Fc.
    exact Fc.
  - intros Hno p r Hr. specialize (Fr p). rewrite !(session_remote _ p _ eq_refl), Hr in Fr.
    destruct (w_remotes w !! p) as [r0|] eqn:Hr0; cbn in Fr; destruct Fr as [_ F].
    + eapply remote_skips; [|exact F]. by eapply Hno.
    + by eapply remote_skips; [|exact F].
Qed.
End daemon.

(** *** At concrete states *)

Lemma demo_unborn : unborn (sessions_of demo_world).
Proof. exact (wf_unborn _ _ wf_demo). Qed.

(** The daemon with one round of the loop in which a client connects; then it is
    told to stop. *)
Definition one_client : list poll_result := [
  {| p_cnt := 1; p_eintr := false; p_signals := []; p_revents := [POLLIN; 0]; p_env := quiet;
     p_envs := fun _ => quiet |};
  {| p_cnt := -1; p_eintr := true; p_signals := [SIGTERM]; p_revents := []; p_env := quiet;
     p_envs := fun _ => quiet |} ].


(** A client is accepted, and the connected one is polled for output. *)
Definition two_events : list (Env * input) :=
  [(quiet, InAccept 3); (quiet, InClient 13 POLLOUT)].

Lemma connections_never_regress_witness :
  match script two_events demo_world with
  | Done _ w' => match w_clients w' !! 3%positive with
                 | Some c' => c_fd c' = 13 /\ c_state c' = CLIENT_CONNECTED
                 | None => closed_since 13 (sessions_of demo_world) (sessions_of w')
                 end
  | Crash _ => False
  end.
Proof.
  assert (fault_of (script two_events demo_world) = None) as Hf by (vm_compute; reflexivity).
  destruct (script two_events demo_world) as [[] w'|f] eqn:E; [|discriminate Hf].
  destruct (connections_never_regress two_events demo_world w' demo_unborn E) as [H _].
  exact (H 3%positive connected_client eq_refl (or_intror eq_refl)).
Defined.
