(* ===== verification/Descriptors.v ===== *)
(** Descriptors. The handlers find the object of an event by its descriptor, so no
    two live objects may have the same one. An input opens at most one connection,
    and so, as the kernel gives only descriptors that are not in use, they stay
    distinct. *)

From S2P Require Import Prelude Exec Mem Utils Proto CStr RemoteId Plist World WorldFacts Socket.
From S2P Require Import Client Remote Teardown Command RemoteProcess Discovery Invariant Daemon.
From S2P Require Import Demo Wlp Protocol ProtocolFacts ProtocolTheorems.

(** ** In the abstract machine *)

Record distinct (s : sessions) : Prop := {
  distinct_c p q fd x y :
    s_clients s !! p = Some (fd, x) -> s_clients s !! q = Some (fd, y) -> p = q;
  distinct_r p q fd x y :
    s_remotes s !! p = Some (fd, x) -> s_remotes s !! q = Some (fd, y) -> p = q;
  distinct_cr p q fd x y :
    s_clients s !! p = Some (fd, x) -> s_remotes s !! q = Some (fd, y) -> False }.

(** No live connection has the descriptor. *)
Definition unused (fd : Z) (s : sessions) : Prop :=
  (forall p x, s_clients s !! p <> Some (fd, x)) /\ (forall p x, s_remotes s !! p <> Some (fd, x)).

Section machine.
Context (opens : Z -> Prop).
Implicit Types s : sessions.

(** A connection that is new has one of the descriptors allowed. *)
Lemma born_open s s' :
  rtc (session_step opens) s s' -> unborn s ->
  (forall p fd y, s_clients s !! p = None -> s_clients s' !! p = Some (fd, y) -> opens fd) /\
  (forall p fd y, s_remotes s !! p = None -> s_remotes s' !! p = Some (fd, y) -> opens fd).
Proof.
  induction 1 as [s|s1 s2 s3 H1 H2 IH]; intros Hu; [split; intros; congruence|].
  pose proof (session_step_unborn _ _ _ H1 Hu) as Hu2.
  destruct (steps_follow _ _ _ H2 Hu2) as [Fc Fr]. destruct (IH Hu2) as [IHc IHr].
  split; intros p fd y Hp Hp'; specialize (Fc p); specialize (Fr p);
    destruct H1 as [n cs rs cl f Hf|n cs rs cl f Hf|n cs cs' rs cl Hs|n cs rs rs' cl Hs|];
    cbn in *; try (by eapply IHc); try (by eapply IHr);
    try (by eapply IHc; [eapply pool_step_kept|]); try (by eapply IHr; [eapply pool_step_kept|]).
  - destruct (decide (n = p)) as [<-|Hn].
    + rewrite lookup_insert_eq, Hp' in Fc. destruct Fc as [-> _]. done.
    + eapply IHc; [|done]. by rewrite lookup_insert_ne.
  - destruct (decide (n = p)) as [<-|Hn].
    + rewrite lookup_insert_eq, Hp' in Fr. destruct Fr as [-> _]. done.
    + eapply IHr; [|done]. by rewrite lookup_insert_ne.
Qed.

(** A new address is that of a client or of a remote, not of both. *)
Lemma born_once s s' :
  rtc (session_step opens) s s' -> unborn s ->
  forall p, (s_next s <= p)%positive -> s_clients s' !! p = None \/ s_remotes s' !! p = None.
Proof.
  intros H Hu. revert s' H.
  refine (rtc_ind_r (fun s' => forall p, (s_next s <= p)%positive ->
    s_clients s' !! p = None \/ s_remotes s' !! p = None) s _ _); [|intros s1 s2 H1 H2 IH].
  - intros p Hp. left. by apply Hu.
  - pose proof (steps_unborn _ _ _ H1 Hu) as [Uc Ur]. intros p Hp. specialize (IH p Hp).
    destruct H2 as [n cs rs cl f Hf|n cs rs cl f Hf|n cs cs' rs cl Hs|n cs rs rs' cl Hs|];
      cbn in *; try done.
    + destruct (decide (n = p)) as [<-|]; [right; apply Ur; lia|by rewrite lookup_insert_ne].
    + destruct (decide (n = p)) as [<-|]; [left; apply Uc; lia|by rewrite lookup_insert_ne].
    + destruct IH; [left; by eapply pool_step_kept|by right].
    + destruct IH; [by left|right; by eapply pool_step_kept].
Qed.

(** A live connection was there before, or is the one at the next address. *)
Lemma old_or_new {S} (step : S -> S -> Prop) start n (m m' : pool S) p fd y :
  follows step start n m m' -> (forall q, (Pos.succ n <= q)%positive -> m' !! q = None) ->
  m' !! p = Some (fd, y) -> (exists x, m !! p = Some (fd, x)) \/ m !! p = None /\ p = n.
Proof.
  intros F Hu Hp. specialize (F p). rewrite Hp in F. destruct (m !! p) as [[fd0 x]|] eqn:E.
  - destruct F as [-> _]. left. by exists x.
  - right. split; [done|]. destruct F as [Hle _]. destruct (decide (p = n)) as [|Hne]; [done|].
    rewrite Hu in Hp; [done|lia].
Qed.

Lemma one_birth_distinct s s' :
  rtc (session_step opens) s s' -> unborn s -> (s_next s' <= Pos.succ (s_next s))%positive ->
  (forall fd, opens fd -> unused fd s) -> distinct s -> distinct s'.
Proof.
  intros H Hu Hn Hfree [Dc Dr Dcr]. destruct (steps_follow _ _ _ H Hu) as [Fc Fr].
  destruct (born_open _ _ H Hu) as [Oc Or]. pose proof (born_once _ _ H Hu) as Hone.
  destruct (steps_unborn _ _ _ H Hu) as [Uc Ur].
  assert (forall p fd y, s_clients s' !! p = Some (fd, y) ->
    (exists x, s_clients s !! p = Some (fd, x)) \/ unused fd s /\ p = s_next s) as Hc.
  { intros p fd y Hp. destruct (old_or_new _ _ _ _ _ p fd y Fc) as [|[E ->]]; try done; [..|by left|].
    - intros q Hq. apply Uc. lia.
    - right. split; [|done]. eapply Hfree, Oc; done. }
  assert (forall p fd y, s_remotes s' !! p = Some (fd, y) ->
    (exists x, s_remotes s !! p = Some (fd, x)) \/ unused fd s /\ p = s_next s) as Hr.
  { intros p fd y Hp. destruct (old_or_new _ _ _ _ _ p fd y Fr) as [|[E ->]]; try done; [..|by left|].
    - intros q Hq. apply Ur. lia.
    - right. split; [|done]. eapply Hfree, Or; done. }
  split; intros p q fd x y Hp Hq.
  - destruct (Hc _ _ _ Hp) as [[x' Hx]|[[U _] ->]], (Hc _ _ _ Hq) as [[y' Hy]|[[U' _] ->]];
      [by eapply Dc|by destruct (U' p x')|by destruct (U q y')|done].
  - destruct (Hr _ _ _ Hp) as [[x' Hx]|[[_ U] ->]], (Hr _ _ _ Hq) as [[y' Hy]|[[_ U'] ->]];
      [by eapply Dr|by destruct (U' p x')|by destruct (U q y')|done].
  - destruct (Hc _ _ _ Hp) as [[x' Hx]|[[U V] ->]], (Hr _ _ _ Hq) as [[y' Hy]|[[U' V'] ->]].
    + by eapply Dcr.
    + by destruct (U' p x').
    + by destruct (V q y').
    + destruct (Hone (s_next s)); [lia|congruence..].
Qed.
End machine.

(** ** One input opens at most one connection *)

Section births.
Context `{PL : PlistLib}.

(** Nothing is allocated. *)
Definition no_birth (w w' : world) : Prop := w_next w' = w_next w.
#[export] Instance no_birth_coarse : Coarse no_birth.
Proof.
  split; [split; [by intros w|unfold no_birth; intros w1 w2 w3; congruence]|].
  intros w w' E. by apply (f_equal s_next) in E.
Qed.

Definition one_birth {A} (m : M A) : Prop :=
  forall w, wlp m (fun _ w' => (w_next w' <= Pos.succ (w_next w))%positive) w.

Lemma preserves_no_birth_modify f : (forall w, w_next (f w) = w_next w) -> preserves no_birth (modify f).
Proof. intros H. by apply preserves_modify. Qed.
Lemma preserves_no_birth_client p f : preserves no_birth (write_client p f).
Proof. intros w. by apply wlp_write_client. Qed.
Lemma preserves_no_birth_remote p f : preserves no_birth (write_remote p f).
Proof. intros w. by apply wlp_write_remote. Qed.

Lemma births_none {A} (m : M A) : preserves no_birth m -> one_birth m.
Proof. intros H w. wlp_use (apply H). unfold no_birth. intros _ w' ->. lia. Qed.
Lemma births_after {A B} (m : M A) (k : A -> M B) :
  preserves no_birth m -> (forall a, one_birth (k a)) -> one_birth (m ≫= k).
Proof.
  intros Hm Hk w. apply wlp_bind. wlp_use (apply Hm). unfold no_birth. intros a w' E.
  wlp_use (apply Hk). intros _ w''. by rewrite E.
Qed.
Lemma births_before {A B} (m : M A) (k : A -> M B) :
  one_birth m -> (forall a, preserves no_birth (k a)) -> one_birth (m ≫= k).
Proof.
  intros Hm Hk w. apply wlp_bind. wlp_use (apply Hm). intros a w' E.
  wlp_use (apply Hk). unfold no_birth. by intros _ w'' ->.
Qed.
Lemma births_alloc_client c : one_birth (alloc_client c).
Proof. intros w. apply wlp_bind, wlp_get, wlp_bind, wlp_modify, wlp_ret. cbn. lia. Qed.
Lemma births_alloc_remote r : one_birth (alloc_remote r).
Proof. intros w. apply wlp_bind, wlp_get, wlp_bind, wlp_modify, wlp_ret. cbn. lia. Qed.
End births.

Create HintDb births.
#[export] Hint Extern 0 (preserves no_birth (modify _)) =>
  (apply preserves_no_birth_modify; done) : preserves.
#[export] Hint Resolve preserves_no_birth_client preserves_no_birth_remote | 0 : preserves.
#[export] Hint Resolve births_alloc_client births_alloc_remote : births.

(** Find the part of a composition that may allocate. *)
Ltac birth_leaf :=
  lazymatch goal with
  | |- one_birth (match ?x with _ => _ end) => destruct x; birth_leaf
  | |- _ => auto with births nocore
  end.
Ltac birth :=
  first
    [ solve [auto with births nocore]
    | lazymatch goal with
      | |- one_birth (let x := _ in _) => cbv zeta; birth
      | |- one_birth (mret _) => solve [apply births_none; preserve]
      | |- one_birth (?m ≫= _) =>
          first [ apply births_before; [solve [birth_leaf]|intros ?; solve [preserve]]
                | apply births_after; [solve [preserve]|intros ?; birth]
                | apply births_before; [birth|intros ?; solve [preserve]] ]
      | |- one_birth (match ?x with _ => _ end) => destruct x; birth
      | |- one_birth ?m => first [ solve [apply births_none; preserve]
                                 | let h := head_of m in unfold h; birth ]
      end ].

Section operations.
Context `{PL : PlistLib} `{EN : Env}.

Lemma births_new_with_fd fd : one_birth (remote_mux_new_with_fd fd).
Proof. birth. Qed.
Hint Resolve births_new_with_fd : births.
Lemma births_new_with_unix_socket path : one_birth (remote_mux_new_with_unix_socket path).
Proof. birth. Qed.
Lemma births_new_with_host host port : one_birth (remote_mux_new_with_host host port).
Proof. birth. Qed.
Hint Resolve births_new_with_unix_socket births_new_with_host : births.

Lemma births_connect_like id : one_birth (connect_like id).
Proof.
  intros w. apply wlp_bind. apply (wlp_foreach_break _ _ (no_birth w)).
  - unfold no_birth. intros w' p E. apply wlp_bind, wlp_read_remote. intros r _. case_match; [|done].
    apply wlp_bind. wlp_use (apply births_new_with_host). intros o w''. rewrite E. intros Hle.
    by apply wlp_ret, wlp_ret.
  - unfold no_birth. intros w' E. apply wlp_ret. rewrite E. lia.
  - done.
Qed.
Hint Resolve births_connect_like : births.
Lemma births_connect_for_record id : one_birth (connect_for_record id).
Proof. birth. Qed.
Hint Resolve births_connect_for_record : births.

Lemma births_usbmux_remote_connect id req c : one_birth (usbmux_remote_connect id req c).
Proof. birth. Qed.
Lemma births_read_buid tag c : one_birth (usbmux_remote_read_buid tag c).
Proof. birth. Qed.
Lemma births_read_pair_record id tag c : one_birth (usbmux_remote_read_pair_record id tag c).
Proof. birth. Qed.
Lemma births_save_pair_record id req tag c : one_birth (usbmux_remote_save_pair_record id req tag c).
Proof. birth. Qed.
Lemma births_delete_pair_record id tag c : one_birth (usbmux_remote_delete_pair_record id tag c).
Proof. birth. Qed.
Hint Resolve births_usbmux_remote_connect births_read_buid births_read_pair_record
  births_save_pair_record births_delete_pair_record : births.

(** Without an instance of the name, one connection is opened. *)
Lemma births_service_add s h port : one_birth (remote_mux_service_add s h port).
Proof. birth. Qed.
Hint Resolve births_service_add : births.

Lemma no_birth_client_close c : preserves no_birth (client_close c).
Proof. preserve. Qed.
Hint Resolve no_birth_client_close : preserves.
Lemma no_birth_usmbux_remote_dispose r : preserves no_birth (usbmux_remote_dispose r).
Proof. preserve. Qed.
Hint Resolve no_birth_usmbux_remote_dispose : preserves.
Lemma no_birth_remote_mark_dead r : preserves no_birth (remote_mark_dead r).
Proof. preserve. Qed.
Hint Resolve no_birth_remote_mark_dead : preserves.
Lemma no_birth_start_listen c : preserves no_birth (start_listen c).
Proof. preserve. Qed.
Lemma no_birth_connect_outcome c tag id res : preserves no_birth (connect_outcome c tag id res).
Proof. preserve. Qed.
Hint Resolve no_birth_start_listen no_birth_connect_outcome : preserves.

Lemma births_cmd_connect c tag dict : one_birth (cmd_connect c tag dict).
Proof. birth. Qed.
Lemma births_add_remote host port : one_birth (usbmux_remote_add_remote host port).
Proof. birth. Qed.
Hint Resolve births_add_remote : births.
Lemma births_cmd_add_instance c tag dict : one_birth (cmd_add_instance c tag dict).
Proof. birth. Qed.
Hint Resolve births_cmd_connect births_cmd_add_instance : births.
Lemma births_plist_command c tag dict msg : one_birth (plist_command c tag dict msg).
Proof. birth. Qed.
Hint Resolve births_plist_command : births.
Lemma births_client_command c : one_birth (client_command c).
Proof. birth. Qed.
Hint Resolve births_client_command : births.
Lemma births_process_recv c : one_birth (process_recv c).
Proof. birth. Qed.
Hint Resolve births_process_recv : births.
Lemma births_client_accept fd : one_birth (client_accept fd).
Proof. birth. Qed.
Hint Resolve births_client_accept : births.
Lemma births_client_process fd events : one_birth (client_process fd events).
Proof. birth. Qed.
Lemma births_usbmux_remote_process fd events : one_birth (usbmux_remote_process fd events).
Proof. birth. Qed.
Lemma births_run_callback cb : one_birth (run_callback cb).
Proof. birth. Qed.
Hint Resolve births_client_process births_usbmux_remote_process births_run_callback : births.
Lemma births_run i : one_birth (run EN i).
Proof. birth. Qed.
End operations.

(** ** The daemon *)

Section theorems.
Context `{PL : PlistLib}.

(** The kernel gives a handler a descriptor only when no live connection has it. *)
Definition kernel_ok (EN : Env) (w : world) : Prop :=
  forall fd, new_fd EN fd -> unused fd (sessions_of w).
Fixpoint kernels_ok (l : list (Env * input)) (w : world) : Prop :=
  match l with
  | [] => True
  | (E, i) :: l' => kernel_ok E w /\ forall w1, run E i w = Done tt w1 -> kernels_ok l' w1
  end.

Lemma run_distinct EN i w w' :
  unborn (sessions_of w) -> kernel_ok EN w -> distinct (sessions_of w) -> run EN i w = Done tt w' ->
  unborn (sessions_of w') /\ distinct (sessions_of w').
Proof.
  intros Hu Hk Hd H. pose proof (wlp_done _ _ _ _ _ (preserves_run i w) H Hu) as [A _].
  split; [by eapply steps_unborn|].
  eapply one_birth_distinct; [exact A|done| |exact Hk|done].
  exact (wlp_done _ _ _ _ _ (births_run i w) H).
Qed.

(** C7. Whatever happens, and in whatever order, the descriptors of the live
    clients and connections to instances stay distinct, provided that the kernel
    gives only descriptors that none of them has: an input opens at most one
    connection, on a descriptor of [accept] or [socket], and no connection changes
    its descriptor. So an event always reaches the object it is for. *)
Theorem descriptors_stay_distinct l w w' :
  unborn (sessions_of w) -> distinct (sessions_of w) -> kernels_ok l w ->
  script l w = Done tt w' -> distinct (sessions_of w').
Proof.
  revert w. induction l as [|[E i] l IH]; intros w Hu Hd Hk H.
  - by injection H as <-.
  - destruct Hk as [Hk Hl]. cbn [script] in H. unfold mbind, prog_bind in H.
    destruct (run E i w) as [[] w1|f] eqn:Er; [|done].
    destruct (run_distinct E i w w1 Hu Hk Hd Er). by eapply IH; [..|apply Hl|].
Qed.
End theorems.

(** *** At a concrete state *)

Lemma demo_distinct : distinct (sessions_of demo_world).
Proof.
  assert (map_Forall (fun p x => map_Forall (fun q y => x.1 = y.1 -> p = q)
    (s_clients (sessions_of demo_world))) (s_clients (sessions_of demo_world))) as Hc
    by (apply (bool_decide_unpack _); by vm_compute).
  assert (map_Forall (fun p x => map_Forall (fun q y => x.1 = y.1 -> p = q)
    (s_remotes (sessions_of demo_world))) (s_remotes (sessions_of demo_world))) as Hr
    by (apply (bool_decide_unpack _); by vm_compute).
  assert (map_Forall (fun p x => map_Forall (fun q y => x.1 <> y.1)
    (s_remotes (sessions_of demo_world))) (s_clients (sessions_of demo_world))) as Hcr
    by (apply (bool_decide_unpack _); by vm_compute).
  split.
  - intros p q fd x y Hp Hq. exact (Hc p _ Hp q _ Hq eq_refl).
  - intros p q fd x y Hp Hq. exact (Hr p _ Hp q _ Hq eq_refl).
  - intros p q fd x y Hp Hq. exact (Hcr p _ Hp q _ Hq eq_refl).
Qed.

(** The next socket is 7 and the next client 9. *)
Lemma demo_kernel : kernel_ok quiet demo_world.
Proof.
  assert (map_Forall (fun _ x => x.1 <> 7 /\ x.1 <> 9) (s_clients (sessions_of demo_world))) as Hc
    by (apply (bool_decide_unpack _); by vm_compute).
  assert (map_Forall (fun _ x => x.1 <> 7 /\ x.1 <> 9) (s_remotes (sessions_of demo_world))) as Hr
    by (apply (bool_decide_unpack _); by vm_compute).
  intros fd [_ Hfd]. split; intros p x Hp; [apply Hc in Hp|apply Hr in Hp];
    destruct Hp as [H7 H9], Hfd as [-> |[l ->]]; by first [destruct (H7 eq_refl)|destruct (H9 eq_refl)].
Qed.

Definition one_event : list (Env * input) := [(quiet, InAccept 3)].
Lemma descriptors_stay_distinct_witness :
  match script one_event demo_world with
  | Done _ w' => distinct (sessions_of w')
  | Crash _ => False
  end.
Proof.
  assert (fault_of (script one_event demo_world) = None) as Hf by (vm_compute; reflexivity).
  destruct (script one_event demo_world) as [[] w'|f] eqn:E; [|discriminate Hf].
  exact (descriptors_stay_distinct one_event demo_world w' demo_unborn demo_distinct
    (conj demo_kernel (fun _ _ => I)) E).
Defined.
