(* ===== verification/Closing.v ===== *)
(** Closing. A descriptor is closed by the handler that forgets the connection it
    belongs to, and by no other: what is still there after a handler has not had its
    descriptor closed. Between [close] and [free] a handler owes the [free] of the
    descriptors it has closed; [owing] follows this debt through the operations. *)

From S2P Require Import Prelude Exec Mem Utils Proto CStr RemoteId Plist World WorldFacts Socket.
From S2P Require Import Client Remote Teardown Command RemoteProcess Discovery Invariant Daemon.
From S2P Require Import Demo Wlp Protocol ProtocolFacts ProtocolTheorems Descriptors.

(** ** In the abstract machine *)

(** A connection has the descriptor. *)
Definition in_use (fd : Z) (s : sessions) : Prop :=
  (exists p x, s_clients s !! p = Some (fd, x)) \/ (exists p x, s_remotes s !! p = Some (fd, x)).

Lemma unused_in_use fd s : unused fd s -> ~ in_use fd s.
Proof. intros [Hc Hr] [(p & x & H)|(p & x & H)]; [by eapply Hc|by eapply Hr]. Qed.

Section machine.
(** The state at the start of the handler. *)
Context (s0 : sessions) (Hdistinct : distinct s0).
Implicit Types s : sessions.

(** A connection is one from the start, with its descriptor, or has a descriptor
    that no connection had at the start. *)
Record placed (s : sessions) : Prop := {
  placed_c p fd y : s_clients s !! p = Some (fd, y) ->
    (exists x, s_clients s0 !! p = Some (fd, x)) \/ unused fd s0;
  placed_r p fd y : s_remotes s !! p = Some (fd, y) ->
    (exists x, s_remotes s0 !! p = Some (fd, x)) \/ unused fd s0 }.

(** Of the descriptors in use since the start, those that have been closed are
    among [debt]. *)
Record owing (debt : list Z) (s : sessions) : Prop := {
  owing_placed : placed s;
  owing_closed fd : in_use fd s0 -> in_use fd s -> closed_since fd s0 s -> fd ∈ debt }.

Lemma placed_start : placed s0.
Proof. split; eauto. Qed.
Lemma owing_start : owing [] s0.
Proof.
  split; [apply placed_start|]. intros fd _ _ (now & E & Hfd).
  assert (now = []) as -> by (apply (app_inv_tail (s_closed s0)); by rewrite <- E).
  by apply not_elem_of_nil in Hfd.
Qed.

(** Who has a descriptor that was in use at the start had it then. *)
Lemma placed_same_client s p q fd x y :
  placed s -> in_use fd s0 -> s_clients s !! p = Some (fd, x) ->
  forall s', placed s' -> s_clients s' !! q = Some (fd, y) -> p = q.
Proof.
  intros [Pc _] Hu Hp s' [Pc' _] Hq.
  destruct (Pc _ _ _ Hp) as [[x' Hx]|H]; [|by destruct (unused_in_use _ _ H)].
  destruct (Pc' _ _ _ Hq) as [[y' Hy]|H]; [|by destruct (unused_in_use _ _ H)].
  by eapply (distinct_c _ Hdistinct).
Qed.
Lemma placed_same_remote s p q fd x y :
  placed s -> in_use fd s0 -> s_remotes s !! p = Some (fd, x) ->
  forall s', placed s' -> s_remotes s' !! q = Some (fd, y) -> p = q.
Proof.
  intros [_ Pr] Hu Hp s' [_ Pr'] Hq.
  destruct (Pr _ _ _ Hp) as [[x' Hx]|H]; [|by destruct (unused_in_use _ _ H)].
  destruct (Pr' _ _ _ Hq) as [[y' Hy]|H]; [|by destruct (unused_in_use _ _ H)].
  by eapply (distinct_r _ Hdistinct).
Qed.
Lemma placed_no_both s p q fd x y :
  placed s -> in_use fd s0 -> s_clients s !! p = Some (fd, x) ->
  forall s', placed s' -> s_remotes s' !! q = Some (fd, y) -> False.
Proof.
  intros [Pc _] Hu Hp s' [_ Pr'] Hq.
  destruct (Pc _ _ _ Hp) as [[x' Hx]|H]; [|by destruct (unused_in_use _ _ H)].
  destruct (Pr' _ _ _ Hq) as [[y' Hy]|H]; [|by destruct (unused_in_use _ _ H)].
  by eapply (distinct_cr _ Hdistinct).
Qed.

(** [close] makes a debt, unless nobody had the descriptor. *)
Lemma owing_close debt fd n cs rs cl :
  owing debt (Sessions n cs rs cl) -> owing (fd :: debt) (Sessions n cs rs (fd :: cl)).
Proof.
  intros [[Pc Pr] H]. split; [by split|]. intros fd' H0 H1 (now & E & Hfd).
  destruct (decide (fd' = fd)) as [->|Hne]; [by apply list_elem_of_here|]. apply list_elem_of_further, H; [done..|].
  destruct now as [|x now]; [by apply not_elem_of_nil in Hfd|]. injection E as -> E.
  exists now. split; [done|]. by apply elem_of_cons in Hfd as [|].
Qed.
Lemma owing_close_unused debt fd n cs rs cl :
  unused fd s0 -> owing debt (Sessions n cs rs cl) -> owing debt (Sessions n cs rs (fd :: cl)).
Proof.
  intros Hu H. apply (owing_close _ fd) in H as [HP H]. split; [done|]. intros fd' H0 H1 H2.
  specialize (H fd' H0 H1 H2). apply elem_of_cons in H as [->|]; [|done].
  by destruct (unused_in_use _ _ Hu).
Qed.

(** [free] pays it: nobody else has the descriptor. *)
Lemma owing_weaken debt s n cs rs :
  owing debt s -> (forall p, cs !! p = s_clients s !! p \/ cs !! p = None) ->
  (forall p, rs !! p = s_remotes s !! p \/ rs !! p = None) ->
  owing debt (Sessions n cs rs (s_closed s)).
Proof.
  intros [[Pc Pr] H] Hc Hr. split.
  - split; cbn; intros p fd y Hp; [destruct (Hc p)|destruct (Hr p)]; try congruence;
      [eapply Pc|eapply Pr]; by rewrite <- Hp.
  - intros fd H0 H1 H2. apply H; [done| |done].
    destruct H1 as [(p & x & Hp)|(p & x & Hp)]; cbn in Hp; [left|right]; exists p, x;
      [destruct (Hc p)|destruct (Hr p)]; congruence.
Qed.
Lemma owing_paid debt fd s :
  owing (fd :: debt) s -> ~ (in_use fd s0 /\ in_use fd s) -> owing debt s.
Proof.
  intros [HP H] Hn. split; [done|]. intros fd' H0 H1 H2.
  specialize (H fd' H0 H1 H2). apply elem_of_cons in H as [->|]; [|done]. by destruct Hn.
Qed.
Lemma lookup_delete_or {A} (m : gmap positive A) p q : delete p m !! q = m !! q \/ delete p m !! q = None.
Proof.
  destruct (decide (p = q)) as [->|]; [right; apply lookup_delete_eq|left; by apply lookup_delete_ne].
Qed.

Lemma owing_free_client debt fd p x s1 n cs rs cl :
  placed s1 -> s_clients s1 !! p = Some (fd, x) ->
  owing (fd :: debt) (Sessions n cs rs cl) -> owing debt (Sessions n (delete p cs) rs cl).
Proof.
  intros P1 Hp H.
  assert (owing (fd :: debt) (Sessions n (delete p cs) rs cl)) as H'.
  { apply (owing_weaken _ (Sessions n cs rs cl)); [done|intros q; apply lookup_delete_or|by left]. }
  pose proof (owing_placed _ _ H') as P2. apply (owing_paid _ fd); [done|].
  intros [H0 [(q & y & Hq)|(q & y & Hq)]].
  - assert (p = q) as <- by by eapply (placed_same_client s1 p q).
    cbn in Hq. by rewrite lookup_delete_eq in Hq.
  - by eapply (placed_no_both s1 p q).
Qed.
Lemma owing_free_remote debt fd p x s1 n cs rs cl :
  placed s1 -> s_remotes s1 !! p = Some (fd, x) ->
  owing (fd :: debt) (Sessions n cs rs cl) -> owing debt (Sessions n cs (delete p rs) cl).
Proof.
  intros P1 Hp H.
  assert (owing (fd :: debt) (Sessions n cs (delete p rs) cl)) as H'.
  { apply (owing_weaken _ (Sessions n cs rs cl)); [done|by left|intros q; apply lookup_delete_or]. }
  pose proof (owing_placed _ _ H') as P2. apply (owing_paid _ fd); [done|].
  intros [H0 [(q & y & Hq)|(q & y & Hq)]].
  - by eapply (placed_no_both _ q p fd y x P2 H0 Hq s1).
  - assert (p = q) as <- by by eapply (placed_same_remote s1 p q).
    cbn in Hq. by rewrite lookup_delete_eq in Hq.
Qed.

(** A connection keeps its descriptor, or a new one has an unused descriptor. *)
Lemma owing_put_client debt fd p y n n' cs rs cl :
  (exists x, cs !! p = Some (fd, x)) \/ unused fd s0 ->
  owing debt (Sessions n cs rs cl) -> owing debt (Sessions n' (<[p := (fd, y)]> cs) rs cl).
Proof.
  intros Hp [[Pc Pr] H]. split; [split|].
  - cbn. intros q fd' z [[<- E]|[_ Hq]]%lookup_insert_Some; [|by eapply Pc]. simplify_eq.
    destruct Hp as [[x Hx]|]; [by eapply Pc|by right].
  - apply Pr.
  - unfold in_use at 2. cbn. intros fd' H0 [(q & z & [[<- E]|[_ Hq]]%lookup_insert_Some)|Hr] H2.
    + simplify_eq. destruct Hp as [[x Hx]|Hu]; [|by destruct (unused_in_use _ _ Hu)].
      apply H; [done|by left; exists p, x|done].
    + apply H; [done|by left; exists q, z|done].
    + apply H; [done|by right|done].
Qed.
Lemma owing_put_remote debt fd p y n n' cs rs cl :
  (exists x, rs !! p = Some (fd, x)) \/ unused fd s0 ->
  owing debt (Sessions n cs rs cl) -> owing debt (Sessions n' cs (<[p := (fd, y)]> rs) cl).
Proof.
  intros Hp [[Pc Pr] H]. split; [split|].
  - apply Pc.
  - cbn. intros q fd' z [[<- E]|[_ Hq]]%lookup_insert_Some; [|by eapply Pr]. simplify_eq.
    destruct Hp as [[x Hx]|]; [by eapply Pr|by right].
  - unfold in_use at 2. cbn. intros fd' H0 [Hc|(q & z & [[<- E]|[_ Hq]]%lookup_insert_Some)] H2.
    + apply H; [done|by left|done].
    + simplify_eq. destruct Hp as [[x Hx]|Hu]; [|by destruct (unused_in_use _ _ Hu)].
      apply H; [done|by right; exists p, x|done].
    + apply H; [done|by right; exists q, z|done].
Qed.
End machine.

(** ** Operations pay their debts *)

Section pays.
Context `{PL : PlistLib} `{EN : Env}.
Context (s0 : sessions) (Hdistinct : distinct s0) (Hkernel : forall fd, new_fd EN fd -> unused fd s0).

(** Whatever is owed before, no more is owed after. *)
Definition pays (w w' : world) : Prop :=
  forall debt, owing s0 debt (sessions_of w) -> owing s0 debt (sessions_of w').
#[export] Instance pays_coarse : Coarse pays.
Proof.
  split; [split; [by intros w debt|intros w1 w2 w3 A B debt H; by apply B, A]|].
  intros w w' E debt. by rewrite E.
Qed.

Lemma pays_put_client p c c' w :
  w_clients w !! p = Some c -> c_fd c' = c_fd c -> pays w (put_client p c' w).
Proof.
  intros Hc E debt. rewrite sessions_put_client, E. apply owing_put_client. left. eexists. by apply client_at.
Qed.
Lemma pays_write_client p f : (forall c, c_fd (f c) = c_fd c) -> preserves pays (write_client p f).
Proof. intros Hf w. apply wlp_write_client. intros c Hc. by eapply pays_put_client. Qed.
Lemma pays_write_remote p f : (forall r, r_fd (f r) = r_fd r) -> preserves pays (write_remote p f).
Proof.
  intros Hf w. apply wlp_write_remote. intros r Hr debt. rewrite sessions_put_remote, Hf.
  apply owing_put_remote. left. eexists. by apply remote_at.
Qed.
Lemma pays_close_new fd : new_fd EN fd -> preserves pays (close fd).
Proof. intros Hfd. apply preserves_modify. intros w debt. apply owing_close_unused, Hkernel, Hfd. Qed.
Lemma pays_alloc_client c : new_fd EN (c_fd c) -> preserves pays (alloc_client c).
Proof.
  intros Hfd w. apply wlp_bind, wlp_get, wlp_bind, wlp_modify, wlp_ret. intros debt.
  unfold sessions_of. cbn. rewrite fmap_insert. apply owing_put_client. right. by apply Hkernel.
Qed.
Lemma pays_alloc_remote r : new_fd EN (r_fd r) -> preserves pays (alloc_remote r).
Proof.
  intros Hfd w. apply wlp_bind, wlp_get, wlp_bind, wlp_modify, wlp_ret. intros debt.
  unfold sessions_of. cbn. rewrite fmap_insert. apply owing_put_remote. right. by apply Hkernel.
Qed.

(** [close], then operations that pay, then [free]: seen from the beginning. *)
Definition closed_from (fd : Z) (w w' : world) : Prop :=
  forall debt, owing s0 debt (sessions_of w) -> owing s0 (fd :: debt) (sessions_of w').
Lemma wlp_close_from fd Q w :
  (forall w', closed_from fd w w' -> Q tt w') -> wlp (close fd) Q w.
Proof. intros H. apply wlp_modify, H. intros debt. apply owing_close. Qed.
Lemma wlp_closed_from {A B} fd (m : M A) (k : A -> M B) Q w w' :
  closed_from fd w w' -> preserves pays m ->
  (forall a w'', closed_from fd w w'' -> wlp (k a) Q w'') -> wlp (m ≫= k) Q w'.
Proof.
  intros H Hm Hk. apply wlp_bind. wlp_use (apply Hm). intros a w'' Hw. apply Hk. intros debt Hd. by apply Hw, H.
Qed.
Lemma wlp_paid_client p c w w' :
  w_clients w !! p = Some c -> closed_from (c_fd c) w w' -> wlp (free_client p) (fun _ => pays w) w'.
Proof.
  intros Hc H. apply wlp_bind, wlp_read_client. intros c' Hc'. apply wlp_modify. intros debt Hd.
  unfold sessions_of. cbn. rewrite fmap_delete.
  apply (owing_free_client s0 Hdistinct _ (c_fd c) p (c_state c) (sessions_of w));
    [by eapply owing_placed|by apply client_at|by apply H].
Qed.
Lemma wlp_paid_remote p r w w' :
  w_remotes w !! p = Some r -> closed_from (r_fd r) w w' -> wlp (free_remote p) (fun _ => pays w) w'.
Proof.
  intros Hr H. apply wlp_bind, wlp_read_remote. intros r' Hr'. apply wlp_modify. intros debt Hd.
  unfold sessions_of. cbn. rewrite fmap_delete.
  apply (owing_free_remote s0 Hdistinct _ (r_fd r) p (r_state r) (sessions_of w));
    [by eapply owing_placed|by apply remote_at|by apply H].
Qed.

(** Outgoing connections: what is closed again is new. *)
Lemma pays_close_socket : 0 <= sys_socket -> preserves pays (socket_close sys_socket).
Proof. intros H. apply pays_close_new. by split; [|left]. Qed.
Lemma pays_connect_unix path : preserves pays (socket_connect_unix path).
Proof.
  unfold socket_connect_unix. destruct (Z.ltb_spec sys_socket 0); [preserve|].
  pose proof pays_close_socket. preserve; auto.
Qed.
Lemma pays_connect_timeout host port timeout : preserves pays (socket_connect_timeout host port timeout).
Proof.
  unfold socket_connect_timeout. destruct (Z.ltb_spec sys_socket 0); [preserve|].
  pose proof pays_close_socket. preserve; auto.
Qed.
Hint Resolve pays_connect_unix pays_connect_timeout : preserves.
Hint Extern 2 (preserves pays (write_client _ _)) => (apply pays_write_client; done) : preserves.
Hint Extern 2 (preserves pays (write_remote _ _)) => (apply pays_write_remote; done) : preserves.

Lemma pays_connected (m : M Z) (k : Z -> M (option ptr)) :
  connects m -> preserves pays m -> (forall fd, new_fd EN fd -> preserves pays (k fd)) ->
  preserves pays (fd ← m; if fd <? 0 then mret None else k fd).
Proof.
  intros Hc Hm Hk w. apply wlp_bind. wlp_use (apply wlp_conj; [apply Hm|apply Hc]).
  intros fd w' [Hw [_ Hfd]]. destruct (Z.ltb_spec fd 0); [by apply wlp_ret|].
  apply (wlp_preserves pays); [by apply Hk, Hfd|done].
Qed.
Lemma pays_new_with_fd fd : new_fd EN fd -> preserves pays (remote_mux_new_with_fd fd).
Proof.
  intros Hfd. pose proof (pays_close_new fd Hfd). pose proof (pays_alloc_remote (remote_fresh fd) Hfd).
  unfold remote_mux_new_with_fd. preserve.
Qed.
Lemma pays_new_with_unix_socket path : preserves pays (remote_mux_new_with_unix_socket path).
Proof.
  apply pays_connected; [apply connects_unix|preserve|]. intros fd Hfd.
  pose proof (pays_new_with_fd fd Hfd). preserve.
Qed.
Lemma pays_new_with_host host port : preserves pays (remote_mux_new_with_host host port).
Proof.
  apply pays_connected; [apply connects_timeout|preserve|]. intros fd Hfd.
  pose proof (pays_new_with_fd fd Hfd). preserve.
Qed.
Hint Resolve pays_new_with_unix_socket pays_new_with_host : preserves.

(** Teardown. *)
Ltac paying H := eapply wlp_closed_from; [exact H|solve [preserve]|clear H; intros ? ? H].
Lemma pays_remote_close p : preserves pays (remote_close p).
Proof.
  intros w. apply wlp_bind, wlp_read_remote. intros r Hr. apply wlp_bind, wlp_close_from. intros w' H.
  paying H. by eapply wlp_paid_remote.
Qed.
Hint Resolve pays_remote_close : preserves.
Lemma pays_client_close p : preserves pays (client_close p).
Proof.
  intros w. apply wlp_bind, wlp_read_client. intros c Hc. apply wlp_bind.
  wlp_use (instantiate (1 := fun _ w1 => pays w w1 /\ exists c', w_clients w1 !! p = Some c' /\ c_fd c' = c_fd c)).
  { apply wlp_when; [|intros _; split; [by intros debt|by eexists]]. intros _. apply wlp_write_client. intros c' Hc'. simplify_eq. split.
    - by eapply pays_put_client.
    - eexists. split; [apply lookup_insert_eq|done]. }
  intros [] w1 [H1 (c' & Hc' & <-)]. apply wlp_bind, wlp_close_from. intros w' H.
  do 4 paying H. wlp_use (by eapply wlp_paid_client). intros _ ? H2. by etrans.
Qed.
Hint Resolve pays_client_close : preserves.
Lemma pays_usbmux_remote_dispose p : preserves pays (usbmux_remote_dispose p).
Proof.
  intros w. apply wlp_bind, wlp_read_remote. intros r Hr. apply wlp_bind, wlp_close_from. intros w' H.
  do 5 paying H. by eapply wlp_paid_remote.
Qed.
Hint Resolve pays_usbmux_remote_dispose : preserves.
Lemma pays_usbmux_remote_close p : preserves pays (usbmux_remote_close p).
Proof. preserve. Qed.
Lemma pays_remote_mark_dead p : preserves pays (remote_mark_dead p).
Proof. preserve. Qed.
Hint Resolve pays_usbmux_remote_close pays_remote_mark_dead : preserves.
Lemma pays_service_remove s h port : preserves pays (remote_mux_service_remove s h port).
Proof. preserve. Qed.
Hint Resolve pays_service_remove : preserves.

(** Without a free identifier the new connection is closed at once. *)
Lemma pays_service_add s h port : preserves pays (remote_mux_service_add s h port).
Proof.
  unfold remote_mux_service_add. apply preserves_bind; [apply _|preserve|intros _].
  apply preserves_bind; [apply _|preserve|intros [q|]]; [preserve|].
  apply preserves_bind; [apply _|preserve|intros [q|]]; [|preserve].
  apply preserves_bind; [apply _|preserve|intros w0]. cbv zeta. destruct (_ =? 0); [|preserve].
  apply preserves_bind; [apply _|preserve|intros _]. intros w. apply wlp_bind, wlp_read_remote. intros r Hr.
  apply wlp_bind, wlp_close_from. intros w' H. apply wlp_bind.
  wlp_use (by eapply wlp_paid_remote). intros _ w2 H2. by apply wlp_ret.
Qed.
Hint Resolve pays_service_add : preserves.

(** Handlers. *)
Lemma pays_connect_like id : preserves pays (connect_like id).
Proof. preserve. Qed.
Lemma pays_usbmux_remote_connect id req c : preserves pays (usbmux_remote_connect id req c).
Proof. preserve. Qed.
Lemma pays_connect_for_record id : preserves pays (connect_for_record id).
Proof. preserve. Qed.
Hint Resolve pays_connect_like pays_usbmux_remote_connect pays_connect_for_record : preserves.
Lemma pays_client_command c : preserves pays (client_command c).
Proof. preserve. Qed.
Hint Resolve pays_client_command : preserves.
Lemma pays_client_process fd events : preserves pays (client_process fd events).
Proof. preserve. Qed.
Lemma pays_usbmux_remote_process fd events : preserves pays (usbmux_remote_process fd events).
Proof. preserve. Qed.
Lemma pays_client_accept fd : preserves pays (client_accept fd).
Proof.
  unfold client_accept. cbv zeta. destruct (Z.ltb_spec (sys_accept fd) 0); [preserve|].
  apply preserves_bind; [apply _| |intros ?; preserve].
  apply pays_alloc_client. by split; [|right; exists fd].
Qed.
Hint Resolve pays_client_process pays_usbmux_remote_process pays_client_accept : preserves.
Lemma pays_run i : preserves pays (run EN i).
Proof. preserve. Qed.
End pays.

(** ** The daemon *)

Section theorems.
Context `{PL : PlistLib}.

(** One input: the descriptor of what is still there has not been closed. *)
Lemma run_open EN i w w' fd :
  distinct (sessions_of w) -> kernel_ok EN w -> run EN i w = Done tt w' ->
  in_use fd (sessions_of w) -> in_use fd (sessions_of w') ->
  ~ closed_since fd (sessions_of w) (sessions_of w').
Proof.
  intros Hd Hk H H0 H1 Hcl.
  pose proof (wlp_done _ _ _ _ _ (pays_run (EN := EN) (sessions_of w) Hd Hk i w) H [] (owing_start _)) as [_ Hno].
  specialize (Hno fd H0 H1 Hcl). by apply not_elem_of_nil in Hno.
Qed.

(** The descriptor of the client or of the remote at an address. *)
Definition fd_at (client : bool) (p : ptr) (s : sessions) : option Z :=
  if client then fst <$> s_clients s !! p else fst <$> s_remotes s !! p.
Lemma fd_at_in_use k p fd s : fd_at k p s = Some fd -> in_use fd s.
Proof.
  destruct k; cbn; intros ([f x] & Hp & ->)%fmap_Some; [left|right]; by exists p, x.
Qed.
Lemma fd_at_advanced opens k p fd s s' :
  advanced opens s s' -> unborn s -> fd_at k p s = Some fd ->
  (fd_at k p s' = None -> closed_since fd s s') /\ (forall fd', fd_at k p s' = Some fd' -> fd' = fd) /\
  (p < s_next s)%positive.
Proof.
  intros A [Uc Ur] Hp. pose proof A as [_ (now & En & [Kc _] & [Kr _])].
  assert (p < s_next s)%positive as Hlt.
  { apply Pos.lt_nle. intros Hle. unfold fd_at in Hp. rewrite Uc, Ur in Hp by done. by destruct k. }
  destruct k; cbn in *; apply fmap_Some in Hp as ([f x] & Hp & ->); cbn.
  - destruct (Kc p f x Hp) as [[y ->]|[-> Hin]]; cbn; split_and!; try done; try congruence.
    intros _. by exists now.
  - destruct (Kr p f x Hp) as [[y ->]|[-> Hin]]; cbn; split_and!; try done; try congruence.
    intros _. by exists now.
Qed.
Lemma fd_at_gone opens k p s s' :
  advanced opens s s' -> (p < s_next s)%positive -> fd_at k p s = None -> fd_at k p s' = None.
Proof.
  intros [_ (now & _ & [_ Kc] & [_ Kr])] Hlt.
  destruct k; cbn; rewrite !fmap_None; auto.
Qed.
Lemma closed_since_split fd s s1 s' now :
  s_closed s1 = now ++ s_closed s -> closed_since fd s s' ->
  (exists later, s_closed s' = later ++ s_closed s1) ->
  closed_since fd s s1 \/ closed_since fd s1 s'.
Proof.
  intros E1 (all & E & Hin) [later E2]. rewrite E2, E1, app_assoc in E.
  apply app_inv_tail in E. subst all. apply elem_of_app in Hin as [Hin|Hin].
  - right. by exists later.
  - left. by exists now.
Qed.

Lemma script_open l w w' k p fd fd' :
  unborn (sessions_of w) -> distinct (sessions_of w) -> kernels_ok l w -> script l w = Done tt w' ->
  fd_at k p (sessions_of w) = Some fd -> fd_at k p (sessions_of w') = Some fd' ->
  ~ closed_since fd (sessions_of w) (sessions_of w').
Proof.
  revert w. induction l as [|[E i] l IH]; intros w Hu Hd Hk H Hp Hp' Hcl.
  - injection H as <-. destruct (owing_start (sessions_of w)) as [_ Hno].
    specialize (Hno fd (fd_at_in_use _ _ _ _ Hp) (fd_at_in_use _ _ _ _ Hp) Hcl).
    by apply not_elem_of_nil in Hno.
  - destruct Hk as [Hk Hl]. cbn [script] in H. unfold mbind, prog_bind in H.
    destruct (run E i w) as [[] w1|f] eqn:Er; [|done].
    destruct (run_distinct E i w w1 Hu Hk Hd Er) as [Hu1 Hd1].
    pose proof (script_advances [(E, i)] w w1 Hu ltac:(cbn; unfold mbind, prog_bind; by rewrite Er)) as A1.
    pose proof (script_advances l w1 w' Hu1 H) as A2.
    destruct (fd_at_advanced _ _ _ _ _ _ A1 Hu Hp) as (_ & Hsame & Hlt).
    pose proof (steps_next _ _ _ (adv_steps _ _ _ A1)) as Hn.
    destruct (fd_at k p (sessions_of w1)) as [fd1|] eqn:Hp1.
    2: { rewrite (fd_at_gone _ k p _ _ A2) in Hp'; [done|lia|done]. }
    rewrite (Hsame fd1 eq_refl) in Hp1. clear Hsame.
    destruct (adv_kept _ _ _ A1) as (now & En & _). destruct (adv_kept _ _ _ A2) as (later & El & _).
    destruct (closed_since_split fd _ _ _ now En Hcl (ex_intro _ later El)) as [Hc|Hc].
    + by eapply run_open, Hc; [..|eapply fd_at_in_use|eapply fd_at_in_use].
    + by eapply IH, Hc; [..|apply Hl| | |].
Qed.

(** A connection is there until its descriptor is closed, and no longer. *)
Lemma script_closes l w w' k p fd :
  unborn (sessions_of w) -> distinct (sessions_of w) -> kernels_ok l w -> script l w = Done tt w' ->
  fd_at k p (sessions_of w) = Some fd ->
  (fd_at k p (sessions_of w') = None <-> closed_since fd (sessions_of w) (sessions_of w')).
Proof.
  intros Hu Hd Hk H Hp. pose proof (script_advances l w w' Hu H) as A. split.
  - by eapply fd_at_advanced.
  - intros Hcl. destruct (fd_at k p (sessions_of w')) as [fd'|] eqn:Hp'; [|done].
    by destruct (script_open l w w' k p fd fd' Hu Hd Hk H Hp Hp').
Qed.

Lemma fd_at_client p w : fd_at true p (sessions_of w) = c_fd <$> w_clients w !! p.
Proof. cbn. rewrite lookup_fmap, <- option_fmap_compose. done. Qed.
Lemma fd_at_remote p w : fd_at false p (sessions_of w) = r_fd <$> w_remotes w !! p.
Proof. cbn. rewrite lookup_fmap, <- option_fmap_compose. done. Qed.

(** C8. From a state in which no two connections share a descriptor, and under a
    kernel that gives only descriptors not in use, whatever events and callbacks
    come: a client, or a connection to an instance, is forgotten exactly when its
    descriptor is closed. None is forgotten with its descriptor open, so none
    leaks; and no descriptor is closed while its connection is still polled. *)
Theorem forgotten_exactly_when_closed l w w' :
  unborn (sessions_of w) -> distinct (sessions_of w) -> kernels_ok l w -> script l w = Done tt w' ->
  (forall p c, w_clients w !! p = Some c ->
     (w_clients w' !! p = None <-> closed_since (c_fd c) (sessions_of w) (sessions_of w'))) /\
  (forall p r, w_remotes w !! p = Some r ->
     (w_remotes w' !! p = None <-> closed_since (r_fd r) (sessions_of w) (sessions_of w'))).
Proof.
  intros Hu Hd Hk H. split; intros p x Hp.
  - rewrite <- (script_closes l w w' true p); [|done..|by rewrite fd_at_client, Hp].
    by rewrite fd_at_client, fmap_None.
  - rewrite <- (script_closes l w w' false p); [|done..|by rewrite fd_at_remote, Hp].
    by rewrite fd_at_remote, fmap_None.
Qed.
End theorems.

(** *** At a concrete state *)

(** The connected client hangs up. *)
Definition hang_up : list (Env * input) := [(quiet, InClient 13 POLLIN)].
Lemma forgotten_exactly_when_closed_witness :
  match script hang_up demo_world with
  | Done _ w' => closed_since 13 (sessions_of demo_world) (sessions_of w') /\
      closed_since 14 (sessions_of demo_world) (sessions_of w')
  | Crash _ => False
  end.
Proof.
  assert (match script hang_up demo_world with
    | Done _ w' => bool_decide (w_clients w' !! 3%positive = None) && bool_decide (w_remotes w' !! 4%positive = None)
    | Crash _ => false
    end = true) as Hf by (vm_compute; reflexivity).
  destruct (script hang_up demo_world) as [[] w'|f] eqn:E; [|discriminate Hf].
  apply andb_prop in Hf as [Hc Hr].
  destruct (forgotten_exactly_when_closed hang_up demo_world w' demo_unborn demo_distinct
    (conj demo_kernel (fun _ _ => I)) E) as [H1 H2]. split.
  - apply (H1 3%positive connected_client eq_refl). exact (bool_decide_eq_true_1 _ Hc).
  - apply (H2 4%positive connected_remote eq_refl). exact (bool_decide_eq_true_1 _ Hr).
Defined.
