(* ===== verification/Connections.v ===== *)
(** The daemon from its start under a kernel that does not give a descriptor twice:
    every state it reaches is sound, and in a sound state each connected client
    has a channel of its own, to the instance it asked for and to no other. *)

From S2P Require Import Prelude Exec Mem Utils Proto CStr RemoteId Plist World WorldFacts Socket.
From S2P Require Import Client Remote Teardown Command RemoteProcess Discovery Invariant Daemon.
From S2P Require Import ClientFacts RemoteFacts DaemonFacts Demo Proxy Wlp Protocol ProtocolFacts.
From S2P Require Import ProtocolTheorems Descriptors.

(** ** Sound states *)

Section sound.
Context `{PL : PlistLib} {PLaws : PlistLaws PL}.

(** The invariant, and no two live objects on one descriptor. *)
Record sound (w : world) : Prop := {
  sound_wf : wf [] w;
  sound_fds : distinct (sessions_of w) }.

(** A step in an environment whose kernel gives only descriptors not in use. *)
Inductive kernel_step : world -> world -> Prop :=
| kernel_step_run EN i w w' :
    EnvLaws EN -> kernel_ok EN w -> admissible (EN := EN) i w -> run EN i w = Done tt w' ->
    kernel_step w w'.

Lemma kernel_step_sound w w' : kernel_step w w' -> sound w -> sound w'.
Proof.
  destruct 1 as [EN i w w' EL Hk Ha H]. intros [Hw Hd]. split.
  - eapply step_wf; [exact Hw|by econstructor].
  - by eapply run_distinct; [eapply wf_unborn| |..].
Qed.
Lemma kernel_steps_sound w w' : rtc kernel_step w w' -> sound w -> sound w'.
Proof. induction 1; eauto using kernel_step_sound. Qed.

(** After initialisation there is at most one connection. *)
Lemma births_init `{EN : Env} b : one_birth (_ ← client_init; usbmux_remote_init b).
Proof. birth. Qed.
Lemma preserves_init `{EN : Env} b : preserves evolves (_ ← client_init; usbmux_remote_init b).
Proof. preserve. Qed.

Lemma unborn_empty n cl : unborn (Sessions n ∅ ∅ cl).
Proof. by split. Qed.
Lemma distinct_empty n cl : distinct (Sessions n ∅ ∅ cl).
Proof. by split. Qed.
Lemma sessions_init : sessions_of world_init = Sessions 1 ∅ ∅ [].
Proof. unfold sessions_of. cbn. by rewrite !fmap_empty. Qed.

Lemma initial_sound w : initial w -> sound w.
Proof.
  intros Hi. split; [by apply initial_wf|]. destruct Hi as [EN b w EL _ H].
  assert (unborn (sessions_of world_init)) as Hu by (rewrite sessions_init; apply unborn_empty).
  destruct (wlp_done _ _ _ _ _ (preserves_init b world_init) H Hu) as [A _].
  eapply one_birth_distinct; [exact A|done| | |rewrite sessions_init; apply distinct_empty].
  - exact (wlp_done _ _ _ _ _ (births_init b world_init) H).
  - intros fd _. rewrite sessions_init. by split.
Qed.

(** ** Connected clients *)

(** No connection waits to be reaped. *)
Definition none_condemned (w : world) : Prop :=
  forall p x, w_remotes w !! p = Some x -> r_state x <> REMOTE_DEAD.

Lemma connected_is_proxied w c cl :
  sound w -> none_condemned w -> w_clients w !! c = Some cl -> c_state cl = CLIENT_CONNECTED ->
  exists r rm, proxied (c_fd cl) (r_fd rm) c r cl rm w.
Proof.
  intros [Hw [Dc Dr _]] Hd Hc Hs. pose proof (wf_client _ _ Hw c cl Hc) as Hok.
  unfold client_ok in Hok. rewrite Hs in Hok. destruct Hok as (_ & _ & Hr).
  destruct (c_remote cl) as [r|] eqn:Er; [|done].
  destruct (wf_c2r _ _ Hw c cl r Hc Er) as (rm & Hrm & Hrc & Hpair). exists r, rm.
  split; try done.
  - specialize (Hpair ltac:(rewrite Hs; set_solver)). pose proof (Hd r rm Hrm).
    by rewrite !elem_of_cons, elem_of_nil in Hpair; naive_solver.
  - intros p x Hx E. eapply Dc; rewrite (session_client _ _ w eq_refl); [by rewrite Hx|].
    rewrite Hc. cbn. by rewrite E.
  - intros p x Hx E. eapply Dr; rewrite (session_remote _ _ w eq_refl); [by rewrite Hx|].
    rewrite Hrm. cbn. by rewrite E.
Qed.

End sound.

(** *** At a concrete state *)

Lemma demo_sound : sound demo_world.
Proof. split; [exact wf_demo|exact demo_distinct]. Qed.

