(* ===== verification/Threads.v ===== *)
(** The two threads. The mutexes of the lists protect the lookup of the object of a
    descriptor, not the work on it: between the two, a callback of the discovery
    thread may remove an instance. Here a handler is two steps of the main thread,
    its lookup and the rest, and callbacks run before, between and after them. *)

From S2P Require Import Prelude Exec Mem Utils Proto CStr RemoteId Plist World WorldFacts.
From S2P Require Import Socket Client Remote Teardown Command RemoteProcess Discovery Invariant.
From S2P Require Import ClientFacts TeardownFacts RemoteFacts CommandFacts RemoteProcessFacts.
From S2P Require Import Daemon DaemonFacts Demo DaemonTheorems RemoteTheorems Proxy Wlp Protocol ProtocolFacts.

(** ** The interleaved daemon *)

(** Where the main thread is: between two events, or about to work on what it
    found for the events of a descriptor. *)
Inductive control :=
| Idle
| OnClient (events : Z) (client : ptr)
| OnRemote (events : Z) (remote : ptr).

Section threads.
Context `{PL : PlistLib} {PLaws : PlistLaws PL}.

(** What the main thread does next with what it found. *)
Definition pending (EN : Env) (k : control) : M unit :=
  match k with
  | Idle => mret tt
  | OnClient events client => process_client events client
  | OnRemote events remote => process_remote events remote
  end.

(** It is prepared for the event, in the state the object is in. *)
Definition ready (EN : Env) (k : control) (w : world) : Prop :=
  match k with
  | Idle => True
  | OnClient events c => exists cl, w_clients w !! c = Some cl /\ client_ready events cl /\ dns_up
  | OnRemote events r => exists rm, w_remotes w !! r = Some rm /\ remote_ready events rm
  end.

Inductive thread_step : control * world -> control * world -> Prop :=
| find_client_step EN fd events o w w' :
    EnvLaws EN -> find_client fd w = Done o w' ->
    thread_step (Idle, w) (from_option (OnClient events) Idle o, w')
| find_remote_step EN fd events o w w' :
    EnvLaws EN -> find_remote fd events w = Done o w' ->
    thread_step (Idle, w) (from_option (OnRemote events) Idle o, w')
| pending_step EN k w w' :
    EnvLaws EN -> ready EN k w -> pending EN k w = Done tt w' -> thread_step (k, w) (Idle, w')
| accept_step EN listenfd w w' :
    EnvLaws EN -> run EN (InAccept listenfd) w = Done tt w' -> thread_step (Idle, w) (Idle, w')
| gather_step EN listenfd l w w' :
    EnvLaws EN -> gatherable l w -> run EN (InGather listenfd l) w = Done tt w' ->
    thread_step (Idle, w) (Idle, w')
| callback_step EN cb k w w' :
    EnvLaws EN -> dns_up -> prints (create_plist_message "Listen") ->
    run EN (InMdns cb) w = Done tt w' -> thread_step (k, w) (k, w').

(** Whatever the order of the steps, the state between them is consistent. *)
Lemma pending_wf EN (EL : EnvLaws EN) k w :
  wf [] w -> ready EN k w -> wp (pending EN k) (fun _ w' => wf [] w') w.
Proof.
  intros Hw. destruct k as [|ev c|ev r]; cbn; [by intros _; wp_go|..].
  - intros (cl & Hc & Hr & Hd). by eapply process_client_wf.
  - intros (rm & Hr & Hrr). by eapply process_remote_wf.
Qed.
Lemma wp_post {A} (m : M A) (P : world -> Prop) a w w' :
  wp m (fun _ w' => P w') w -> m w = Done a w' -> P w'.
Proof. unfold wp. intros H E. by rewrite E in H. Qed.

Lemma thread_step_wf x y : thread_step x y -> wf [] x.2 -> wf [] y.2.
Proof.
  destruct 1 as [EN fd ev o w w' EL H|EN fd ev o w w' EL H|EN k w w' EL Hr H|EN fd w w' EL H
    |EN fd l w w' EL Hg H|EN cb k w w' EL Hd Hp H]; cbn [snd]; intros Hw.
  - eapply wp_post, H. wp_use (by apply wp_find_client). by intros ? ? [-> _].
  - eapply wp_post, H. wp_use (by apply wp_find_remote_locked). by intros ? ? [? _].
  - by eapply wp_post, H; apply pending_wf.
  - by eapply wp_post, H; apply run_wf.
  - by eapply wp_post, H; apply run_wf.
  - by eapply wp_post, H; apply run_wf.
Qed.

(** The object the main thread holds is still there. *)
Definition held (k : control) (w : world) : Prop :=
  match k with
  | Idle => True
  | OnClient _ c => is_Some (w_clients w !! c)
  | OnRemote _ r => is_Some (w_remotes w !! r)
  end.


(** C38. When the object is gone: a removal that hits an instance between lookup and
    work leaves the connection the main thread found in place, and its handler to
    end without a fault, as long as a live connection of another instance is there;
    when none is, all are freed and the handler uses freed memory. *)
Theorem removal_between E (EL : EnvLaws E) s h port events r rm w w' :
  wf [] w -> w_remotes w !! r = Some rm ->
  remote_mux_service_remove s h port w = Done 0 w' ->
  exists p0 rm0, w_remotes w !! p0 = Some rm0 /\ is_named s h port rm0 = true /\
    ((exists q x, w_remotes w !! q = Some x /\ r_id x <> r_id rm0 /\ r_state x <> REMOTE_DEAD) ->
       held (OnRemote events r) w' /\
       (ready E (OnRemote events r) w' ->
          exists w2, process_remote events r w' = Done tt w2 /\ wf [] w2)) /\
    ((forall q x, w_remotes w !! q = Some x -> r_id x = r_id rm0 \/ r_state x = REMOTE_DEAD) ->
       process_remote events r w' = Crash UseAfterFree).
Proof.
  intros Hw Hr Hrun. destruct (remove_outcomes s h port w Hw) as (n & w1 & Hrun' & Hw1 & Hout).
  rewrite Hrun' in Hrun. simplify_eq.
  destruct Hout as [[? _]|(_ & p0 & rm0 & w3 & Hp0 & Hn & Hpost & ->)]; [done|].
  exists p0, rm0. split; [done|]. split; [done|]. split.
  - intros (q & x & Hq & Hid & Hst).
    destruct Hpost as [p y w4 Hc _ Hp _ _ -> _|Hall _ _ _]; [|by destruct (Hall q x Hq)].
    split; [|by intros Hrd; apply wp_run_tt, (pending_wf _ _ (OnRemote events r))].
    cbn. rewrite lookup_insert_is_Some'. right. by apply (cd_dom _ _ _ Hc); eexists.
  - intros Hall. destruct Hpost as [p y w4 Hc Hdead Hp Hid Hst -> _|_ Hemp _ _].
    + destruct (condemns_id _ _ _ _ _ Hc Hp) as (y0 & Hy0 & Ey & Hcd).
      apply condemned_alive in Hcd; [|done]. subst y0. by destruct (Hall p y Hy0).
    + unfold process_remote, read_remote, mbind, prog_bind, get. cbn. by rewrite Hemp.
Qed.

(** ** The probing thread

    [check_remote_func] closes the descriptor of a remote whose host it cannot
    reach, while the remote still has it. *)
Lemma paired_trace fc fr c r cs rs cl rm w tr :
  paired fc fr c r cs rs cl rm w -> paired fc fr c r cs rs cl rm (set_w_trace tr w).
Proof. intros []. split; try done. by destruct px_wf. Qed.

(** A client accepted on another descriptor than that of the pair's client leaves
    the pair alone. *)
Lemma paired_accept `{EN : Env} fc fr c r cs rs cl rm w l :
  paired fc fr c r cs rs cl rm w -> 0 <= sys_accept l -> sys_accept l <> fc ->
  wp (client_accept l) (fun res w' => res = sys_accept l /\ paired fc fr c r cs rs cl rm w' /\
    exists p x, p <> c /\ w_clients w' !! p = Some x /\ c_fd x = sys_accept l) w.
Proof.
  intros Hp Hfd Hne. pose proof Hp as []. apply wp_client_accept; [done|lia|].
  intros w' p Hw' _ Hnone Hc Hr _. assert (p <> c) as Hpc by congruence. split; [done|]. split.
  - split; rewrite ?Hc, ?Hr; try done; [by rewrite lookup_insert_ne|].
    intros q x [[<- <-]|[_ Hq]]%lookup_insert_Some; [done|]. by apply px_only_c.
  - exists p. eexists. rewrite Hc, lookup_insert_eq. done.
Qed.

(** C39. A connection is idle and its host does not answer the probe: the thread
    closes the descriptor the connection still has. When the next client is given
    that descriptor, what this client sends is read as input of the connection and
    goes on to the client that is connected through it. *)
Theorem probe_crosses_connections fc fr c r cl rm w w0 E1 E2 E3 (EL3 : EnvLaws E3) l bs n :
  proxied fc fr c r cl rm w ->
  socket_connect_timeout (EN := E1) (r_host rm) (r_port rm) (Some 2) w = Done n w0 ->
  only_closes w w0 -> n < 0 ->
  @sys_accept E2 l = fr -> 0 <= fr -> fr <> fc ->
  @sys_recv E3 fr = Some bs -> bs <> [] -> size (r_ib rm) < capacity (r_ib rm) ->
  exists w1 w2 w3 p x rm' got,
    check_remote_func (EN := E1) r w = Done tt w1 /\ w_trace w1 = EvClose fr :: w_trace w0 /\
    client_accept (EN := E2) l w1 = Done fr w2 /\
    p <> c /\ w_clients w2 !! p = Some x /\ c_fd x = fr /\
    run E3 (InRemote fr POLLIN) w2 = Done tt w3 /\ got <> [] /\ got `prefix_of` bs /\
    w_remotes w3 !! r = Some rm' /\ r_client rm' = Some c /\
    data (r_ib rm') = data (r_ib rm) ++ got.
Proof.
  intros Hp Hconn (evs & -> & _) Hn Hacc Hfr Hne Hrecv Hbs Hroom. pose proof Hp as [].
  set (w1 := set_w_trace (EvClose fr :: evs ++ w_trace w) w).
  assert (check_remote_func (EN := E1) r w = Done tt w1) as H1.
  { unfold check_remote_func, read_remote, mbind, prog_bind, get, demand. rewrite px_remote. cbn.
    rewrite Hconn, (proj2 (Z.ltb_lt n 0)), px_rfd by done. done. }
  pose proof (paired_accept (EN := E2) _ _ _ _ _ _ _ _ w1 l (paired_trace _ _ _ _ _ _ _ _ _ _ Hp)) as H2.
  rewrite Hacc in H2. specialize (H2 Hfr Hne). apply wp_run in H2 as (? & w2 & H2 & -> & Hp2 & p & x & Hpc & Hx & Hxf).
  assert (wp (usbmux_remote_process (EN := E3) fr POLLIN) (fun _ w3 => exists rm' got,
    got <> [] /\ got `prefix_of` bs /\ w_remotes w3 !! r = Some rm' /\ r_client rm' = Some c /\
    data (r_ib rm') = data (r_ib rm) ++ got) w2) as H3.
  { eapply (wp_on_remote (EN := E3) fc fr c r); [exact Hp2|done|]. pose proof Hp2 as []. cbn.
    eapply (wp_receive_for_client (EN := E3)); [done|done|done|lia|..].
    - intros w3 H. rewrite px_rfd0, Hrecv in H. done.
    - intros H. rewrite px_rfd0, Hrecv in H. by simplify_eq.
    - intros w3 c' cl0 cl' ib got rest Hgot Hgn _ Hd _ _ _ _ ->. rewrite px_rfd0, Hrecv in Hgot.
      simplify_eq. eexists _, got. split; [done|]. split; [by eexists|].
      cbn. rewrite lookup_insert_eq. split; [done|]. by split. }
  apply wp_run_tt in H3 as (w3 & H3 & rm' & got & Hgn & Hpre & Hr3 & Hc3 & Hd3).
  exists w1, w2, w3, p, x, rm', got. split_and!; done.
Qed.
End threads.

(** ** At a concrete state *)

(** The result and the state after an execution. *)
Definition result_of {A} (o : outcome world A) : option A :=
  match o with Done a _ => Some a | Crash _ => None end.
Definition state_of {A} (o : outcome world A) (w : world) : world :=
  match o with Done _ w' => w' | Crash _ => w end.
Lemma done_intro {A} (o : outcome world A) a w : result_of o = Some a -> o = Done a (state_of o w).
Proof. destruct o; [|done]. by intros [= ->]. Qed.

(** Poll reports room on descriptor 14, the connection of remote 4; after the lookup
    mDNS reports that the only instance has gone. *)
Definition looked_up : world := state_of (find_remote (EN := quiet) 14 POLLOUT demo_world) demo_world.
Definition gone : callback := CbBrowse AVAHI_BROWSER_REMOVE "mac.local" true.
Definition after_gone : world := state_of (run quiet (InMdns gone) looked_up) looked_up.

Lemma demo_race :
  rtc thread_step (Idle, demo_world) (OnRemote POLLOUT 4, after_gone).
Proof.
  eapply rtc_l.
  - apply (find_remote_step quiet 14 POLLOUT (Some 4%positive) _ looked_up); [exact quiet_laws|].
    apply done_intro. vm_compute. reflexivity.
  - apply rtc_once, (callback_step quiet gone); [exact quiet_laws|apply demo_dns|done|].
    apply done_intro. vm_compute. reflexivity.
Qed.


Lemma removal_between_witness :
  exists w', remote_mux_service_remove (EN := quiet) (Some "mac.local"%string) None 0 demo_world = Done 0 w' /\
    process_remote (EN := quiet) POLLOUT 4 w' = Crash UseAfterFree.
Proof.
  pose proof (done_intro (remote_mux_service_remove (EN := quiet) (Some "mac.local"%string) None 0 demo_world)
    0 demo_world ltac:(vm_compute; reflexivity)) as H.
  eexists. split; [exact H|].
  destruct (removal_between quiet quiet_laws (Some "mac.local"%string) None 0 POLLOUT 4 connected_remote
    demo_world _ wf_demo eq_refl H) as (p0 & rm0 & Hp0 & Hn & _ & Hall).
  apply Hall.
  assert (map_Forall (fun p x => r_id x = 1) (w_remotes demo_world)) as Hone
    by (apply (bool_decide_unpack _); by vm_compute).
  intros q x Hq. left. rewrite (Hone q x Hq). symmetry. exact (Hone p0 rm0 Hp0).
Defined.

(** The connection of remote 4 is probed and refused; the next client is given its
    descriptor and sends one byte. *)
Definition refusing : Env := {|
  sys_now := 0; sys_realloc := @sys_realloc quiet; sys_recv := @sys_recv quiet;
  sys_send := @sys_send quiet; sys_accept := fun _ => 14; sys_stat := @sys_stat quiet;
  sys_socket := 7; sys_connect_unix := @sys_connect_unix quiet;
  sys_gethostbyname := @sys_gethostbyname quiet; sys_reuseaddr := @sys_reuseaddr quiet;
  sys_connect := fun _ _ _ => REFUSED; sys_select := @sys_select quiet;
  sys_so_error := @sys_so_error quiet; sys_getfl := @sys_getfl quiet;
  sys_setfl := @sys_setfl quiet; sys_thread := true |}.
Definition chatty : Env := demo_env (fun _ => Some [Byte.x2a]) (fun _ => 2 ^ 20).

Lemma refused host port timeout w :
  w_locks w = [] ->
  socket_connect_timeout (EN := refusing) (Some host) port timeout w =
    Done (-1) (set_w_trace (EvClose 7 :: w_trace w) w).
Proof. destruct w. cbn. intros ->. reflexivity. Qed.

Lemma probe_crosses_connections_witness :
  exists w1 w2 w3, check_remote_func (EN := refusing) 4 pending_world = Done tt w1 /\
    client_accept (EN := refusing) 3 w1 = Done 14 w2 /\
    run chatty (InRemote 14 POLLIN) w2 = Done tt w3.
Proof.
  destruct (probe_crosses_connections 13 14 3 4 connected_client _ pending_world
    (set_w_trace (EvClose 7 :: w_trace pending_world) pending_world) refusing refusing chatty (demo_env_laws _ _) 3 [Byte.x2a] (-1)
    pending_proxied) as (w1 & w2 & w3 & p & x & rm' & got & H1 & _ & H2 & _ & _ & _ & H3 & _).
  - exact (refused _ _ _ pending_world eq_refl).
  - exists [EvClose 7]. split; [reflexivity|]. constructor; [by eexists|constructor].
  - done.
  - done.
  - done.
  - done.
  - done.
  - done.
  - vm_compute. reflexivity.
  - exists w1, w2, w3. split_and!; [exact H1|exact H2|exact H3].
Defined.
