(* ===== verification/Isolation.v ===== *)
(** Isolation. What a client sends, takes or fails to take reaches no other client:
    the handler of its events leaves all others and the device list as they are.
    The one request that goes further is "RemoveInstance". *)

From S2P Require Import Prelude Exec Mem Utils Proto CStr RemoteId Plist World WorldFacts Socket.
From S2P Require Import Client Remote Teardown Command RemoteProcess Invariant Daemon Demo Wlp.
From S2P Require Import Protocol ProtocolFacts.

(** What client [c] is not linked to, among what there is. *)
Definition foreign `{PL : PlistLib} (c r : ptr) (w : world) : Prop :=
  (r < w_next w)%positive /\ forall cl, w_clients w !! c = Some cl -> c_remote cl <> Some r.

(** Nothing changes but client [c] and the connections of its own. *)
Record confined `{PL : PlistLib} (c : ptr) (w0 w : world) : Prop := {
  conf_clients p : p <> c -> w_clients w !! p = w_clients w0 !! p;
  conf_devices : remote_device_list w = remote_device_list w0;
  conf_remotes r : foreign c r w0 -> foreign c r w /\ w_remotes w !! r = w_remotes w0 !! r }.

Section isolation.
Context `{PL : PlistLib} `{EN : Env}.
Context (c : ptr) (w0 : world).

Definition confines (w w' : world) : Prop := confined c w0 w -> confined c w0 w'.
#[export] Instance confines_preorder : PreOrder confines.
Proof. unfold confines. split; [by intros w H|]. intros w1 w2 w3. auto. Qed.

(** A connection of the client's own. *)
Definition own (r : ptr) : Prop := ~ foreign c r w0.
Definition owned (o : option ptr) : Prop := match o with Some r => own r | None => True end.

(** [m] confines, and its result satisfies [P]. *)
Definition gives {A} (P : A -> Prop) (m : M A) : Prop :=
  forall w, confined c w0 w -> wlp m (fun a w' => confined c w0 w' /\ P a) w.

Lemma gives_preserves {A} (m : M A) P : gives P m -> preserves confines m.
Proof.
  intros H w. apply wlp_intro. intros a w' E Hw.
  by apply (wlp_done _ _ _ _ _ (H w Hw) E).
Qed.
Lemma preserves_gives {A} (m : M A) : preserves confines m -> gives (fun _ => True) m.
Proof. intros H w Hw. wlp_use (apply H). intros a w' H'. split; [by apply H'|done]. Qed.
Lemma gives_ret {A} (P : A -> Prop) a : P a -> gives P (mret a).
Proof. intros H w Hw. by apply wlp_ret. Qed.
Lemma gives_bind {A B} (P : A -> Prop) (Q : B -> Prop) (m : M A) (k : A -> M B) :
  gives P m -> (forall a, P a -> gives Q (k a)) -> gives Q (m ≫= k).
Proof. intros Hm Hk w Hw. apply wlp_bind. wlp_use (by apply Hm). intros a w' [H1 H2]. by apply Hk. Qed.
Lemma gives_after {A B} (Q : B -> Prop) (m : M A) (k : A -> M B) :
  preserves confines m -> (forall a, gives Q (k a)) -> gives Q (m ≫= k).
Proof. intros Hm Hk. eapply gives_bind; [by apply preserves_gives|auto]. Qed.
Lemma confines_bind {A B} (P : A -> Prop) (m : M A) (k : A -> M B) :
  gives P m -> (forall a, P a -> preserves confines (k a)) -> preserves confines (m ≫= k).
Proof.
  intros Hm Hk. eapply gives_preserves, gives_bind; [exact Hm|].
  intros a Ha. by apply preserves_gives, Hk.
Qed.

(** *** Elementary operations *)

Lemma confines_modify f :
  (forall w, w_clients (f w) = w_clients w /\ w_remotes (f w) = w_remotes w /\
     remote_device_list (f w) = remote_device_list w /\ w_next (f w) = w_next w) ->
  preserves confines (modify f).
Proof.
  intros H. apply preserves_modify. intros w [Hc Hd Hr]. destruct (H w) as (E1 & E2 & E3 & E4).
  split; [intros; rewrite E1; auto|congruence|]. unfold foreign in *. rewrite E1, E2, E4. exact Hr.
Qed.
Lemma confines_write_client f :
  (forall cl, c_remote (f cl) = c_remote cl) -> preserves confines (write_client c f).
Proof.
  intros Hf w. apply wlp_write_client. intros cl Hcl [Hc Hd Hr]. split.
  - intros p Hp. cbn. rewrite lookup_insert_ne by done. auto.
  - done.
  - intros r [[Hlt Hl] E]%Hr. split; [split; [done|]|done]. cbn. rewrite lookup_insert_eq.
    intros cl' [= <-]. rewrite Hf. by apply Hl.
Qed.
Lemma confines_set_remote r : own r -> preserves confines (client_set_remote c r).
Proof.
  intros Ho w. apply wlp_write_client. intros cl Hcl [Hc Hd Hr]. split.
  - intros p Hp. cbn. rewrite lookup_insert_ne by done. auto.
  - done.
  - intros q Hq. pose proof (Hr q Hq) as [[Hlt Hl] E]. split; [split; [done|]|done].
    cbn. rewrite lookup_insert_eq. intros cl' [= <-]. cbn. intros [= ->]. by apply Ho.
Qed.
Lemma confines_write_remote r f : own r -> preserves confines (write_remote r f).
Proof.
  intros Ho w. apply wlp_write_remote. intros rm _ [Hc Hd Hr]. split; [done..|].
  intros q Hq. pose proof (Hr q Hq) as [? E]. split; [done|]. cbn.
  rewrite lookup_insert_ne; [done|]. by intros ->.
Qed.
Lemma confines_free_client : preserves confines (free_client c).
Proof.
  intros w. apply wlp_bind, wlp_read_client. intros cl _. apply wlp_modify. intros [Hc Hd Hr]. split.
  - intros p Hp. cbn. rewrite lookup_delete_ne by done. auto.
  - done.
  - intros r [[Hlt _] E]%Hr. split; [split; [done|]|done]. cbn. by rewrite lookup_delete_eq.
Qed.
Lemma confines_free_remote r : own r -> preserves confines (free_remote r).
Proof.
  intros Ho w. apply wlp_bind, wlp_read_remote. intros rm _. apply wlp_modify. intros [Hc Hd Hr].
  split; [done..|]. intros q Hq. pose proof (Hr q Hq) as [? E]. split; [done|]. cbn.
  rewrite lookup_delete_ne; [done|]. by intros ->.
Qed.
(** A new connection is the client's own. *)
Lemma gives_alloc_remote rm : gives own (alloc_remote rm).
Proof.
  intros w [Hc Hd Hr]. apply wlp_bind, wlp_get, wlp_bind, wlp_modify, wlp_ret.
  assert (own (w_next w)) as Ho by (intros [[Hlt _] _]%Hr; lia).
  split; [|done]. split; [done..|]. intros q Hq. pose proof (Hr q Hq) as [[Hlt Hl] E].
  split; [split; [cbn; lia|done]|]. cbn. rewrite lookup_insert_ne; [done|]. intros <-. by apply Ho.
Qed.
(** And so is the one it is linked to. *)
Lemma gives_read_client : gives (fun cl => owned (c_remote cl)) (read_client c).
Proof.
  intros w Hw. apply wlp_read_client. intros cl Hcl. split; [done|].
  destruct (c_remote cl) as [r|] eqn:E; [|done]. intros Hq.
  destruct (conf_remotes _ _ _ Hw r Hq) as [[_ Hl] _]. by destruct (Hl cl Hcl).
Qed.
Hint Extern 1 (preserves confines (modify _)) => (apply confines_modify; done) : preserves.
Hint Extern 1 (preserves confines (write_client _ _)) => (apply confines_write_client; done) : preserves.
Hint Resolve confines_write_remote confines_free_client confines_free_remote confines_set_remote : preserves.

(** *** The functions of a client's handler *)

Lemma confines_remote_close r : own r -> preserves confines (remote_close r).
Proof. intros Ho. preserve. Qed.
Lemma confines_notify_client_close r : own r -> preserves confines (usbmux_remote_notify_client_close r).
Proof. intros Ho. preserve; by apply confines_remote_close. Qed.
Lemma confines_client_close : preserves confines (client_close c).
Proof.
  eapply confines_bind; [apply gives_read_client|]. cbv beta. intros cl.
  destruct (c_remote cl) as [r|]; intros Ho; cbn in Ho; [|preserve].
  pose proof (confines_notify_client_close r Ho). preserve.
Qed.
Lemma confines_send_result tag result : preserves confines (send_result c tag result).
Proof. preserve. Qed.
Lemma confines_send_plist_pkt tag d : preserves confines (send_plist_pkt c tag d).
Proof. preserve. Qed.
Hint Resolve confines_client_close confines_send_result confines_send_plist_pkt : preserves.
Lemma confines_announce devs n : preserves confines (announce c devs n).
Proof. revert n. induction devs as [|d devs IH]; intros n; cbn [announce]; preserve. Qed.
Hint Resolve confines_announce : preserves.

Lemma gives_new_with_fd fd : gives owned (remote_mux_new_with_fd fd).
Proof.
  unfold remote_mux_new_with_fd. do 2 (case_match; [apply gives_after; [preserve|intros ?; by apply gives_ret]|]).
  eapply gives_bind; [apply gives_alloc_remote|]. intros r Hr. by apply gives_ret.
Qed.
Lemma gives_opened fd (k : ptr -> M (option ptr)) :
  (forall r, own r -> gives owned (k r)) ->
  gives owned (if fd <? 0 then mret None
    else r ← remote_mux_new_with_fd fd; match r with Some p => k p | None => mret None end).
Proof.
  intros Hk. case_match; [by apply gives_ret|].
  eapply gives_bind; [apply gives_new_with_fd|]. intros [r|] Ho; [by apply Hk|by apply gives_ret].
Qed.
Lemma gives_new_with_unix_socket path : gives owned (remote_mux_new_with_unix_socket path).
Proof.
  apply gives_after; [preserve|]. intros fd. apply gives_opened. intros r Ho.
  apply gives_after; [preserve|]. intros _. by apply gives_ret.
Qed.
Lemma gives_new_with_host host port : gives owned (remote_mux_new_with_host host port).
Proof.
  apply gives_after; [preserve|]. intros fd. apply gives_opened. intros r Ho.
  do 2 (apply gives_after; [preserve|intros ?]). by apply gives_ret.
Qed.
Lemma gives_connect_like id : gives owned (connect_like id).
Proof.
  intros w Hw. apply wlp_bind. apply (wlp_foreach_break _ _ (confined c w0)); [|by intros w'|done].
  intros w' p Hw'. apply wlp_bind, wlp_read_remote. intros r Hr. case_match; [|by apply wlp_ret].
  apply wlp_bind. wlp_use (by apply gives_new_with_host). intros o w'' []. apply wlp_ret, wlp_ret.
  by destruct o.
Qed.
Lemma gives_connect_for_record id : gives owned (connect_for_record id).
Proof.
  do 2 (apply gives_after; [preserve|intros ?]). cbv zeta. repeat case_match;
    auto using gives_new_with_unix_socket, gives_connect_like.
Qed.
Lemma gives_device_connection id :
  gives owned (if id =? 0 then remote_mux_new_with_unix_socket USBMUXD_RENAMED_SOCKET else connect_like id).
Proof. case_match; auto using gives_new_with_unix_socket, gives_connect_like. Qed.

(** With a connection of its own the rest follows the program. *)
Ltac with_own lem :=
  eapply confines_bind; [apply lem|]; intros [?|] ?; cbn [owned] in *; preserve.
Lemma confines_connect id req : preserves confines (usbmux_remote_connect id req c).
Proof.
  unfold usbmux_remote_connect. cbv zeta. apply preserves_bind; [apply _|preserve|intros _].
  with_own gives_device_connection.
Qed.
Lemma confines_read_buid tag : preserves confines (usbmux_remote_read_buid tag c).
Proof.
  unfold usbmux_remote_read_buid. do 2 (apply preserves_bind; [apply _|preserve|intros ?]). cbv zeta.
  with_own gives_device_connection.
Qed.
Lemma confines_read_pair_record id tag : preserves confines (usbmux_remote_read_pair_record id tag c).
Proof. apply preserves_bind; [apply _|preserve|intros _]. with_own gives_connect_for_record. Qed.
Lemma confines_save_pair_record id req tag : preserves confines (usbmux_remote_save_pair_record id req tag c).
Proof. apply preserves_bind; [apply _|preserve|intros _]. with_own gives_connect_for_record. Qed.
Lemma confines_delete_pair_record id tag : preserves confines (usbmux_remote_delete_pair_record id tag c).
Proof. apply preserves_bind; [apply _|preserve|intros _]. with_own gives_connect_for_record. Qed.
Lemma confines_service_add s h port : preserves confines (remote_mux_service_add s h port).
Proof.
  do 2 (apply preserves_bind; [apply _|preserve|intros ?]). case_match; [preserve|].
  with_own gives_new_with_host.
Qed.
Hint Resolve confines_connect confines_read_buid confines_read_pair_record confines_save_pair_record
  confines_delete_pair_record confines_service_add : preserves.

Lemma gives_nonnull o : owned o -> gives own (nonnull o).
Proof. destruct o as [r|]; [|done]. intros Ho. by apply gives_ret. Qed.
(** The connected client and its connection. *)
Lemma confines_pair (k : mux_client -> ptr -> M unit) :
  (forall cl r, own r -> preserves confines (k cl r)) ->
  preserves confines (cl ← read_client c; r ← nonnull (c_remote cl); k cl r).
Proof.
  intros Hk. eapply confines_bind; [apply gives_read_client|]. cbv beta. intros cl Ho.
  eapply confines_bind; [by apply gives_nonnull|]. auto.
Qed.
Lemma confines_forward_to_remote : preserves confines (forward_to_remote c).
Proof. apply confines_pair. intros cl r Ho. preserve. Qed.
Lemma confines_forward_to_client : preserves confines (forward_to_client c).
Proof. apply confines_pair. intros cl r Ho. preserve. Qed.
Hint Resolve confines_forward_to_remote confines_forward_to_client : preserves.

(** Every message but the one. *)
Lemma confines_plist_command tag dict msg :
  msg <> "RemoveInstance"%string -> preserves confines (plist_command c tag dict msg).
Proof.
  intros Hm. unfold plist_command. cbv zeta.
  rewrite (proj2 (String.eqb_neq msg "RemoveInstance") Hm). preserve.
Qed.

(** ** The one exception *)

(** The property list of the message at the start of an input buffer. *)
Definition message_dict (ib : iobuf) : option plist :=
  match iobuf_read 0 HEADER_SIZE ib with
  | inl raw =>
      match iobuf_read HEADER_SIZE (u32 (h_length (decode_header raw) - HEADER_SIZE)) ib with
      | inl payload => plist_from_xml payload
      | inr _ => None
      end
  | inr _ => None
  end.

(** The client has sent a "RemoveInstance" message that is about to be executed. *)
Definition asks_removal (w : world) : Prop :=
  exists cl dict node, w_clients w !! c = Some cl /\ c_state cl = CLIENT_COMMAND /\
    message_dict (c_ib cl) = Some dict /\ plist_dict_get_item dict "MessageType" = Some node /\
    plist_get_string_val node = Some "RemoveInstance"%string.

(** Only client [c] is concerned, unless it asks for a removal on the way. *)
Definition isolated (w : world) : Prop :=
  confined c w0 w \/ exists w1, confined c w0 w1 /\ asks_removal w1.
Definition isolates {A} (m : M A) : Prop :=
  forall w, confined c w0 w -> wlp m (fun _ => isolated) w.

Lemma confines_isolates {A} (m : M A) : preserves confines m -> isolates m.
Proof. intros H w Hw. wlp_use (apply H). intros _ w' H'. left. by apply H'. Qed.
Lemma isolates_after {A B} (m : M A) (k : A -> M B) :
  preserves confines m -> (forall a, isolates (k a)) -> isolates (m ≫= k).
Proof. intros Hm Hk w Hw. apply wlp_bind. wlp_use (apply Hm). intros a w1 H1. by apply Hk, H1. Qed.
Lemma isolates_before {A B} (m : M A) (k : A -> M B) :
  isolates m -> (forall a, preserves confines (k a)) -> isolates (m ≫= k).
Proof.
  intros Hm Hk w Hw. apply wlp_bind. wlp_use (by apply Hm). intros a w1 [H1|H1]; (wlp_use (apply Hk)).
  - intros _ w' H. left. by apply H.
  - intros _ w' _. by right.
Qed.
Ltac confined_case := apply confines_isolates; [preserve|done].

Lemma client_command_isolates : isolates (client_command c).
Proof.
  intros w Hw. apply wlp_bind, wlp_read_client. intros cl Hcl. apply wlp_bind, wlp_lift. intros raw Hraw.
  cbv zeta. case_bool_decide as Hst; [confined_case|]. destruct (_ && _); [confined_case|].
  destruct (_ =? MESSAGE_PLIST); [|confined_case].
  unfold plist_request. apply wlp_bind. wlp_use (apply (confines_write_client (set_c_proto_version 1)); done).
  intros [] w1 H1. specialize (H1 Hw). apply wlp_bind, wlp_lift. intros payload Hpay.
  destruct (plist_from_xml payload) as [dict|] eqn:Ed; [|confined_case].
  destruct (plist_dict_get_item dict "MessageType") as [node|] eqn:En; [|confined_case].
  case_bool_decide; [confined_case|].
  destruct (plist_get_string_val node) as [msg|] eqn:Em; [|confined_case].
  destruct (decide (msg = "RemoveInstance"%string)) as [->|Hm].
  - apply wlp_intro. intros _ w' _. right. exists w. split; [done|]. exists cl, dict, node.
    split_and!; try done. unfold message_dict. by rewrite Hraw, Hpay.
  - pose proof (confines_plist_command (h_tag (decode_header raw)) dict msg Hm). confined_case.
Qed.
Lemma process_recv_isolates : isolates (process_recv c).
Proof.
  do 2 (apply isolates_after; [preserve|intros ?]).
  case_match; [|by apply confines_isolates; preserve]. case_match.
  apply isolates_after; [preserve|]. intros raw. cbv zeta.
  do 2 (case_match; [by apply confines_isolates; preserve|]).
  apply isolates_after; [preserve|]. intros []; [|by apply confines_isolates; preserve].
  apply isolates_before; [apply client_command_isolates|intros ?; preserve].
Qed.
Lemma process_client_isolates events : isolates (process_client events c).
Proof.
  apply isolates_after; [preserve|]. intros cl.
  case_bool_decide; [by apply confines_isolates; preserve|].
  case_match; [apply process_recv_isolates|by apply confines_isolates; preserve].
Qed.
End isolation.

Section theorems.
Context `{PL : PlistLib}.

Lemma confined_refl c w : confined c w w.
Proof. by split. Qed.

End theorems.

(** *** At a concrete state *)

